(** * Flow routing, runoff, hot start and binary output of EPA SWMM 5.1

    A shallow embedding of the routines of [flowrout.c], [subcatch.c],
    [runoff.c], [hotstart.c] and [output.c] that the properties below are
    about, followed by the properties themselves.  Part I holds the
    programs, the notions the properties are stated with and the data the
    code is run on; Part II holds the lemmas and theorems, one module of
    facts for each module of Part I.

    Conventions of the embedding.
    - A C [double] is an exact rational ([Q]): the arithmetic of the code is
      kept expression by expression, rounding, infinities and NaN are not
      (the hot start reader, whose subject is NaN, works on the IEEE bit
      patterns instead).  The properties of Part II about doubles rest
      on comparisons, clamps and signs, and on values that are passed on
      as they are; none of them is an algebraic identity between two
      differently computed numbers, which rounding would break.
    - An [int] is an integer ([Z]); in [output.c] and [runoff.c], where
      sums and products of ints can leave 32 bits, they are reduced to 32
      bits ([wrap32]).
    - [sp->Node], [sp->Link], [sp->Conduit] are lists indexed by position;
      [Nobjects[NODE]] and [Nobjects[LINK]] are their lengths.  A read at
      an index is a total lookup, a write is [alter], which leaves the list
      alone out of range (the C code has undefined behaviour there).
    - Routines of SWMM that live in other compilation units ([node.c],
      [link.c], [xsect.c], [kinwave.c], [dynwave.c], ...) are members of
      an interface class, one per module. *)

From Stdlib Require Import ZArith QArith Qround Qabs Lqa Lia Bool.
From Stdlib Require Import Strings.Byte.
From stdpp Require Import base list.

(** * Part I: the programs *)

(** ** Comparisons and macros on doubles *)

Definition Qltb (x y : Q) : bool := negb (Qle_bool y x).

(** [macros.h]: MAX(x,y) (((x)>=(y)) ? (x) : (y)) and
    MIN(x,y) (((x)<=(y)) ? (x) : (y)). *)
Definition MAX (x y : Q) : Q := if Qle_bool y x then x else y.
Definition MIN (x y : Q) : Q := if Qle_bool x y then x else y.

(** the cast (int)x of a double: truncation towards zero *)
Definition Qtrunc (x : Q) : Z := Z.quot (Qnum x) (Zpos (Qden x)).

(** * flowrout.c *)

Module Flowrout.

Local Open Scope Q_scope.

(** ** Data model ([objects.h], [enums.h]) *)

Inductive NodeType := JUNCTION | OUTFALL | STORAGE | DIVIDER.
Inductive LinkType := CONDUIT | PUMP | ORIFICE | WEIR | OUTLET.
(** flowrout.c tells DUMMY from every other cross-section shape only *)
Inductive XsectType := DUMMY | SHAPED.
Inductive RouteModelType := NO_ROUTING | SF | KW | EKW | DW.
Inductive FullStateType := NOT_FULL | UP_FULL | DN_FULL | ALL_FULL.

#[global] Instance NodeType_eq_dec : EqDecision NodeType.
Proof. solve_decision. Defined.
#[global] Instance LinkType_eq_dec : EqDecision LinkType.
Proof. solve_decision. Defined.
#[global] Instance XsectType_eq_dec : EqDecision XsectType.
Proof. solve_decision. Defined.
#[global] Instance RouteModelType_eq_dec : EqDecision RouteModelType.
Proof. solve_decision. Defined.

Record TXsect := {
  xs_type : XsectType;
  yFull : Q;
  aFull : Q }.

Record TNode := {
  n_type : NodeType;
  fullDepth : Q;
  fullVolume : Q;
  pondedArea : Q;
  oldVolume : Q;
  newVolume : Q;
  newDepth : Q;
  oldNetInflow : Q;
  inflow : Q;
  outflow : Q;
  losses : Q;
  overflow : Q;
  updated : bool }.

(** fields of a link that share a name with a node field carry [l_] *)
Record TLink := {
  l_type : LinkType;
  subIndex : nat;
  node1 : nat;
  node2 : nat;
  xsect : TXsect;
  offset1 : Q;
  offset2 : Q;
  qFull : Q;
  l_newFlow : Q;
  l_newDepth : Q;
  l_newVolume : Q }.

Record TConduit := {
  barrels : Z;
  beta : Q;
  a1 : Q;
  a2 : Q;
  q1 : Q;
  q2 : Q;
  q1Old : Q;
  q2Old : Q;
  capacityLimited : bool;
  fullState : FullStateType }.

Record Project := {
  ErrorCode : Z;
  AllowPonding : bool;
  Node : list TNode;
  Link : list TLink;
  Conduit : list TConduit }.

#[global] Instance TXsect_inhabited : Inhabited TXsect :=
  populate {| xs_type := DUMMY; yFull := 0; aFull := 0 |}.
#[global] Instance TNode_inhabited : Inhabited TNode :=
  populate {| n_type := JUNCTION; fullDepth := 0; fullVolume := 0;
              pondedArea := 0; oldVolume := 0; newVolume := 0; newDepth := 0;
              oldNetInflow := 0; inflow := 0; outflow := 0; losses := 0;
              overflow := 0; updated := false |}.
#[global] Instance TLink_inhabited : Inhabited TLink :=
  populate {| l_type := CONDUIT; subIndex := 0; node1 := 0; node2 := 0;
              xsect := inhabitant; offset1 := 0; offset2 := 0; qFull := 0;
              l_newFlow := 0; l_newDepth := 0; l_newVolume := 0 |}.
#[global] Instance TConduit_inhabited : Inhabited TConduit :=
  populate {| barrels := 1; beta := 0; a1 := 0; a2 := 0; q1 := 0; q2 := 0;
              q1Old := 0; q2Old := 0; capacityLimited := false;
              fullState := NOT_FULL |}.

(** *** Assignments to one field *)

Definition set_updated (b : bool) (n : TNode) : TNode :=
  {| n_type := n_type n; fullDepth := fullDepth n; fullVolume := fullVolume n;
     pondedArea := pondedArea n; oldVolume := oldVolume n;
     newVolume := newVolume n; newDepth := newDepth n;
     oldNetInflow := oldNetInflow n; inflow := inflow n; outflow := outflow n;
     losses := losses n; overflow := overflow n; updated := b |}.

Definition set_overflow (x : Q) (n : TNode) : TNode :=
  {| n_type := n_type n; fullDepth := fullDepth n; fullVolume := fullVolume n;
     pondedArea := pondedArea n; oldVolume := oldVolume n;
     newVolume := newVolume n; newDepth := newDepth n;
     oldNetInflow := oldNetInflow n; inflow := inflow n; outflow := outflow n;
     losses := losses n; overflow := x; updated := updated n |}.

Definition set_newVolume (x : Q) (n : TNode) : TNode :=
  {| n_type := n_type n; fullDepth := fullDepth n; fullVolume := fullVolume n;
     pondedArea := pondedArea n; oldVolume := oldVolume n;
     newVolume := x; newDepth := newDepth n;
     oldNetInflow := oldNetInflow n; inflow := inflow n; outflow := outflow n;
     losses := losses n; overflow := overflow n; updated := updated n |}.

Definition set_newDepth (x : Q) (n : TNode) : TNode :=
  {| n_type := n_type n; fullDepth := fullDepth n; fullVolume := fullVolume n;
     pondedArea := pondedArea n; oldVolume := oldVolume n;
     newVolume := newVolume n; newDepth := x;
     oldNetInflow := oldNetInflow n; inflow := inflow n; outflow := outflow n;
     losses := losses n; overflow := overflow n; updated := updated n |}.

Definition set_inflow (x : Q) (n : TNode) : TNode :=
  {| n_type := n_type n; fullDepth := fullDepth n; fullVolume := fullVolume n;
     pondedArea := pondedArea n; oldVolume := oldVolume n;
     newVolume := newVolume n; newDepth := newDepth n;
     oldNetInflow := oldNetInflow n; inflow := x; outflow := outflow n;
     losses := losses n; overflow := overflow n; updated := updated n |}.

Definition set_outflow (x : Q) (n : TNode) : TNode :=
  {| n_type := n_type n; fullDepth := fullDepth n; fullVolume := fullVolume n;
     pondedArea := pondedArea n; oldVolume := oldVolume n;
     newVolume := newVolume n; newDepth := newDepth n;
     oldNetInflow := oldNetInflow n; inflow := inflow n; outflow := x;
     losses := losses n; overflow := overflow n; updated := updated n |}.

Definition set_link_state (flow depth volume : Q) (l : TLink) : TLink :=
  {| l_type := l_type l; subIndex := subIndex l; node1 := node1 l;
     node2 := node2 l; xsect := xsect l; offset1 := offset1 l;
     offset2 := offset2 l; qFull := qFull l; l_newFlow := flow;
     l_newDepth := depth; l_newVolume := volume |}.

Definition with_Node (ns : list TNode) (sp : Project) : Project :=
  {| ErrorCode := ErrorCode sp; AllowPonding := AllowPonding sp;
     Node := ns; Link := Link sp; Conduit := Conduit sp |}.

Definition with_Link (ls : list TLink) (sp : Project) : Project :=
  {| ErrorCode := ErrorCode sp; AllowPonding := AllowPonding sp;
     Node := Node sp; Link := ls; Conduit := Conduit sp |}.

Definition with_Conduit (cs : list TConduit) (sp : Project) : Project :=
  {| ErrorCode := ErrorCode sp; AllowPonding := AllowPonding sp;
     Node := Node sp; Link := Link sp; Conduit := cs |}.

(** [sp->Node[i].field = ...], [sp->Link[j].field = ...],
    [sp->Conduit[k].field = ...] *)
Definition upd_node (i : nat) (f : TNode -> TNode) (sp : Project) : Project :=
  with_Node (alter f i (Node sp)) sp.
Definition upd_link (j : nat) (f : TLink -> TLink) (sp : Project) : Project :=
  with_Link (alter f j (Link sp)) sp.
Definition upd_conduit (k : nat) (f : TConduit -> TConduit) (sp : Project)
  : Project :=
  with_Conduit (alter f k (Conduit sp)) sp.

#[global] Arguments upd_node : simpl never.
#[global] Arguments upd_link : simpl never.
#[global] Arguments upd_conduit : simpl never.

Definition set_conduit_flow (a q : Q) (c : TConduit) : TConduit :=
  {| barrels := barrels c; beta := beta c; a1 := a; a2 := a; q1 := q; q2 := q;
     q1Old := q1 c; q2Old := q2 c; capacityLimited := capacityLimited c;
     fullState := fullState c |}.

Definition set_conduit_full (b : bool) (s : FullStateType) (c : TConduit)
  : TConduit :=
  {| barrels := barrels c; beta := beta c; a1 := a1 c; a2 := a2 c;
     q1 := q1 c; q2 := q2 c; q1Old := q1Old c; q2Old := q2Old c;
     capacityLimited := b; fullState := s |}.

(** ** Constants of flowrout.c *)

Definition OMEGA : Q := 0.55.     (* under-relaxation parameter *)
Definition MAXITER : Z := 10.     (* max. iterations for storage updating *)
Definition STOPTOL : Q := 0.005.  (* storage updating stopping tolerance *)

(** ** Routines of other compilation units

    [FUDGE] is a constant of [consts.h]; the functions are those of
    [link.c], [node.c], [xsect.c], [kinwave.c] and [dynwave.c] that
    flowrout.c calls.  They read the project; the bookkeeping some of them
    keep in fields flowrout.c never reads is left out.  [kinwave_execute]
    writes the conduit array only and hands back the adjusted inflow, the
    outflow and its step count. *)
Class Collaborators := {
  FUDGE : Q;
  link_getInflow : Project -> nat -> Q;
  node_getMaxOutflow : Project -> nat -> Q -> Q -> Q;
  node_getDepth : Project -> nat -> Q -> Q;
  link_getLossRate : Project -> nat -> Q -> Q -> Q;
  link_getLength : Project -> nat -> Q;
  xsect_getAofS : Project -> TXsect -> Q -> Q;
  xsect_getYofA : Project -> TXsect -> Q -> Q;
  kinwave_execute : Project -> nat -> Q -> Q -> list TConduit * Q * Q * Z;
  dynwave_execute : Project -> Q -> Project * Z }.

Section Routing.

Context `{Collaborators}.

(** ** getLinkInflow *)

Definition getLinkInflow (sp : Project) (j : nat) (dt : Q) : Q :=
  let n1 := node1 (Link sp !!! j) in
  let q :=
    if bool_decide (l_type (Link sp !!! j) = CONDUIT)
       || bool_decide (l_type (Link sp !!! j) = PUMP)
       || bool_decide (n_type (Node sp !!! n1) = STORAGE)
    then link_getInflow sp j
    else 0 in
  node_getMaxOutflow sp n1 q dt.

(** ** getStorageOutflow

    [getStorageOutflow_from n k outflow] is the [for] loop with [n]
    positions [k, k+1, ...] still to visit; the [break] leaves it. *)
Fixpoint getStorageOutflow_from (sp : Project) (i : nat) (links : list nat)
    (dt : Q) (n k : nat) (outflow : Q) : Q :=
  match n with
  | O => outflow
  | S n' =>
      let m := links !!! k in
      if negb (Nat.eqb (node1 (Link sp !!! m)) i) then outflow
      else getStorageOutflow_from sp i links dt n' (S k)
             (outflow + getLinkInflow sp m dt)
  end.

Definition getStorageOutflow (sp : Project) (i j : nat) (links : list nat)
    (dt : Q) : Q :=
  getStorageOutflow_from sp i links dt (length (Link sp) - j) j 0.

(** ** updateStorageState *)

(** One pass of the body of the [while] loop: the project, and the local
    variables [d1] and [stopped], after it. *)
Definition updateStorageState_pass (sp : Project) (i j : nat)
    (links : list nat) (dt vFixed d1 : Q) : Project * Q * bool :=
  let v2 := vFixed - 0.5 * getStorageOutflow sp i j links dt * dt in
  let v2 := MAX 0 v2 in
  let sp := upd_node i (set_overflow 0) sp in
  let '(sp, v2) :=
    if Qltb (fullVolume (Node sp !!! i)) v2 then
      let sp :=
        upd_node i (set_overflow
          ((v2 - MAX (oldVolume (Node sp !!! i)) (fullVolume (Node sp !!! i)))
           / dt)) sp in
      let sp :=
        if Qltb (overflow (Node sp !!! i)) FUDGE
        then upd_node i (set_overflow 0) sp else sp in
      if negb (AllowPonding sp) || Qeq_bool (pondedArea (Node sp !!! i)) 0
      then (sp, fullVolume (Node sp !!! i))
      else (sp, v2)
    else (sp, v2) in
  let sp := upd_node i (set_newVolume v2) sp in
  let d2 := node_getDepth sp i v2 in
  let sp := upd_node i (set_newDepth d2) sp in
  let d2 := (1 - OMEGA) * d1 + OMEGA * d2 in
  let stopped := Qle_bool (Qabs (d2 - d1)) STOPTOL in
  let sp := upd_node i (set_newDepth d2) sp in
  (sp, d2, stopped).

(** The [while ( iter < MAXITER && !stopped )] loop; [fuel] bounds the
    number of passes the recursion may take.  The result carries the loop
    variables [d1], [iter] and [stopped] at exit. *)
Fixpoint updateStorageState_loop (fuel : nat) (sp : Project) (i j : nat)
    (links : list nat) (dt vFixed d1 : Q) (iter : Z) (stopped : bool)
    : Project * Q * Z * bool :=
  match fuel with
  | O => (sp, d1, iter, stopped)
  | S fuel' =>
      if (iter <? MAXITER)%Z && negb stopped then
        let '(sp, d2, stopped) :=
          updateStorageState_pass sp i j links dt vFixed d1 in
        updateStorageState_loop fuel' sp i j links dt vFixed d2 (iter + 1)
          stopped
      else (sp, d1, iter, stopped)
  end.

Definition updateStorageState (sp : Project) (i j : nat) (links : list nat)
    (dt : Q) : Project :=
  if negb (bool_decide (n_type (Node sp !!! i) = STORAGE)) then sp
  else if updated (Node sp !!! i) then sp
  else
    let vFixed :=
      oldVolume (Node sp !!! i)
      + 0.5 * (oldNetInflow (Node sp !!! i) + inflow (Node sp !!! i)
               - outflow (Node sp !!! i)) * dt in
    let d1 := newDepth (Node sp !!! i) in
    let '(sp, _, _, _) :=
      updateStorageState_loop (Z.to_nat MAXITER) sp i j links dt vFixed d1 1
        false in
    upd_node i (set_updated true) sp.

(** ** setNewNodeState

    The terminal storage call passes [links = NULL] and
    [j = Nobjects[LINK]]: the empty list and the length of [Link]. *)
Definition setNewNodeState (sp : Project) (j : nat) (dt : Q) : Project :=
  if bool_decide (n_type (Node sp !!! j) = STORAGE) then
    if negb (updated (Node sp !!! j))
    then updateStorageState sp j (length (Link sp)) [] dt
    else sp
  else
    let newNetInflow :=
      inflow (Node sp !!! j) - outflow (Node sp !!! j)
      - losses (Node sp !!! j) in
    let sp :=
      upd_node j (set_newVolume
        (oldVolume (Node sp !!! j)
         + 0.5 * (oldNetInflow (Node sp !!! j) + newNetInflow) * dt)) sp in
    let sp :=
      if Qltb (newVolume (Node sp !!! j)) FUDGE
      then upd_node j (set_newVolume 0) sp else sp in
    let sp := upd_node j (set_overflow 0) sp in
    let canPond :=
      AllowPonding sp && Qltb 0 (pondedArea (Node sp !!! j)) in
    let sp :=
      if Qltb (fullVolume (Node sp !!! j)) (newVolume (Node sp !!! j)) then
        let sp :=
          upd_node j (set_overflow
            ((newVolume (Node sp !!! j)
              - MAX (oldVolume (Node sp !!! j)) (fullVolume (Node sp !!! j)))
             / dt)) sp in
        let sp :=
          if Qltb (overflow (Node sp !!! j)) FUDGE
          then upd_node j (set_overflow 0) sp else sp in
        if negb canPond
        then upd_node j (set_newVolume (fullVolume (Node sp !!! j))) sp
        else sp
      else sp in
    upd_node j (set_newDepth
      (node_getDepth sp j (newVolume (Node sp !!! j)))) sp.

(** ** updateNodeDepth *)

Definition updateNodeDepth (sp : Project) (i : nat) (y : Q) : Project :=
  if bool_decide (n_type (Node sp !!! i) = STORAGE) then sp
  else
    let y :=
      if negb (bool_decide (n_type (Node sp !!! i) = OUTFALL))
         && Qltb 0 (overflow (Node sp !!! i))
      then fullDepth (Node sp !!! i) else y in
    if Qltb (newDepth (Node sp !!! i)) y then
      let sp := upd_node i (set_newDepth y) sp in
      if Qltb 0 (fullDepth (Node sp !!! i))
         && Qltb (fullDepth (Node sp !!! i)) y
      then upd_node i (set_newDepth (fullDepth (Node sp !!! i))) sp
      else sp
    else sp.

(** ** setNewLinkState *)

Definition setNewLinkState (sp : Project) (j : nat) : Project :=
  let sp :=
    upd_link j (fun l => set_link_state (l_newFlow l) 0 0 l) sp in
  if bool_decide (l_type (Link sp !!! j) = CONDUIT) then
    let k := subIndex (Link sp !!! j) in
    let a := 0.5 * (a1 (Conduit sp !!! k) + a2 (Conduit sp !!! k)) in
    let sp :=
      upd_link j (fun l => set_link_state (l_newFlow l) (l_newDepth l)
        (a * link_getLength sp j * inject_Z (barrels (Conduit sp !!! k))) l)
        sp in
    let y1 := xsect_getYofA sp (xsect (Link sp !!! j)) (a1 (Conduit sp !!! k)) in
    let y2 := xsect_getYofA sp (xsect (Link sp !!! j)) (a2 (Conduit sp !!! k)) in
    let sp :=
      upd_link j (fun l => set_link_state (l_newFlow l) (0.5 * (y1 + y2))
        (l_newVolume l) l) sp in
    let sp :=
      updateNodeDepth sp (node1 (Link sp !!! j))
        (y1 + offset1 (Link sp !!! j)) in
    let sp :=
      updateNodeDepth sp (node2 (Link sp !!! j))
        (y2 + offset2 (Link sp !!! j)) in
    if Qle_bool (aFull (xsect (Link sp !!! j))) (a1 (Conduit sp !!! k))
    then upd_conduit k (set_conduit_full true ALL_FULL) sp
    else upd_conduit k (set_conduit_full false NOT_FULL) sp
  else sp.

(** ** steadyflow_execute

    The result is the project, [*qin] and [*qout] after the call, and the
    returned value. *)
Definition steadyflow_execute (sp : Project) (j : nat) (qin tStep : Q)
    : Project * Q * Q * Z :=
  if bool_decide (l_type (Link sp !!! j) = CONDUIT) then
    let k := subIndex (Link sp !!! j) in
    let q := qin / inject_Z (barrels (Conduit sp !!! k)) in
    let '(a, q, qin) :=
      if bool_decide (xs_type (xsect (Link sp !!! j)) = DUMMY)
      then (0, q, qin)
      else
        let q := q - link_getLossRate sp j q tStep in
        let q := if Qltb q 0 then 0 else q in
        if Qltb (qFull (Link sp !!! j)) q then
          let q := qFull (Link sp !!! j) in
          (aFull (xsect (Link sp !!! j)), q,
           q * inject_Z (barrels (Conduit sp !!! k)))
        else
          let s := q / beta (Conduit sp !!! k) in
          (xsect_getAofS sp (xsect (Link sp !!! j)) s, q, qin) in
    let sp := upd_conduit k (set_conduit_flow a q) sp in
    (sp, qin, q * inject_Z (barrels (Conduit sp !!! k)), 1%Z)
  else (sp, qin, qin, 1%Z).

(** ** flowrout_execute *)

(** the first loop: clear the visit mark and drain ponded water *)
Definition resetNode (tStep : Q) (n : TNode) : TNode :=
  let n := set_updated false n in
  let n := set_overflow 0 n in
  if negb (bool_decide (n_type n = STORAGE))
     && Qltb (fullVolume n) (newVolume n)
  then set_overflow ((newVolume n - fullVolume n) / tStep) n
  else n.

(** the body of the loop over the topo-sorted links, at position [i] *)
Definition routeLink (links : list nat) (routingModel : RouteModelType)
    (tStep : Q) (st : Project * Q) (i : nat) : Project * Q :=
  let '(sp, steps) := st in
  let j := links !!! i in
  let n1 := node1 (Link sp !!! j) in
  let sp :=
    if bool_decide (n_type (Node sp !!! n1) = STORAGE)
    then updateStorageState sp n1 i links tStep else sp in
  let qin := getLinkInflow sp j tStep in
  let '(sp, qin, qout, n) :=
    if bool_decide (routingModel = SF)
    then steadyflow_execute sp j qin tStep
    else
      let '(cs, qin, qout, n) := kinwave_execute sp j qin tStep in
      (with_Conduit cs sp, qin, qout, n) in
  let steps := steps + inject_Z n in
  let sp :=
    upd_link j (fun l => set_link_state qout (l_newDepth l) (l_newVolume l) l)
      sp in
  let sp :=
    upd_node (node1 (Link sp !!! j))
      (fun n => set_outflow (outflow n + qin) n) sp in
  let sp :=
    upd_node (node2 (Link sp !!! j))
      (fun n => set_inflow (inflow n + qout) n) sp in
  (sp, steps).

Definition flowrout_execute (sp : Project) (links : list nat)
    (routingModel : RouteModelType) (tStep : Q) : Project * Z :=
  if negb (ErrorCode sp =? 0)%Z then (sp, 0%Z)
  else
    let sp :=
      foldl (fun sp j => upd_node j (resetNode tStep) sp) sp
        (seq 0 (length (Node sp))) in
    if bool_decide (routingModel = DW) then dynwave_execute sp tStep
    else
      let '(sp, steps) :=
        foldl (routeLink links routingModel tStep) (sp, 0)
          (seq 0 (length (Link sp))) in
      let steps :=
        if (0 <? length (Link sp))%nat
        then steps / inject_Z (Z.of_nat (length (Link sp))) else steps in
      let sp :=
        foldl (fun sp j => setNewNodeState sp j tStep) sp
          (seq 0 (length (Node sp))) in
      let sp :=
        foldl (fun sp j => setNewLinkState sp j) sp
          (seq 0 (length (Link sp))) in
      (sp, Qtrunc (steps + 0.5)).

(** ** Frame of the node updates

    [touches i sp sp'] : [sp'] differs from [sp] at most in the state of
    node [i], which keeps its type and full volume; its visit mark is
    never cleared, and is left alone on a node that is no storage unit. *)
Record touches (i : nat) (sp sp' : Project) : Prop := {
  t_Link : Link sp' = Link sp;
  t_Conduit : Conduit sp' = Conduit sp;
  t_AllowPonding : AllowPonding sp' = AllowPonding sp;
  t_length : length (Node sp') = length (Node sp);
  t_other : forall k, k <> i -> Node sp' !! k = Node sp !! k;
  t_type : n_type (Node sp' !!! i) = n_type (Node sp !!! i);
  t_fullVolume : fullVolume (Node sp' !!! i) = fullVolume (Node sp !!! i);
  t_mark : updated (Node sp !!! i) = true -> updated (Node sp' !!! i) = true;
  t_mark_ns : n_type (Node sp !!! i) <> STORAGE ->
              updated (Node sp' !!! i) = updated (Node sp !!! i) }.

(** an assignment to a field other than the type, the full volume and the
    visit mark *)
Definition keeps_identity (f : TNode -> TNode) : Prop :=
  forall n, n_type (f n) = n_type n /\ fullVolume (f n) = fullVolume n
            /\ updated (f n) = updated n.

(** the overflow rate and the stored volume of a node are not negative *)
Definition nonneg_state (n : TNode) : Prop := 0 <= overflow n /\ 0 <= newVolume n.

(** ** What one routing step may do to a node

    [node_step n n'] relates the state of a node at two moments of the
    part of [flowrout_execute] that follows the reset of the marks. *)
Definition node_step (n n' : TNode) : Prop :=
  n_type n' = n_type n
  /\ fullVolume n' = fullVolume n
  /\ (n_type n <> STORAGE -> updated n' = updated n)
  /\ (updated n = true -> updated n' = true)
  /\ (n_type n = STORAGE -> updated n = true ->
      overflow n' = overflow n /\ newVolume n' = newVolume n)
  /\ (n_type n = STORAGE -> updated n = false -> updated n' = true ->
      0 <= FUDGE -> 0 <= fullVolume n -> nonneg_state n').

(** the overflow rate and the volume are left alone *)
Definition keeps_volumes (n n' : TNode) : Prop :=
  n_type n' = n_type n /\ overflow n' = overflow n
  /\ newVolume n' = newVolume n.

(** ** The outflow sum of a storage node *)

(** the inflows of the links [ms], added up in order onto [acc] *)
Definition inflow_sum (sp : Project) (dt : Q) (ms : list nat) (acc : Q) : Q :=
  foldl (fun acc m => acc + getLinkInflow sp m dt) acc ms.

(** the links of the array whose upstream node is [i] *)
Definition links_from (sp : Project) (i : nat) (links : list nat) : list nat :=
  filter (fun m => node1 (Link sp !!! m) = i) links.

(** ** The iterates of the storage update

    the project, the depth [d1] and the flag [stopped] when the body of
    the loop of [updateStorageState] has been run [n] times from the
    project [sp] and the depth [d1] *)
Fixpoint updateStorageState_passes (n : nat) (sp : Project) (i j : nat)
    (links : list nat) (dt vFixed d1 : Q) : Project * Q * bool :=
  match n with
  | O => (sp, d1, false)
  | S n' =>
      let '(sp, d1, _) :=
        updateStorageState_passes n' sp i j links dt vFixed d1 in
      updateStorageState_pass sp i j links dt vFixed d1
  end.

End Routing.

(** ** Networks to run the code on *)

(** Collaborators with simple laws: a link draws 1 cfs from its upstream
    node, a node releases what is asked of it and has 100 ft2 of surface,
    conduits lose nothing, and the kinematic-wave and dynamic-wave solvers
    pass everything through. *)
Definition ideal : Collaborators := {|
  FUDGE := 0.0001;
  link_getInflow := fun _ _ => 1;
  node_getMaxOutflow := fun _ _ q _ => q;
  node_getDepth := fun _ _ v => v / 100;
  link_getLossRate := fun _ _ _ _ => 0;
  link_getLength := fun _ _ => 100;
  xsect_getAofS := fun _ _ s => s;
  xsect_getYofA := fun _ _ a => a;
  kinwave_execute := fun sp _ qin _ => (Conduit sp, qin, qin, 1%Z);
  dynwave_execute := fun sp _ => (sp, 1%Z) |}.

Definition mkNode (t : NodeType) (vFull vOld : Q) : TNode :=
  {| n_type := t; fullDepth := vFull / 100; fullVolume := vFull;
     pondedArea := 0; oldVolume := vOld; newVolume := vOld;
     newDepth := 0; oldNetInflow := 0; inflow := 0; outflow := 0;
     losses := 0; overflow := 0; updated := false |}.

Definition mkConduitLink (k n1 n2 : nat) : TLink :=
  {| l_type := CONDUIT; subIndex := k; node1 := n1; node2 := n2;
     xsect := {| xs_type := SHAPED; yFull := 2; aFull := 3 |};
     offset1 := 0; offset2 := 0; qFull := 10;
     l_newFlow := 0; l_newDepth := 0; l_newVolume := 0 |}.

Definition mkConduit : TConduit :=
  {| barrels := 1; beta := 2; a1 := 0; a2 := 0; q1 := 0; q2 := 0;
     q1Old := 0; q2Old := 0; capacityLimited := false;
     fullState := NOT_FULL |}.

(** one junction, no link *)
Definition net_junction : Project :=
  {| ErrorCode := 0; AllowPonding := false;
     Node := [mkNode JUNCTION 50 0]; Link := []; Conduit := [] |}.

(** a storage unit of 2000 ft3 holding 1000 ft3 at zero depth, no link *)
Definition net_pond : Project :=
  {| ErrorCode := 0; AllowPonding := false;
     Node := [mkNode STORAGE 2000 1000]; Link := []; Conduit := [] |}.

(** a storage unit (node 0) and a junction (node 1), both draining to an
    outfall (node 2); the storage unit has the outlets 0 and 2, the
    junction the conduit 1 *)
Definition net_split : Project :=
  {| ErrorCode := 0; AllowPonding := false;
     Node := [mkNode STORAGE 2000 1000; mkNode JUNCTION 50 0;
              mkNode OUTFALL 0 0];
     Link := [mkConduitLink 0 0 2; mkConduitLink 1 1 2; mkConduitLink 2 0 2];
     Conduit := [mkConduit; mkConduit; mkConduit] |}.

End Flowrout.

(** * flowrout.c: the initial state *)

Module FlowroutInit.

Local Open Scope Q_scope.

(** ** Data model

    The fields of a node and a link that [initLinkDepths] and [initNodes]
    read or write. *)

Inductive LinkType := CONDUIT | PUMP | ORIFICE | WEIR | OUTLET.

#[global] Instance LinkType_eq_dec : EqDecision LinkType.
Proof. solve_decision. Defined.

Record TNode := {
  fullDepth : Q;
  fullVolume : Q;
  pondedArea : Q;
  newLatFlow : Q;
  newDepth : Q;
  newVolume : Q;
  inflow : Q;
  outflow : Q }.

(** fields of a link that share a name with a node field carry [l_];
    [yFull] is [xsect.yFull] *)
Record TLink := {
  l_type : LinkType;
  node1 : nat;
  node2 : nat;
  offset1 : Q;
  offset2 : Q;
  yFull : Q;
  q0 : Q;
  l_newDepth : Q;
  newFlow : Q }.

Record Project := {
  AllowPonding : bool;
  Node : list TNode;
  Link : list TLink }.

#[global] Instance TNode_inhabited : Inhabited TNode :=
  populate {| fullDepth := 0; fullVolume := 0; pondedArea := 0;
              newLatFlow := 0; newDepth := 0; newVolume := 0; inflow := 0;
              outflow := 0 |}.
#[global] Instance TLink_inhabited : Inhabited TLink :=
  populate {| l_type := CONDUIT; node1 := 0; node2 := 0; offset1 := 0;
              offset2 := 0; yFull := 0; q0 := 0; l_newDepth := 0;
              newFlow := 0 |}.

Definition set_flows (qin qout : Q) (n : TNode) : TNode :=
  {| fullDepth := fullDepth n; fullVolume := fullVolume n;
     pondedArea := pondedArea n; newLatFlow := newLatFlow n;
     newDepth := newDepth n; newVolume := newVolume n;
     inflow := qin; outflow := qout |}.

Definition set_newVolume (v : Q) (n : TNode) : TNode :=
  {| fullDepth := fullDepth n; fullVolume := fullVolume n;
     pondedArea := pondedArea n; newLatFlow := newLatFlow n;
     newDepth := newDepth n; newVolume := v;
     inflow := inflow n; outflow := outflow n |}.

Definition set_l_newDepth (y : Q) (l : TLink) : TLink :=
  {| l_type := l_type l; node1 := node1 l; node2 := node2 l;
     offset1 := offset1 l; offset2 := offset2 l; yFull := yFull l;
     q0 := q0 l; l_newDepth := y; newFlow := newFlow l |}.

(** [sp->Node[i].field = ...] and [sp->Link[i].field = ...] *)
Definition upd_node (i : nat) (f : TNode -> TNode) (sp : Project) : Project :=
  {| AllowPonding := AllowPonding sp; Node := alter f i (Node sp);
     Link := Link sp |}.
Definition upd_link (i : nat) (f : TLink -> TLink) (sp : Project) : Project :=
  {| AllowPonding := AllowPonding sp; Node := Node sp;
     Link := alter f i (Link sp) |}.

(** [FUDGE] is a constant of [consts.h], [node_getVolume] a routine of
    [node.c] *)
Class Collaborators := {
  FUDGE : Q;
  node_getVolume : Project -> nat -> Q -> Q }.

Section Init.

Context `{Collaborators}.

(** ** initLinkDepths *)
Definition initLinkDepths (sp : Project) : Project :=
  foldl (fun sp i =>
    if bool_decide (l_type (Link sp !!! i) = CONDUIT) then
      if negb (Qeq_bool (q0 (Link sp !!! i)) 0) then sp
      else
        let y1 :=
          newDepth (Node sp !!! node1 (Link sp !!! i))
          - offset1 (Link sp !!! i) in
        let y1 := MAX y1 0 in
        let y1 := MIN y1 (yFull (Link sp !!! i)) in
        let y2 :=
          newDepth (Node sp !!! node2 (Link sp !!! i))
          - offset2 (Link sp !!! i) in
        let y2 := MAX y2 0 in
        let y2 := MIN y2 (yFull (Link sp !!! i)) in
        let y := 0.5 * (y1 + y2) in
        let y := MAX y FUDGE in
        upd_link i (set_l_newDepth y) sp
    else sp)
    sp (seq 0 (length (Link sp))).

(** ** initNodes *)
Definition initNodes (sp : Project) : Project :=
  let sp :=
    foldl (fun sp i =>
      let sp := upd_node i (fun n => set_flows (newLatFlow n) 0 n) sp in
      let sp := upd_node i (set_newVolume 0) sp in
      if AllowPonding sp
         && Qltb 0 (pondedArea (Node sp !!! i))
         && Qltb (fullDepth (Node sp !!! i)) (newDepth (Node sp !!! i))
      then
        upd_node i (fun n =>
          set_newVolume
            (fullVolume n + (newDepth n - fullDepth n) * pondedArea n) n) sp
      else
        upd_node i
          (set_newVolume (node_getVolume sp i (newDepth (Node sp !!! i)))) sp)
      sp (seq 0 (length (Node sp))) in
  foldl (fun sp i =>
    let q := newFlow (Link sp !!! i) in
    if Qle_bool 0 q then
      let sp :=
        upd_node (node1 (Link sp !!! i))
          (fun n => set_flows (inflow n) (outflow n + q) n) sp in
      upd_node (node2 (Link sp !!! i))
        (fun n => set_flows (inflow n + q) (outflow n) n) sp
    else
      let sp :=
        upd_node (node1 (Link sp !!! i))
          (fun n => set_flows (inflow n - q) (outflow n) n) sp in
      upd_node (node2 (Link sp !!! i))
        (fun n => set_flows (inflow n) (outflow n - q) n) sp)
    sp (seq 0 (length (Link sp))).

End Init.

(** ** A network to run the code on

    Two junctions, 1 ft and 3 ft deep, with lateral inflows of 2 and 5
    cfs, joined by a conduit of 2 ft that carries 4 cfs from the second
    to the first (a negative flow). *)
Definition linear : Collaborators :=
  {| FUDGE := 0.0001; node_getVolume := fun _ _ y => 100 * y |}.

Definition pair : Project :=
  {| AllowPonding := false;
     Node := [ {| fullDepth := 4; fullVolume := 400; pondedArea := 0;
                  newLatFlow := 2; newDepth := 1; newVolume := 0;
                  inflow := 0; outflow := 0 |};
               {| fullDepth := 4; fullVolume := 400; pondedArea := 0;
                  newLatFlow := 5; newDepth := 3; newVolume := 0;
                  inflow := 0; outflow := 0 |} ];
     Link := [ {| l_type := CONDUIT; node1 := 0; node2 := 1; offset1 := 0;
                  offset2 := 0; yFull := 2; q0 := 0; l_newDepth := 0;
                  newFlow := -4 |} ] |}.

End FlowroutInit.

(** * output.c *)

Module Output.

(** ** Values and streams

    A REAL4 and a REAL8 are kept as their object representation, the 4 and
    8 bytes that [fwrite] copies to the stream and [fread] copies back. *)

Record REAL4 := mkREAL4 { r4_b0 : byte; r4_b1 : byte; r4_b2 : byte; r4_b3 : byte }.
Record REAL8 := mkREAL8 { r8_lo : REAL4; r8_hi : REAL4 }.

Definition REAL4_bytes (x : REAL4) : list byte :=
  [r4_b0 x; r4_b1 x; r4_b2 x; r4_b3 x].
Definition REAL8_bytes (x : REAL8) : list byte :=
  REAL4_bytes (r8_lo x) ++ REAL4_bytes (r8_hi x).

(** an array of REAL4, by index *)
Definition REAL4_array := nat -> REAL4.

(** the bytes of the first [n] elements of an array *)
Definition array_bytes (x : REAL4_array) (n : nat) : list byte :=
  flat_map (fun i => REAL4_bytes (x i)) (seq 0 n).

(** an INT4 holds the value of a C expression modulo 2^32 *)
Definition wrap32 (z : Z) : Z := ((z + 2 ^ 31) mod 2 ^ 32 - 2 ^ 31)%Z.

(** the 4 bytes of an INT4, the low byte first *)
Definition INT4_bytes (z : Z) : list byte :=
  map (fun k => default x00 (Byte.of_N (Z.to_N ((z / 256 ^ k) mod 256))))
    [0; 1; 2; 3]%Z.

(** [consts.h] *)
Definition MAXFILESIZE : Z := 2147483647.

(** A binary stream opened for update: its bytes and the file position. *)
Record TFile := { contents : list byte; fpos : nat }.

(** [fwrite]: the bytes go to the file position, over what is there, after
    a gap of zero bytes when the position lies beyond the end. *)
Definition fwrite (data : list byte) (f : TFile) : TFile :=
  {| contents :=
       take (fpos f) (contents f)
       ++ replicate (fpos f - length (contents f)) x00
       ++ data ++ drop (fpos f + length data) (contents f);
     fpos := fpos f + length data |}.

(** [fseek(file, offset, SEEK_SET)]: fails, leaving the position, on a
    negative offset. *)
Definition fseek (offset : Z) (f : TFile) : TFile :=
  if (offset <? 0)%Z then f
  else {| contents := contents f; fpos := Z.to_nat offset |}.

(** the complete REAL4 items, [n] at most, at the head of [bytes] *)
Fixpoint REAL4_items (n : nat) (bytes : list byte) : list REAL4 :=
  match n, bytes with
  | S n', a :: b :: c :: d :: rest => mkREAL4 a b c d :: REAL4_items n' rest
  | _, _ => []
  end.

Definition REAL8_item (bytes : list byte) : option REAL8 :=
  match bytes with
  | a :: b :: c :: d :: e :: f :: g :: h :: _ =>
      Some (mkREAL8 (mkREAL4 a b c d) (mkREAL4 e f g h))
  | _ => None
  end.

(** [fread(x, sizeof(REAL4), n, file)]: the items read, and the stream
    after the read. *)
Definition fread_REAL4 (n : nat) (f : TFile) : list REAL4 * TFile :=
  (REAL4_items n (drop (fpos f) (contents f)),
   {| contents := contents f;
      fpos := fpos f + Nat.min (4 * n) (length (contents f) - fpos f) |}).

Definition fread_REAL8 (f : TFile) : option REAL8 * TFile :=
  (REAL8_item (drop (fpos f) (contents f)),
   {| contents := contents f;
      fpos := fpos f + Nat.min 8 (length (contents f) - fpos f) |}).

(** ** Constants of [enums.h] *)

(** Modelled from the spec: [enums.h] is not among the sources; section 4.9
    of the specification gives NsubcatchResults = 8 + NumPolluts,
    NnodeResults = 6 + NumPolluts and NlinkResults = 5 + NumPolluts, where
    the code has MAX_..._RESULTS - 1 + NumPolluts. *)
Definition MAX_SUBCATCH_RESULTS : Z := 9.
Definition MAX_NODE_RESULTS : Z := 7.
Definition MAX_LINK_RESULTS : Z := 6.

(** ** The project, as output.c sees it *)

Record TOutputShared := {
  NumSubcatch : Z;
  NsubcatchResults : Z;
  NumNodes : Z;
  NnodeResults : Z;
  NumLinks : Z;
  NlinkResults : Z;
  NumPolluts : Z;
  BytesPerPeriod : Z;
  OutputStartPos : Z }.

(** ** Routines of other compilation units

    [Sim] stands for the part of the project that output.c reads through
    other modules: the state of the subcatchments, nodes and links, the
    clocks, the mass balance totals.  [getDateTime] (swmm5.c) turns
    elapsed milliseconds into a date; [REAL8_of] is the representation of a
    double; [subcatch_getResults] (subcatch.c), [node_getResults] (node.c)
    and [link_getResults] (link.c) fill a result array for object [j] and
    weight [f]; [SysResults_of] is the content of the system-wide array
    when it is written (sums of REAL4 values that output.c accumulates
    while it writes the other arrays); [header] is what [output_open]
    writes before the first period; [MAX_SYS_RESULTS] and [ERR_OUT_FILE]
    are constants of [enums.h] and [error.h]. *)
Class Collaborators := {
  Sim : Type;
  MAX_SYS_RESULTS : nat;
  ERR_OUT_FILE : Z;
  getDateTime : Sim -> Q -> Q;
  REAL8_of : Q -> REAL8;
  OldRunoffTime : Sim -> Q;
  NewRunoffTime : Sim -> Q;
  OldRoutingTime : Sim -> Q;
  NewRoutingTime : Sim -> Q;
  subcatch_getResults : Sim -> nat -> Q -> REAL4_array;
  node_getResults : Sim -> nat -> Q -> REAL4_array;
  link_getResults : Sim -> nat -> Q -> REAL4_array;
  SysResults_of : Sim -> Q -> REAL4_array;
  header : Sim -> list byte }.

Section Stream.

Context `{Collaborators}.

Local Open Scope Z_scope.

(** [Subcatch], [Node] and [Link] hold the [rptFlag] of each object. *)
Record Project := {
  sim : Sim;
  ErrorCode : Z;
  IgnoreQuality : bool;
  Npollut : nat;
  Subcatch : list bool;
  Node : list bool;
  Link : list bool;
  ReportStart : Q;
  Nperiods : Z;
  Fout : TFile;
  OutputShared : TOutputShared }.

Definition with_sim (w : Sim) (sp : Project) : Project :=
  {| sim := w; ErrorCode := ErrorCode sp; IgnoreQuality := IgnoreQuality sp;
     Npollut := Npollut sp; Subcatch := Subcatch sp; Node := Node sp;
     Link := Link sp; ReportStart := ReportStart sp; Nperiods := Nperiods sp;
     Fout := Fout sp; OutputShared := OutputShared sp |}.

Definition with_Fout (f : TFile) (sp : Project) : Project :=
  {| sim := sim sp; ErrorCode := ErrorCode sp;
     IgnoreQuality := IgnoreQuality sp; Npollut := Npollut sp;
     Subcatch := Subcatch sp; Node := Node sp; Link := Link sp;
     ReportStart := ReportStart sp; Nperiods := Nperiods sp; Fout := f;
     OutputShared := OutputShared sp |}.

(** ** output_open

    [fopen_ok] tells whether [output_openOutFile] could open the file.
    The failure of an allocation or of a write, and the size check of a
    scratch file ([output_checkFileSize], which reports ERR_FILE_SIZE when
    the stream is going to exceed MAXFILESIZE), are left out. *)

(** [for (j...) if (rptFlag) n++] *)
Definition count_rptFlag (flags : list bool) : Z :=
  foldl (fun n (b : bool) => if b then n + 1 else n) 0 flags.

Definition output_open (fopen_ok : bool) (sp : Project) : Project :=
  if negb fopen_ok then
    {| sim := sim sp; ErrorCode := ERR_OUT_FILE;
       IgnoreQuality := IgnoreQuality sp; Npollut := Npollut sp;
       Subcatch := Subcatch sp; Node := Node sp; Link := Link sp;
       ReportStart := ReportStart sp; Nperiods := Nperiods sp;
       Fout := Fout sp; OutputShared := OutputShared sp |}
  else
    let numPolluts :=
      if IgnoreQuality sp then 0 else Z.of_nat (Npollut sp) in
    let nsubcatchResults := MAX_SUBCATCH_RESULTS - 1 + numPolluts in
    let nnodeResults := MAX_NODE_RESULTS - 1 + numPolluts in
    let nlinkResults := MAX_LINK_RESULTS - 1 + numPolluts in
    let numSubcatch := count_rptFlag (Subcatch sp) in
    let numNodes := count_rptFlag (Node sp) in
    let numLinks := count_rptFlag (Link sp) in
    let bytesPerPeriod :=
      wrap32 (8 + numSubcatch * nsubcatchResults * 4
              + numNodes * nnodeResults * 4
              + numLinks * nlinkResults * 4
              + Z.of_nat MAX_SYS_RESULTS * 4) in
    let file := fwrite (header (sim sp)) {| contents := []; fpos := 0%nat |} in
    {| sim := sim sp; ErrorCode := ErrorCode sp;
       IgnoreQuality := IgnoreQuality sp; Npollut := Npollut sp;
       Subcatch := Subcatch sp; Node := Node sp; Link := Link sp;
       ReportStart := ReportStart sp; Nperiods := 0; Fout := file;
       OutputShared :=
         {| NumSubcatch := numSubcatch; NsubcatchResults := nsubcatchResults;
            NumNodes := numNodes; NnodeResults := nnodeResults;
            NumLinks := numLinks; NlinkResults := nlinkResults;
            NumPolluts := numPolluts; BytesPerPeriod := bytesPerPeriod;
            OutputStartPos := wrap32 (Z.of_nat (fpos file)) |} |}.

(** ** output_saveResults *)

(** the loop shared by [output_saveSubcatchResults],
    [output_saveNodeResults] and [output_saveLinkResults]: the array of
    every object is computed, that of a reported object is written *)
Definition save_objects (flags : list bool) (results : nat -> REAL4_array)
    (n : Z) (file : TFile) : TFile :=
  foldl (fun (file : TFile) (j : nat) =>
           let x := results j in
           let rptFlag : bool := flags !!! j in
           if rptFlag then fwrite (array_bytes x (Z.to_nat n)) file
           else file)
    file (seq 0 (length flags)).

Definition output_saveSubcatchResults (sp : Project) (reportTime : Q)
    (file : TFile) : TFile :=
  let f := ((reportTime - OldRunoffTime (sim sp))
            / (NewRunoffTime (sim sp) - OldRunoffTime (sim sp)))%Q in
  save_objects (Subcatch sp) (fun j => subcatch_getResults (sim sp) j f)
    (NsubcatchResults (OutputShared sp)) file.

Definition output_saveNodeResults (sp : Project) (reportTime : Q)
    (file : TFile) : TFile :=
  let f := ((reportTime - OldRoutingTime (sim sp))
            / (NewRoutingTime (sim sp) - OldRoutingTime (sim sp)))%Q in
  save_objects (Node sp) (fun j => node_getResults (sim sp) j f)
    (NnodeResults (OutputShared sp)) file.

Definition output_saveLinkResults (sp : Project) (reportTime : Q)
    (file : TFile) : TFile :=
  let f := ((reportTime - OldRoutingTime (sim sp))
            / (NewRoutingTime (sim sp) - OldRoutingTime (sim sp)))%Q in
  save_objects (Link sp) (fun j => link_getResults (sim sp) j f)
    (NlinkResults (OutputShared sp)) file.

Definition output_saveResults (sp : Project) (reportTime : Q) : Project :=
  let reportDate := getDateTime (sim sp) reportTime in
  if Qltb reportDate (ReportStart sp) then sp
  else
    let file := fwrite (REAL8_bytes (REAL8_of reportDate)) (Fout sp) in
    let file :=
      if (0 <? length (Subcatch sp))%nat
      then output_saveSubcatchResults sp reportTime file else file in
    let file :=
      if (0 <? length (Node sp))%nat
      then output_saveNodeResults sp reportTime file else file in
    let file :=
      if (0 <? length (Link sp))%nat
      then output_saveLinkResults sp reportTime file else file in
    let file :=
      fwrite (array_bytes (SysResults_of (sim sp) reportTime) MAX_SYS_RESULTS)
        file in
    {| sim := sim sp; ErrorCode := ErrorCode sp;
       IgnoreQuality := IgnoreQuality sp; Npollut := Npollut sp;
       Subcatch := Subcatch sp; Node := Node sp; Link := Link sp;
       ReportStart := ReportStart sp; Nperiods := wrap32 (Nperiods sp + 1);
       Fout := file; OutputShared := OutputShared sp |}.

(** ** The readers

    Each returns the project after the read and the items that [fread]
    stored at the head of the result array. *)

Definition output_readDateTime (sp : Project) (period : Z)
    : Project * option REAL8 :=
  let otpt := OutputShared sp in
  let bytePos := wrap32 (OutputStartPos otpt + (period - 1) * BytesPerPeriod otpt) in
  let '(days, file) := fread_REAL8 (fseek bytePos (Fout sp)) in
  (with_Fout file sp, days).



(** [output_readLinkResults] reads the system-wide results as well *)
Definition output_readLinkResults (sp : Project) (period index : Z)
    : Project * list REAL4 * list REAL4 :=
  let otpt := OutputShared sp in
  let bytePos := wrap32 (OutputStartPos otpt + (period - 1) * BytesPerPeriod otpt) in
  let bytePos :=
    wrap32 (bytePos + (8 + NumSubcatch otpt * NsubcatchResults otpt * 4)) in
  let bytePos := wrap32 (bytePos + NumNodes otpt * NnodeResults otpt * 4) in
  let bytePos := wrap32 (bytePos + index * NlinkResults otpt * 4) in
  let '(x, file) :=
    fread_REAL4 (Z.to_nat (NlinkResults otpt)) (fseek bytePos (Fout sp)) in
  let '(sys, file) := fread_REAL4 MAX_SYS_RESULTS file in
  (with_Fout file sp, x, sys).

(** ** output_end

    [MAGICNUMBER] is a constant of [consts.h]; [error_getCode] is a
    routine of error.c; [IDStartPos] and [InputStartPos] are the
    positions that [output_open] has noted while it wrote the part of the
    stream that is [header] here.  The failure of the last write is left
    out. *)
Section Closing.

Variables (MAGICNUMBER IDStartPos InputStartPos : Z).
Variable error_getCode : Z -> Z.

Definition output_end (sp : Project) : Project :=
  let file := fwrite (INT4_bytes IDStartPos) (Fout sp) in
  let file := fwrite (INT4_bytes InputStartPos) file in
  let file := fwrite (INT4_bytes (OutputStartPos (OutputShared sp))) file in
  let k := Nperiods sp in
  let file := fwrite (INT4_bytes k) file in
  let k := wrap32 (error_getCode (ErrorCode sp)) in
  let file := fwrite (INT4_bytes k) file in
  let k := MAGICNUMBER in
  let file := fwrite (INT4_bytes k) file in
  with_Fout file sp.

End Closing.

(** ** A simulation, as the output stream sees it

    The stream is opened, then [output_saveResults] is called at each
    reporting time, the rest of the project having moved on to [w] since
    the last call. *)
Definition save_all (sp : Project) (calls : list (Sim * Q)) : Project :=
  foldl (fun sp c => output_saveResults (with_sim c.1 sp) c.2) sp calls.

(** ** The layout of the stream *)

(** the indices of the reported objects, in order *)
Definition reported (flags : list bool) : list nat :=
  filter (fun j => flags !!! j = true) (seq 0 (length flags)).

(** the arrays of the reported objects, one after the other *)
Definition objects_bytes (flags : list bool) (results : nat -> REAL4_array)
    (n : nat) : list byte :=
  flat_map (fun j => array_bytes (results j) n) (reported flags).

(** the weights of the old and new state at a report time *)
Definition runoff_weight (w : Sim) (reportTime : Q) : Q :=
  ((reportTime - OldRunoffTime w) / (NewRunoffTime w - OldRunoffTime w))%Q.
Definition routing_weight (w : Sim) (reportTime : Q) : Q :=
  ((reportTime - OldRoutingTime w) / (NewRoutingTime w - OldRoutingTime w))%Q.

(** the record of one reporting period: the date, the subcatchment, node
    and link arrays, the system-wide array *)
Definition period_bytes (sp : Project) (c : Sim * Q) : list byte :=
  let otpt := OutputShared sp in
  REAL8_bytes (REAL8_of (getDateTime c.1 c.2))
  ++ objects_bytes (Subcatch sp)
       (fun j => subcatch_getResults c.1 j (runoff_weight c.1 c.2))
       (Z.to_nat (NsubcatchResults otpt))
  ++ objects_bytes (Node sp)
       (fun j => node_getResults c.1 j (routing_weight c.1 c.2))
       (Z.to_nat (NnodeResults otpt))
  ++ objects_bytes (Link sp)
       (fun j => link_getResults c.1 j (routing_weight c.1 c.2))
       (Z.to_nat (NlinkResults otpt))
  ++ array_bytes (SysResults_of c.1 c.2) MAX_SYS_RESULTS.

(** the size of a record, in bytes *)
Definition period_size (sp : Project) : nat :=
  let otpt := OutputShared sp in
  (8 + 4 * Z.to_nat (NsubcatchResults otpt) * length (reported (Subcatch sp))
   + 4 * Z.to_nat (NnodeResults otpt) * length (reported (Node sp))
   + 4 * Z.to_nat (NlinkResults otpt) * length (reported (Link sp))
   + 4 * MAX_SYS_RESULTS)%nat.

(** the calls that are not before the report start *)
Definition written (sp : Project) (calls : list (Sim * Q)) : list (Sim * Q) :=
  filter (fun c => Qltb (getDateTime c.1 c.2) (ReportStart sp) = false) calls.

(** the file position is at the end of the stream *)
Definition at_end (f : TFile) : Prop := fpos f = length (contents f).

(** the part of the project that the writer leaves alone and the layout
    depends on *)
Definition same_layout (sp sp' : Project) : Prop :=
  Subcatch sp' = Subcatch sp /\ Node sp' = Node sp /\ Link sp' = Link sp
  /\ OutputShared sp' = OutputShared sp /\ ReportStart sp' = ReportStart sp.

(** the layout data of a project whose stream was opened with header [hdr] *)
Definition layout_ok (sp : Project) (hdr : list byte) : Prop :=
  let o := OutputShared sp in
  OutputStartPos o = wrap32 (Z.of_nat (length hdr))
  /\ BytesPerPeriod o
     = wrap32 (8 + NumSubcatch o * NsubcatchResults o * 4
               + NumNodes o * NnodeResults o * 4
               + NumLinks o * NlinkResults o * 4
               + Z.of_nat MAX_SYS_RESULTS * 4)
  /\ NumSubcatch o = Z.of_nat (length (reported (Subcatch sp)))
  /\ NumNodes o = Z.of_nat (length (reported (Node sp)))
  /\ NumLinks o = Z.of_nat (length (reported (Link sp)))
  /\ 0 <= NsubcatchResults o /\ 0 <= NnodeResults o /\ 0 <= NlinkResults o.

End Stream.

(** ** A stream to run the code on *)

Definition byte_of_nat (n : nat) : byte :=
  match Byte.of_N (N.of_nat (n mod 256)) with
  | Some b => b
  | None => x00
  end.

(** The rest of the project is a step counter [w]; the date is the elapsed
    time in days; element [i] of the array of object [j] carries [w], [j]
    and [i] in its bytes; there are 15 system-wide results. *)
Definition plain : Collaborators := {|
  Sim := nat;
  MAX_SYS_RESULTS := 15;
  ERR_OUT_FILE := 1;
  getDateTime := fun _ t => (t / 86400000)%Q;
  REAL8_of := fun d =>
    mkREAL8 (mkREAL4 (byte_of_nat (Z.to_nat (Qfloor d))) x00 x00 x00)
            (mkREAL4 x00 x00 x00 x40);
  OldRunoffTime := fun _ => 0%Q;
  NewRunoffTime := fun _ => 1%Q;
  OldRoutingTime := fun _ => 0%Q;
  NewRoutingTime := fun _ => 1%Q;
  subcatch_getResults := fun w j _ i =>
    mkREAL4 (byte_of_nat w) (byte_of_nat j) (byte_of_nat i) x01;
  node_getResults := fun w j _ i =>
    mkREAL4 (byte_of_nat w) (byte_of_nat j) (byte_of_nat i) x02;
  link_getResults := fun w j _ i =>
    mkREAL4 (byte_of_nat w) (byte_of_nat j) (byte_of_nat i) x03;
  SysResults_of := fun w _ i =>
    mkREAL4 (byte_of_nat w) x00 (byte_of_nat i) x04;
  header := fun _ => [x53; x57; x4d; x4d] |}.

(** one subcatchment, three nodes of which the first and the last are
    reported, one link, one pollutant; reporting starts after one day *)
Definition project0 : @Project plain :=
  {| sim := (0%nat : @Sim plain); ErrorCode := 0; IgnoreQuality := false;
     Npollut := 1;
     Subcatch := [true]; Node := [true; false; true]; Link := [true];
     ReportStart := 1%Q; Nperiods := 0;
     Fout := {| contents := []; fpos := 0 |};
     OutputShared :=
       {| NumSubcatch := 0; NsubcatchResults := 0; NumNodes := 0;
          NnodeResults := 0; NumLinks := 0; NlinkResults := 0;
          NumPolluts := 0; BytesPerPeriod := 0; OutputStartPos := 0 |} |}.

(** reports after half a day, one day and two days *)
Definition calls0 : list (nat * Q) :=
  [(1%nat, 43200000%Q); (2%nat, 86400000%Q); (3%nat, 172800000%Q)].


End Output.

(** * subcatch.c: runoff from a sub-area *)

Module Subcatch.

Local Open Scope Q_scope.

(** ** Data model *)

Inductive SubareaType := IMPERV0 | IMPERV1 | PERV.

#[global] Instance SubareaType_eq_dec : EqDecision SubareaType.
Proof. solve_decision. Defined.

Record TSubarea := {
  N : Q;          (* Manning's n *)
  fArea : Q;      (* fraction of total area *)
  dStore : Q;     (* depression storage (ft) *)
  fOutlet : Q;    (* fraction of runoff routed to the outlet *)
  alpha : Q;      (* overland flow factor *)
  inflow : Q;     (* inflow rate (ft/sec) *)
  runoff : Q;     (* runoff rate (ft/sec) *)
  depth : Q }.    (* depth of surface runoff (ft) *)

Definition set_depth (d : Q) (s : TSubarea) : TSubarea :=
  {| N := N s; fArea := fArea s; dStore := dStore s; fOutlet := fOutlet s;
     alpha := alpha s; inflow := inflow s; runoff := runoff s; depth := d |}.

Definition set_inflow (x : Q) (s : TSubarea) : TSubarea :=
  {| N := N s; fArea := fArea s; dStore := dStore s; fOutlet := fOutlet s;
     alpha := alpha s; inflow := x; runoff := runoff s; depth := depth s |}.

(** the volumes that [getSubareaRunoff] accumulates for its caller *)
Record TSubcatchShared := {
  Vinflow : Q;
  Vevap : Q;
  Vpevap : Q;
  Vinfil : Q;
  Voutflow : Q }.

(** ** Constants of subcatch.c *)

Definition MCOEFF : Q := 1.49.       (* constant in Manning Eq. *)
Definition MEXP : Q := 1.6666667.    (* exponent in Manning Eq. *)
Definition ODETOL : Q := 0.0001.     (* acceptable error for ODE solver *)

(** ** Routines of other compilation units

    [ZERO] is a constant of [consts.h]; [pow] is that of the C library;
    [odesolve_integrate] (odesolve.c) integrates [dy/dx = derivs x y] from
    [x1] to [x2] with accuracy [eps] and first step [h1], and yields the
    new [y]; [infil_getInfil] (infil.c) is the infiltration rate of the
    subcatchment for a time step, a precipitation, an inflow and a depth. *)
Class Collaborators := {
  ZERO : Q;
  pow : Q -> Q -> Q;
  odesolve_integrate : (Q -> Q -> Q) -> Q -> Q -> Q -> Q -> Q -> Q;
  infil_getInfil : Q -> Q -> Q -> Q -> Q }.

Section Subarea.

Context `{Collaborators}.

(** ** findSubareaRunoff: the runoff rate and the sub-area afterwards *)
Definition findSubareaRunoff (subarea : TSubarea) (tRunoff : Q)
    : Q * TSubarea :=
  let xDepth := depth subarea - dStore subarea in
  if Qltb ZERO xDepth then
    if Qltb 0 (N subarea)
    then (alpha subarea * pow xDepth MEXP, subarea)
    else (xDepth / tRunoff, set_depth (dStore subarea) subarea)
  else (0, subarea).

(** ** getDdDt, for the sub-area [theSubarea] *)
Definition getDdDt (theSubarea : TSubarea) (t d : Q) : Q :=
  let ix := inflow theSubarea in
  let rx := d - dStore theSubarea in
  let rx := if Qltb rx 0 then 0 else alpha theSubarea * pow rx MEXP in
  ix - rx.

(** ** updatePondedDepth: the sub-area and [*dt] afterwards *)
Definition updatePondedDepth (subarea : TSubarea) (dt : Q) : TSubarea * Q :=
  let ix := inflow subarea in
  let tx := dt in
  let '(subarea, tx) :=
    if Qle_bool (depth subarea + ix * tx) (dStore subarea) then
      (set_depth (depth subarea + ix * tx) subarea, tx)
    else
      let dx := dStore subarea - depth subarea in
      let '(subarea, tx) :=
        if Qltb 0 dx && Qltb 0 ix
        then (set_depth (dStore subarea) subarea, tx - dx / ix)
        else (subarea, tx) in
      if Qltb 0 (alpha subarea) && Qltb 0 tx then
        (set_depth
           (odesolve_integrate (getDdDt subarea) (depth subarea) 0 tx ODETOL
              tx) subarea, tx)
      else
        let tx := if Qltb tx 0 then 0 else tx in
        (set_depth (depth subarea + ix * tx) subarea, tx) in
  let subarea :=
    if Qltb (depth subarea) 0 then set_depth 0 subarea else subarea in
  (subarea, tx).

(** ** getSubareaInfil

    [groundwater] is the [maxInfilVol] of the aquifer under the
    subcatchment, when it has one. *)
Definition getSubareaInfil (IgnoreGwater : bool) (groundwater : option Q)
    (subarea : TSubarea) (precip tStep : Q) : Q :=
  let infil := infil_getInfil tStep precip (inflow subarea) (depth subarea) in
  match groundwater with
  | Some maxInfilVol =>
      if negb IgnoreGwater then MIN infil (maxInfilVol / tStep) else infil
  | None => infil
  end.

(** ** getSubareaRunoff: the runoff rate, the sub-area and the shared
    volumes afterwards *)
Definition getSubareaRunoff (IgnoreGwater : bool) (groundwater : option Q)
    (sbctch : TSubcatchShared) (subarea : TSubarea) (i : SubareaType)
    (area precip evap tStep : Q) : Q * TSubarea * TSubcatchShared :=
  if Qeq_bool area 0 then (0, subarea, sbctch)
  else
    let tRunoff := tStep in
    let surfMoisture := depth subarea / tStep in
    let surfEvap := MIN surfMoisture evap in
    let infil :=
      if bool_decide (i = PERV)
      then getSubareaInfil IgnoreGwater groundwater subarea precip tStep
      else 0 in
    let subarea := set_inflow (inflow subarea + precip) subarea in
    let surfMoisture := surfMoisture + inflow subarea in
    let vevap := Vevap sbctch + surfEvap * area * tStep in
    let sbctch :=
      {| Vinflow := Vinflow sbctch + precip * area * tStep;
         Vevap := vevap;
         Vpevap :=
           if bool_decide (i = PERV) then Vpevap sbctch + vevap
           else Vpevap sbctch;
         Vinfil := Vinfil sbctch + infil * area * tStep;
         Voutflow := Voutflow sbctch |} in
    let '(subarea, tRunoff) :=
      if Qle_bool surfMoisture (surfEvap + infil)
      then (set_depth 0 subarea, tRunoff)
      else
        updatePondedDepth
          (set_inflow (inflow subarea - (surfEvap + infil)) subarea) tRunoff in
    let '(runoff, subarea) := findSubareaRunoff subarea tRunoff in
    let sbctch :=
      {| Vinflow := Vinflow sbctch; Vevap := Vevap sbctch;
         Vpevap := Vpevap sbctch; Vinfil := Vinfil sbctch;
         Voutflow :=
           Voutflow sbctch + fOutlet subarea * runoff * area * tStep |} in
    (runoff, subarea, sbctch).

End Subarea.

(** ** Sub-areas to run the code on *)

(** [pow] is replaced by a square (its value does not matter below), the
    solver by one Euler step, and nothing infiltrates. *)
Definition manning : Collaborators := {|
  ZERO := 1 # 10000000000;
  pow := fun x _ => x * x;
  odesolve_integrate := fun derivs y x1 x2 _ _ => y + derivs x1 y * (x2 - x1);
  infil_getInfil := fun _ _ _ _ => 0 |}.

(** a dry sub-area with 0.5 ft of depression storage that receives
    0.01 ft/s; [n] is its Manning's n; its slope being zero, so is alpha *)
Definition flat_subarea (n : Q) : TSubarea :=
  {| N := n; fArea := 1; dStore := 0.5; fOutlet := 1; alpha := 0;
     inflow := 0.01; runoff := 0; depth := 0 |}.

End Subcatch.

(** * runoff.c: one runoff tick *)

Module Runoff.

Local Open Scope Q_scope.

(** ** Data model *)

Inductive FileUsageType := NO_FILE | SCRATCH_FILE | USE_FILE | SAVE_FILE.

#[global] Instance FileUsageType_eq_dec : EqDecision FileUsageType.
Proof. solve_decision. Defined.

(** The calls that [runoff_execute] makes into the state of the climate,
    the rain gages, the subcatchments, the statistics and the interface
    file.  What these calls do is not modelled: the project records them,
    in order, and what the code reads back afterwards is a function of
    that record.  [fread_tStep] is the read of the time step from the
    interface file; [fread_results j n] is the read of the [n] results of
    subcatchment [j] from it, with the assignments that put them into the
    state of the subcatchment; [fwrite_tStep] and [fwrite_results j n]
    are the writes to it.  [subcatch_addRunonFlow k i tStep] hands the
    volume routed from outfall [i] over to subcatchment [k]. *)
Inductive Call :=
| climate_setState (currentDate : Q)
| gage_setState (j : nat) (currentDate : Q)
| fread_tStep
| fread_results (j : nat) (nResults : Z)
| subcatch_setOldState (j : nat)
| subcatch_addRunonFlow (k i : nat) (tStep : Q)
| massbal_updateRunoffTotals (i : nat)
| massbal_updateLoadingTotals (i p : nat)
| subcatch_getRunon (j : nat)
| snow_plowSnow (j : nat) (tStep : Q)
| subcatch_getRunoff (j : nat) (tStep : Q)
| surfqual_getBuildup (j : nat) (tStep : Q)
| surfqual_sweepBuildup (j : nat) (currentDate : Q)
| surfqual_getWashoff (j : nat) (runoff tStep : Q)
| stats_updateMaxRunoff
| fwrite_tStep (tStep : Q)
| subcatch_getResults (j : nat)
| fwrite_results (j : nat) (nResults : Z)
| reset_runon (j : nat).

Record Project := {
  ErrorCode : Z;
  Nsubcatch : nat;            (* Nobjects[SUBCATCH] *)
  Ngage : nat;                (* Nobjects[GAGE] *)
  Npollut : nat;              (* Nobjects[POLLUT] *)
  OldRunoffTime : Q;
  NewRunoffTime : Q;
  TotalDuration : Q;
  DryStep : Z;
  WetStep : Z;
  ReportStep : Z;             (* reporting time step (sec) *)
  SweepStart : Z;             (* day of year when sweeping starts *)
  SweepEnd : Z;               (* day of year when sweeping ends *)
  IgnoreQuality : bool;
  IgnoreSnowmelt : bool;
  Frunoff_mode : FileUsageType;
  IsRaining : bool;
  HasRunoff : bool;
  HasSnow : bool;
  HasWetLids : bool;
  Nsteps : Z;
  MaxSteps : Z;
  calls : list Call }.

(** ** Routines and state of other compilation units

    [MIN_RUNOFF], [ERR_TIMESTEP], [ERR_RUNOFF_FILE_END] and
    [ERR_RUNOFF_FILE_READ] are constants of [consts.h] and [error.h].  The
    other members read, after the calls [cs] made so far: the rainfall of
    a gage, the area, rainfall and new snow depth of a subcatchment,
    whether its LID units are wet, the value returned by
    [subcatch_getRunoff], the seconds to the next change of evaporation
    and of the rainfall of a gage, the number of items that the last
    [fread] from the interface file has returned, and the float [tStep]
    read from it, as a double.  [Noutfall] is [Nnodes[OUTFALL]], and
    [Outfall_routeTo] the subcatchment that an outfall is routed to, a
    negative number when there is none. *)
Class Collaborators := {
  MIN_RUNOFF : Q;
  ERR_TIMESTEP : Z;
  ERR_RUNOFF_FILE_END : Z;
  ERR_RUNOFF_FILE_READ : Z;
  getDateTime : Q -> Q;
  datetime_dayOfYear : Q -> Z;
  Gage_rainfall : list Call -> nat -> Q;
  Subcatch_area : nat -> Q;
  Subcatch_rainfall : list Call -> nat -> Q;
  Subcatch_newSnowDepth : list Call -> nat -> Q;
  Subcatch_wetLids : list Call -> nat -> bool;
  subcatch_getRunoff_value : list Call -> nat -> Q -> Q;
  nextEvap_timeDiff : list Call -> Q -> Z;
  nextRain_timeDiff : list Call -> nat -> Q -> Z;
  fread_count : list Call -> Z;
  tStep_read : list Call -> Q;
  Noutfall : nat;
  Outfall_routeTo : nat -> Z }.

Definition call (c : Call) (sp : Project) : Project :=
  {| ErrorCode := ErrorCode sp; Nsubcatch := Nsubcatch sp; Ngage := Ngage sp;
     Npollut := Npollut sp;
     OldRunoffTime := OldRunoffTime sp; NewRunoffTime := NewRunoffTime sp;
     TotalDuration := TotalDuration sp; DryStep := DryStep sp;
     WetStep := WetStep sp; ReportStep := ReportStep sp;
     SweepStart := SweepStart sp; SweepEnd := SweepEnd sp;
     IgnoreQuality := IgnoreQuality sp; IgnoreSnowmelt := IgnoreSnowmelt sp;
     Frunoff_mode := Frunoff_mode sp; IsRaining := IsRaining sp;
     HasRunoff := HasRunoff sp; HasSnow := HasSnow sp;
     HasWetLids := HasWetLids sp; Nsteps := Nsteps sp;
     MaxSteps := MaxSteps sp; calls := calls sp ++ [c] |}.

Definition set_clock (told tnew : Q) (sp : Project) : Project :=
  {| ErrorCode := ErrorCode sp; Nsubcatch := Nsubcatch sp; Ngage := Ngage sp;
     Npollut := Npollut sp;
     OldRunoffTime := told; NewRunoffTime := tnew;
     TotalDuration := TotalDuration sp; DryStep := DryStep sp;
     WetStep := WetStep sp; ReportStep := ReportStep sp;
     SweepStart := SweepStart sp; SweepEnd := SweepEnd sp;
     IgnoreQuality := IgnoreQuality sp; IgnoreSnowmelt := IgnoreSnowmelt sp;
     Frunoff_mode := Frunoff_mode sp; IsRaining := IsRaining sp;
     HasRunoff := HasRunoff sp; HasSnow := HasSnow sp;
     HasWetLids := HasWetLids sp; Nsteps := Nsteps sp;
     MaxSteps := MaxSteps sp; calls := calls sp |}.

Definition set_flags (raining runoff snow lids : bool) (sp : Project)
  : Project :=
  {| ErrorCode := ErrorCode sp; Nsubcatch := Nsubcatch sp; Ngage := Ngage sp;
     Npollut := Npollut sp;
     OldRunoffTime := OldRunoffTime sp; NewRunoffTime := NewRunoffTime sp;
     TotalDuration := TotalDuration sp; DryStep := DryStep sp;
     WetStep := WetStep sp; ReportStep := ReportStep sp;
     SweepStart := SweepStart sp; SweepEnd := SweepEnd sp;
     IgnoreQuality := IgnoreQuality sp; IgnoreSnowmelt := IgnoreSnowmelt sp;
     Frunoff_mode := Frunoff_mode sp; IsRaining := raining;
     HasRunoff := runoff; HasSnow := snow; HasWetLids := lids;
     Nsteps := Nsteps sp; MaxSteps := MaxSteps sp; calls := calls sp |}.

Definition set_error (code steps : Z) (sp : Project) : Project :=
  {| ErrorCode := code; Nsubcatch := Nsubcatch sp; Ngage := Ngage sp;
     Npollut := Npollut sp;
     OldRunoffTime := OldRunoffTime sp; NewRunoffTime := NewRunoffTime sp;
     TotalDuration := TotalDuration sp; DryStep := DryStep sp;
     WetStep := WetStep sp; ReportStep := ReportStep sp;
     SweepStart := SweepStart sp; SweepEnd := SweepEnd sp;
     IgnoreQuality := IgnoreQuality sp; IgnoreSnowmelt := IgnoreSnowmelt sp;
     Frunoff_mode := Frunoff_mode sp; IsRaining := IsRaining sp;
     HasRunoff := HasRunoff sp; HasSnow := HasSnow sp;
     HasWetLids := HasWetLids sp; Nsteps := steps;
     MaxSteps := MaxSteps sp; calls := calls sp |}.

(** [report_writeErrorMsg] (report.c) sets the error code of the project;
    the message it prints is left out. *)
Definition report_writeErrorMsg (code : Z) (sp : Project) : Project :=
  set_error code (Nsteps sp) sp.

Section Tick.

Context `{Collaborators}.

(** ** runoff_getTimeStep *)
Definition runoff_getTimeStep (sp : Project) (currentDate : Q) : Q :=
  let maxStep := DryStep sp in
  let timeStep := nextEvap_timeDiff (calls sp) currentDate in
  let maxStep :=
    if (0 <? timeStep)%Z && (timeStep <? maxStep)%Z then timeStep
    else maxStep in
  let maxStep :=
    foldl (fun maxStep j =>
             let timeStep := nextRain_timeDiff (calls sp) j currentDate in
             if (0 <? timeStep)%Z && (timeStep <? maxStep)%Z then timeStep
             else maxStep)
      maxStep (seq 0 (Ngage sp)) in
  let timeStep :=
    if IsRaining sp || HasSnow sp || HasRunoff sp || HasWetLids sp
    then WetStep sp else DryStep sp in
  let timeStep := if (maxStep <? timeStep)%Z then maxStep else timeStep in
  inject_Z timeStep.

(** ** runoff_readFromFile

    [kount], [nResults] and the number of subcatchments are ints, whose
    arithmetic wraps around as that of an INT4 of output.c does;
    [MAX_SUBCATCH_RESULTS] is the constant that output.c uses. *)
Definition runoff_readFromFile (sp : Project) : Project :=
  if (MaxSteps sp <? Nsteps sp)%Z
  then report_writeErrorMsg ERR_RUNOFF_FILE_END sp
  else
    let sp :=
      foldl (fun sp j => call (subcatch_setOldState j) sp) sp
        (seq 0 (Nsubcatch sp)) in
    let kount := 0%Z in
    let sp := call fread_tStep sp in
    let kount := Output.wrap32 (kount + fread_count (calls sp)) in
    let tStep := tStep_read (calls sp) in
    let nResults :=
      Output.wrap32
        (Output.MAX_SUBCATCH_RESULTS + Z.of_nat (Npollut sp) - 1) in
    let '(sp, kount) :=
      foldl (fun '(sp, kount) j =>
               let sp := call (fread_results j nResults) sp in
               (sp, Output.wrap32 (kount + fread_count (calls sp))))
        (sp, kount) (seq 0 (Nsubcatch sp)) in
    if (kount
        <? Output.wrap32
             (1 + Output.wrap32 (Z.of_nat (Nsubcatch sp) * nResults)))%Z
    then report_writeErrorMsg ERR_RUNOFF_FILE_READ sp
    else
      let sp :=
        set_clock (NewRunoffTime sp)
          (MIN (NewRunoffTime sp + tStep * 1000) (TotalDuration sp)) sp in
      set_error (ErrorCode sp) (Output.wrap32 (Nsteps sp + 1)) sp.

(** ** runoff_saveToFile

    The time step is written as a float. *)
Definition runoff_saveToFile (tStep : Q) (sp : Project) : Project :=
  let n :=
    Output.wrap32
      (Output.MAX_SUBCATCH_RESULTS + Z.of_nat (Npollut sp) - 1) in
  let sp := call (fwrite_tStep tStep) sp in
  foldl (fun sp j =>
           let sp := call (subcatch_getResults j) sp in
           call (fwrite_results j n) sp)
    sp (seq 0 (Nsubcatch sp)).

(** ** runoff_getOutfallRunon

    The assignments to the routed volume and loads of the outfall and to
    the quality of the subcatchment, which are no part of the project
    here, are left out. *)
Definition runoff_getOutfallRunon (tStep : Q) (sp : Project) : Project :=
  foldl (fun sp i =>
           let k := Outfall_routeTo i in
           if (k <? 0)%Z then sp
           else if Qeq_bool (Subcatch_area (Z.to_nat k)) 0 then sp
           else
             let sp :=
               call (subcatch_addRunonFlow (Z.to_nat k) i tStep) sp in
             let sp := call (massbal_updateRunoffTotals i) sp in
             foldl (fun sp p => call (massbal_updateLoadingTotals i p) sp)
               sp (seq 0 (Npollut sp)))
    sp (seq 0 Noutfall).

(** ** runoff_execute

    [1000 * sp->DryStep] is a product of ints, and [Nsteps] is an int. *)

(** the body of the last loop over the subcatchments, for subcatchment [j] *)
Definition runoff_subcatch (canSweep : bool) (currentDate runoffStep : Q)
    (sp : Project) (j : nat) : Project :=
  if Qeq_bool (Subcatch_area j) 0 then sp
  else
    let runoff := subcatch_getRunoff_value (calls sp) j runoffStep in
    let sp := call (subcatch_getRunoff j runoffStep) sp in
    let sp :=
      set_flags (IsRaining sp)
        (if Qltb 0 runoff then true else HasRunoff sp)
        (if Qltb 0 (Subcatch_newSnowDepth (calls sp) j) then true
         else HasSnow sp)
        (HasWetLids sp || Subcatch_wetLids (calls sp) j) sp in
    if IgnoreQuality sp then sp
    else
      let sp :=
        if Qltb runoff MIN_RUNOFF
        then call (surfqual_getBuildup j runoffStep) sp else sp in
      let sp :=
        if canSweep && Qle_bool (Subcatch_rainfall (calls sp) j) MIN_RUNOFF
        then call (surfqual_sweepBuildup j currentDate) sp else sp in
      call (surfqual_getWashoff j runoff runoffStep) sp.

Definition runoff_execute (sp : Project) : Project :=
  if negb (ErrorCode sp =? 0)%Z then sp
  else
    let oldRunoffStep := (NewRunoffTime sp - OldRunoffTime sp) / 1000 in
    let currentDate := getDateTime (NewRunoffTime sp) in
    let sp := call (climate_setState currentDate) sp in
    if (Nsubcatch sp =? 0)%nat then
      set_clock (NewRunoffTime sp)
        (MIN (NewRunoffTime sp + inject_Z (Output.wrap32 (1000 * DryStep sp)))
           (TotalDuration sp)) sp
    else
      let sp := set_flags false (HasRunoff sp) (HasSnow sp) (HasWetLids sp) sp in
      let sp :=
        foldl (fun sp j =>
                 let sp := call (gage_setState j currentDate) sp in
                 if Qltb 0 (Gage_rainfall (calls sp) j)
                 then set_flags true (HasRunoff sp) (HasSnow sp)
                        (HasWetLids sp) sp
                 else sp)
          sp (seq 0 (Ngage sp)) in
      if bool_decide (Frunoff_mode sp = USE_FILE)
      then runoff_readFromFile sp
      else
        let day := datetime_dayOfYear currentDate in
        let canSweep :=
          (ReportStep sp <=? day)%Z && (day <=? SweepEnd sp)%Z in
        let runoffStep := runoff_getTimeStep sp currentDate in
        if Qle_bool runoffStep 0 then set_error ERR_TIMESTEP (Nsteps sp) sp
        else
          let sp :=
            set_clock (NewRunoffTime sp)
              (NewRunoffTime sp + 1000 * runoffStep) sp in
          let '(sp, runoffStep) :=
            if Qltb (TotalDuration sp) (NewRunoffTime sp)
            then (set_clock (OldRunoffTime sp) (TotalDuration sp) sp,
                  (TotalDuration sp - OldRunoffTime sp) / 1000)
            else (sp, runoffStep) in
          let sp :=
            foldl (fun sp j => call (subcatch_setOldState j) sp) sp
              (seq 0 (Nsubcatch sp)) in
          let sp :=
            if Qltb 0 oldRunoffStep
            then runoff_getOutfallRunon oldRunoffStep sp else sp in
          let sp :=
            foldl (fun sp j =>
                     if Qeq_bool (Subcatch_area j) 0 then sp
                     else
                       let sp := call (subcatch_getRunon j) sp in
                       if negb (IgnoreSnowmelt sp)
                       then call (snow_plowSnow j runoffStep) sp else sp)
              sp (seq 0 (Nsubcatch sp)) in
          let sp := set_flags (IsRaining sp) false false false sp in
          let sp :=
            foldl (runoff_subcatch canSweep currentDate runoffStep) sp
              (seq 0 (Nsubcatch sp)) in
          let sp := call stats_updateMaxRunoff sp in
          let sp :=
            set_error (ErrorCode sp) (Output.wrap32 (Nsteps sp + 1)) sp in
          let sp :=
            if bool_decide (Frunoff_mode sp = SAVE_FILE)
            then runoff_saveToFile runoffStep sp else sp in
          foldl (fun sp j => call (reset_runon j) sp) sp
            (seq 0 (Nsubcatch sp)).

End Tick.

(** ** A tick to run the code on *)

Definition is_sweep (j : nat) (c : Call) : bool :=
  match c with
  | surfqual_sweepBuildup j' _ => Nat.eqb j j'
  | _ => false
  end.

Definition is_buildup (j : nat) (c : Call) : bool :=
  match c with
  | surfqual_getBuildup j' _ => Nat.eqb j j'
  | _ => false
  end.

Definition is_washoff (j : nat) (c : Call) : bool :=
  match c with
  | surfqual_getWashoff j' _ _ => Nat.eqb j j'
  | _ => false
  end.

(** Dry weather: no rain, no snow, no runoff, subcatchments of 1000 ft2;
    the date is the elapsed time in days and the first day of the year is
    day 1. *)
Definition dry_weather : Collaborators := {|
  MIN_RUNOFF := 231481 # 10000000000000;
  ERR_TIMESTEP := 1;
  ERR_RUNOFF_FILE_END := 2;
  ERR_RUNOFF_FILE_READ := 3;
  getDateTime := fun t => t / 86400000;
  datetime_dayOfYear := fun d => (Qfloor d mod 365 + 1)%Z;
  Gage_rainfall := fun _ _ => 0;
  Subcatch_area := fun _ => 1000;
  Subcatch_rainfall := fun _ _ => 0;
  Subcatch_newSnowDepth := fun _ _ => 0;
  Subcatch_wetLids := fun _ _ => false;
  subcatch_getRunoff_value := fun _ _ _ => 0;
  nextEvap_timeDiff := fun _ _ => 0%Z;
  nextRain_timeDiff := fun _ _ _ => 0%Z;
  fread_count := fun _ => 0%Z;
  tStep_read := fun _ => 0;
  Noutfall := 0;
  Outfall_routeTo := fun _ => (-1)%Z |}.

(** one subcatchment and one gage, [day - 1] days into the year, quality
    not ignored, a dry step of one hour *)
Definition tick (day reportStep sweepStart sweepEnd : Z) : Project :=
  {| ErrorCode := 0; Nsubcatch := 1; Ngage := 1; Npollut := 1;
     OldRunoffTime := inject_Z ((day - 1) * 86400000 - 3600000);
     NewRunoffTime := inject_Z ((day - 1) * 86400000);
     TotalDuration := inject_Z (365 * 86400000);
     DryStep := 3600; WetStep := 300; ReportStep := reportStep;
     SweepStart := sweepStart; SweepEnd := sweepEnd;
     IgnoreQuality := false; IgnoreSnowmelt := true;
     Frunoff_mode := NO_FILE; IsRaining := false; HasRunoff := false;
     HasSnow := false; HasWetLids := false; Nsteps := 0; MaxSteps := 0;
     calls := [] |}.

(** ** Kinds of calls *)

(** the calls into surfqual.c *)
Definition is_surfqual (c : Call) : bool :=
  match c with
  | surfqual_getBuildup _ _ | surfqual_sweepBuildup _ _
  | surfqual_getWashoff _ _ _ => true
  | _ => false
  end.


(** ** What the calls and the flags leave alone *)
Definition same_setup (sp sp' : Project) : Prop :=
  ErrorCode sp' = ErrorCode sp /\ OldRunoffTime sp' = OldRunoffTime sp
  /\ NewRunoffTime sp' = NewRunoffTime sp
  /\ TotalDuration sp' = TotalDuration sp /\ DryStep sp' = DryStep sp
  /\ WetStep sp' = WetStep sp /\ Nsubcatch sp' = Nsubcatch sp
  /\ Ngage sp' = Ngage sp /\ IgnoreQuality sp' = IgnoreQuality sp
  /\ IgnoreSnowmelt sp' = IgnoreSnowmelt sp
  /\ Frunoff_mode sp' = Frunoff_mode sp.

(** the calls of kind [p] in the record of [sp'] are those in that of [sp] *)
Definition same_calls (p : Call -> bool) (sp sp' : Project) : Prop :=
  filter (fun c => p c = true) (calls sp')
  = filter (fun c => p c = true) (calls sp).

(** ** More ticks to run the code on *)

(** the tick of day 100, the quality ignored *)
Definition quiet_tick : Project :=
  {| ErrorCode := 0; Nsubcatch := 1; Ngage := 1; Npollut := 1;
     OldRunoffTime := inject_Z (99 * 86400000 - 3600000);
     NewRunoffTime := inject_Z (99 * 86400000);
     TotalDuration := inject_Z (365 * 86400000);
     DryStep := 3600; WetStep := 300; ReportStep := 900;
     SweepStart := 60; SweepEnd := 300;
     IgnoreQuality := true; IgnoreSnowmelt := true;
     Frunoff_mode := NO_FILE; IsRaining := false; HasRunoff := false;
     HasSnow := false; HasWetLids := false; Nsteps := 0; MaxSteps := 0;
     calls := [] |}.



End Runoff.

(** * hotstart.c: reading a hot start file *)

Module Hotstart.

(** ** Bytes, numbers and streams

    A value read from the file is kept as its bytes, least significant
    byte first; a float takes 4 bytes and a double 8, in the IEEE 754
    formats. *)

Definition bytes := list byte.

Fixpoint bytes_eqb (a b : bytes) : bool :=
  match a, b with
  | [], [] => true
  | x :: a', y :: b' => Byte.eqb x y && bytes_eqb a' b'
  | _, _ => false
  end.

(** the C string in a buffer: the bytes before the first NUL *)
Fixpoint cstring (buf : bytes) : bytes :=
  match buf with
  | [] => []
  | b :: rest => if Byte.eqb b x00 then [] else b :: cstring rest
  end.

(** [strcmp(a, b) == 0] *)
Definition strcmp_eq (a b : bytes) : bool := bytes_eqb (cstring a) (cstring b).

Fixpoint le_value (bs : bytes) : Z :=
  match bs with
  | [] => 0
  | b :: rest => Z.of_N (Byte.to_N b) + 256 * le_value rest
  end.

(** the [int] in 4 bytes, and the 4 bytes of an [int] *)
Definition int_of_bytes (bs : bytes) : Z :=
  let v := le_value bs in
  if (v <? 2 ^ 31)%Z then v else (v - 2 ^ 32)%Z.

Definition byte_of_Z (z : Z) : byte :=
  match Byte.of_N (Z.to_N (z mod 256)) with
  | Some b => b
  | None => x00
  end.

Definition bytes_of_int (z : Z) : bytes :=
  [byte_of_Z z; byte_of_Z (z / 256); byte_of_Z (z / 65536);
   byte_of_Z (z / 16777216)].

(** [*(x) != *(x)]: the value is a NaN, all exponent bits set and a
    fraction that is not zero *)
Definition float_isnan (x : bytes) : bool :=
  let v := le_value x in
  (Z.land (Z.shiftr v 23) 255 =? 255)%Z
  && negb (Z.land v (2 ^ 23 - 1) =? 0)%Z.

Definition double_isnan (x : bytes) : bool :=
  let v := le_value x in
  (Z.land (Z.shiftr v 52) 2047 =? 2047)%Z
  && negb (Z.land v (2 ^ 52 - 1) =? 0)%Z.

Definition float_zero : bytes := [x00; x00; x00; x00].
Definition double_zero : bytes :=
  [x00; x00; x00; x00; x00; x00; x00; x00].

(** A stream open for reading: its bytes, the position and the
    end-of-file indicator. *)
Record TFile := { contents : bytes; fpos : nat; eof : bool }.

(** [fread] into an object that holds [old]: the bytes that are left in
    the stream replace the head of the object; a short read sets the
    end-of-file indicator. *)
Definition fread (old : bytes) (f : TFile) : bytes * TFile :=
  let got := take (length old) (drop (fpos f) (contents f)) in
  (got ++ drop (length got) old,
   {| contents := contents f; fpos := fpos f + length got;
      eof := eof f || (length got <? length old)%nat |}).

Definition rewind (f : TFile) : TFile :=
  {| contents := contents f; fpos := 0; eof := false |}.

(** ** Data model *)

Inductive NodeType := JUNCTION | OUTFALL | STORAGE | DIVIDER.
Inductive FileUsageType := NO_FILE | SCRATCH_FILE | USE_FILE | SAVE_FILE.
Inductive ErrorType :=
| ERR_NONE
| ERR_HOTSTART_FILE_OPEN
| ERR_HOTSTART_FILE_FORMAT
| ERR_HOTSTART_FILE_READ
| ERR_OTHER.

#[global] Instance NodeType_eq_dec : EqDecision NodeType.
Proof. solve_decision. Defined.
#[global] Instance FileUsageType_eq_dec : EqDecision FileUsageType.
Proof. solve_decision. Defined.
#[global] Instance ErrorType_eq_dec : EqDecision ErrorType.
Proof. solve_decision. Defined.

(** the variables of the project that the reader assigns; each holds a
    double *)
Inductive Field :=
| Subcatch_subArea_depth (i j : nat)
| Subcatch_newRunoff (i : nat)
| Subcatch_newQual (i j : nat)
| Subcatch_pondedQual (i j : nat)
| Subcatch_landFactor_buildup (i k j : nat)
| Subcatch_landFactor_lastSwept (i k : nat)
| Node_newDepth (i : nat)
| Node_newLatFlow (i : nat)
| Storage_hrt (j : nat)
| Node_newQual (i j : nat)
| Link_newFlow (i : nat)
| Link_newDepth (i : nat)
| Link_setting (i : nat)
| Link_targetSetting (i : nat)
| Link_newQual (i j : nat).

#[global] Instance Field_eq_dec : EqDecision Field.
Proof. solve_decision. Defined.

(** calls into infil.c, gwater.c, snow.c and link.c, with the array they
    are given *)
Inductive Call :=
| infil_setState (i : nat) (x : list bytes)
| gwater_setState (i : nat) (x : list bytes)
| snow_setState (i j : nat) (x : list bytes)
| link_setTargetSetting (i : nat)
| link_setSetting (i : nat).

Record Project := {
  ErrorCode : ErrorType;
  FileVersion : Z;
  FlowUnits : Z;
  Nsubcatch : nat;
  Nlanduse : nat;
  Nnode : nat;
  Nlink : nat;
  Npollut : nat;
  Subcatch_groundwater : nat -> bool;    (* groundwater != NULL *)
  Subcatch_snowpack : nat -> bool;       (* snowpack != NULL *)
  Node_type : nat -> NodeType;
  Node_subIndex : nat -> nat;
  Fhotstart1_mode : FileUsageType;
  Fhotstart1_disk : option bytes;        (* the file of that name, if any *)
  Fhotstart1_file : TFile;
  memory : Field -> bytes;
  calls : list Call }.

Definition with_ErrorCode (e : ErrorType) (sp : Project) : Project :=
  {| ErrorCode := e; FileVersion := FileVersion sp; FlowUnits := FlowUnits sp;
     Nsubcatch := Nsubcatch sp; Nlanduse := Nlanduse sp; Nnode := Nnode sp;
     Nlink := Nlink sp; Npollut := Npollut sp;
     Subcatch_groundwater := Subcatch_groundwater sp;
     Subcatch_snowpack := Subcatch_snowpack sp; Node_type := Node_type sp;
     Node_subIndex := Node_subIndex sp;
     Fhotstart1_mode := Fhotstart1_mode sp;
     Fhotstart1_disk := Fhotstart1_disk sp;
     Fhotstart1_file := Fhotstart1_file sp; memory := memory sp;
     calls := calls sp |}.

Definition with_FileVersion (v : Z) (sp : Project) : Project :=
  {| ErrorCode := ErrorCode sp; FileVersion := v; FlowUnits := FlowUnits sp;
     Nsubcatch := Nsubcatch sp; Nlanduse := Nlanduse sp; Nnode := Nnode sp;
     Nlink := Nlink sp; Npollut := Npollut sp;
     Subcatch_groundwater := Subcatch_groundwater sp;
     Subcatch_snowpack := Subcatch_snowpack sp; Node_type := Node_type sp;
     Node_subIndex := Node_subIndex sp;
     Fhotstart1_mode := Fhotstart1_mode sp;
     Fhotstart1_disk := Fhotstart1_disk sp;
     Fhotstart1_file := Fhotstart1_file sp; memory := memory sp;
     calls := calls sp |}.

Definition with_file (f : TFile) (sp : Project) : Project :=
  {| ErrorCode := ErrorCode sp; FileVersion := FileVersion sp;
     FlowUnits := FlowUnits sp;
     Nsubcatch := Nsubcatch sp; Nlanduse := Nlanduse sp; Nnode := Nnode sp;
     Nlink := Nlink sp; Npollut := Npollut sp;
     Subcatch_groundwater := Subcatch_groundwater sp;
     Subcatch_snowpack := Subcatch_snowpack sp; Node_type := Node_type sp;
     Node_subIndex := Node_subIndex sp;
     Fhotstart1_mode := Fhotstart1_mode sp;
     Fhotstart1_disk := Fhotstart1_disk sp;
     Fhotstart1_file := f; memory := memory sp; calls := calls sp |}.

(** [field = v] *)
Definition assign (fld : Field) (v : bytes) (sp : Project) : Project :=
  {| ErrorCode := ErrorCode sp; FileVersion := FileVersion sp;
     FlowUnits := FlowUnits sp;
     Nsubcatch := Nsubcatch sp; Nlanduse := Nlanduse sp; Nnode := Nnode sp;
     Nlink := Nlink sp; Npollut := Npollut sp;
     Subcatch_groundwater := Subcatch_groundwater sp;
     Subcatch_snowpack := Subcatch_snowpack sp; Node_type := Node_type sp;
     Node_subIndex := Node_subIndex sp;
     Fhotstart1_mode := Fhotstart1_mode sp;
     Fhotstart1_disk := Fhotstart1_disk sp;
     Fhotstart1_file := Fhotstart1_file sp;
     memory := fun g => if decide (g = fld) then v else memory sp g;
     calls := calls sp |}.

Definition call (c : Call) (sp : Project) : Project :=
  {| ErrorCode := ErrorCode sp; FileVersion := FileVersion sp;
     FlowUnits := FlowUnits sp;
     Nsubcatch := Nsubcatch sp; Nlanduse := Nlanduse sp; Nnode := Nnode sp;
     Nlink := Nlink sp; Npollut := Npollut sp;
     Subcatch_groundwater := Subcatch_groundwater sp;
     Subcatch_snowpack := Subcatch_snowpack sp; Node_type := Node_type sp;
     Node_subIndex := Node_subIndex sp;
     Fhotstart1_mode := Fhotstart1_mode sp;
     Fhotstart1_disk := Fhotstart1_disk sp;
     Fhotstart1_file := Fhotstart1_file sp; memory := memory sp;
     calls := calls sp ++ [c] |}.

(** [report_writeErrorMsg] (report.c) sets the error code of the project;
    the message it prints is left out. *)
Definition report_writeErrorMsg (code : ErrorType) (sp : Project) : Project :=
  with_ErrorCode code sp.

(** ** Routines and constants of other compilation units

    [double_of_float] is the conversion of a float to a double,
    [indeterminate n] the content of a local object of [n] bytes that has
    not been assigned yet, [MISSING] a constant of [consts.h]. *)
Class Collaborators := {
  double_of_float : bytes -> bytes;
  indeterminate : nat -> bytes;
  MISSING : bytes }.

(** ** Statements that may return

    A statement of a reader maps the project to the project afterwards,
    with [Some v] when control goes on to the next statement and [None]
    when the function has returned. *)
Definition M (A : Type) : Type := Project -> option A * Project.

Definition ret {A} (a : A) : M A := fun sp => (Some a, sp).

Definition bind {A B} (m : M A) (k : A -> M B) : M B :=
  fun sp =>
    match m sp with
    | (Some a, sp') => k a sp'
    | (None, sp') => (None, sp')
    end.

Notation "x <<- m ;; k" := (bind m (fun x => k))
  (at level 100, m at next level, right associativity).
Notation "m ;;; k" := (bind m (fun _ => k))
  (at level 100, right associativity).

Definition get : M Project := fun sp => (Some sp, sp).
Definition do_ (f : Project -> Project) : M unit := fun sp => (Some tt, f sp).

(** [for] loops, without and with local variables that live across the
    passes *)
Fixpoint for_ {A} (l : list A) (body : A -> M unit) : M unit :=
  match l with
  | [] => ret tt
  | a :: l' => body a ;;; for_ l' body
  end.

Fixpoint foldM {A B} (body : B -> A -> M B) (b : B) (l : list A) : M B :=
  match l with
  | [] => ret b
  | a :: l' => b' <<- body b a ;; foldM body b' l'
  end.

Section Reader.

Context `{Collaborators}.

(** ** readFloat and readDouble

    The result is the returned value, [*x] and the project afterwards. *)
Definition readFloat (x : bytes) (sp : Project) : bool * bytes * Project :=
  let '(x, f) := fread x (Fhotstart1_file sp) in
  let sp := with_file f sp in
  if float_isnan x
  then (false, float_zero, report_writeErrorMsg ERR_HOTSTART_FILE_READ sp)
  else (true, x, sp).

Definition readDouble (x : bytes) (sp : Project) : bool * bytes * Project :=
  if eof (Fhotstart1_file sp)
  then (false, double_zero, report_writeErrorMsg ERR_HOTSTART_FILE_READ sp)
  else
    let '(x, f) := fread x (Fhotstart1_file sp) in
    let sp := with_file f sp in
    if double_isnan x then (false, double_zero, sp) else (true, x, sp).

(** [if ( !readFloat(sp, &x, f) ) return;] for the local float [x] *)
Definition try_readFloat (x : bytes) : M bytes :=
  fun sp =>
    let '(ok, x, sp) := readFloat x sp in
    if ok then (Some x, sp) else (None, sp).

(** [if ( !readDouble(sp, &field, f) ) return;] *)
Definition try_readDouble (fld : Field) : M unit :=
  fun sp =>
    let '(ok, v, sp) := readDouble (memory sp fld) sp in
    let sp := assign fld v sp in
    if ok then (Some tt, sp) else (None, sp).

(** [if ( !readDouble(sp, &x[j], f) ) return;] for the local array [x] *)
Definition try_readDouble_at (x : list bytes) (j : nat) : M (list bytes) :=
  fun sp =>
    let '(ok, v, sp) := readDouble (x !!! j) sp in
    let x := <[j := v]> x in
    if ok then (Some x, sp) else (None, sp).

(** ** readRunoff *)
Definition readRunoff : M unit :=
  sp0 <<- get ;;
  foldM (fun (x : list bytes) (i : nat) =>
    for_ (seq 0 3) (fun j => try_readDouble (Subcatch_subArea_depth i j)) ;;;
    try_readDouble (Subcatch_newRunoff i) ;;;
    x <<- foldM try_readDouble_at x (seq 0 6) ;;
    do_ (call (infil_setState i x)) ;;;
    x <<- (if Subcatch_groundwater sp0 i then
             x <<- foldM try_readDouble_at x (seq 0 4) ;;
             do_ (call (gwater_setState i x)) ;;; ret x
           else ret x) ;;
    x <<- (if Subcatch_snowpack sp0 i then
             foldM (fun x j =>
                      x <<- foldM try_readDouble_at x (seq 0 5) ;;
                      do_ (call (snow_setState i j x)) ;;; ret x)
               x (seq 0 3)
           else ret x) ;;
    (if (0 <? Npollut sp0)%nat then
       for_ (seq 0 (Npollut sp0))
         (fun j => try_readDouble (Subcatch_newQual i j)) ;;;
       for_ (seq 0 (Npollut sp0))
         (fun j => try_readDouble (Subcatch_pondedQual i j)) ;;;
       for_ (seq 0 (Nlanduse sp0)) (fun k =>
         for_ (seq 0 (Npollut sp0))
           (fun j => try_readDouble (Subcatch_landFactor_buildup i k j)) ;;;
         try_readDouble (Subcatch_landFactor_lastSwept i k))
     else ret tt) ;;;
    ret x)
    (replicate 6 (indeterminate 8)) (seq 0 (Nsubcatch sp0)) ;;;
  ret tt.

(** ** readRouting *)
Definition readRouting : M unit :=
  sp0 <<- get ;;
  x <<- (if (FileVersion sp0 =? 2)%Z then
           foldM (fun (x : bytes) (i : nat) =>
             x <<- try_readFloat x ;;
             let xgw0 := double_of_float x in
             x <<- try_readFloat x ;;
             let xgw1 := double_of_float x in
             (if Subcatch_groundwater sp0 i
              then do_ (call (gwater_setState i
                                [xgw0; xgw1; double_zero; MISSING]))
              else ret tt) ;;;
             ret x)
             (indeterminate 4) (seq 0 (Nsubcatch sp0))
         else ret (indeterminate 4)) ;;
  x <<- foldM (fun (x : bytes) (i : nat) =>
    x <<- try_readFloat x ;;
    do_ (assign (Node_newDepth i) (double_of_float x)) ;;;
    x <<- try_readFloat x ;;
    do_ (assign (Node_newLatFlow i) (double_of_float x)) ;;;
    x <<- (if (4 <=? FileVersion sp0)%Z
              && bool_decide (Node_type sp0 i = STORAGE) then
             x <<- try_readFloat x ;;
             do_ (assign (Storage_hrt (Node_subIndex sp0 i))
                    (double_of_float x)) ;;;
             ret x
           else ret x) ;;
    x <<- foldM (fun x j =>
                   x <<- try_readFloat x ;;
                   do_ (assign (Node_newQual i j) (double_of_float x)) ;;;
                   ret x)
            x (seq 0 (Npollut sp0)) ;;
    (if (FileVersion sp0 <=? 2)%Z
     then foldM (fun x (_ : nat) => try_readFloat x) x (seq 0 (Npollut sp0))
     else ret x))
    x (seq 0 (Nnode sp0)) ;;
  foldM (fun (x : bytes) (i : nat) =>
    x <<- try_readFloat x ;;
    do_ (assign (Link_newFlow i) (double_of_float x)) ;;;
    x <<- try_readFloat x ;;
    do_ (assign (Link_newDepth i) (double_of_float x)) ;;;
    x <<- try_readFloat x ;;
    do_ (assign (Link_setting i) (double_of_float x)) ;;;
    do_ (assign (Link_targetSetting i) (double_of_float x)) ;;;
    do_ (call (link_setTargetSetting i)) ;;;
    do_ (call (link_setSetting i)) ;;;
    foldM (fun x j =>
             x <<- try_readFloat x ;;
             do_ (assign (Link_newQual i j) (double_of_float x)) ;;;
             ret x)
      x (seq 0 (Npollut sp0)))
    x (seq 0 (Nlink sp0)) ;;;
  ret tt.

(** ** openHotstartFile1 *)

Local Open Scope byte_scope.

Definition fileStamp : bytes :=
  ["S"; "W"; "M"; "M"; "5"; "-"; "H"; "O"; "T"; "S"; "T"; "A"; "R"; "T"; x00].
Definition fStampx_init : bytes :=
  ["S"; "W"; "M"; "M"; "5"; "-"; "H"; "O"; "T"; "S"; "T"; "A"; "R"; "T"; "x";
   x00].
Definition fileStamp2 : bytes :=
  ["S"; "W"; "M"; "M"; "5"; "-"; "H"; "O"; "T"; "S"; "T"; "A"; "R"; "T"; "2";
   x00].
Definition fileStamp3 : bytes :=
  ["S"; "W"; "M"; "M"; "5"; "-"; "H"; "O"; "T"; "S"; "T"; "A"; "R"; "T"; "3";
   x00].
Definition fileStamp4 : bytes :=
  ["S"; "W"; "M"; "M"; "5"; "-"; "H"; "O"; "T"; "S"; "T"; "A"; "R"; "T"; "4";
   x00].

Local Close Scope byte_scope.

(** [fread(buf, sizeof(char), n, file)] *)
Definition fread_chars (n : nat) (buf : bytes) (f : TFile) : bytes * TFile :=
  let '(head, f) := fread (take n buf) f in (head ++ drop n buf, f).

(** [fread(&k, sizeof(int), 1, file)] for an int that holds [k] *)
Definition fread_int (k : Z) (f : TFile) : Z * TFile :=
  let '(b, f) := fread (bytes_of_int k) f in (int_of_bytes b, f).

Definition openHotstartFile1 (sp : Project) : bool * Project :=
  if negb (bool_decide (Fhotstart1_mode sp = USE_FILE)) then (true, sp)
  else
    match Fhotstart1_disk sp with
    | None => (false, report_writeErrorMsg ERR_HOTSTART_FILE_OPEN sp)
    | Some data =>
        let f := {| contents := data; fpos := 0; eof := false |} in
        let '(fStampx, f) := fread_chars 15 fStampx_init f in
        let '(version, f) :=
          if strcmp_eq fStampx fileStamp4 then (Some 4%Z, f)
          else if strcmp_eq fStampx fileStamp3 then (Some 3%Z, f)
          else if strcmp_eq fStampx fileStamp2 then (Some 2%Z, f)
          else
            let f := rewind f in
            let '(fStamp, f) := fread_chars 14 fileStamp f in
            if negb (strcmp_eq fStamp fileStamp) then (None, f)
            else (Some 1%Z, f) in
        match version with
        | None =>
            (false,
             report_writeErrorMsg ERR_HOTSTART_FILE_FORMAT (with_file f sp))
        | Some version =>
            let sp := with_FileVersion version sp in
            let '(nSubcatch, f) :=
              if (2 <=? version)%Z then fread_int (-1) f
              else (Z.of_nat (Nsubcatch sp), f) in
            let '(nLandUses, f) :=
              if (3 <=? version)%Z then fread_int (-1) f
              else (Z.of_nat (Nlanduse sp), f) in
            let '(nNodes, f) := fread_int (-1) f in
            let '(nLinks, f) := fread_int (-1) f in
            let '(nPollut, f) := fread_int (-1) f in
            let '(flowUnits, f) := fread_int (-1) f in
            let sp := with_file f sp in
            if negb ((nSubcatch =? Z.of_nat (Nsubcatch sp))%Z
                     && (nLandUses =? Z.of_nat (Nlanduse sp))%Z
                     && (nNodes =? Z.of_nat (Nnode sp))%Z
                     && (nLinks =? Z.of_nat (Nlink sp))%Z
                     && (nPollut =? Z.of_nat (Npollut sp))%Z
                     && (flowUnits =? FlowUnits sp)%Z)
            then (false, report_writeErrorMsg ERR_HOTSTART_FILE_FORMAT sp)
            else
              let sp :=
                if (3 <=? version)%Z then (readRunoff sp).2 else sp in
              let sp := (readRouting sp).2 in
              if bool_decide (ErrorCode sp = ERR_NONE) then (true, sp)
              else (false, sp)
        end
    end.

End Reader.

(** ** Files to run the code on *)

(** a float is widened by appending zero bytes (the value does not matter
    below), unassigned locals hold zero bytes, MISSING is -1.0e10 *)
Definition simple : Collaborators := {|
  double_of_float := fun x => x ++ [x00; x00; x00; x00];
  indeterminate := fun n => replicate n x00;
  MISSING := [x00; x00; x00; x20; x5f; xa0; x02; xc2] |}.

(** the quiet NaN of a double and of a float *)
Definition double_nan : bytes := [x00; x00; x00; x00; x00; x00; xf8; x7f].
Definition float_nan : bytes := [x00; x00; xc0; x7f].

(** a version 4 file: the stamp, the six counts, the values *)
Definition hotstart4 (nSubcatch nLandUses nNodes nLinks nPollut flowUnits : Z)
    (values : list bytes) : bytes :=
  take 15 fileStamp4
  ++ bytes_of_int nSubcatch ++ bytes_of_int nLandUses ++ bytes_of_int nNodes
  ++ bytes_of_int nLinks ++ bytes_of_int nPollut ++ bytes_of_int flowUnits
  ++ concat values.

(** a project without groundwater, snow packs, land uses and pollutants
    that uses the hot start file [data] *)
Definition project (nsubcatch nnode : nat) (data : bytes) : Project :=
  {| ErrorCode := ERR_NONE; FileVersion := 0; FlowUnits := 0;
     Nsubcatch := nsubcatch; Nlanduse := 0; Nnode := nnode; Nlink := 0;
     Npollut := 0;
     Subcatch_groundwater := fun _ => false;
     Subcatch_snowpack := fun _ => false;
     Node_type := fun _ => JUNCTION; Node_subIndex := fun _ => 0%nat;
     Fhotstart1_mode := USE_FILE; Fhotstart1_disk := Some data;
     Fhotstart1_file := {| contents := []; fpos := 0; eof := false |};
     memory := fun _ => double_zero; calls := [] |}.

(** one subcatchment whose first ponded depth is a NaN, followed by the
    other 9 doubles of its state *)
Definition file_nan_double : bytes :=
  hotstart4 1 0 0 0 0 0 (double_nan :: replicate 9 double_zero).

(** one node whose depth is a NaN, followed by its lateral inflow *)
Definition file_nan_float : bytes :=
  hotstart4 0 0 1 0 0 0 [float_nan; float_zero].

(** ** How a statement may end *)

(** [stops_on_error m]: when [m] makes the function return, the error
    ERR_HOTSTART_FILE_READ has been reported; when control goes on, the
    error code is as it was *)
Definition stops_on_error {A} (m : M A) : Prop :=
  forall sp,
    match (m sp).1 with
    | None => ErrorCode (m sp).2 = ERR_HOTSTART_FILE_READ
    | Some _ => ErrorCode (m sp).2 = ErrorCode sp
    end.

(** [keeps R m]: the project after [m] is related by [R] to the project
    before *)
Definition keeps {A} (R : Project -> Project -> Prop) (m : M A) : Prop :=
  forall sp, R sp (m sp).2.

(** what a reader may do to the file version and the error code: it
    leaves the version, and reports no error other than
    ERR_HOTSTART_FILE_READ *)
Definition read_step (sp sp' : Project) : Prop :=
  FileVersion sp' = FileVersion sp
  /\ (ErrorCode sp' = ErrorCode sp
      \/ ErrorCode sp' = ERR_HOTSTART_FILE_READ).

(** ** openHotstartFile2

    The stamp is the local [fileStamp] of the function, without its NUL.
    [mode] is [Fhotstart2.mode] and [fopen_ok] tells whether [fopen]
    succeeded; the result is the returned value, the project and, when
    the file was opened, what has been written to it. *)
Definition openHotstartFile2 (mode : FileUsageType) (fopen_ok : bool)
    (sp : Project) : bool * Project * option bytes :=
  if negb (bool_decide (mode = SAVE_FILE)) then (true, sp, None)
  else if negb fopen_ok
  then (false, report_writeErrorMsg ERR_HOTSTART_FILE_OPEN sp, None)
  else
    (true, sp,
     Some (take 15 fileStamp4
           ++ bytes_of_int (Z.of_nat (Nsubcatch sp))
           ++ bytes_of_int (Z.of_nat (Nlanduse sp))
           ++ bytes_of_int (Z.of_nat (Nnode sp))
           ++ bytes_of_int (Z.of_nat (Nlink sp))
           ++ bytes_of_int (Z.of_nat (Npollut sp))
           ++ bytes_of_int (FlowUnits sp))).

(** ** saveRouting

    [Fhotstart2.file] is open for writing and only ever appended to: it
    is the list of the bytes written so far.  [float_of_double] is the
    cast [(float)x] of a double. *)

(** [fwrite(x, size, n, file)] of the bytes [x] *)
Definition fwrite (x : bytes) (file : bytes) : bytes := file ++ x.

Section Writer.

Variable float_of_double : bytes -> bytes.

Definition saveRouting (sp : Project) (file : bytes) : bytes :=
  let file :=
    foldl (fun file i =>
      let x0 := float_of_double (memory sp (Node_newDepth i)) in
      let x1 := float_of_double (memory sp (Node_newLatFlow i)) in
      let file := fwrite (x0 ++ x1) file in
      let file :=
        if bool_decide (Node_type sp i = STORAGE) then
          let j := Node_subIndex sp i in
          let x0 := float_of_double (memory sp (Storage_hrt j)) in
          fwrite x0 file
        else file in
      foldl (fun file j =>
               let x0 := float_of_double (memory sp (Node_newQual i j)) in
               fwrite x0 file)
        file (seq 0 (Npollut sp)))
      file (seq 0 (Nnode sp)) in
  foldl (fun file i =>
    let x0 := float_of_double (memory sp (Link_newFlow i)) in
    let x1 := float_of_double (memory sp (Link_newDepth i)) in
    let x2 := float_of_double (memory sp (Link_setting i)) in
    let file := fwrite (x0 ++ x1 ++ x2) file in
    foldl (fun file j =>
             let x0 := float_of_double (memory sp (Link_newQual i j)) in
             fwrite x0 file)
      file (seq 0 (Npollut sp)))
    file (seq 0 (Nlink sp)).

End Writer.

(** ** saveRunoff

    [infil_getState], [gwater_getState] and [snow_getState] (infil.c,
    gwater.c, snow.c) store the state of a subcatchment in the array they
    are given: each maps the array before the call to the array after
    it.  The array [x] of the function has [sizeX] doubles, all 0.0 after
    [calloc]. *)
Section RunoffWriter.

Variable infil_getState : nat -> list bytes -> list bytes.
Variable gwater_getState : nat -> list bytes -> list bytes.
Variable snow_getState : nat -> nat -> list bytes -> list bytes.

(** [fwrite(x, sizeof(double), n, f)] *)
Definition fwrite_doubles (n : nat) (x : list bytes) (file : bytes) : bytes :=
  fwrite (concat (take n x)) file.

Definition saveRunoff (sp : Project) (file : bytes) : bytes :=
  let sizeX := Nat.max 6 (Npollut sp + 1) in
  let x := replicate sizeX double_zero in
  (foldl (fun '(x, file) i =>
     let x := foldl (fun x j => <[j := memory sp (Subcatch_subArea_depth i j)]> x)
                x (seq 0 3) in
     let x := <[3 := memory sp (Subcatch_newRunoff i)]> x in
     let file := fwrite_doubles 4 x file in
     let x := foldl (fun x j => <[j := double_zero]> x) x (seq 0 sizeX) in
     let x := infil_getState i x in
     let file := fwrite_doubles 6 x file in
     let '(x, file) :=
       if Subcatch_groundwater sp i then
         let x := gwater_getState i x in
         (x, fwrite_doubles 4 x file)
       else (x, file) in
     let '(x, file) :=
       if Subcatch_snowpack sp i then
         foldl (fun '(x, file) j =>
                  let x := snow_getState i j x in
                  (x, fwrite_doubles 5 x file))
           (x, file) (seq 0 3)
       else (x, file) in
     if (0 <? Npollut sp)%nat then
       let x := foldl (fun x j => <[j := memory sp (Subcatch_newQual i j)]> x)
                  x (seq 0 (Npollut sp)) in
       let file := fwrite_doubles (Npollut sp) x file in
       let x := foldl (fun x j => <[j := memory sp (Subcatch_pondedQual i j)]> x)
                  x (seq 0 (Npollut sp)) in
       let file := fwrite_doubles (Npollut sp) x file in
       foldl (fun '(x, file) k =>
                let x :=
                  foldl (fun x j =>
                           <[j := memory sp (Subcatch_landFactor_buildup i k j)]> x)
                    x (seq 0 (Npollut sp)) in
                let file := fwrite_doubles (Npollut sp) x file in
                let x := <[0 := memory sp (Subcatch_landFactor_lastSwept i k)]> x in
                (x, fwrite_doubles 1 x file))
         (x, file) (seq 0 (Nlanduse sp))
     else (x, file))
     (x, file) (seq 0 (Nsubcatch sp))).2.

(** the array after [infil_getState], [gwater_getState] and
    [snow_getState] for subcatchment [i], as [saveRunoff] calls them *)
Definition infil_state (sp : Project) (i : nat) : list bytes :=
  infil_getState i (replicate (Nat.max 6 (Npollut sp + 1)) double_zero).

Definition gwater_state (sp : Project) (i : nat) : list bytes :=
  gwater_getState i (infil_state sp i).

Definition snow_state (sp : Project) (i j : nat) : list bytes :=
  foldl (fun x j => snow_getState i j x)
    (if Subcatch_groundwater sp i then gwater_state sp i
     else infil_state sp i)
    (seq 0 (S j)).

(** the calls that [readRunoff] makes for subcatchment [i] of a file that
    [saveRunoff] wrote for [sp]: each routine is given the doubles that
    were saved for it, followed by what the 6 doubles of the reader's
    array held before *)
Definition restored_calls (sp : Project) (i : nat) : list Call :=
  [infil_setState i (take 6 (infil_state sp i))]
  ++ (if Subcatch_groundwater sp i
      then [gwater_setState i (take 4 (gwater_state sp i)
                               ++ drop 4 (take 6 (infil_state sp i)))]
      else [])
  ++ (if Subcatch_snowpack sp i
      then map (fun j => snow_setState i j
                           (take 5 (snow_state sp i j)
                            ++ drop 5 (take 6 (infil_state sp i))))
             (seq 0 3)
      else []).

End RunoffWriter.

(** ** hotstart_close

    [file2] is [Fhotstart2.file]: [None] for NULL, otherwise what has
    been written to the stream; the result is the file that is left when
    the stream has been closed. *)
Section Close.

Variable float_of_double : bytes -> bytes.
Variable infil_getState : nat -> list bytes -> list bytes.
Variable gwater_getState : nat -> list bytes -> list bytes.
Variable snow_getState : nat -> nat -> list bytes -> list bytes.

Definition hotstart_close (file2 : option bytes) (sp : Project)
    : option bytes :=
  match file2 with
  | Some file =>
      let file :=
        saveRunoff infil_getState gwater_getState snow_getState sp file in
      let file := saveRouting float_of_double sp file in
      Some file
  | None => None
  end.

End Close.

(** ** Reading what was written

    [frame sp] is what no reader assigns.  [reads W ok e m bs D cs Q]: on
    a stream that holds the bytes [bs] at its position, with the
    end-of-file indicator [e], the statement [m] goes on to the next
    statement with a value that satisfies [Q]; it has consumed [bs],
    reported no error and made the calls [cs]; the fields in [D] hold [W]
    of the field and the other fields what they held before.  [ok] is
    what is known of every field before and of every value of [W]. *)
Definition frame (sp : Project) :=
  (FileVersion sp, FlowUnits sp, Nsubcatch sp, Nlanduse sp, Nnode sp,
   Nlink sp, Npollut sp, Subcatch_groundwater sp, Subcatch_snowpack sp,
   Node_type sp, Node_subIndex sp, Fhotstart1_mode sp, Fhotstart1_disk sp).

Definition reads {A} (W : Field -> bytes) (ok : bytes -> Prop) (e : bool)
    (m : M A) (bs : bytes) (D : Field -> Prop) (cs : list Call)
    (Q : A -> Prop) : Prop :=
  forall sp pre rest,
    contents (Fhotstart1_file sp) = pre ++ bs ++ rest ->
    fpos (Fhotstart1_file sp) = length pre ->
    eof (Fhotstart1_file sp) = e ->
    (forall fld, ok (memory sp fld)) ->
    exists a sp',
      m sp = (Some a, sp') /\ Q a
      /\ Fhotstart1_file sp'
         = {| contents := contents (Fhotstart1_file sp);
              fpos := length pre + length bs; eof := e |}
      /\ ErrorCode sp' = ErrorCode sp
      /\ frame sp' = frame sp
      /\ calls sp' = calls sp ++ cs
      /\ (forall fld, D fld -> memory sp' fld = W fld)
      /\ (forall fld, ~ D fld -> memory sp' fld = memory sp fld)
      /\ (forall fld, memory sp' fld = W fld \/ memory sp' fld = memory sp fld).

(** the fields that [saveRouting] and [readRouting] deal with *)
Definition routing_field (sp : Project) (fld : Field) : Prop :=
  match fld with
  | Node_newDepth i | Node_newLatFlow i => (i < Nnode sp)%nat
  | Storage_hrt k =>
      exists i, (i < Nnode sp)%nat /\ Node_type sp i = STORAGE
                /\ Node_subIndex sp i = k
  | Node_newQual i j => (i < Nnode sp)%nat /\ (j < Npollut sp)%nat
  | Link_newFlow i | Link_newDepth i | Link_setting i | Link_targetSetting i =>
      (i < Nlink sp)%nat
  | Link_newQual i j => (i < Nlink sp)%nat /\ (j < Npollut sp)%nat
  | _ => False
  end.

Section Restored.

Context `{Collaborators}.
Variable float_of_double : bytes -> bytes.

(** what a field holds after [sp] has been saved and read again: its
    value in [sp] cast to a float and back; the target setting of a link
    is read from its setting *)
Definition restored (sp : Project) (fld : Field) : bytes :=
  double_of_float
    (float_of_double
       (memory sp match fld with
                  | Link_targetSetting i => Link_setting i
                  | _ => fld
                  end)).

End Restored.

(** a double that is a number: 8 bytes that are no NaN *)
Definition is_double (b : bytes) : Prop :=
  length b = 8%nat /\ double_isnan b = false.

(** the fields that [saveRunoff] and [readRunoff] deal with *)
Definition runoff_field (sp : Project) (fld : Field) : Prop :=
  match fld with
  | Subcatch_subArea_depth i j => (i < Nsubcatch sp)%nat /\ (j < 3)%nat
  | Subcatch_newRunoff i => (i < Nsubcatch sp)%nat
  | Subcatch_newQual i j | Subcatch_pondedQual i j =>
      (i < Nsubcatch sp)%nat /\ (j < Npollut sp)%nat
  | Subcatch_landFactor_buildup i k j =>
      (i < Nsubcatch sp)%nat /\ (k < Nlanduse sp)%nat /\ (j < Npollut sp)%nat
  | Subcatch_landFactor_lastSwept i k =>
      (i < Nsubcatch sp)%nat /\ (k < Nlanduse sp)%nat /\ (0 < Npollut sp)%nat
  | _ => False
  end.

(** ** A project to save and read again

    One subcatchment with groundwater and a snow pack, one land use and
    one pollutant, a junction, a storage node and one link; every state
    variable holds 0.0.  [narrow] stands in for the cast to a float (the
    first four bytes; the value does not matter below), [no_state] and
    [no_snow] for routines that leave the array alone: the state they
    store is 0.0. *)
Definition narrow (v : bytes) : bytes := take 4 (v ++ float_zero).
Definition no_state (i : nat) (x : list bytes) : list bytes := x.
Definition no_snow (i j : nat) (x : list bytes) : list bytes := x.

Definition catchment (data : bytes) : Project :=
  {| ErrorCode := ERR_NONE; FileVersion := 0; FlowUnits := 0;
     Nsubcatch := 1; Nlanduse := 1; Nnode := 2; Nlink := 1; Npollut := 1;
     Subcatch_groundwater := fun _ => true;
     Subcatch_snowpack := fun _ => true;
     Node_type := fun i => if (i =? 1)%nat then STORAGE else JUNCTION;
     Node_subIndex := fun _ => 0%nat;
     Fhotstart1_mode := USE_FILE; Fhotstart1_disk := Some data;
     Fhotstart1_file := {| contents := []; fpos := 0; eof := false |};
     memory := fun _ => double_zero; calls := [] |}.

(** [catchment] as it is after the header of a version 4 file: the
    stream holds [data], nothing of it has been read *)
Definition catchment_at (data : bytes) : Project :=
  with_file {| contents := data; fpos := 0; eof := false |}
    (with_FileVersion 4 (catchment data)).

(** the hot start file that [catchment] saves *)
Definition catchment_file : bytes :=
  match
    hotstart_close narrow no_state no_state no_snow
      (openHotstartFile2 SAVE_FILE true (catchment [])).2 (catchment [])
  with
  | Some data => data
  | None => []
  end.

End Hotstart.

(** * runoff.c: the runoff interface file *)

Module RunoffFile.

Import Hotstart (bytes, TFile, Build_TFile, contents, fpos, eof, fread_chars,
                 fread_int, bytes_of_int, strcmp_eq).

(** ** The stream

    The file is open for update ("r+b" or "w+b"): reading is that of the
    hot start reader; [fwrite] puts the bytes at the file position, over
    what is there, after a gap of zero bytes when the position lies
    beyond the end; [fseek(file, offset, SEEK_SET)] fails, leaving the
    position, on a negative offset. *)
Definition fwrite (data : bytes) (f : TFile) : TFile :=
  {| contents :=
       take (fpos f) (contents f)
       ++ replicate (fpos f - length (contents f)) x00
       ++ data ++ drop (fpos f + length data) (contents f);
     fpos := fpos f + length data;
     eof := eof f |}.

Definition fseek (offset : Z) (f : TFile) : TFile :=
  if (offset <? 0)%Z then f
  else {| contents := contents f; fpos := Z.to_nat offset; eof := false |}.

Definition ftell (f : TFile) : Z := Z.of_nat (fpos f).

(** ** Data model *)

Inductive FileUsageType := NO_FILE | SCRATCH_FILE | USE_FILE | SAVE_FILE.
Inductive ErrorType := ERR_NONE | ERR_RUNOFF_FILE_FORMAT | ERR_OTHER.

#[global] Instance FileUsageType_eq_dec : EqDecision FileUsageType.
Proof. solve_decision. Defined.
#[global] Instance ErrorType_eq_dec : EqDecision ErrorType.
Proof. solve_decision. Defined.

(** [Frunoff_file] is [None] for a NULL stream *)
Record Project := {
  ErrorCode : ErrorType;
  Nsubcatch : nat;
  Npollut : nat;
  FlowUnits : Z;
  Frunoff_mode : FileUsageType;
  Frunoff_file : option TFile;
  MaxSteps : Z;
  MaxStepsPos : Z;
  Nsteps : Z }.

Definition with_file (f : TFile) (sp : Project) : Project :=
  {| ErrorCode := ErrorCode sp; Nsubcatch := Nsubcatch sp;
     Npollut := Npollut sp; FlowUnits := FlowUnits sp;
     Frunoff_mode := Frunoff_mode sp; Frunoff_file := Some f;
     MaxSteps := MaxSteps sp; MaxStepsPos := MaxStepsPos sp;
     Nsteps := Nsteps sp |}.

Definition with_MaxSteps (n : Z) (sp : Project) : Project :=
  {| ErrorCode := ErrorCode sp; Nsubcatch := Nsubcatch sp;
     Npollut := Npollut sp; FlowUnits := FlowUnits sp;
     Frunoff_mode := Frunoff_mode sp; Frunoff_file := Frunoff_file sp;
     MaxSteps := n; MaxStepsPos := MaxStepsPos sp; Nsteps := Nsteps sp |}.

Definition with_MaxStepsPos (n : Z) (sp : Project) : Project :=
  {| ErrorCode := ErrorCode sp; Nsubcatch := Nsubcatch sp;
     Npollut := Npollut sp; FlowUnits := FlowUnits sp;
     Frunoff_mode := Frunoff_mode sp; Frunoff_file := Frunoff_file sp;
     MaxSteps := MaxSteps sp; MaxStepsPos := n; Nsteps := Nsteps sp |}.

(** [report_writeErrorMsg] (report.c) sets the error code of the project;
    the message it prints is left out. *)
Definition report_writeErrorMsg (code : ErrorType) (sp : Project) : Project :=
  {| ErrorCode := code; Nsubcatch := Nsubcatch sp;
     Npollut := Npollut sp; FlowUnits := FlowUnits sp;
     Frunoff_mode := Frunoff_mode sp; Frunoff_file := Frunoff_file sp;
     MaxSteps := MaxSteps sp; MaxStepsPos := MaxStepsPos sp;
     Nsteps := Nsteps sp |}.

Local Open Scope byte_scope.

(** ["SWMM5-RUNOFF"], with its NUL *)
Definition fileStamp : bytes :=
  ["S"; "W"; "M"; "M"; "5"; "-"; "R"; "U"; "N"; "O"; "F"; "F"; x00].

Local Close Scope byte_scope.

(** ** runoff_initFile

    [runoff_open] calls it with the stream open; with a NULL stream
    nothing is read or written here. *)
Definition runoff_initFile (sp : Project) : Project :=
  let sp := with_MaxSteps 0 sp in
  let sp :=
    match Frunoff_file sp with
    | Some f =>
        if bool_decide (Frunoff_mode sp = SAVE_FILE) then
          let f := fwrite (take 12 fileStamp) f in
          let f := fwrite (bytes_of_int (Z.of_nat (Nsubcatch sp))) f in
          let f := fwrite (bytes_of_int (Z.of_nat (Npollut sp))) f in
          let f := fwrite (bytes_of_int (FlowUnits sp)) f in
          let sp := with_MaxStepsPos (ftell f) sp in
          let f := fwrite (bytes_of_int (MaxSteps sp)) f in
          with_file f sp
        else sp
    | None => sp
    end in
  match Frunoff_file sp with
  | Some f =>
      if bool_decide (Frunoff_mode sp = USE_FILE) then
        let '(fStamp, f) := fread_chars 12 fileStamp f in
        let sp := with_file f sp in
        if negb (strcmp_eq fStamp fileStamp)
        then report_writeErrorMsg ERR_RUNOFF_FILE_FORMAT sp
        else
          let '(nSubcatch, f) := fread_int (-1) f in
          let '(nPollut, f) := fread_int (-1) f in
          let '(flowUnits, f) := fread_int (-1) f in
          let '(maxSteps, f) := fread_int (MaxSteps sp) f in
          let sp := with_file f (with_MaxSteps maxSteps sp) in
          if negb (nSubcatch =? Z.of_nat (Nsubcatch sp))%Z
             || negb (nPollut =? Z.of_nat (Npollut sp))%Z
             || negb (flowUnits =? FlowUnits sp)%Z
             || (MaxSteps sp <=? 0)%Z
          then report_writeErrorMsg ERR_RUNOFF_FILE_FORMAT sp
          else sp
      else sp
  | None => sp
  end.

(** ** runoff_close

    What it does to the interface file; the result is the file that is
    left when the stream has been closed. *)
Definition runoff_close (sp : Project) : option bytes :=
  match Frunoff_file sp with
  | Some f =>
      let f :=
        if bool_decide (Frunoff_mode sp = SAVE_FILE) then
          let f := fseek (MaxStepsPos sp) f in
          fwrite (bytes_of_int (Nsteps sp)) f
        else f in
      Some (contents f)
  | None => None
  end.

(** ** Notions and data for the properties *)

(** the state of a saving project later in the run: [body] has been
    appended to the file, and [n] steps have been counted *)
Definition after_steps (body : bytes) (n : Z) (sp : Project) : Project :=
  {| ErrorCode := ErrorCode sp; Nsubcatch := Nsubcatch sp;
     Npollut := Npollut sp; FlowUnits := FlowUnits sp;
     Frunoff_mode := Frunoff_mode sp;
     Frunoff_file :=
       match Frunoff_file sp with
       | Some f =>
           Some {| contents := contents f ++ body;
                   fpos := length (contents f ++ body); eof := eof f |}
       | None => None
       end;
     MaxSteps := MaxSteps sp; MaxStepsPos := MaxStepsPos sp; Nsteps := n |}.

(** a project with 2 subcatchments and 1 pollutant whose interface file
    holds [data] and has just been opened *)
Definition interface (mode : FileUsageType) (data : bytes) : Project :=
  {| ErrorCode := ERR_NONE; Nsubcatch := 2; Npollut := 1; FlowUnits := 0;
     Frunoff_mode := mode;
     Frunoff_file := Some {| contents := data; fpos := 0; eof := false |};
     MaxSteps := 0; MaxStepsPos := 0; Nsteps := 0 |}.

End RunoffFile.

(** * Part II: the properties *)

(** ** Comparisons and macros on doubles *)

Lemma Qltb_true x y : Qltb x y = true <-> (x < y)%Q.
Proof.
  unfold Qltb. rewrite negb_true_iff, <- not_true_iff_false, Qle_bool_iff.
  split; [apply Qnot_le_lt | apply Qlt_not_le].
Qed.

Lemma Qltb_false x y : Qltb x y = false <-> (y <= x)%Q.
Proof. unfold Qltb. rewrite negb_false_iff. apply Qle_bool_iff. Qed.

Lemma MAX_ge_l x y : (x <= MAX x y)%Q.
Proof.
  unfold MAX. destruct (Qle_bool y x) eqn:E; [lra|].
  apply not_true_iff_false in E. rewrite Qle_bool_iff in E. lra.
Qed.

(** * Properties of flowrout.c *)

Module FlowroutFacts.

Import Flowrout.

Local Open Scope Q_scope.

Section Routing.

Context `{Collaborators}.

(** ** Reading a project after an assignment *)

Lemma upd_node_Node i f sp : Node (upd_node i f sp) = alter f i (Node sp).
Proof. reflexivity. Qed.

Lemma upd_node_length i f sp :
  length (Node (upd_node i f sp)) = length (Node sp).
Proof. apply length_alter. Qed.

Lemma upd_node_at i f sp :
  (i < length (Node sp))%nat ->
  Node (upd_node i f sp) !!! i = f (Node sp !!! i).
Proof. intros Hi. now apply list_lookup_total_alter_eq. Qed.

Lemma upd_node_other i k f sp :
  k <> i -> Node (upd_node i f sp) !! k = Node sp !! k.
Proof. intros Hk. apply list_lookup_alter_ne. congruence. Qed.

Lemma upd_conduit_at k f sp :
  (k < length (Conduit sp))%nat ->
  Conduit (upd_conduit k f sp) !!! k = f (Conduit sp !!! k).
Proof. intros Hk. now apply list_lookup_total_alter_eq. Qed.

(** a total lookup agrees with a successful partial one *)
Lemma lookup_total_of_Some {A} `{Inhabited A} (l : list A) k x :
  l !! k = Some x -> l !!! k = x /\ (k < length l)%nat.
Proof.
  intros Hk. split.
  - now apply list_lookup_total_correct.
  - eapply lookup_lt_Some, Hk.
Qed.

(** ** Frame of the node updates *)

Lemma touches_refl i sp : touches i sp sp.
Proof. constructor; auto. Qed.

Lemma touches_trans i sp sp1 sp2 :
  touches i sp sp1 -> touches i sp1 sp2 -> touches i sp sp2.
Proof.
  intros [] []. constructor; try congruence.
  - intros k Hk. rewrite t_other1, t_other0; auto.
  - auto.
  - intros Hns. rewrite t_mark_ns1, t_mark_ns0; congruence.
Qed.

Lemma touches_upd_node i f sp :
  keeps_identity f -> touches i sp (upd_node i f sp).
Proof.
  intros Hf.
  assert (Hi : Node (upd_node i f sp) !!! i = Node sp !!! i
               \/ Node (upd_node i f sp) !!! i = f (Node sp !!! i)).
  { rewrite upd_node_Node, list_lookup_total_alter.
    destruct (decide _); auto. }
  constructor; try reflexivity.
  - apply upd_node_length.
  - intros k Hk. now apply upd_node_other.
  - destruct Hi as [-> | ->]; [reflexivity | apply Hf].
  - destruct Hi as [-> | ->]; [reflexivity | apply Hf].
  - destruct Hi as [-> | ->]; [auto | intros <-; apply Hf].
  - destruct Hi as [-> | ->]; [auto | intros _; apply Hf].
Qed.

Lemma keeps_set_overflow x : keeps_identity (set_overflow x).
Proof. now intros []. Qed.
Lemma keeps_set_newVolume x : keeps_identity (set_newVolume x).
Proof. now intros []. Qed.
Lemma keeps_set_newDepth x : keeps_identity (set_newDepth x).
Proof. now intros []. Qed.
Lemma keeps_set_inflow g : keeps_identity (fun n => set_inflow (g n) n).
Proof. now intros []. Qed.
Lemma keeps_set_outflow g : keeps_identity (fun n => set_outflow (g n) n).
Proof. now intros []. Qed.

Create HintDb frame.
#[local] Hint Resolve touches_refl touches_upd_node keeps_set_overflow
  keeps_set_newVolume keeps_set_newDepth keeps_set_inflow keeps_set_outflow
  : frame.

Ltac frame :=
  repeat first
    [ apply touches_refl
    | eapply touches_trans; [ | apply touches_upd_node; auto with frame ] ].

Lemma updateStorageState_pass_touches sp i j links dt vFixed d1 :
  touches i sp (updateStorageState_pass sp i j links dt vFixed d1).1.1.
Proof.
  unfold updateStorageState_pass. cbn zeta.
  repeat (case_match; simplify_eq/=).
  all: frame.
Qed.

Ltac node_at :=
  repeat (rewrite upd_node_at in * by (rewrite ?upd_node_length; assumption)).

Lemma updateStorageState_pass_nonneg sp i j links dt vFixed d1 :
  (i < length (Node sp))%nat ->
  0 <= FUDGE ->
  0 <= fullVolume (Node sp !!! i) ->
  nonneg_state
    (Node (updateStorageState_pass sp i j links dt vFixed d1).1.1 !!! i).
Proof.
  intros Hi HF Hfull.
  unfold updateStorageState_pass. cbn zeta.
  pose proof (MAX_ge_l 0 (vFixed - 0.5 * getStorageOutflow sp i j links dt * dt)) as Hv.
  set (v0 := MAX 0 _) in *. clearbody v0.
  repeat case_match; simplify_eq.
  all: cbn [fst snd].
  all: node_at.
  all: unfold nonneg_state.
  all: cbn [overflow newVolume fullVolume set_overflow set_newVolume set_newDepth] in *.
  all: rewrite ?Qltb_true, ?Qltb_false in *.
  all: split; lra.
Qed.

Lemma updateStorageState_loop_touches fuel : forall sp i j links dt vFixed d1 iter stopped,
  touches i sp
    (updateStorageState_loop fuel sp i j links dt vFixed d1 iter stopped).1.1.1.
Proof.
  induction fuel as [|fuel IH]; intros; cbn [updateStorageState_loop].
  - apply touches_refl.
  - destruct ((iter <? MAXITER)%Z && negb stopped); [|apply touches_refl].
    pose proof (updateStorageState_pass_touches sp i j links dt vFixed d1) as Hp.
    destruct (updateStorageState_pass sp i j links dt vFixed d1) as [[sp1 d2] st].
    eapply touches_trans; [exact Hp | apply IH].
Qed.

Lemma updateStorageState_loop_nonneg fuel : forall sp i j links dt vFixed d1 iter stopped,
  (i < length (Node sp))%nat ->
  0 <= FUDGE ->
  0 <= fullVolume (Node sp !!! i) ->
  nonneg_state (Node sp !!! i)
  \/ (fuel <> O /\ (iter <? MAXITER)%Z && negb stopped = true) ->
  nonneg_state
    (Node (updateStorageState_loop fuel sp i j links dt vFixed d1 iter
             stopped).1.1.1 !!! i).
Proof.
  induction fuel as [|fuel IH]; intros sp i j links dt vFixed d1 iter stopped
    Hi HF Hfull Hstart; cbn [updateStorageState_loop].
  - destruct Hstart as [Hn | [Hfuel _]]; [exact Hn | congruence].
  - destruct ((iter <? MAXITER)%Z && negb stopped) eqn:Hc.
    + pose proof (updateStorageState_pass_touches sp i j links dt vFixed d1) as Hp.
      pose proof (updateStorageState_pass_nonneg sp i j links dt vFixed d1
                    Hi HF Hfull) as Hg.
      destruct (updateStorageState_pass sp i j links dt vFixed d1) as [[sp1 d2] st].
      cbn [fst] in Hp, Hg. apply IH; auto.
      * rewrite (t_length _ _ _ Hp). exact Hi.
      * rewrite (t_fullVolume _ _ _ Hp). exact Hfull.
    + destruct Hstart as [Hn | [_ Hf]]; [exact Hn | congruence].
Qed.

(** The recursion is given enough fuel: at exit the loop condition
    [iter < MAXITER && !stopped] is false, and [iter] has not passed
    [MAXITER]. *)
Lemma updateStorageState_loop_exit fuel : forall sp i j links dt vFixed d1 iter stopped,
  (MAXITER - iter <= Z.of_nat fuel)%Z ->
  (iter <= MAXITER)%Z ->
  let r := updateStorageState_loop fuel sp i j links dt vFixed d1 iter stopped in
  (r.1.2 <? MAXITER)%Z && negb r.2 = false
  /\ (iter <= r.1.2 <= MAXITER)%Z.
Proof.
  induction fuel as [|fuel IH]; intros sp i j links dt vFixed d1 iter stopped
    Hfuel Hle; cbn [updateStorageState_loop].
  - cbn [fst snd]. split; [|lia].
    apply andb_false_iff. left. apply Z.ltb_ge. lia.
  - destruct ((iter <? MAXITER)%Z && negb stopped) eqn:Hc.
    + destruct (updateStorageState_pass sp i j links dt vFixed d1) as [[sp1 d2] st].
      apply andb_true_iff in Hc as [Hlt _]. apply Z.ltb_lt in Hlt.
      specialize (IH sp1 i j links dt vFixed d2 (iter + 1)%Z st).
      cbn zeta in IH. destruct IH as [IH1 IH2]; [lia | lia |].
      split; [exact IH1 | lia].
    + cbn [fst snd]. split; [exact Hc | lia].
Qed.

Lemma touches_mark i sp :
  n_type (Node sp !!! i) = STORAGE ->
  touches i sp (upd_node i (set_updated true) sp).
Proof.
  intros Hst.
  assert (Hi : Node (upd_node i (set_updated true) sp) !!! i = Node sp !!! i
               \/ Node (upd_node i (set_updated true) sp) !!! i
                  = set_updated true (Node sp !!! i)).
  { rewrite upd_node_Node, list_lookup_total_alter.
    destruct (decide _); auto. }
  constructor; try reflexivity.
  - apply upd_node_length.
  - intros k Hk. now apply upd_node_other.
  - destruct Hi as [-> | ->]; reflexivity.
  - destruct Hi as [-> | ->]; reflexivity.
  - destruct Hi as [-> | ->]; auto.
  - congruence.
Qed.

Lemma updateStorageState_touches sp i j links dt :
  touches i sp (updateStorageState sp i j links dt).
Proof.
  unfold updateStorageState.
  destruct (bool_decide (n_type (Node sp !!! i) = STORAGE)) eqn:Hst;
    cbn [negb]; [|apply touches_refl].
  destruct (updated (Node sp !!! i)); [apply touches_refl|].
  apply bool_decide_eq_true in Hst.
  match goal with |- context [updateStorageState_loop ?f ?s ?i ?j ?l ?d ?v ?d1 ?it ?st] =>
    pose proof (updateStorageState_loop_touches f s i j l d v d1 it st) as Hl;
    destruct (updateStorageState_loop f s i j l d v d1 it st) as [[[sp1 d2] it'] st']
  end.
  cbn [fst] in Hl. eapply touches_trans; [exact Hl|].
  apply touches_mark. rewrite (t_type _ _ _ Hl). exact Hst.
Qed.

(** a storage node is marked by its update *)
Lemma updateStorageState_marks sp i j links dt :
  (i < length (Node sp))%nat ->
  n_type (Node sp !!! i) = STORAGE ->
  updated (Node (updateStorageState sp i j links dt) !!! i) = true.
Proof.
  intros Hi Hst. unfold updateStorageState.
  rewrite (bool_decide_eq_true_2 _ Hst). cbn [negb].
  destruct (updated (Node sp !!! i)) eqn:Hu; [exact Hu|].
  match goal with |- context [updateStorageState_loop ?f ?s ?i ?j ?l ?d ?v ?d1 ?it ?st] =>
    pose proof (updateStorageState_loop_touches f s i j l d v d1 it st) as Hl;
    destruct (updateStorageState_loop f s i j l d v d1 it st) as [[[sp1 d2] it'] st']
  end.
  cbn [fst] in Hl. rewrite upd_node_at; [reflexivity|].
  rewrite (t_length _ _ _ Hl). exact Hi.
Qed.

(** ... and its overflow and volume are not negative afterwards *)
Lemma updateStorageState_nonneg sp i j links dt :
  (i < length (Node sp))%nat ->
  0 <= FUDGE ->
  0 <= fullVolume (Node sp !!! i) ->
  n_type (Node sp !!! i) = STORAGE ->
  updated (Node sp !!! i) = false ->
  nonneg_state (Node (updateStorageState sp i j links dt) !!! i).
Proof.
  intros Hi HF Hfull Hst Hu. unfold updateStorageState.
  rewrite (bool_decide_eq_true_2 _ Hst), Hu. cbn [negb].
  match goal with |- context [updateStorageState_loop ?f ?s ?i ?j ?l ?d ?v ?d1 ?it ?st] =>
    pose proof (updateStorageState_loop_touches f s i j l d v d1 it st) as Hl;
    pose proof (updateStorageState_loop_nonneg f s i j l d v d1 it st Hi HF Hfull) as Hn;
    destruct (updateStorageState_loop f s i j l d v d1 it st) as [[[sp1 d2] it'] st']
  end.
  cbn [fst] in Hl, Hn. rewrite upd_node_at by (rewrite (t_length _ _ _ Hl); exact Hi).
  destruct Hn as [Ho Hv]; [right; split; [discriminate | reflexivity] |].
  split; [exact Ho | exact Hv].
Qed.

Lemma updateStorageState_skip sp i j links dt :
  n_type (Node sp !!! i) <> STORAGE \/ updated (Node sp !!! i) = true ->
  updateStorageState sp i j links dt = sp.
Proof.
  intros Hs. unfold updateStorageState.
  destruct (bool_decide (n_type (Node sp !!! i) = STORAGE)) eqn:Hst;
    cbn [negb]; [|reflexivity].
  apply bool_decide_eq_true in Hst.
  destruct Hs as [Hs | ->]; [contradiction | reflexivity].
Qed.

(** ** What one routing step may do to a node *)

#[local] Instance node_step_refl : Reflexive node_step.
Proof.
  intros n. unfold node_step. repeat split; auto; intros; congruence.
Qed.

#[local] Instance node_step_trans : Transitive node_step.
Proof.
  intros a b c (T1 & F1 & N1 & M1 & V1 & G1) (T2 & F2 & N2 & M2 & V2 & G2).
  unfold node_step. split; [congruence|]. split; [congruence|].
  split; [intros Hns; rewrite N2, N1; congruence|].
  split; [auto|]. split.
  - intros Hs Hu. destruct (V1 Hs Hu) as [Eo Ev].
    destruct V2 as [Eo' Ev']; [congruence | auto |].
    split; congruence.
  - intros Hs Hu Hu' HF Hf. destruct (updated b) eqn:Hb.
    + destruct G1 as [Ho Hv]; auto.
      destruct V2 as [Eo Ev]; [congruence | auto |].
      split; [rewrite Eo; exact Ho | rewrite Ev; exact Hv].
    + apply G2; auto; congruence.
Qed.

#[local] Instance keeps_volumes_refl : Reflexive keeps_volumes.
Proof. intros n. unfold keeps_volumes. auto. Qed.

#[local] Instance keeps_volumes_trans : Transitive keeps_volumes.
Proof.
  intros a b c (T1 & O1 & V1) (T2 & O2 & V2).
  unfold keeps_volumes. repeat split; congruence.
Qed.

Lemma Forall2_refl_list {A} (P : relation A) `{!Reflexive P} (l : list A) :
  Forall2 P l l.
Proof. induction l; constructor; auto. Qed.

Lemma Forall2_trans_list {A} (P : relation A) `{!Transitive P}
    (l1 l2 l3 : list A) :
  Forall2 P l1 l2 -> Forall2 P l2 l3 -> Forall2 P l1 l3.
Proof.
  intros H12. revert l3.
  induction H12; intros l3 H23; inversion H23; subst; constructor; eauto.
Qed.

Lemma Forall2_total {A} `{Inhabited A} (P : relation A) (l l' : list A) k :
  Forall2 P l l' -> (k < length l)%nat -> P (l !!! k) (l' !!! k).
Proof.
  intros HF Hk.
  destruct (lookup_lt_is_Some_2 l k Hk) as [x Hx].
  destruct (Forall2_lookup_l _ _ _ _ _ HF Hx) as (y & Hy & HP).
  rewrite (list_lookup_total_correct _ _ _ Hx).
  rewrite (list_lookup_total_correct _ _ _ Hy). exact HP.
Qed.

(** an assignment [f] to node [i] that respects a reflexive relation *)
Lemma upd_node_Forall2 (P : relation TNode) `{!Reflexive P} i f sp :
  (forall n, P n (f n)) -> Forall2 P (Node sp) (Node (upd_node i f sp)).
Proof.
  intros Hf. rewrite upd_node_Node.
  apply Forall2_alter_r; [apply Forall2_refl_list; auto|].
  intros x y Hx Hy _. assert (x = y) by congruence. subst. apply Hf.
Qed.

(** from the frame of an update of node [i] to [node_step] everywhere *)
Lemma touches_node_step i sp sp' :
  touches i sp sp' ->
  ((i < length (Node sp))%nat ->
   n_type (Node sp !!! i) = STORAGE ->
   (updated (Node sp !!! i) = true ->
    overflow (Node sp' !!! i) = overflow (Node sp !!! i)
    /\ newVolume (Node sp' !!! i) = newVolume (Node sp !!! i))
   /\ (updated (Node sp !!! i) = false -> 0 <= FUDGE ->
       0 <= fullVolume (Node sp !!! i) -> nonneg_state (Node sp' !!! i))) ->
  Forall2 node_step (Node sp) (Node sp').
Proof.
  intros Ht Hi.
  apply Forall2_same_length_lookup_2; [symmetry; apply Ht|].
  intros k x y Hx Hy.
  destruct (decide (k = i)) as [->|Hk].
  - apply lookup_total_of_Some in Hx as [Ex Hlen].
    apply lookup_total_of_Some in Hy as [Ey _].
    specialize (Hi Hlen). rewrite Ex, Ey in *.
    pose proof (t_type _ _ _ Ht) as T. pose proof (t_fullVolume _ _ _ Ht) as F.
    pose proof (t_mark _ _ _ Ht) as M. pose proof (t_mark_ns _ _ _ Ht) as N.
    rewrite Ex, Ey in *.
    unfold node_step. do 4 (split; [auto|]). split.
    + intros Hs Hu. apply (proj1 (Hi Hs) Hu).
    + intros Hs Hu _ HF Hf. apply (proj2 (Hi Hs) Hu HF Hf).
  - rewrite (t_other _ _ _ Ht k Hk) in Hy.
    assert (x = y) by congruence. subst. reflexivity.
Qed.

Lemma updateStorageState_node_step sp i j links dt :
  Forall2 node_step (Node sp) (Node (updateStorageState sp i j links dt)).
Proof.
  apply (touches_node_step i); [apply updateStorageState_touches|].
  intros Hi Hst. split.
  - intros Hu. rewrite updateStorageState_skip by auto. auto.
  - intros Hu HF Hf. now apply updateStorageState_nonneg.
Qed.

Lemma steadyflow_execute_Node sp j qin tStep :
  Node (steadyflow_execute sp j qin tStep).1.1.1 = Node sp.
Proof.
  unfold steadyflow_execute. repeat case_match; simplify_eq; reflexivity.
Qed.

Lemma setNewNodeState_touches sp j dt : touches j sp (setNewNodeState sp j dt).
Proof.
  unfold setNewNodeState. cbn zeta.
  destruct (bool_decide (n_type (Node sp !!! j) = STORAGE)).
  - destruct (negb _); [apply updateStorageState_touches | apply touches_refl].
  - repeat case_match; frame.
Qed.

Lemma setNewNodeState_node_step sp j dt :
  Forall2 node_step (Node sp) (Node (setNewNodeState sp j dt)).
Proof.
  destruct (decide (n_type (Node sp !!! j) = STORAGE)) as [Hst|Hns].
  - unfold setNewNodeState. rewrite (bool_decide_eq_true_2 _ Hst).
    destruct (negb _); [apply updateStorageState_node_step|].
    apply Forall2_refl_list, _.
  - apply (touches_node_step j); [apply setNewNodeState_touches|].
    intros _ Hst. contradiction.
Qed.

(** a storage node is marked once [setNewNodeState] has visited it *)
Lemma setNewNodeState_marks sp j dt :
  (j < length (Node sp))%nat ->
  n_type (Node sp !!! j) = STORAGE ->
  updated (Node (setNewNodeState sp j dt) !!! j) = true.
Proof.
  intros Hj Hst. unfold setNewNodeState.
  rewrite (bool_decide_eq_true_2 _ Hst).
  destruct (updated (Node sp !!! j)) eqn:Hu; cbn [negb]; [exact Hu|].
  now apply updateStorageState_marks.
Qed.

(** the overflow and volume that [setNewNodeState] leaves at a node that is
    no storage unit are not negative *)
Lemma setNewNodeState_nonneg sp j dt :
  (j < length (Node sp))%nat ->
  0 <= FUDGE ->
  0 <= fullVolume (Node sp !!! j) ->
  n_type (Node sp !!! j) <> STORAGE ->
  nonneg_state (Node (setNewNodeState sp j dt) !!! j).
Proof.
  intros Hj HF Hfull Hns. unfold setNewNodeState.
  rewrite (bool_decide_eq_false_2 _ Hns). cbn zeta.
  repeat case_match; simplify_eq.
  all: node_at.
  all: unfold nonneg_state.
  all: cbn [overflow newVolume fullVolume set_overflow set_newVolume
            set_newDepth] in *.
  all: rewrite ?Qltb_true, ?Qltb_false in *.
  all: split; lra.
Qed.

Section Depths.

(** [updateNodeDepth] and [setNewLinkState] write node depths only, so
    they respect every relation that such a write respects *)
Context (P : relation TNode) `{!Reflexive P} `{!Transitive P}.
Hypothesis P_set_newDepth : forall x n, P n (set_newDepth x n).

Lemma updateNodeDepth_rel sp i y :
  Forall2 P (Node sp) (Node (updateNodeDepth sp i y)).
Proof.
  unfold updateNodeDepth.
  repeat case_match.
  all: repeat first
    [ apply Forall2_refl_list; assumption
    | eapply Forall2_trans_list;
        [ assumption | | apply upd_node_Forall2; auto ] ].
Qed.

Lemma setNewLinkState_rel sp j :
  Forall2 P (Node sp) (Node (setNewLinkState sp j)).
Proof.
  unfold setNewLinkState. cbn zeta.
  repeat case_match; try (apply Forall2_refl_list; assumption).
  all: change (Node (upd_conduit ?k ?f ?s)) with (Node s).
  all: eapply Forall2_trans_list; [assumption | | apply updateNodeDepth_rel].
  all: eapply Forall2_trans_list; [assumption | | apply updateNodeDepth_rel].
  all: apply Forall2_refl_list; assumption.
Qed.

Lemma foldl_rel {X} (step : Project -> X -> Project) (xs : list X) :
  (forall s x, Forall2 P (Node s) (Node (step s x))) ->
  forall sp, Forall2 P (Node sp) (Node (foldl step sp xs)).
Proof.
  intros Hstep. induction xs as [|x xs IH]; intros sp; cbn [foldl].
  - apply Forall2_refl_list; assumption.
  - eapply Forall2_trans_list; [assumption | apply Hstep | apply IH].
Qed.

End Depths.

Lemma node_step_set_newDepth x n : node_step n (set_newDepth x n).
Proof.
  destruct n. unfold node_step. cbn.
  repeat split; auto; intros; congruence.
Qed.

Lemma node_step_set_inflow g n : node_step n (set_inflow (g n) n).
Proof.
  destruct n. unfold node_step. cbn.
  repeat split; auto; intros; congruence.
Qed.

Lemma node_step_set_outflow g n : node_step n (set_outflow (g n) n).
Proof.
  destruct n. unfold node_step. cbn.
  repeat split; auto; intros; congruence.
Qed.

Lemma keeps_volumes_set_newDepth x n : keeps_volumes n (set_newDepth x n).
Proof. destruct n. unfold keeps_volumes. cbn. auto. Qed.

Lemma routeLink_node_step links routingModel tStep st i :
  Forall2 node_step (Node st.1)
    (Node (routeLink links routingModel tStep st i).1).
Proof.
  destruct st as [sp steps]. unfold routeLink. cbn [fst].
  set (j := links !!! i). set (n1 := node1 (Link sp !!! j)).
  set (sp1 := if bool_decide (n_type (Node sp !!! n1) = STORAGE)
              then updateStorageState sp n1 i links tStep else sp).
  assert (H1 : Forall2 node_step (Node sp) (Node sp1)).
  { subst sp1. destruct (bool_decide _);
      [now apply updateStorageState_node_step | apply Forall2_refl_list, _]. }
  clearbody sp1. set (qin := getLinkInflow sp1 j tStep). clearbody qin.
  set (r := if bool_decide (routingModel = SF)
            then steadyflow_execute sp1 j qin tStep
            else let '(cs, qin0, qout, n) := kinwave_execute sp1 j qin tStep in
                 (with_Conduit cs sp1, qin0, qout, n)).
  assert (H2 : Node r.1.1.1 = Node sp1).
  { subst r. destruct (bool_decide _); [apply steadyflow_execute_Node|].
    now destruct (kinwave_execute sp1 j qin tStep) as [[[cs q] q'] n]. }
  clearbody r. destruct r as [[[sp2 qin'] qout] n]. cbn [fst snd] in *.
  eapply Forall2_trans_list; [apply _ | exact H1 |]. rewrite <- H2.
  eapply Forall2_trans_list; [apply _ | | apply upd_node_Forall2; [apply _|]].
  eapply Forall2_trans_list; [apply _ | | apply upd_node_Forall2; [apply _|]].
  - apply Forall2_refl_list, _.
  - intros n0. apply (node_step_set_outflow (fun n => outflow n + qin')).
  - intros n0. apply (node_step_set_inflow (fun n => inflow n + qout)).
Qed.

Lemma routeLink_loop_node_step links routingModel tStep xs : forall st,
  Forall2 node_step (Node st.1)
    (Node (foldl (routeLink links routingModel tStep) st xs).1).
Proof.
  induction xs as [|x xs IH]; intros st; cbn [foldl].
  - apply Forall2_refl_list, _.
  - eapply Forall2_trans_list;
      [apply _ | apply routeLink_node_step | apply IH].
Qed.

(** ** The three loops of [flowrout_execute] *)

Lemma resetNodes_lookup f n : forall a sp k,
  Node (foldl (fun sp j => upd_node j f sp) sp (seq a n)) !! k
  = if decide (a <= k < a + n)%nat then f <$> Node sp !! k else Node sp !! k.
Proof.
  induction n as [|n IH]; intros a sp k; cbn [seq foldl].
  - destruct (decide _); [lia | reflexivity].
  - rewrite IH, upd_node_Node, list_lookup_alter.
    repeat destruct (decide _); try lia; subst; try reflexivity.
Qed.

Lemma resetNodes_Node f sp :
  Node (foldl (fun sp j => upd_node j f sp) sp (seq 0 (length (Node sp))))
  = f <$> Node sp.
Proof.
  apply list_eq. intros k. rewrite resetNodes_lookup, list_lookup_fmap.
  destruct (decide _) as [Hk|Hk]; [reflexivity|].
  rewrite lookup_ge_None_2 by lia. reflexivity.
Qed.

Lemma resetNodes_Link f xs : forall sp,
  Link (foldl (fun sp j => upd_node j f sp) sp xs) = Link sp.
Proof. induction xs as [|x xs IH]; intros sp; cbn [foldl]; [|rewrite IH]; reflexivity. Qed.

(** every storage node among the visited ones is marked after the loop of
    [setNewNodeState] *)
Lemma setNewNodeState_loop_marks dt xs : forall sp k,
  (k < length (Node sp))%nat ->
  n_type (Node sp !!! k) = STORAGE ->
  k ∈ xs \/ updated (Node sp !!! k) = true ->
  updated (Node (foldl (fun sp j => setNewNodeState sp j dt) sp xs) !!! k)
  = true.
Proof.
  induction xs as [|x xs IH]; intros sp k Hk Hst Hin; cbn [foldl].
  - destruct Hin as [Hin | Hu]; [inversion Hin | exact Hu].
  - pose proof (setNewNodeState_node_step sp x dt) as Hs.
    pose proof (Forall2_total _ _ _ k Hs Hk) as (T & _ & _ & M & _).
    apply IH.
    + rewrite <- (Forall2_length _ _ _ Hs). exact Hk.
    + congruence.
    + destruct Hin as [Hin | Hu]; [|right; auto].
      apply elem_of_cons in Hin as [-> | Hin]; [right | left; exact Hin].
      now apply setNewNodeState_marks.
Qed.

(** every visited node that is no storage unit has a non-negative overflow
    and volume after the loop of [setNewNodeState] *)
Lemma setNewNodeState_loop_nonneg dt xs : forall sp k,
  0 <= FUDGE ->
  (k < length (Node sp))%nat ->
  n_type (Node sp !!! k) <> STORAGE ->
  0 <= fullVolume (Node sp !!! k) ->
  k ∈ xs \/ nonneg_state (Node sp !!! k) ->
  nonneg_state (Node (foldl (fun sp j => setNewNodeState sp j dt) sp xs) !!! k).
Proof.
  induction xs as [|x xs IH]; intros sp k HF Hk Hns Hfull Hin; cbn [foldl].
  - destruct Hin as [Hin | Hg]; [inversion Hin | exact Hg].
  - pose proof (setNewNodeState_node_step sp x dt) as Hs.
    pose proof (Forall2_total _ _ _ k Hs Hk) as (T & F & _).
    apply IH; auto.
    + rewrite <- (Forall2_length _ _ _ Hs). exact Hk.
    + congruence.
    + rewrite F. exact Hfull.
    + destruct (decide (k = x)) as [->|Hkx].
      * right. now apply setNewNodeState_nonneg.
      * destruct Hin as [Hin | Hg].
        -- apply elem_of_cons in Hin as [? | Hin]; [contradiction | now left].
        -- right. pose proof (setNewNodeState_touches sp x dt) as Ht.
           pose proof (t_other _ _ _ Ht k Hkx) as Hl.
           rewrite list_lookup_total_alt, Hl, <- list_lookup_total_alt.
           exact Hg.
Qed.

Lemma resetNode_facts tStep n :
  n_type (resetNode tStep n) = n_type n
  /\ fullVolume (resetNode tStep n) = fullVolume n
  /\ updated (resetNode tStep n) = false.
Proof. unfold resetNode. destruct n. cbn. now destruct (_ && _). Qed.

(** ** A steady or kinematic-wave step, node by node

    What [flowrout_execute] leaves at position [k] of the node array when
    no error is pending and the routing model is not dynamic wave. *)
Lemma flowrout_execute_node sp links routingModel tStep k :
  ErrorCode sp = 0%Z ->
  routingModel <> DW ->
  (k < length (Node sp))%nat ->
  let n := Node sp !!! k in
  let n' := Node (flowrout_execute sp links routingModel tStep).1 !!! k in
  length (Node (flowrout_execute sp links routingModel tStep).1)
  = length (Node sp)
  /\ n_type n' = n_type n
  /\ fullVolume n' = fullVolume n
  /\ updated n' = bool_decide (n_type n = STORAGE)
  /\ (0 <= FUDGE -> 0 <= fullVolume n -> nonneg_state n').
Proof.
  intros Herr Hmodel Hk. cbn zeta. unfold flowrout_execute.
  rewrite Herr. cbn [Z.eqb negb].
  rewrite (bool_decide_eq_false_2 _ Hmodel).
  set (sp0 := foldl (fun sp j => upd_node j (resetNode tStep) sp) sp _).
  assert (E0 : Node sp0 = resetNode tStep <$> Node sp) by apply resetNodes_Node.
  clearbody sp0.
  pose proof (routeLink_loop_node_step links routingModel tStep
                (seq 0 (length (Link sp0))) (sp0, 0)) as H1.
  destruct (foldl (routeLink links routingModel tStep) (sp0, 0) _)
    as [sp1 steps].
  cbn [fst] in *.
  set (sp2 := foldl (fun sp j => setNewNodeState sp j tStep) sp1 _).
  pose proof (foldl_rel node_step (fun sp j => setNewNodeState sp j tStep)
                (seq 0 (length (Node sp1)))
                (fun s x => setNewNodeState_node_step s x tStep) sp1) as H2.
  fold sp2 in H2.
  set (sp3 := foldl (fun sp j => setNewLinkState sp j) sp2 _).
  pose proof (foldl_rel node_step (fun sp j => setNewLinkState sp j)
                (seq 0 (length (Link sp2)))
                (fun s x => setNewLinkState_rel node_step
                              node_step_set_newDepth s x) sp2) as H3.
  pose proof (foldl_rel keeps_volumes (fun sp j => setNewLinkState sp j)
                (seq 0 (length (Link sp2)))
                (fun s x => setNewLinkState_rel keeps_volumes
                              keeps_volumes_set_newDepth s x) sp2) as H3'.
  fold sp3 in H3, H3'.
  assert (L0 : length (Node sp0) = length (Node sp))
    by (rewrite E0; apply length_fmap).
  pose proof (Forall2_length _ _ _ H1) as L1.
  pose proof (Forall2_length _ _ _ H2) as L2.
  pose proof (Forall2_length _ _ _ H3) as L3.
  assert (K0 : (k < length (Node sp0))%nat) by lia.
  assert (K1 : (k < length (Node sp1))%nat) by lia.
  assert (K2 : (k < length (Node sp2))%nat) by lia.
  assert (N0 : Node sp0 !!! k = resetNode tStep (Node sp !!! k)).
  { rewrite E0. now apply list_lookup_total_fmap. }
  destruct (resetNode_facts tStep (Node sp !!! k)) as (T0 & F0 & U0).
  rewrite <- N0 in T0, F0, U0.
  pose proof (Forall2_total _ _ _ k H1 K0) as S1.
  pose proof (Forall2_total _ _ _ k H2 K1) as S2.
  pose proof (Forall2_total _ _ _ k H3 K2) as S3.
  pose proof (Forall2_total _ _ _ k H3' K2) as (_ & O3 & V3).
  assert (S : node_step (Node sp0 !!! k) (Node sp3 !!! k))
    by (etransitivity; [exact S1 | etransitivity; [exact S2 | exact S3]]).
  destruct S as (T & F & NS & _ & _ & G).
  cbn [fst]. split; [lia|]. split; [congruence|]. split; [congruence|].
  destruct (decide (n_type (Node sp !!! k) = STORAGE)) as [Hst|Hns].
  - rewrite (bool_decide_eq_true_2 _ Hst).
    assert (U3 : updated (Node sp3 !!! k) = true).
    { destruct S3 as (_ & _ & _ & M3 & _). apply M3.
      apply setNewNodeState_loop_marks; auto.
      - destruct S1 as (T1 & _). congruence.
      - left. apply elem_of_seq. lia. }
    split; [exact U3|]. intros HF Hf. apply G; auto; congruence.
  - rewrite (bool_decide_eq_false_2 _ Hns).
    split; [rewrite NS by congruence; exact U0|].
    intros HF Hf. unfold nonneg_state. rewrite O3, V3.
    destruct S1 as (T1 & F1 & _).
    apply setNewNodeState_loop_nonneg; auto.
    + congruence.
    + congruence.
    + left. apply elem_of_seq. lia.
Qed.

Lemma drop_cons_lookup {A} `{Inhabited A} (l : list A) k x t :
  drop k l = x :: t -> l !!! k = x /\ drop (S k) l = t.
Proof.
  intros Hd.
  assert (Hx : l !! k = Some x).
  { pose proof (lookup_drop l k 0) as Hl.
    rewrite Hd, Nat.add_0_r in Hl. symmetry. exact Hl. }
  split; [now apply list_lookup_total_correct|].
  rewrite (drop_S _ _ _ Hx) in Hd. congruence.
Qed.

(** The loop adds up the run of links with upstream node [i] that starts at
    position [k], and stops at the first link with another upstream node. *)
Lemma getStorageOutflow_from_run sp i links dt : forall run rest n k acc,
  drop k links = run ++ rest ->
  n = (length run + length rest)%nat ->
  Forall (fun m => node1 (Link sp !!! m) = i) run ->
  match rest with
  | [] => True
  | m :: _ => node1 (Link sp !!! m) <> i
  end ->
  getStorageOutflow_from sp i links dt n k acc = inflow_sum sp dt run acc.
Proof.
  induction run as [|m run IH]; intros rest n k acc Hd Hn Hrun Hrest.
  - cbn in Hd, Hn. destruct rest as [|m rest]; subst n; [reflexivity|].
    cbn [length getStorageOutflow_from].
    apply drop_cons_lookup in Hd as [-> _].
    apply Nat.eqb_neq in Hrest. rewrite Hrest. reflexivity.
  - cbn in Hd, Hn. subst n. cbn [getStorageOutflow_from].
    apply drop_cons_lookup in Hd as [-> Hd].
    apply Forall_cons in Hrun as [Hm Hrun].
    apply Nat.eqb_eq in Hm. rewrite Hm. cbn [negb].
    unfold inflow_sum. cbn [foldl]. eapply IH; eauto.
Qed.

(** ** Properties of a routing step *)

(** C1 (as amended). After a steady or kinematic-wave step of
    [flowrout_execute] (no error pending), the [updated] flag of a node is
    true exactly when the node is a storage unit: storage nodes are marked
    by [updateStorageState], and [setNewNodeState] closes out every other
    node without marking it. *)
Theorem flowrout_execute_marks_storage sp links routingModel tStep k :
  ErrorCode sp = 0%Z ->
  routingModel <> DW ->
  (k < length (Node sp))%nat ->
  updated (Node (flowrout_execute sp links routingModel tStep).1 !!! k)
  = bool_decide
      (n_type (Node (flowrout_execute sp links routingModel tStep).1 !!! k)
       = STORAGE).
Proof.
  intros Herr Hmodel Hk.
  destruct (flowrout_execute_node sp links routingModel tStep k Herr Hmodel Hk)
    as (_ & T & _ & U & _).
  rewrite U, T. reflexivity.
Qed.

(** C7. After a steady or kinematic-wave step the overflow rate and the
    new volume of every node are non-negative, for a tolerance
    [FUDGE >= 0] and nodes whose full volume is not negative. *)
Theorem flowrout_execute_nonneg sp links routingModel tStep k :
  ErrorCode sp = 0%Z ->
  routingModel <> DW ->
  0 <= FUDGE ->
  Forall (fun n => 0 <= fullVolume n) (Node sp) ->
  (k < length (Node sp))%nat ->
  0 <= overflow (Node (flowrout_execute sp links routingModel tStep).1 !!! k)
  /\ 0 <= newVolume
            (Node (flowrout_execute sp links routingModel tStep).1 !!! k).
Proof.
  intros Herr Hmodel HF Hfull Hk.
  destruct (flowrout_execute_node sp links routingModel tStep k Herr Hmodel Hk)
    as (_ & _ & _ & _ & G).
  apply G; [exact HF|].
  rewrite Forall_lookup in Hfull. apply (Hfull k).
  apply list_lookup_lookup_total_lt. exact Hk.
Qed.

Lemma filter_none {A} (P : A -> Prop) `{forall x, Decision (P x)} (l : list A) :
  Forall (fun x => ~ P x) l -> filter P l = [].
Proof.
  induction 1 as [|x l Hx _ IH]; [reflexivity|].
  rewrite filter_cons_False by exact Hx. exact IH.
Qed.

Lemma filter_all {A} (P : A -> Prop) `{forall x, Decision (P x)} (l : list A) :
  Forall P l -> filter P l = l.
Proof.
  induction 1 as [|x l Hx _ IH]; [reflexivity|].
  rewrite filter_cons_True by exact Hx. now rewrite IH.
Qed.

(** C5 (as amended). When the links whose upstream node is the storage
    node [i] stand next to each other in the sorted array, from position
    [j] on, the outflow sum is the sum of the inflows of all of them. *)
Theorem getStorageOutflow_contiguous sp i j links dt pre run rest :
  links = pre ++ run ++ rest ->
  length links = length (Link sp) ->
  j = length pre ->
  Forall (fun m => node1 (Link sp !!! m) <> i) pre ->
  Forall (fun m => node1 (Link sp !!! m) = i) run ->
  Forall (fun m => node1 (Link sp !!! m) <> i) rest ->
  getStorageOutflow sp i j links dt
  = inflow_sum sp dt (links_from sp i links) 0.
Proof.
  intros -> Hlen -> Hpre Hrun Hrest.
  unfold getStorageOutflow, links_from.
  rewrite !filter_app.
  rewrite (filter_none _ pre) by exact Hpre.
  rewrite (filter_none _ rest) by exact Hrest.
  rewrite app_nil_r. cbn [app].
  rewrite (filter_all _ run) by exact Hrun.
  apply (getStorageOutflow_from_run sp i _ dt run rest); auto.
  - now rewrite drop_app_length.
  - rewrite <- Hlen, !length_app. lia.
  - destruct rest as [|m rest]; [exact I|].
    now apply Forall_cons in Hrest as [Hm _].
Qed.

(** C6. Steady flow routing through one link. *)
Theorem steadyflow_execute_spec sp j qin tStep :
  let l := Link sp !!! j in
  let k := subIndex l in
  let c := Conduit sp !!! k in
  let nb := inject_Z (barrels c) in
  let q0 := qin / nb - link_getLossRate sp j (qin / nb) tStep in
  let q := if Qltb q0 0 then 0 else q0 in
  let r := steadyflow_execute sp j qin tStep in
  let c' := Conduit r.1.1.1 !!! k in
  (l_type l = CONDUIT -> xs_type (xsect l) <> DUMMY ->
   (k < length (Conduit sp))%nat ->
   a2 c' = a1 c' /\ q2 c' = q1 c' /\ r.1.2 = q1 c' * nb
   /\ if Qltb (qFull l) q
      then q1 c' = qFull l /\ a1 c' = aFull (xsect l)
           /\ r.1.1.2 = qFull l * nb
      else q1 c' = q /\ a1 c' = xsect_getAofS sp (xsect l) (q / beta c)
           /\ r.1.1.2 = qin)
  /\ (l_type l <> CONDUIT -> r.1.2 = qin /\ r.1.1.2 = qin /\ r.1.1.1 = sp).
Proof.
  cbn zeta. unfold steadyflow_execute. split.
  - intros Hc Hx Hk.
    rewrite (bool_decide_eq_true_2 _ Hc), (bool_decide_eq_false_2 _ Hx).
    destruct (Qltb (qFull (Link sp !!! j)) _); cbn [fst snd].
    all: rewrite upd_conduit_at by exact Hk; cbn.
    all: repeat split; reflexivity.
  - intros Hc. rewrite (bool_decide_eq_false_2 _ Hc). cbn. auto.
Qed.

End Routing.

(** C1, counterexample: after a steady flow step on [net_junction] the
    [updated] flag of its junction is false. *)
Lemma flowrout_execute_leaves_junction_unmarked :
  ErrorCode net_junction = 0%Z
  /\ updated
       (Node (@flowrout_execute ideal net_junction [] SF 60).1 !!! 0%nat)
     = false.
Proof. split; vm_compute; reflexivity. Qed.

(** the marks after a kinematic-wave step on [net_split], at its storage
    node *)
Lemma flowrout_execute_marks_storage_witness :
  updated
    (Node (@flowrout_execute ideal net_split [0; 1; 2]%nat KW 60).1 !!! 0%nat)
  = bool_decide
      (n_type
         (Node (@flowrout_execute ideal net_split [0; 1; 2]%nat KW 60).1
          !!! 0%nat) = STORAGE).
Proof.
  apply (@flowrout_execute_marks_storage ideal net_split [0; 1; 2]%nat KW 60
           0%nat); [reflexivity | discriminate | cbn; lia].
Defined.

(** overflow and volume after a steady flow step on [net_split], at its
    junction *)
Lemma flowrout_execute_nonneg_witness :
  0 <= overflow
         (Node (@flowrout_execute ideal net_split [0; 1; 2]%nat SF 60).1
          !!! 1%nat)
  /\ 0 <= newVolume
            (Node (@flowrout_execute ideal net_split [0; 1; 2]%nat SF 60).1
             !!! 1%nat).
Proof.
  apply (@flowrout_execute_nonneg ideal net_split [0; 1; 2]%nat SF 60 1%nat).
  - reflexivity.
  - discriminate.
  - vm_compute. discriminate.
  - repeat constructor; vm_compute; discriminate.
  - cbn; lia.
Defined.

(** C5, counterexample: in [net_split] the outlets 0 and 2 of the storage
    node 0 are separated by link 1 in the array [0; 1; 2]; the loop that
    starts at position 0 stops at link 1 and returns 1 cfs, where the two
    outlets draw 2 cfs together. *)
Lemma getStorageOutflow_misses_separated_link :
  links_from net_split 0 [0; 1; 2]%nat = [0; 2]%nat
  /\ @getStorageOutflow ideal net_split 0 0 [0; 1; 2]%nat 60 == 1
  /\ @inflow_sum ideal net_split 60 (links_from net_split 0 [0; 1; 2]%nat) 0
     == 2.
Proof. repeat split. Qed.

(** with the array [0; 2; 1] the two outlets stand next to each other *)
Lemma getStorageOutflow_contiguous_witness :
  @getStorageOutflow ideal net_split 0 0 [0; 2; 1]%nat 60
  = @inflow_sum ideal net_split 60 (links_from net_split 0 [0; 2; 1]%nat) 0.
Proof.
  apply (@getStorageOutflow_contiguous ideal net_split 0 0 [0; 2; 1]%nat 60
           [] [0; 2]%nat [1]%nat).
  - reflexivity.
  - reflexivity.
  - reflexivity.
  - constructor.
  - repeat constructor.
  - repeat constructor. vm_compute. discriminate.
Defined.

(** 25 cfs offered to conduit 0 of [net_split], whose full flow is 10 cfs *)
Lemma steadyflow_execute_spec_witness :
  let r := @steadyflow_execute ideal net_split 0 25 60 in
  let c' := Conduit r.1.1.1 !!! subIndex (Link net_split !!! 0%nat) in
  q1 c' = qFull (Link net_split !!! 0%nat)
  /\ a1 c' = aFull (xsect (Link net_split !!! 0%nat))
  /\ a2 c' = a1 c'
  /\ r.1.2 = q1 c' * inject_Z 1.
Proof.
  destruct (@steadyflow_execute_spec ideal net_split 0 25 60) as [Hc _].
  destruct Hc as (Ha2 & _ & Hout & Hq & Ha & _);
    [reflexivity | discriminate | cbn; lia |].
  cbn zeta. split; [exact Hq|]. split; [exact Ha|]. split; [exact Ha2|].
  exact Hout.
Defined.

(** The clamp, on the code: the storage node of [net_pond] (depth =
    volume/100, so its depth tends to 10 ft) is updated over 1 s.  The
    counter starts at 1, so the loop leaves with [iter = MAXITER = 10]
    after 9 passes, [stopped] still false; one more pass would have met
    the stopping tolerance. *)
Lemma updateStorageState_stops_after_nine_passes :
  let r := @updateStorageState_loop ideal (Z.to_nat MAXITER) net_pond 0 0 []
             1 1000 0 1 false in
  r.1.2 = 10%Z /\ r.2 = false
  /\ (@updateStorageState_pass ideal r.1.1.1 0 0 [] 1 1000 r.1.1.2).2 = true.
Proof. vm_compute. repeat split. Qed.

(** ** The iteration of the storage update *)

Section Iterates.

Context `{Collaborators}.

(** a pass stops when the under-relaxed depth has moved by STOPTOL at
    most, and stores that depth in the node *)
Lemma updateStorageState_pass_stopped sp i j links dt vFixed d1 :
  let r := updateStorageState_pass sp i j links dt vFixed d1 in
  r.2 = Qle_bool (Qabs (r.1.2 - d1)) STOPTOL
  /\ length (Node r.1.1) = length (Node sp)
  /\ ((i < length (Node sp))%nat -> newDepth (Node r.1.1 !!! i) = r.1.2).
Proof.
  cbn zeta. unfold updateStorageState_pass. cbn zeta.
  destruct (Qltb _ _); [destruct (_ || _)|];
    cbn [fst snd]; (split; [reflexivity|]); (split; [|intros Hi]).
  all: repeat first [ rewrite upd_node_length | destruct (Qltb _ FUDGE) ];
    try reflexivity.
  all: rewrite upd_node_at; [reflexivity|].
  all: repeat first [ rewrite upd_node_length | destruct (Qltb _ FUDGE) ];
    exact Hi.
Qed.

Section Run.

Variables (sp : Project) (i j : nat) (links : list nat) (dt vFixed d0 : Q).

Local Abbreviation P k :=
  (updateStorageState_passes k sp i j links dt vFixed d0).

Lemma updateStorageState_passes_S k :
  P (S k) = updateStorageState_pass (P k).1.1 i j links dt vFixed (P k).1.2.
Proof.
  cbn [updateStorageState_passes].
  now destruct (updateStorageState_passes k _ _ _ _ _ _ _) as [[s d] b].
Qed.

Lemma updateStorageState_passes_length k :
  length (Node (P k).1.1) = length (Node sp).
Proof.
  induction k as [|k IH]; [reflexivity|].
  rewrite updateStorageState_passes_S.
  destruct (updateStorageState_pass_stopped (P k).1.1 i j links dt vFixed
              (P k).1.2) as (_ & Hl & _).
  now rewrite Hl.
Qed.

(** the loop, entered after [k] passes, leaves after [n] passes for the
    first [n >= k] at which its condition fails *)
Lemma updateStorageState_loop_passes fuel : forall k,
  (MAXITER - (Z.of_nat k + 1) <= Z.of_nat fuel)%Z ->
  (Z.of_nat k + 1 <= MAXITER)%Z ->
  exists n,
    (k <= n)%nat /\ (Z.of_nat n + 1 <= MAXITER)%Z
    /\ updateStorageState_loop fuel (P k).1.1 i j links dt vFixed (P k).1.2
         (Z.of_nat k + 1) (P k).2
       = ((P n).1.1, (P n).1.2, (Z.of_nat n + 1)%Z, (P n).2)
    /\ (forall m, (k <= m < n)%nat ->
          (Z.of_nat m + 1 <? MAXITER)%Z && negb (P m).2 = true)
    /\ (Z.of_nat n + 1 <? MAXITER)%Z && negb (P n).2 = false.
Proof.
  induction fuel as [|fuel IH]; intros k Hfuel Hk;
    cbn [updateStorageState_loop].
  - exists k. split; [lia|]. split; [lia|].
    split; [now destruct (P k) as [[s d] b]|]. split; [lia|].
    apply andb_false_iff. left. apply Z.ltb_ge. lia.
  - destruct ((Z.of_nat k + 1 <? MAXITER)%Z && negb (P k).2) eqn:Hc.
    + pose proof (updateStorageState_passes_S k) as HS.
      destruct (updateStorageState_pass _ _ _ _ _ _ _) as [[s d] b].
      apply andb_true_iff in Hc as [Hlt Hb]. apply Z.ltb_lt in Hlt.
      destruct (IH (S k)) as (n & Hn & Hmax & Hloop & Hrun & Hexit);
        [lia | lia |].
      rewrite HS in Hloop. cbn [fst snd] in Hloop.
      replace (Z.of_nat (S k) + 1)%Z with (Z.of_nat k + 1 + 1)%Z in Hloop
        by lia.
      exists n. split; [lia|]. split; [exact Hmax|].
      split; [exact Hloop|]. split; [|exact Hexit].
      intros m Hm. destruct (decide (m = k)) as [->|Hne].
      * apply andb_true_iff. split; [now apply Z.ltb_lt | exact Hb].
      * apply Hrun. lia.
    + exists k. split; [lia|]. split; [lia|].
      split; [now destruct (P k) as [[s d] b]|]. split; [lia | exact Hc].
Qed.

End Run.

(** C3. The loop of [updateStorageState] on a storage node that has not
    been updated yet.  With the iterates [P 1], [P 2], ... that the body
    of the loop produces from the state and the depth of the node, there
    is a pass [n >= 1], reached with the counter [iter = n + 1] not beyond
    MAXITER, such that no earlier pass has met the stopping tolerance,
    and either pass [n] has met it (the under-relaxed depth has moved by
    STOPTOL at most) or the counter has reached MAXITER; the routine
    returns, the node keeps the volume and the depth of pass [n], its
    depth is the under-relaxed depth, and it is marked as updated. *)
Theorem updateStorageState_converges_or_clamps sp i j links dt :
  (i < length (Node sp))%nat ->
  n_type (Node sp !!! i) = STORAGE ->
  updated (Node sp !!! i) = false ->
  let vFixed :=
    oldVolume (Node sp !!! i)
    + 0.5 * (oldNetInflow (Node sp !!! i) + inflow (Node sp !!! i)
             - outflow (Node sp !!! i)) * dt in
  let P k :=
    updateStorageState_passes k sp i j links dt vFixed
      (newDepth (Node sp !!! i)) in
  exists n,
    (1 <= n)%nat /\ (Z.of_nat n + 1 <= MAXITER)%Z
    /\ (forall m, (1 <= m < n)%nat ->
          STOPTOL < Qabs ((P m).1.2 - (P (m - 1)%nat).1.2))
    /\ (Qabs ((P n).1.2 - (P (n - 1)%nat).1.2) <= STOPTOL
        \/ (Z.of_nat n + 1 = MAXITER)%Z)
    /\ updateStorageState sp i j links dt
       = upd_node i (set_updated true) (P n).1.1
    /\ Node (updateStorageState sp i j links dt) !!! i
       = set_updated true (Node (P n).1.1 !!! i)
    /\ newDepth (Node (updateStorageState sp i j links dt) !!! i)
       = (P n).1.2.
Proof.
  intros Hi Hst Hu. cbn zeta.
  set (vFixed := _ + _ * dt). set (d0 := newDepth _).
  destruct (updateStorageState_loop_passes sp i j links dt vFixed d0
              (Z.to_nat MAXITER) 0%nat)
    as (n & _ & Hmax & Hloop & Hrun & Hexit);
    [unfold MAXITER; lia | unfold MAXITER; lia |].
  cbn [updateStorageState_passes fst snd] in Hloop.
  change (Z.of_nat 0 + 1)%Z with 1%Z in Hloop.
  assert (Hstop : forall m,
            (updateStorageState_passes (S m) sp i j links dt vFixed d0).2
            = Qle_bool
                (Qabs ((updateStorageState_passes (S m) sp i j links dt
                          vFixed d0).1.2
                       - (updateStorageState_passes m sp i j links dt
                            vFixed d0).1.2)) STOPTOL).
  { intros m. rewrite updateStorageState_passes_S.
    now destruct (updateStorageState_pass_stopped
                    (updateStorageState_passes m sp i j links dt vFixed d0).1.1
                    i j links dt vFixed
                    (updateStorageState_passes m sp i j links dt vFixed d0).1.2)
      as (-> & _). }
  assert (Hn : (1 <= n)%nat).
  { destruct n as [|n]; [|lia]. cbn in Hexit. discriminate. }
  exists n. split; [exact Hn|]. split; [exact Hmax|].
  assert (Hfin : updateStorageState sp i j links dt
                 = upd_node i (set_updated true)
                     (updateStorageState_passes n sp i j links dt vFixed d0).1.1).
  { unfold updateStorageState. rewrite Hst, Hu.
    rewrite bool_decide_eq_true_2 by reflexivity. cbn [negb].
    fold vFixed. fold d0. now rewrite Hloop. }
  assert (Hnode : Node (updateStorageState sp i j links dt) !!! i
                  = set_updated true
                      (Node (updateStorageState_passes n sp i j links dt
                               vFixed d0).1.1 !!! i)).
  { rewrite Hfin. apply upd_node_at.
    now rewrite updateStorageState_passes_length. }
  split; [|split; [|split; [exact Hfin | split; [exact Hnode|]]]].
  - intros m Hm. destruct m as [|m]; [lia|].
    replace (S m - 1)%nat with m by lia.
    specialize (Hrun (S m) ltac:(lia)).
    apply andb_true_iff in Hrun as [_ Hb]. apply negb_true_iff in Hb.
    rewrite Hstop in Hb. apply not_true_iff_false in Hb.
    rewrite Qle_bool_iff in Hb. now apply Qnot_le_lt.
  - apply andb_false_iff in Hexit as [Hlt | Hb].
    + right. apply Z.ltb_ge in Hlt. lia.
    + left. apply negb_false_iff in Hb. destruct n as [|n]; [lia|].
      replace (S n - 1)%nat with n by lia.
      rewrite Hstop in Hb. now apply Qle_bool_iff.
  - rewrite Hnode. cbn [newDepth set_updated].
    destruct n as [|n]; [lia|]. rewrite updateStorageState_passes_S.
    destruct (updateStorageState_pass_stopped
                (updateStorageState_passes n sp i j links dt vFixed d0).1.1
                i j links dt vFixed
                (updateStorageState_passes n sp i j links dt vFixed d0).1.2)
      as (_ & _ & Hd).
    apply Hd. now rewrite updateStorageState_passes_length.
Qed.

End Iterates.

(** the storage node of [net_pond] over 1 s: the counter reaches MAXITER
    with the ninth pass, which is kept *)
Lemma updateStorageState_converges_or_clamps_witness :
  exists n,
    (1 <= n)%nat /\ (Z.of_nat n + 1 <= MAXITER)%Z
    /\ updated (Node (@updateStorageState ideal net_pond 0 0 [] 1) !!! 0%nat)
       = true.
Proof.
  destruct (@updateStorageState_converges_or_clamps ideal net_pond 0 0 [] 1)
    as (n & H1 & H2 & _ & _ & _ & H3 & _);
    [cbn; lia | reflexivity | reflexivity |].
  exists n. split; [exact H1|]. split; [exact H2|].
  rewrite H3. reflexivity.
Defined.

(** ** Further properties of the routines of flowrout.c *)

Section MoreRouting.

Context `{Collaborators}.

(** X1. Steady flow routing through a conduit of one barrel does not
    create water.  For such a conduit, a full flow and a loss rate that
    are not negative, and an inflow [qin >= 0]: the outflow is not
    negative, it does not exceed the inflow that is handed back, and that
    inflow does not exceed [qin]; the same holds, without conditions on
    losses, for a dummy conduit of one barrel and for every link that is
    no conduit.  (With one barrel the quotient and the product by the
    number of barrels are exact in the arithmetic of the code; with more
    barrels the code rounds them, and the outflow can exceed the inflow
    by the rounding.) *)
Theorem steadyflow_execute_no_gain sp j qin tStep :
  let l := Link sp !!! j in
  let c := Conduit sp !!! subIndex l in
  let r := steadyflow_execute sp j qin tStep in
  (l_type l = CONDUIT ->
   (subIndex l < length (Conduit sp))%nat /\ barrels c = 1%Z) ->
  (l_type l = CONDUIT -> xs_type (xsect l) <> DUMMY ->
   0 <= qFull l
   /\ 0 <= link_getLossRate sp j (qin / inject_Z (barrels c)) tStep) ->
  0 <= qin ->
  0 <= r.1.2 /\ r.1.2 <= r.1.1.2 /\ r.1.1.2 <= qin.
Proof.
  cbn zeta. intros Hc Hx Hq. unfold steadyflow_execute.
  destruct (bool_decide (l_type (Link sp !!! j) = CONDUIT)) eqn:Ec;
    [|cbn; repeat split; lra].
  apply bool_decide_eq_true in Ec.
  destruct (Hc Ec) as [Hk Hb].
  set (nb := inject_Z (barrels (Conduit sp !!! subIndex (Link sp !!! j)))) in *.
  assert (Hone : nb == 1) by (unfold nb; now rewrite Hb).
  assert (Hnb : 0 < nb) by lra.
  assert (Hdiv : qin / nb * nb == qin) by (field; lra).
  assert (Hx0 : 0 <= qin / nb).
  { apply Qle_shift_div_l; [exact Hnb | lra]. }
  destruct (bool_decide (xs_type (xsect (Link sp !!! j)) = DUMMY)) eqn:Ed.
  - cbn [fst snd]. rewrite upd_conduit_at by exact Hk. cbn. fold nb.
    repeat split; lra.
  - apply bool_decide_eq_false in Ed. destruct (Hx Ec Ed) as [Hfull Hloss].
    set (x := qin / nb) in *.
    set (loss := link_getLossRate sp j x tStep) in *.
    destruct (Qltb (x - loss) 0) eqn:E0.
    + destruct (Qltb (qFull (Link sp !!! j)) 0) eqn:E1; cbn [fst snd];
        rewrite upd_conduit_at by exact Hk; cbn; fold nb.
      * apply Qltb_true in E1. lra.
      * repeat split; lra.
    + apply Qltb_false in E0.
      destruct (Qltb (qFull (Link sp !!! j)) (x - loss)) eqn:E1; cbn [fst snd];
        rewrite upd_conduit_at by exact Hk; cbn; fold nb.
      * apply Qltb_true in E1.
        assert (qFull (Link sp !!! j) * nb <= x * nb) by nra.
        assert (0 <= qFull (Link sp !!! j) * nb) by nra.
        repeat split; lra.
      * assert ((x - loss) * nb <= x * nb) by nra.
        assert (0 <= (x - loss) * nb) by nra.
        repeat split; lra.
Qed.

(** X2. A storage node is updated once in a routing step: a second call
    of [updateStorageState] for the same node, whatever its other
    arguments, changes nothing. *)
Theorem updateStorageState_idempotent sp i j links dt j' links' dt' :
  updateStorageState (updateStorageState sp i j links dt) i j' links' dt'
  = updateStorageState sp i j links dt.
Proof.
  destruct (decide (n_type (Node sp !!! i) = STORAGE)) as [Hst | Hns].
  - assert (Hi : (i < length (Node sp))%nat).
    { destruct (decide (i < length (Node sp))%nat) as [Hi | Hi]; [exact Hi|].
      rewrite list_lookup_total_alt, lookup_ge_None_2 in Hst by lia.
      discriminate. }
    apply updateStorageState_skip. right.
    now apply updateStorageState_marks.
  - rewrite (updateStorageState_skip sp) by (left; exact Hns).
    apply updateStorageState_skip. left. exact Hns.
Qed.

(** a depth within a positive full depth, and a node without a full
    depth *)
Lemma updateNodeDepth_within_full sp i y :
  (i < length (Node sp))%nat ->
  let n := Node sp !!! i in
  let n' := Node (updateNodeDepth sp i y) !!! i in
  (n_type n = STORAGE -> updateNodeDepth sp i y = sp)
  /\ (0 < fullDepth n -> newDepth n <= fullDepth n ->
      newDepth n <= newDepth n' /\ newDepth n' <= fullDepth n
      /\ (n_type n <> STORAGE -> n_type n <> OUTFALL -> 0 < overflow n ->
          newDepth n' == fullDepth n))
  /\ (fullDepth n <= 0 -> newDepth n <= newDepth n').
Proof.
  intros Hi. cbn zeta. unfold updateNodeDepth.
  destruct (bool_decide (n_type (Node sp !!! i) = STORAGE)) eqn:Es.
  { split; [reflexivity|]. apply bool_decide_eq_true in Es.
    split; [|lra]. intros. repeat split; try lra. congruence. }
  apply bool_decide_eq_false in Es.
  split; [congruence|].
  set (y' := if _ && _ then _ else y).
  assert (Hy' : n_type (Node sp !!! i) <> OUTFALL -> 0 < overflow (Node sp !!! i)
                -> y' = fullDepth (Node sp !!! i)).
  { intros Ho Hov. unfold y'.
    rewrite (bool_decide_eq_false_2 _ Ho). cbn [negb andb].
    apply Qltb_true in Hov. now rewrite Hov. }
  clearbody y'.
  destruct (Qltb (newDepth (Node sp !!! i)) y') eqn:E1.
  - apply Qltb_true in E1.
    rewrite !upd_node_at by exact Hi. cbn [fullDepth set_newDepth].
    destruct (Qltb 0 (fullDepth (Node sp !!! i))
              && Qltb (fullDepth (Node sp !!! i)) y') eqn:E2.
    + apply andb_true_iff in E2 as [E2 E3].
      apply Qltb_true in E2, E3.
      rewrite upd_node_at by (rewrite upd_node_length; exact Hi).
      rewrite upd_node_at by exact Hi. cbn.
      split; [|lra]. intros Hf Hd. repeat split; try lra.
    + rewrite upd_node_at by exact Hi. cbn.
      apply andb_false_iff in E2.
      split; [|lra]. intros Hf Hd.
      destruct E2 as [E2 | E2]; apply Qltb_false in E2; [lra|].
      repeat split; try lra.
      intros _ Ho Hov. rewrite (Hy' Ho Hov). reflexivity.
  - apply Qltb_false in E1. split; [|lra].
    intros Hf Hd. repeat split; try lra.
    intros _ Ho Hov. rewrite (Hy' Ho Hov) in E1. lra.
Qed.

(** a depth above a positive full depth is not raised, and not cut below
    the full depth *)
Lemma updateNodeDepth_above_full sp i y :
  (i < length (Node sp))%nat ->
  let n := Node sp !!! i in
  let n' := Node (updateNodeDepth sp i y) !!! i in
  0 < fullDepth n -> fullDepth n < newDepth n ->
  fullDepth n <= newDepth n' /\ newDepth n' <= newDepth n.
Proof.
  intros Hi. cbn zeta. intros Hf Hd. unfold updateNodeDepth.
  destruct (bool_decide (n_type (Node sp !!! i) = STORAGE)); [lra|].
  set (y' := if _ && _ then _ else y). clearbody y'.
  destruct (Qltb (newDepth (Node sp !!! i)) y') eqn:E1; [|lra].
  apply Qltb_true in E1.
  rewrite !upd_node_at by exact Hi. cbn [fullDepth set_newDepth].
  assert (E2 : Qltb 0 (fullDepth (Node sp !!! i))
               && Qltb (fullDepth (Node sp !!! i)) y' = true).
  { apply andb_true_iff. split; apply Qltb_true; lra. }
  rewrite E2.
  rewrite upd_node_at by (rewrite upd_node_length; exact Hi).
  rewrite upd_node_at by exact Hi. cbn. lra.
Qed.
(** X3. [updateNodeDepth] leaves a storage node alone.  For another
    node with a positive full depth: a depth that was within the full
    depth is not lowered and stays within it, and a flooded node that is
    no outfall ends at its full depth; a depth that was above the full
    depth is not raised, and is cut back to the full depth at most.
    Without a full depth the depth is not lowered. *)
Theorem updateNodeDepth_bounds sp i y :
  (i < length (Node sp))%nat ->
  let n := Node sp !!! i in
  let n' := Node (updateNodeDepth sp i y) !!! i in
  (n_type n = STORAGE -> updateNodeDepth sp i y = sp)
  /\ (0 < fullDepth n -> newDepth n <= fullDepth n ->
      newDepth n <= newDepth n' /\ newDepth n' <= fullDepth n
      /\ (n_type n <> STORAGE -> n_type n <> OUTFALL -> 0 < overflow n ->
          newDepth n' == fullDepth n))
  /\ (fullDepth n <= 0 -> newDepth n <= newDepth n')
  /\ (0 < fullDepth n -> fullDepth n < newDepth n ->
      fullDepth n <= newDepth n' /\ newDepth n' <= newDepth n).
Proof.
  intros Hi. cbn zeta.
  destruct (updateNodeDepth_within_full sp i y Hi) as (H1 & H2 & H3).
  split; [exact H1|]. split; [exact H2|]. split; [exact H3|].
  apply (updateNodeDepth_above_full sp i y Hi).
Qed.

End MoreRouting.

(** 25 cfs offered to conduit 0 of [net_split]: 10 cfs leave it *)
Lemma steadyflow_execute_no_gain_witness :
  let r := @steadyflow_execute ideal net_split 0 25 60 in
  0 <= r.1.2 /\ r.1.2 <= r.1.1.2 /\ r.1.1.2 <= 25.
Proof.
  apply (@steadyflow_execute_no_gain ideal net_split 0 25 60).
  - intros _. split; [cbn; lia | reflexivity].
  - intros _ _. split; vm_compute; discriminate.
  - vm_compute; discriminate.
Defined.

(** the junction of [net_split], 0.5 ft deep at most, after a depth of 3 ft
    is proposed *)
Lemma updateNodeDepth_bounds_witness :
  newDepth (Node net_split !!! 1%nat)
  <= newDepth (Node (updateNodeDepth net_split 1 3) !!! 1%nat)
  /\ newDepth (Node (updateNodeDepth net_split 1 3) !!! 1%nat)
     <= fullDepth (Node net_split !!! 1%nat).
Proof.
  destruct (updateNodeDepth_bounds net_split 1 3) as (_ & Hb & _);
    [cbn; lia |].
  destruct Hb as (Hlo & Hhi & _); [reflexivity | vm_compute; discriminate |].
  split; [exact Hlo | exact Hhi].
Defined.

Section VolumeCap.

Context `{Collaborators}.

Ltac at_node :=
  repeat (rewrite upd_node_at in * by (rewrite ?upd_node_length; assumption)).

(** what a pass of the storage update, and the update of a node that is
    no storage unit, leave at the node: it is full when it overflows, and
    holds no more than its full volume unless it may pond *)
Lemma updateStorageState_pass_full sp i j links dt vFixed d1 :
  (i < length (Node sp))%nat ->
  let n := Node sp !!! i in
  let n' := Node (updateStorageState_pass sp i j links dt vFixed d1).1.1 !!! i in
  pondedArea n' = pondedArea n
  /\ (0 < overflow n' -> fullVolume n <= newVolume n')
  /\ (AllowPonding sp = false \/ pondedArea n == 0 ->
      newVolume n' <= fullVolume n).
Proof.
  intros Hi. cbn zeta. unfold updateStorageState_pass. cbn zeta.
  set (v0 := MAX 0 _). clearbody v0.
  repeat case_match; simplify_eq.
  all: cbn [fst snd].
  all: at_node.
  all: cbn [overflow newVolume fullVolume pondedArea set_overflow
            set_newVolume set_newDepth] in *.
  all: rewrite ?Qltb_true, ?Qltb_false in *.
  all: split; [reflexivity|].
  all: split; [intros; lra|].
  all: unfold upd_node in *; cbn [AllowPonding with_Node] in *.
  all: intros [Hp | Hp];
    [try rewrite Hp in * | apply Qeq_bool_iff in Hp; try rewrite Hp in *];
    cbn [negb orb] in *; rewrite ?orb_true_r in *;
    try discriminate; lra.
Qed.

Lemma updateStorageState_loop_full fuel :
  forall sp i j links dt vFixed d1 iter stopped,
  (i < length (Node sp))%nat ->
  fuel <> O -> (iter <? MAXITER)%Z && negb stopped = true ->
  let n := Node sp !!! i in
  let n' :=
    Node (updateStorageState_loop fuel sp i j links dt vFixed d1 iter
            stopped).1.1.1 !!! i in
  (0 < overflow n' -> fullVolume n <= newVolume n')
  /\ (AllowPonding sp = false \/ pondedArea n == 0 ->
      newVolume n' <= fullVolume n).
Proof.
  induction fuel as [|fuel IH]; intros sp i j links dt vFixed d1 iter stopped
    Hi Hfuel Hc; [congruence|].
  cbn zeta. cbn [updateStorageState_loop]. rewrite Hc.
  pose proof (updateStorageState_pass_touches sp i j links dt vFixed d1) as Ht.
  pose proof (updateStorageState_pass_full sp i j links dt vFixed d1 Hi)
    as (Hp & Ho & Hv).
  destruct (updateStorageState_pass sp i j links dt vFixed d1)
    as [[sp1 d2] st].
  cbn [fst] in Ht, Hp, Ho, Hv.
  assert (Hi1 : (i < length (Node sp1))%nat)
    by (rewrite (t_length _ _ _ Ht); exact Hi).
  destruct fuel as [|fuel]; [exact (conj Ho Hv)|].
  destruct ((iter + 1 <? MAXITER)%Z && negb st) eqn:Hc1.
  - specialize (IH sp1 i j links dt vFixed d2 (iter + 1)%Z st Hi1
                  ltac:(discriminate) Hc1).
    cbn zeta in IH.
    rewrite (t_fullVolume _ _ _ Ht), (t_AllowPonding _ _ _ Ht), Hp in IH.
    exact IH.
  - cbn [updateStorageState_loop]. rewrite Hc1. exact (conj Ho Hv).
Qed.

(** X21. Under steady and kinematic-wave routing a node that overflows is
    full.  When [setNewNodeState] has closed out a node (a storage node
    that had not been updated yet, or a node of another type) with an
    overflow, the node holds its full volume at least; and unless
    ponding is allowed at the node it never holds more than its full
    volume. *)
Theorem setNewNodeState_overflow_full sp j dt :
  (j < length (Node sp))%nat ->
  (n_type (Node sp !!! j) = STORAGE -> updated (Node sp !!! j) = false) ->
  let n := Node sp !!! j in
  let n' := Node (setNewNodeState sp j dt) !!! j in
  (0 < overflow n' -> fullVolume n <= newVolume n')
  /\ (AllowPonding sp = false \/ pondedArea n == 0 ->
      newVolume n' <= fullVolume n).
Proof.
  intros Hj Hu. cbn zeta. unfold setNewNodeState.
  destruct (bool_decide (n_type (Node sp !!! j) = STORAGE)) eqn:Hst.
  - apply bool_decide_eq_true in Hst. rewrite (Hu Hst). cbn [negb].
    unfold updateStorageState.
    rewrite (bool_decide_eq_true_2 _ Hst), (Hu Hst). cbn [negb].
    match goal with
    | |- context [updateStorageState_loop ?f ?s ?i ?k ?l ?d ?v ?d1 ?it ?st] =>
        pose proof (updateStorageState_loop_touches f s i k l d v d1 it st)
          as Hl;
        pose proof (updateStorageState_loop_full f s i k l d v d1 it st Hj
                      ltac:(discriminate) eq_refl) as Hf;
        destruct (updateStorageState_loop f s i k l d v d1 it st)
          as [[[sp1 d2] it'] st']
    end.
    cbn [fst] in Hl, Hf. cbn zeta in Hf.
    rewrite upd_node_at by (rewrite (t_length _ _ _ Hl); exact Hj).
    exact Hf.
  - clear Hu Hst. cbn zeta.
    repeat case_match; simplify_eq.
    all: at_node.
    all: cbn [overflow newVolume fullVolume pondedArea set_overflow
              set_newVolume set_newDepth] in *.
    all: unfold upd_node in *; cbn [AllowPonding with_Node] in *.
    all: rewrite ?Qltb_true, ?Qltb_false in *.
    all: split; [intros; lra|].
    all: intros Hp;
      assert (Hc : AllowPonding sp && Qltb 0 (pondedArea (Node sp !!! j))
                   = false)
        by (destruct Hp as [-> | Hp];
            [reflexivity
            | apply andb_false_iff; right; apply Qltb_false; lra]);
      try rewrite Hc in *; cbn [negb] in *; try discriminate; lra.
Qed.

End VolumeCap.

(** the storage unit of [net_split], where ponding is not allowed *)
Lemma setNewNodeState_overflow_full_witness :
  newVolume (Node (@setNewNodeState ideal net_split 0 60) !!! 0%nat)
  <= fullVolume (Node net_split !!! 0%nat).
Proof.
  destruct (@setNewNodeState_overflow_full ideal net_split 0 60) as [_ Hv];
    [cbn; lia | intros _; reflexivity |].
  apply Hv. left. reflexivity.
Defined.

End FlowroutFacts.

(** * Properties of flowrout.c: the initial state *)

Module FlowroutInitFacts.

Import FlowroutInit.
Local Open Scope Q_scope.

Lemma MAX_cases x y : (y <= x /\ MAX x y = x) \/ (x < y /\ MAX x y = y).
Proof.
  unfold MAX. destruct (Qle_bool y x) eqn:E.
  - left. split; [now apply Qle_bool_iff | reflexivity].
  - right. split; [|reflexivity].
    apply Qnot_le_lt. intros Hle. apply Qle_bool_iff in Hle. congruence.
Qed.

Lemma MIN_le_r x y : MIN x y <= y.
Proof.
  unfold MIN. destruct (Qle_bool x y) eqn:E;
    [now apply Qle_bool_iff | apply Qle_refl].
Qed.

Lemma assigned_node i f sp :
  (i < length (Node sp))%nat ->
  Node (upd_node i f sp) !!! i = f (Node sp !!! i).
Proof. intros Hi. now apply list_lookup_total_alter_eq. Qed.

Lemma other_node i k f sp :
  k <> i -> Node (upd_node i f sp) !! k = Node sp !! k.
Proof. intros Hk. apply list_lookup_alter_ne. congruence. Qed.

Lemma assigned_length i f sp :
  length (Node (upd_node i f sp)) = length (Node sp).
Proof. apply length_alter. Qed.

(** a loop that visits every position of an array of the project once,
    and changes the element it visits only; [rest] is what it leaves
    alone *)
Lemma visits_once {A B} `{Inhabited A} (array : Project -> list A)
    (rest : Project -> B) (P : A -> A -> Prop)
    (step : Project -> nat -> Project) (l : list nat) :
  (forall sp i,
     rest (step sp i) = rest sp
     /\ length (array (step sp i)) = length (array sp)
     /\ (forall k, k <> i -> array (step sp i) !! k = array sp !! k)
     /\ ((i < length (array sp))%nat ->
         P (array sp !!! i) (array (step sp i) !!! i))) ->
  NoDup l ->
  forall sp,
    rest (foldl step sp l) = rest sp
    /\ length (array (foldl step sp l)) = length (array sp)
    /\ (forall k, k ∉ l -> array (foldl step sp l) !! k = array sp !! k)
    /\ (forall k, k ∈ l -> (k < length (array sp))%nat ->
          P (array sp !!! k) (array (foldl step sp l) !!! k)).
Proof.
  intros Hs. induction l as [|x l IH]; intros Hnd sp; cbn [foldl].
  - repeat split; auto. intros k Hk. now apply elem_of_nil in Hk.
  - apply NoDup_cons in Hnd as [Hx Hnd].
    destruct (Hs sp x) as (L1 & N1 & O1 & P1).
    destruct (IH Hnd (step sp x)) as (L2 & N2 & O2 & P2).
    split; [congruence|]. split; [congruence|]. split.
    + intros k Hk. apply not_elem_of_cons in Hk as [Hkx Hk].
      rewrite O2 by exact Hk. now apply O1.
    + intros k Hk Hlt. apply elem_of_cons in Hk as [-> | Hk].
      * rewrite (list_lookup_total_alt (array (foldl _ _ _))), O2 by exact Hx.
        rewrite <- list_lookup_total_alt. now apply P1.
      * assert (Hkx : k <> x) by (intros ->; contradiction).
        specialize (P2 k Hk ltac:(lia)).
        rewrite (list_lookup_total_alt (array (step sp x))), O1 in P2
          by exact Hkx.
        rewrite <- list_lookup_total_alt in P2. exact P2.
Qed.

(** an assignment to a node either changes the node that is looked at,
    or leaves it alone *)
Lemma upd_node_cases a f sp i :
  (a = i /\ (i < length (Node sp))%nat
   /\ Node (upd_node a f sp) !!! i = f (Node sp !!! i))
  \/ (Node (upd_node a f sp) !!! i = Node sp !!! i
      /\ (a <> i \/ (length (Node sp) <= i)%nat)).
Proof.
  destruct (decide (a = i)) as [-> | Hne].
  - destruct (decide (i < length (Node sp))%nat) as [Hi | Hi].
    + left. split; [reflexivity|]. split; [exact Hi|].
      now apply assigned_node.
    + right. split; [|right; lia]. cbn [upd_node Node].
      rewrite !list_lookup_total_alt, list_lookup_alter.
      rewrite (lookup_ge_None_2 (Node sp) i) by lia.
      now destruct (decide (i = i)).
  - right. split; [|now left].
    rewrite !list_lookup_total_alt, other_node by congruence. reflexivity.
Qed.

(** a property of the project that every pass of a loop keeps *)
Lemma foldl_keeps {X} (Inv : Project -> Prop) (step : Project -> X -> Project)
    (l : list X) :
  (forall s x, x ∈ l -> Inv s -> Inv (step s x)) ->
  forall s, Inv s -> Inv (foldl step s l).
Proof.
  induction l as [|x l IH]; intros Hs s HI; cbn [foldl]; [exact HI|].
  apply IH; [intros s' y Hy; apply Hs; now right|].
  apply Hs; [now left | exact HI].
Qed.

Section Init.

Context `{Collaborators}.

(** X22. After [initNodes] the outflow of a node is not negative and its
    inflow is not below its lateral inflow, whatever the directions of
    the flows in the links are: a flow that is not negative is added to
    the outflow of the upstream node and to the inflow of the downstream
    node, the size of a negative flow to the inflow of the upstream node
    and to the outflow of the downstream node.  A node at which no link
    ends has its lateral inflow as inflow and no outflow. *)
Theorem initNodes_flow_signs sp i :
  (i < length (Node sp))%nat ->
  let n := Node sp !!! i in
  let n' := Node (initNodes sp) !!! i in
  0 <= outflow n' /\ newLatFlow n <= inflow n'
  /\ ((forall l, l ∈ Link sp -> node1 l <> i /\ node2 l <> i) ->
      inflow n' = newLatFlow n /\ outflow n' = 0).
Proof.
  intros Hi. cbn zeta. unfold initNodes.
  match goal with
  | |- context [foldl ?step2 (foldl ?step1 sp ?l1) _] =>
      destruct (visits_once Node Link
                  (fun n n' => inflow n' = newLatFlow n /\ outflow n' = 0)
                  step1 l1) with (sp := sp) as (L1 & N1 & _ & P1);
      [ | apply NoDup_seq | set (sp1 := foldl step1 sp l1) in * ]
  end.
  { intros s k. cbn zeta.
    set (s1 := upd_node k (set_newVolume 0) (upd_node k _ s)).
    assert (Hs1 : (k < length (Node s))%nat ->
                  inflow (Node s1 !!! k) = newLatFlow (Node s !!! k)
                  /\ outflow (Node s1 !!! k) = 0).
    { intros Hk. unfold s1.
      rewrite assigned_node by (rewrite assigned_length; exact Hk).
      rewrite assigned_node by exact Hk. split; reflexivity. }
    assert (Ho : forall k', k' <> k -> Node s1 !! k' = Node s !! k').
    { intros k' Hk'. unfold s1. now rewrite !other_node by exact Hk'. }
    assert (Hl : length (Node s1) = length (Node s))
      by (unfold s1; now rewrite !assigned_length).
    assert (Hk : Link s1 = Link s) by reflexivity.
    clearbody s1.
    destruct (_ && _ && _).
    - split; [exact Hk|]. split; [now rewrite assigned_length|].
      split; [intros k' Hki; now rewrite other_node, Ho by exact Hki|].
      intros Hi'. rewrite assigned_node by (rewrite Hl; exact Hi').
      exact (Hs1 Hi').
    - split; [exact Hk|]. split; [now rewrite assigned_length|].
      split; [intros k' Hki; now rewrite other_node, Ho by exact Hki|].
      intros Hi'. rewrite assigned_node by (rewrite Hl; exact Hi').
      exact (Hs1 Hi'). }
  destruct (P1 i) as [Pin Pout]; [apply elem_of_seq; lia | exact Hi |].
  rewrite L1.
  set (lat := newLatFlow (Node sp !!! i)) in *.
  match goal with
  | |- context [foldl ?step2 sp1 ?l2] =>
      pose proof (foldl_keeps
        (fun s => Link s = Link sp
                  /\ 0 <= outflow (Node s !!! i)
                  /\ lat <= inflow (Node s !!! i)
                  /\ ((forall l, l ∈ Link sp -> node1 l <> i /\ node2 l <> i)
                      -> Node s !!! i = Node sp1 !!! i))
        step2 l2) as Hloop
  end.
  cbn beta in Hloop.
  destruct (Hloop) with (s := sp1) as (_ & Ho & Hin & Hsame).
  - intros s k Hk (HL & Ho & Hin & Hsame). apply elem_of_seq in Hk.
    assert (Hmem : Link s !!! k ∈ Link sp).
    { rewrite HL. apply list_elem_of_lookup_total_2. lia. }
    cbn beta zeta.
    repeat match goal with
           | |- context [Link (upd_node ?x ?f ?t)] =>
               change (Link (upd_node x f t)) with (Link t)
           end.
    set (q := newFlow (Link s !!! k)).
    set (a := node1 (Link s !!! k)) in *.
    set (b := node2 (Link s !!! k)) in *.
    destruct (Qle_bool 0 q) eqn:Eq.
    + apply Qle_bool_iff in Eq.
      split; [exact HL|].
      match goal with
      | |- context [upd_node b ?g (upd_node a ?f s)] =>
          destruct (upd_node_cases b g (upd_node a f s) i)
            as [(Eb & _ & ->) | (-> & Hb)];
          destruct (upd_node_cases a f s i) as [(Ea & _ & ->) | (-> & Ha)]
      end; cbn [outflow inflow set_flows];
        (split; [lra|]); (split; [lra|]); intros Hno;
        destruct (Hno _ Hmem) as [N1' N2'];
        try contradiction; try (now apply Hsame).
      all: rewrite assigned_length in Hb; destruct Hb; [contradiction|lia].
    + assert (Hq : q < 0).
      { apply Qnot_le_lt. intros Hle. apply Qle_bool_iff in Hle. congruence. }
      split; [exact HL|].
      match goal with
      | |- context [upd_node b ?g (upd_node a ?f s)] =>
          destruct (upd_node_cases b g (upd_node a f s) i)
            as [(Eb & _ & ->) | (-> & Hb)];
          destruct (upd_node_cases a f s i) as [(Ea & _ & ->) | (-> & Ha)]
      end; cbn [outflow inflow set_flows];
        (split; [lra|]); (split; [lra|]); intros Hno;
        destruct (Hno _ Hmem) as [N1' N2'];
        try contradiction; try (now apply Hsame).
      all: rewrite assigned_length in Hb; destruct Hb; [contradiction|lia].
  - split; [exact L1|]. rewrite Pin, Pout. repeat split; try lra.
  - split; [exact Ho|]. split; [exact Hin|].
    intros Hno. rewrite (Hsame Hno). split; [exact Pin | exact Pout].
Qed.

(** X23. [initLinkDepths] leaves every conduit without an initial flow
    with a depth of at least FUDGE and at most the larger of its full
    depth and FUDGE, whatever the depths at its end nodes are; conduits
    with an initial flow, links that are no conduits and the nodes are
    left as they are. *)
Theorem initLinkDepths_bounds sp i :
  (i < length (Link sp))%nat ->
  let l := Link sp !!! i in
  let l' := Link (initLinkDepths sp) !!! i in
  Node (initLinkDepths sp) = Node sp
  /\ (l_type l = CONDUIT -> q0 l == 0 ->
      FUDGE <= l_newDepth l' /\ l_newDepth l' <= MAX (yFull l) FUDGE)
  /\ (l_type l <> CONDUIT \/ ~ q0 l == 0 -> l' = l).
Proof.
  intros Hi. cbn zeta. unfold initLinkDepths.
  match goal with
  | |- context [foldl ?step sp ?idx] =>
      destruct (visits_once Link Node
                  (fun l l' =>
                     (l_type l = CONDUIT -> q0 l == 0 ->
                      FUDGE <= l_newDepth l'
                      /\ l_newDepth l' <= MAX (yFull l) FUDGE)
                     /\ (l_type l <> CONDUIT \/ ~ q0 l == 0 -> l' = l))
                  step idx) with (sp := sp) as (L1 & _ & _ & P1);
      [ | apply NoDup_seq | ]
  end.
  - intros s k.
    destruct (bool_decide (l_type (Link s !!! k) = CONDUIT)) eqn:Et.
    + apply bool_decide_eq_true in Et.
      destruct (Qeq_bool (q0 (Link s !!! k)) 0) eqn:Eq; cbn [negb].
      * apply Qeq_bool_iff in Eq.
        split; [reflexivity|]. split; [apply length_alter|].
        split; [intros k' Hk'; apply list_lookup_alter_ne; congruence|].
        intros Hk. cbn [upd_link Link].
        rewrite list_lookup_total_alter_eq by exact Hk. cbn [l_newDepth set_l_newDepth].
        set (yF := yFull (Link s !!! k)).
        set (a := MIN (MAX _ 0) yF). set (b := MIN (MAX _ 0) yF).
        assert (Ha : a <= yF) by apply MIN_le_r.
        assert (Hb : b <= yF) by apply MIN_le_r.
        clearbody a b. split.
        -- intros _ _.
           destruct (MAX_cases (0.5 * (a + b)) FUDGE) as [[? ->] | [? ->]];
             destruct (MAX_cases yF FUDGE) as [[? ->] | [? ->]];
             split; lra.
        -- intros [Hn | Hn]; contradiction.
      * split; [reflexivity|]. split; [reflexivity|].
        split; [reflexivity|]. intros _. split; [|reflexivity].
        intros _ Hq. apply Qeq_bool_iff in Hq. congruence.
    + apply bool_decide_eq_false in Et.
      split; [reflexivity|]. split; [reflexivity|].
      split; [reflexivity|]. intros _. split; [|reflexivity].
      intros Hc. contradiction.
  - split; [exact L1|]. apply P1; [apply elem_of_seq; lia | exact Hi].
Qed.

End Init.

(** the first junction of [pair]: 2 cfs of lateral inflow and the 4 cfs
    that come back from the second junction *)
Lemma initNodes_flow_signs_witness :
  0 <= outflow (Node (@initNodes linear pair) !!! 0%nat)
  /\ newLatFlow (Node pair !!! 0%nat)
     <= inflow (Node (@initNodes linear pair) !!! 0%nat).
Proof.
  destruct (@initNodes_flow_signs linear pair 0) as (Ho & Hi & _);
    [cbn; lia|].
  split; [exact Ho | exact Hi].
Defined.

(** the conduit of [pair]: 1.5 ft between 1 ft and the full depth of 2 ft *)
Lemma initLinkDepths_bounds_witness :
  @FUDGE linear <= l_newDepth (Link (@initLinkDepths linear pair) !!! 0%nat).
Proof.
  destruct (@initLinkDepths_bounds linear pair 0) as (_ & Hb & _);
    [cbn; lia|].
  apply Hb; reflexivity.
Defined.

End FlowroutInitFacts.

(** * Properties of output.c *)

Module OutputFacts.

Import Output.

Section Stream.

Context `{Collaborators}.

Local Open Scope Z_scope.

(** ** The sizes of the pieces of a record *)

Lemma flat_map_length_uniform {A B} (g : A -> list B) (m : nat) (l : list A) :
  (forall x, length (g x) = m) -> length (flat_map g l) = (m * length l)%nat.
Proof.
  intros Hg. induction l as [|x l IH]; cbn [flat_map length]; [lia|].
  rewrite length_app, Hg, IH. lia.
Qed.

Lemma array_bytes_length x n : length (array_bytes x n) = (4 * n)%nat.
Proof.
  unfold array_bytes.
  rewrite (flat_map_length_uniform _ 4%nat) by reflexivity.
  rewrite length_seq. reflexivity.
Qed.

Lemma objects_bytes_length flags results n :
  length (objects_bytes flags results n)
  = (4 * n * length (reported flags))%nat.
Proof.
  unfold objects_bytes.
  apply flat_map_length_uniform. intros j. apply array_bytes_length.
Qed.

Lemma period_bytes_length sp c : length (period_bytes sp c) = period_size sp.
Proof.
  unfold period_bytes, period_size. cbn zeta.
  rewrite !length_app, !objects_bytes_length, array_bytes_length.
  cbn [REAL8_bytes REAL4_bytes length app]. lia.
Qed.

Lemma REAL4_items_flat_map (x : REAL4_array) n : forall a rest,
  REAL4_items n (flat_map (fun i => REAL4_bytes (x i)) (seq a n) ++ rest)
  = map x (seq a n).
Proof.
  induction n as [|n IH]; intros a rest; [reflexivity|].
  cbn [seq flat_map REAL4_bytes app REAL4_items map].
  rewrite IH. now destruct (x a).
Qed.

(** reading back the [n] elements of an array from its bytes *)
Lemma REAL4_items_array_bytes x n rest :
  REAL4_items n (array_bytes x n ++ rest) = map x (seq 0 n).
Proof. apply REAL4_items_flat_map. Qed.

(** skipping [k] blocks of [m] bytes *)
Lemma drop_flat_map_uniform {A B} (g : A -> list B) (m : nat) :
  (forall x, length (g x) = m) ->
  forall (l : list A) k rest,
  (k <= length l)%nat ->
  drop (m * k) (flat_map g l ++ rest) = flat_map g (drop k l) ++ rest.
Proof.
  intros Hg. induction l as [|x l IH]; intros k rest Hk.
  - cbn in Hk. assert (k = 0)%nat as -> by lia.
    now rewrite Nat.mul_0_r.
  - destruct k as [|k]; [now rewrite Nat.mul_0_r|].
    cbn [flat_map drop length] in *. rewrite <- app_assoc.
    replace (m * S k)%nat with (length (g x) + m * k)%nat by (rewrite Hg; lia).
    rewrite drop_app_add'; [|reflexivity]. apply IH. lia.
Qed.

Lemma flat_map_drop_lookup {A B} (g : A -> list B) (l : list A) k x :
  l !! k = Some x ->
  flat_map g (drop k l) = g x ++ flat_map g (drop (S k) l).
Proof. intros Hk. now rewrite (drop_S _ _ _ Hk). Qed.

(** ** The writer appends *)

Lemma fwrite_at_end data f :
  at_end f ->
  fwrite data f
  = {| contents := contents f ++ data;
       fpos := length (contents f ++ data) |}.
Proof.
  unfold at_end, fwrite. intros ->.
  rewrite firstn_all, Nat.sub_diag, length_app. cbn [replicate app].
  rewrite drop_ge by lia. now rewrite app_nil_r.
Qed.

Lemma save_objects_from (flags : list bool) results n : forall js f,
  at_end f ->
  foldl (fun (file : TFile) (j : nat) =>
           let x := results j in
           let rptFlag : bool := flags !!! j in
           if rptFlag then fwrite (array_bytes x (Z.to_nat n)) file
           else file) f js
  = {| contents :=
         contents f
         ++ flat_map (fun j => array_bytes (results j) (Z.to_nat n))
              (filter (fun j => flags !!! j = true) js);
       fpos :=
         length
           (contents f
            ++ flat_map (fun j => array_bytes (results j) (Z.to_nat n))
                 (filter (fun j => flags !!! j = true) js)) |}.
Proof.
  induction js as [|j js IH]; intros f Hf; cbn [foldl].
  - rewrite filter_nil. cbn [flat_map]. rewrite app_nil_r.
    destruct f as [c p]. unfold at_end in Hf. cbn in *. now subst.
  - cbn zeta. destruct (flags !!! j) eqn:Hj.
    + rewrite filter_cons_True by exact Hj.
      rewrite fwrite_at_end by exact Hf. rewrite IH by reflexivity.
      cbn [contents flat_map]. now rewrite <- !app_assoc.
    + rewrite filter_cons_False by (rewrite Hj; discriminate).
      now apply IH.
Qed.

Lemma save_objects_at_end (flags : list bool) results n f :
  at_end f ->
  save_objects flags results n f
  = {| contents := contents f ++ objects_bytes flags results (Z.to_nat n);
       fpos :=
         length (contents f ++ objects_bytes flags results (Z.to_nat n)) |}.
Proof. intros Hf. unfold save_objects. now rewrite save_objects_from. Qed.

Lemma at_end_eta f extra :
  at_end f -> extra = [] ->
  f = {| contents := contents f ++ extra;
         fpos := length (contents f ++ extra) |}.
Proof.
  unfold at_end. intros Hf ->. rewrite app_nil_r, <- Hf. now destruct f.
Qed.

(** a call at or after the report start appends one record *)
Lemma output_saveResults_appends sp reportTime :
  at_end (Fout sp) ->
  Qltb (getDateTime (sim sp) reportTime) (ReportStart sp) = false ->
  Fout (output_saveResults sp reportTime)
  = {| contents := contents (Fout sp) ++ period_bytes sp (sim sp, reportTime);
       fpos :=
         length (contents (Fout sp) ++ period_bytes sp (sim sp, reportTime)) |}.
Proof.
  intros Hend Hdate. unfold output_saveResults. cbn zeta. rewrite Hdate.
  cbn [Fout]. rewrite (fwrite_at_end _ _ Hend).
  set (f1 := {| contents := contents (Fout sp) ++ _ |}).
  assert (H1 : at_end f1) by reflexivity.
  unfold output_saveSubcatchResults, output_saveNodeResults,
    output_saveLinkResults.
  set (f2 := if (0 <? length (Subcatch sp))%nat then _ else f1).
  assert (E2 : f2 = {| contents := contents f1 ++ objects_bytes (Subcatch sp)
                        (fun j => subcatch_getResults (sim sp) j
                                    (runoff_weight (sim sp) reportTime))
                        (Z.to_nat (NsubcatchResults (OutputShared sp)));
                       fpos := length (contents f1 ++ objects_bytes (Subcatch sp)
                        (fun j => subcatch_getResults (sim sp) j
                                    (runoff_weight (sim sp) reportTime))
                        (Z.to_nat (NsubcatchResults (OutputShared sp)))) |}).
  { subst f2. destruct (Subcatch sp) as [|b l] eqn:E.
    - apply at_end_eta; [exact H1 | reflexivity].
    - cbn [length Nat.ltb Nat.leb]. now rewrite save_objects_at_end. }
  clearbody f2. subst f2.
  set (f2 := {| contents := contents f1 ++ _ |}).
  assert (H2 : at_end f2) by reflexivity.
  set (f3 := if (0 <? length (Node sp))%nat then _ else f2).
  assert (E3 : f3 = {| contents := contents f2 ++ objects_bytes (Node sp)
                        (fun j => node_getResults (sim sp) j
                                    (routing_weight (sim sp) reportTime))
                        (Z.to_nat (NnodeResults (OutputShared sp)));
                       fpos := length (contents f2 ++ objects_bytes (Node sp)
                        (fun j => node_getResults (sim sp) j
                                    (routing_weight (sim sp) reportTime))
                        (Z.to_nat (NnodeResults (OutputShared sp)))) |}).
  { subst f3. destruct (Node sp) as [|b l] eqn:E.
    - apply at_end_eta; [exact H2 | reflexivity].
    - cbn [length Nat.ltb Nat.leb]. now rewrite save_objects_at_end. }
  clearbody f3. subst f3.
  set (f3 := {| contents := contents f2 ++ _ |}).
  assert (H3 : at_end f3) by reflexivity.
  set (f4 := if (0 <? length (Link sp))%nat then _ else f3).
  assert (E4 : f4 = {| contents := contents f3 ++ objects_bytes (Link sp)
                        (fun j => link_getResults (sim sp) j
                                    (routing_weight (sim sp) reportTime))
                        (Z.to_nat (NlinkResults (OutputShared sp)));
                       fpos := length (contents f3 ++ objects_bytes (Link sp)
                        (fun j => link_getResults (sim sp) j
                                    (routing_weight (sim sp) reportTime))
                        (Z.to_nat (NlinkResults (OutputShared sp)))) |}).
  { subst f4. destruct (Link sp) as [|b l] eqn:E.
    - apply at_end_eta; [exact H3 | reflexivity].
    - cbn [length Nat.ltb Nat.leb]. now rewrite save_objects_at_end. }
  clearbody f4. subst f4.
  rewrite fwrite_at_end by reflexivity.
  unfold period_bytes. cbn [contents fst snd f1 f2 f3].
  now rewrite <- !app_assoc.
Qed.

Lemma period_bytes_same_layout sp sp' c :
  same_layout sp sp' -> period_bytes sp' c = period_bytes sp c.
Proof.
  intros (Hs & Hn & Hl & Ho & _). unfold period_bytes.
  now rewrite Hs, Hn, Hl, Ho.
Qed.

Lemma output_saveResults_same_layout sp reportTime :
  same_layout sp (output_saveResults sp reportTime).
Proof.
  unfold output_saveResults, same_layout. cbn zeta.
  destruct (Qltb _ _); cbn; repeat split; auto.
Qed.

(** the stream after a sequence of calls: one record for each call that is
    not before the report start, in order *)
Lemma save_all_stream calls : forall sp,
  at_end (Fout sp) ->
  contents (Fout (save_all sp calls))
  = contents (Fout sp) ++ flat_map (period_bytes sp) (written sp calls)
  /\ at_end (Fout (save_all sp calls))
  /\ same_layout sp (save_all sp calls).
Proof.
  induction calls as [|c calls IH]; intros sp Hend; cbn [save_all foldl].
  - unfold written. rewrite filter_nil. cbn [flat_map].
    rewrite app_nil_r. unfold same_layout. repeat split; auto.
  - fold (save_all (output_saveResults (with_sim c.1 sp) c.2) calls).
    pose proof (output_saveResults_same_layout (with_sim c.1 sp) c.2) as Hl.
    set (sp1 := output_saveResults (with_sim c.1 sp) c.2) in *.
    assert (Hl' : same_layout sp sp1) by exact Hl.
    assert (Hw : written sp1 calls = written sp calls).
    { unfold written. destruct Hl' as (_ & _ & _ & _ & ->). reflexivity. }
    destruct (Qltb (getDateTime c.1 c.2) (ReportStart sp)) eqn:Hd.
    + assert (E1 : sp1 = with_sim c.1 sp).
      { subst sp1. unfold output_saveResults. cbn zeta. cbn [sim with_sim ReportStart].
        now rewrite Hd. }
      destruct (IH sp1) as (Hc & He & Hs).
      { rewrite E1. exact Hend. }
      rewrite Hw in Hc. unfold written at 1.
      rewrite filter_cons_False by (rewrite Hd; discriminate).
      fold (written sp calls).
      split; [|split; [exact He|]].
      * rewrite Hc, E1. cbn [Fout with_sim]. reflexivity.
      * destruct Hl' as (A1 & A2 & A3 & A4 & A5).
        destruct Hs as (B1 & B2 & B3 & B4 & B5).
        unfold same_layout. repeat split; congruence.
    + pose proof (output_saveResults_appends (with_sim c.1 sp) c.2 Hend Hd) as Ha.
      fold sp1 in Ha. cbn [sim with_sim Fout] in Ha.
      destruct (IH sp1) as (Hc & He & Hs).
      { rewrite Ha. reflexivity. }
      rewrite Hw in Hc. unfold written at 1.
      rewrite filter_cons_True by exact Hd.
      fold (written sp calls). cbn [flat_map].
      split; [|split; [exact He|]].
      * rewrite Hc, Ha. cbn [contents]. rewrite <- app_assoc. f_equal.
        destruct c as [w t]. cbn [fst snd]. f_equal.
        apply flat_map_ext. intros a. now apply period_bytes_same_layout.
      * destruct Hl' as (A1 & A2 & A3 & A4 & A5).
        destruct Hs as (B1 & B2 & B3 & B4 & B5).
        unfold same_layout. repeat split; congruence.
Qed.

(** the period counter counts the records, as long as it fits an int *)
Lemma save_all_Nperiods calls : forall sp,
  (- 2 ^ 31 <= Nperiods sp)%Z ->
  (Nperiods sp + Z.of_nat (length calls) < 2 ^ 31)%Z ->
  Nperiods (save_all sp calls)
  = (Nperiods sp + Z.of_nat (length (written sp calls)))%Z.
Proof.
  induction calls as [|c calls IH]; intros sp Hlo Hhi; cbn [save_all foldl].
  - unfold written. rewrite filter_nil. cbn. lia.
  - fold (save_all (output_saveResults (with_sim c.1 sp) c.2) calls).
    pose proof (output_saveResults_same_layout (with_sim c.1 sp) c.2) as Hl.
    set (sp1 := output_saveResults (with_sim c.1 sp) c.2) in *.
    assert (Hw : written sp1 calls = written sp calls).
    { unfold written. destruct Hl as (_ & _ & _ & _ & ->). reflexivity. }
    cbn [length] in Hhi.
    destruct (Qltb (getDateTime c.1 c.2) (ReportStart sp)) eqn:Hd.
    + assert (E1 : Nperiods sp1 = Nperiods sp).
      { subst sp1. unfold output_saveResults. cbn zeta.
        cbn [sim with_sim ReportStart]. now rewrite Hd. }
      rewrite IH by (rewrite E1; lia). rewrite Hw, E1. unfold written.
      now rewrite filter_cons_False by (rewrite Hd; discriminate).
    + assert (E1 : Nperiods sp1 = (Nperiods sp + 1)%Z).
      { subst sp1. unfold output_saveResults. cbn zeta.
        cbn [sim with_sim ReportStart]. rewrite Hd. cbn [Nperiods].
        change (Nperiods (with_sim c.1 sp)) with (Nperiods sp).
        unfold wrap32. rewrite Z.mod_small; lia. }
      rewrite IH by (rewrite E1; lia). rewrite Hw, E1. unfold written.
      rewrite filter_cons_True by exact Hd. cbn [length]. lia.
Qed.

(** ** The sizes that [output_open] computes *)

Lemma filter_ext_elem {A} (P1 P2 : A -> Prop) `{forall x, Decision (P1 x)}
    `{forall x, Decision (P2 x)} (l : list A) :
  Forall (fun x => P1 x <-> P2 x) l -> filter P1 l = filter P2 l.
Proof.
  induction 1 as [|x l Hx _ IH]; [reflexivity|].
  destruct (decide (P1 x)) as [Hp|Hp].
  - rewrite !filter_cons_True by tauto. now rewrite IH.
  - rewrite !filter_cons_False by tauto. exact IH.
Qed.

Lemma reported_snoc flags b :
  reported (flags ++ [b])
  = reported flags ++ (if b then [length flags] else []).
Proof.
  unfold reported. rewrite length_app. cbn [length].
  rewrite Nat.add_1_r, seq_S, filter_app. cbn [Nat.add]. f_equal.
  - apply filter_ext_elem. apply Forall_forall. intros j Hj.
    apply elem_of_seq in Hj. rewrite lookup_total_app_l by lia. reflexivity.
  - rewrite filter_singleton.
    + rewrite list_lookup_total_middle by reflexivity.
      destruct b; destruct (decide _); congruence.
    + exact [].
Qed.

Lemma count_rptFlag_reported flags :
  count_rptFlag flags = Z.of_nat (length (reported flags)).
Proof.
  unfold count_rptFlag. induction flags as [|b flags IH] using rev_ind.
  - reflexivity.
  - rewrite foldl_snoc, IH, reported_snoc, length_app.
    destruct b; cbn [length]; lia.
Qed.

Lemma output_open_layout sp :
  layout_ok (output_open true sp) (header (sim sp))
  /\ contents (Fout (output_open true sp)) = header (sim sp)
  /\ at_end (Fout (output_open true sp))
  /\ Nperiods (output_open true sp) = 0.
Proof.
  unfold output_open, layout_ok. cbn [negb]. cbn zeta.
  cbn [OutputShared OutputStartPos BytesPerPeriod NumSubcatch NumNodes
       NumLinks NsubcatchResults NnodeResults NlinkResults Subcatch Node Link
       Fout Nperiods].
  rewrite !count_rptFlag_reported.
  assert (Hw : fwrite (header (sim sp)) {| contents := []; fpos := 0%nat |}
               = {| contents := header (sim sp);
                    fpos := length (header (sim sp)) |}).
  { rewrite fwrite_at_end by reflexivity. reflexivity. }
  rewrite Hw. cbn [contents fpos].
  assert (Hp : 0 <= (if IgnoreQuality sp then 0 else Z.of_nat (Npollut sp)))
    by (destruct (IgnoreQuality sp); lia).
  unfold MAX_SUBCATCH_RESULTS, MAX_NODE_RESULTS, MAX_LINK_RESULTS.
  repeat split; try reflexivity; lia.
Qed.

Lemma layout_ok_same_layout sp sp' hdr :
  same_layout sp sp' -> layout_ok sp hdr -> layout_ok sp' hdr.
Proof.
  intros (Hs & Hn & Hl & Ho & _). unfold layout_ok.
  now rewrite Hs, Hn, Hl, Ho.
Qed.

Lemma wrap32_small z : 0 <= z <= MAXFILESIZE -> wrap32 z = z.
Proof.
  unfold wrap32, MAXFILESIZE. intros Hz. rewrite Z.mod_small; lia.
Qed.

(** ** Reading at a byte position *)


Lemma flat_map_split {A B} (g : A -> list B) (m : nat) (l : list A) k x :
  (forall a, length (g a) = m) ->
  l !! k = Some x ->
  flat_map g l = flat_map g (take k l) ++ g x ++ flat_map g (drop (S k) l)
  /\ length (flat_map g (take k l)) = (m * k)%nat.
Proof.
  intros Hg Hk. split.
  - rewrite <- (take_drop_middle l k x Hk) at 1.
    now rewrite flat_map_app.
  - rewrite (flat_map_length_uniform g m) by exact Hg.
    rewrite length_take_le; [reflexivity|].
    apply lookup_lt_Some in Hk. lia.
Qed.


Lemma objects_bytes_split (flags : list bool) results n k j :
  reported flags !! k = Some j ->
  exists pin rin,
    objects_bytes flags results n = pin ++ array_bytes (results j) n ++ rin
    /\ length pin = (4 * n * k)%nat.
Proof.
  intros Hk. unfold objects_bytes.
  destruct (flat_map_split (fun j => array_bytes (results j) n) (4 * n)
              (reported flags) k j
              (fun a => array_bytes_length (results a) n) Hk) as [Hs Hl].
  eauto.
Qed.

Lemma period_size_Z sp hdr :
  layout_ok sp hdr ->
  let o := OutputShared sp in
  Z.of_nat (period_size sp)
  = 8 + NumSubcatch o * NsubcatchResults o * 4
    + NumNodes o * NnodeResults o * 4
    + NumLinks o * NlinkResults o * 4
    + Z.of_nat MAX_SYS_RESULTS * 4.
Proof.
  intros (_ & _ & Hs & Hn & Hl & Ps & Pn & Pl). cbn zeta.
  unfold period_size. cbn zeta.
  rewrite !Nat2Z.inj_add, !Nat2Z.inj_mul, !Z2Nat.id by assumption.
  rewrite Hs, Hn, Hl. cbn. lia.
Qed.

(** The stream holds the header, the records of the periods [ws] and
    whatever has been written after them ([tail]: nothing during the run,
    the closing record once [output_end] has run); the header and the
    records lie within MAXFILESIZE. *)
Section Readers.

Variables (sp : Project) (hdr : list byte) (ws : list (Sim * Q)).
Variable tail : list byte.
Variables (q : nat) (c : Sim * Q).
Hypothesis Hlayout : layout_ok sp hdr.
Hypothesis Hcontents :
  contents (Fout sp) = hdr ++ flat_map (period_bytes sp) ws ++ tail.
Hypothesis Hfits :
  Z.of_nat (length hdr + period_size sp * length ws) <= MAXFILESIZE.
Hypothesis Hperiod : ws !! q = Some c.

Lemma record_fits :
  (q + 1 <= length ws)%nat ->
  Z.of_nat (length hdr + period_size sp * (q + 1)) <= MAXFILESIZE.
Proof using Hfits.
  clear Hlayout Hcontents Hperiod. intros Hq.
  pose proof (Nat.mul_le_mono_l _ _ (period_size sp) Hq). lia.
Qed.

(** the position of the record of period [q + 1], free of wrap-around *)
Lemma bytePos_period :
  (q + 1 <= length ws)%nat ->
  wrap32 (OutputStartPos (OutputShared sp)
          + (Z.of_nat q + 1 - 1) * BytesPerPeriod (OutputShared sp))
  = Z.of_nat (length hdr + period_size sp * q).
Proof using Hlayout Hfits.
  clear Hcontents Hperiod.
  intros Htot. pose proof (period_size_Z sp hdr Hlayout) as HS.
  pose proof (record_fits Htot) as Hrf.
  cbn zeta in HS. destruct Hlayout as (Hstart & Hbpp & _).
  rewrite Hstart, Hbpp, <- HS.
  assert (0 <= Z.of_nat (period_size sp) * Z.of_nat q) by lia.
  assert (Z.of_nat (period_size sp) * Z.of_nat q + Z.of_nat (period_size sp)
          + Z.of_nat (length hdr) <= MAXFILESIZE) by lia.
  rewrite (wrap32_small (Z.of_nat (length hdr))) by lia.
  rewrite (wrap32_small (Z.of_nat (period_size sp))) by lia.
  rewrite wrap32_small by lia. lia.
Qed.




End Readers.

(** ** Properties of the output stream *)

(** [output_end] leaves the layout data alone and appends the closing
    record of six INT4 *)
Lemma output_end_same_layout magic idPos inputPos getCode sp :
  same_layout sp (output_end magic idPos inputPos getCode sp).
Proof. unfold same_layout. repeat split. Qed.

Lemma output_end_appends magic idPos inputPos getCode sp :
  at_end (Fout sp) ->
  contents (Fout (output_end magic idPos inputPos getCode sp))
  = contents (Fout sp)
    ++ (INT4_bytes idPos ++ INT4_bytes inputPos
        ++ INT4_bytes (OutputStartPos (OutputShared sp))
        ++ INT4_bytes (Nperiods sp)
        ++ INT4_bytes (wrap32 (getCode (ErrorCode sp)))
        ++ INT4_bytes magic).
Proof.
  intros Hend. unfold output_end. cbn zeta. cbn [Fout with_Fout].
  rewrite (fwrite_at_end _ _ Hend).
  rewrite (fwrite_at_end (INT4_bytes inputPos)) by reflexivity.
  rewrite (fwrite_at_end (INT4_bytes (OutputStartPos _))) by reflexivity.
  rewrite (fwrite_at_end (INT4_bytes (Nperiods _))) by reflexivity.
  rewrite (fwrite_at_end (INT4_bytes (wrap32 _))) by reflexivity.
  rewrite (fwrite_at_end (INT4_bytes magic)) by reflexivity.
  cbn [contents]. now rewrite <- !app_assoc.
Qed.

(** the stream of a run, as a later moment [sp'] sees it, [tail] having
    been written after the records *)
Lemma run_stream sp0 calls sp' tail :
  let sp := save_all (output_open true sp0) calls in
  same_layout sp sp' ->
  contents (Fout sp') = contents (Fout sp) ++ tail ->
  Z.of_nat (length (contents (Fout sp))) <= MAXFILESIZE ->
  layout_ok sp' (header (sim sp0))
  /\ contents (Fout sp')
     = header (sim sp0) ++ flat_map (period_bytes sp') (written sp0 calls)
       ++ tail
  /\ Z.of_nat (length (header (sim sp0))
               + period_size sp' * length (written sp0 calls))
     <= MAXFILESIZE
  /\ Subcatch sp' = Subcatch sp0 /\ Node sp' = Node sp0
  /\ Link sp' = Link sp0
  /\ OutputShared sp' = OutputShared sp.
Proof.
  cbn zeta. intros Hsame Hcont Hfits.
  destruct (output_open_layout sp0) as (Hlay & Hhdr & Hend & _).
  destruct (save_all_stream calls (output_open true sp0) Hend)
    as (Hc & _ & Hl).
  set (sp1 := output_open true sp0) in *.
  set (sp := save_all sp1 calls) in *.
  assert (Hl' : same_layout sp1 sp').
  { destruct Hl as (A1 & A2 & A3 & A4 & A5).
    destruct Hsame as (B1 & B2 & B3 & B4 & B5).
    unfold same_layout. repeat split; congruence. }
  assert (Hw : written sp1 calls = written sp0 calls) by reflexivity.
  assert (Hc' : contents (Fout sp)
                = header (sim sp0)
                  ++ flat_map (period_bytes sp') (written sp0 calls)).
  { rewrite Hc, Hhdr, Hw. f_equal. apply flat_map_ext.
    intros a. symmetry. now apply period_bytes_same_layout. }
  split; [eapply layout_ok_same_layout; eauto|].
  split; [rewrite Hcont, Hc'; now rewrite <- app_assoc|].
  split.
  { rewrite Hc', length_app,
      (flat_map_length_uniform _ _ _ (period_bytes_length sp')) in Hfits.
    exact Hfits. }
  destruct Hsame as (B1 & B2 & B3 & B4 & _).
  destruct Hl as (A1 & A2 & A3 & A4 & _).
  split; [rewrite B1, A1; reflexivity|].
  split; [rewrite B2, A2; reflexivity|].
  split; [rewrite B3, A3; reflexivity | exact B4].
Qed.


(** C10. [output_saveResults] on a stream positioned at its end, the
    period counter not at the limit of an int: a call before the report
    start changes nothing; any other call appends one record of
    [period_size] bytes and adds one to [Nperiods]; so after any sequence
    of calls the stream has grown by one record for each call that was
    not before the report start, and [Nperiods] by their number. *)
Theorem output_saveResults_one_record_per_report sp :
  at_end (Fout sp) ->
  - 2 ^ 31 <= Nperiods sp ->
  (forall reportTime,
     Qltb (getDateTime (sim sp) reportTime) (ReportStart sp) = true ->
     output_saveResults sp reportTime = sp)
  /\ (forall reportTime,
     Qltb (getDateTime (sim sp) reportTime) (ReportStart sp) = false ->
     Nperiods sp + 1 < 2 ^ 31 ->
     contents (Fout (output_saveResults sp reportTime))
     = contents (Fout sp) ++ period_bytes sp (sim sp, reportTime)
     /\ length (period_bytes sp (sim sp, reportTime)) = period_size sp
     /\ at_end (Fout (output_saveResults sp reportTime))
     /\ Nperiods (output_saveResults sp reportTime) = Nperiods sp + 1)
  /\ (forall calls,
     Nperiods sp + Z.of_nat (length calls) < 2 ^ 31 ->
     contents (Fout (save_all sp calls))
     = contents (Fout sp) ++ flat_map (period_bytes sp) (written sp calls)
     /\ Nperiods (save_all sp calls)
        = Nperiods sp + Z.of_nat (length (written sp calls))).
Proof.
  intros Hend Hlo. split; [|split].
  - intros t Hd. unfold output_saveResults. cbn zeta. now rewrite Hd.
  - intros t Hd Hhi.
    pose proof (output_saveResults_appends sp t Hend Hd) as Ha.
    rewrite Ha. cbn [contents]. split; [reflexivity|].
    split; [apply period_bytes_length|]. split; [reflexivity|].
    unfold output_saveResults. cbn zeta. rewrite Hd. cbn [Nperiods].
    unfold wrap32. rewrite Z.mod_small; lia.
  - intros calls Hhi. split.
    + now apply save_all_stream.
    + now apply save_all_Nperiods.
Qed.

End Stream.


(** of the three calls of [calls0] two are at or after the report start:
    two periods, two records of 184 bytes after the 4 bytes of the header *)
Lemma output_saveResults_one_record_per_report_witness :
  Nperiods (@save_all plain (@output_open plain true project0) calls0) = 2%Z
  /\ length (contents (Fout (@save_all plain (@output_open plain true project0)
                               calls0)))
     = (4 + 2 * 184)%nat.
Proof.
  destruct (@output_saveResults_one_record_per_report plain
              (@output_open plain true project0)) as (_ & _ & Hrun).
  - reflexivity.
  - vm_compute. discriminate.
  - destruct (Hrun calls0) as [Hc Hn].
    + vm_compute. reflexivity.
    + split; [rewrite Hn; reflexivity | rewrite Hc; reflexivity].
Defined.

(** ** Further properties of the output stream *)

Section MoreStream.

Context `{Collaborators}.

Local Open Scope Z_scope.

Lemma REAL8_item_bytes x rest : REAL8_item (REAL8_bytes x ++ rest) = Some x.
Proof. now destruct x as [[] []]. Qed.

Lemma fread_REAL4_next f z pre x n rest :
  contents f = pre ++ array_bytes x n ++ rest ->
  z = Z.of_nat (length pre) ->
  fpos (fread_REAL4 n (fseek z f)).2 = (length pre + 4 * n)%nat
  /\ contents (fread_REAL4 n (fseek z f)).2 = contents f.
Proof.
  intros Hc ->. unfold fseek, fread_REAL4.
  destruct (Z.of_nat (length pre) <? 0) eqn:Hneg;
    [apply Z.ltb_lt in Hneg; lia|].
  cbn [snd fpos contents]. split; [|reflexivity].
  rewrite Nat2Z.id, Hc, !length_app, array_bytes_length. lia.
Qed.

Section MoreReaders.

Variables (sp : Project) (hdr : list byte) (ws : list (Sim * Q)).
Variable tail : list byte.
Hypothesis Hlayout : layout_ok sp hdr.
Hypothesis Hcontents :
  contents (Fout sp) = hdr ++ flat_map (period_bytes sp) ws ++ tail.
Hypothesis Hfits :
  Z.of_nat (length hdr + period_size sp * length ws) <= MAXFILESIZE.

Lemma stream_length :
  length (contents (Fout sp))
  = (length hdr + period_size sp * length ws + length tail)%nat.
Proof using Hcontents.
  clear Hlayout Hfits. rewrite Hcontents, !length_app.
  rewrite (flat_map_length_uniform _ _ _ (period_bytes_length sp)). lia.
Qed.

Lemma read_date q c :
  ws !! q = Some c ->
  (output_readDateTime sp (Z.of_nat q + 1)).2
  = Some (REAL8_of (getDateTime c.1 c.2)).
Proof.
  intros Hq.
  destruct (flat_map_split (period_bytes sp) (period_size sp) ws q c
              (period_bytes_length sp) Hq) as [Hsplit Hlen].
  assert (Htot : (q + 1 <= length ws)%nat).
  { apply lookup_lt_Some in Hq. lia. }
  unfold output_readDateTime. cbn zeta.
  rewrite (bytePos_period sp hdr ws q Hlayout Hfits Htot).
  unfold fseek, fread_REAL8.
  destruct (Z.of_nat _ <? 0) eqn:Hneg; [apply Z.ltb_lt in Hneg; lia|].
  cbn [snd fst fpos contents]. rewrite Nat2Z.id.
  rewrite Hcontents, Hsplit, <- !app_assoc, app_assoc.
  rewrite drop_app_length' by (rewrite length_app, Hlen; lia).
  unfold period_bytes. cbn zeta. rewrite <- !app_assoc.
  apply REAL8_item_bytes.
Qed.

(** the period after the last one: the read takes what follows the
    records *)
Lemma read_date_past_end :
  (output_readDateTime sp (Z.of_nat (length ws) + 1)).2 = REAL8_item tail.
Proof.
  unfold output_readDateTime. cbn zeta.
  pose proof (period_size_Z sp hdr Hlayout) as HS. cbn zeta in HS.
  destruct Hlayout as (Hstart & Hbpp & _).
  rewrite Hstart, Hbpp, <- HS.
  replace (Z.of_nat (length ws) + 1 - 1) with (Z.of_nat (length ws)) by lia.
  assert (0 <= Z.of_nat (period_size sp) * Z.of_nat (length ws)) by lia.
  rewrite (wrap32_small (Z.of_nat (length hdr))) by lia.
  assert (Hdrop : drop (length hdr + period_size sp * length ws)
                    (contents (Fout sp)) = tail).
  { rewrite Hcontents, app_assoc. apply drop_app_length'.
    rewrite length_app.
    now rewrite (flat_map_length_uniform _ _ _ (period_bytes_length sp)). }
  assert (Hpos : wrap32 (Z.of_nat (length hdr)
                         + Z.of_nat (length ws)
                           * wrap32 (Z.of_nat (period_size sp)))
                 = Z.of_nat (length hdr + period_size sp * length ws)).
  { destruct ws as [|w ws'] eqn:Ews.
    - cbn [length]. replace (Z.of_nat 0) with 0 by reflexivity.
      rewrite Z.mul_0_l, Z.add_0_r, Nat.mul_0_r, Nat.add_0_r.
      apply wrap32_small. cbn [length] in Hfits. lia.
    - assert (Z.of_nat (period_size sp)
              <= Z.of_nat (period_size sp) * Z.of_nat (length (w :: ws'))).
      { cbn [length]. nia. }
      rewrite (wrap32_small (Z.of_nat (period_size sp))) by lia.
      rewrite wrap32_small by lia. lia. }
  rewrite Hpos. unfold fseek, fread_REAL8.
  destruct (_ <? 0) eqn:Hneg; [apply Z.ltb_lt in Hneg; lia|].
  cbn [snd fst fpos contents]. now rewrite Nat2Z.id, Hdrop.
Qed.

Lemma read_system q c k j :
  ws !! q = Some c ->
  reported (Link sp) !! k = Some j ->
  S k = length (reported (Link sp)) ->
  (output_readLinkResults sp (Z.of_nat q + 1) (Z.of_nat k)).2
  = map (SysResults_of c.1 c.2) (seq 0 MAX_SYS_RESULTS).
Proof.
  intros Hq Hk Hlast.
  set (n := Z.to_nat (NlinkResults (OutputShared sp))).
  set (x := link_getResults c.1 j (routing_weight c.1 c.2)).
  destruct (objects_bytes_split (Link sp)
              (fun j => link_getResults c.1 j (routing_weight c.1 c.2))
              n k j Hk) as (pin & rin & Hobj & Hpin).
  fold x in Hobj.
  assert (Hrin : rin = []).
  { apply nil_length_inv.
    pose proof (objects_bytes_length (Link sp)
                  (fun j => link_getResults c.1 j (routing_weight c.1 c.2)) n)
      as Hlen.
    rewrite Hobj, !length_app, array_bytes_length, Hpin, <- Hlast in Hlen.
    lia. }
  subst rin. rewrite app_nil_r in Hobj.
  set (subs := objects_bytes (Subcatch sp)
                 (fun j => subcatch_getResults c.1 j (runoff_weight c.1 c.2))
                 (Z.to_nat (NsubcatchResults (OutputShared sp)))).
  set (nodes := objects_bytes (Node sp)
                  (fun j => node_getResults c.1 j (routing_weight c.1 c.2))
                  (Z.to_nat (NnodeResults (OutputShared sp)))).
  set (sys := array_bytes (SysResults_of c.1 c.2) MAX_SYS_RESULTS).
  set (pin' := REAL8_bytes (REAL8_of (getDateTime c.1 c.2)) ++ subs ++ nodes
               ++ pin).
  assert (Hrec : period_bytes sp c = pin' ++ array_bytes x n ++ sys).
  { unfold period_bytes. cbn zeta. fold subs nodes n sys. rewrite Hobj.
    unfold pin'. now rewrite <- !app_assoc. }
  destruct (flat_map_split (period_bytes sp) (period_size sp) ws q c
              (period_bytes_length sp) Hq) as [Hsplit Hlen].
  set (pre := hdr ++ flat_map (period_bytes sp) (take q ws) ++ pin').
  set (later := flat_map (period_bytes sp) (drop (S q) ws) ++ tail).
  assert (Hc : contents (Fout sp) = pre ++ array_bytes x n ++ sys ++ later).
  { rewrite Hcontents, Hsplit, Hrec. unfold pre, later.
    now rewrite <- !app_assoc. }
  assert (Hpre : length pre
                 = (length hdr + period_size sp * q + length pin')%nat).
  { unfold pre. rewrite !length_app, Hlen. lia. }
  assert (Htot : (q + 1 <= length ws)%nat).
  { apply lookup_lt_Some in Hq. lia. }
  pose proof (record_fits sp hdr ws q Hfits Htot) as Hrf.
  assert (Hin : (length pin' + 4 * n <= period_size sp)%nat).
  { rewrite <- (period_bytes_length sp c), Hrec, !length_app,
      array_bytes_length. lia. }
  assert (Hle : Z.of_nat (length pre) <= MAXFILESIZE) by lia.
  unfold output_readLinkResults. cbn zeta.
  rewrite (bytePos_period sp hdr ws q Hlayout Hfits Htot).
  assert (Hpos :
    wrap32 (wrap32 (wrap32 (Z.of_nat (length hdr + period_size sp * q)
                            + (8 + NumSubcatch (OutputShared sp)
                                   * NsubcatchResults (OutputShared sp) * 4))
                    + NumNodes (OutputShared sp)
                      * NnodeResults (OutputShared sp) * 4)
            + Z.of_nat k * NlinkResults (OutputShared sp) * 4)
    = Z.of_nat (length pre)).
  { destruct Hlayout as (_ & _ & Hs & Hn & _ & Ps & Pn & Pl).
    unfold pin' in Hpre. rewrite !length_app in Hpre.
    cbn [REAL8_bytes REAL4_bytes length app] in Hpre.
    unfold subs, nodes in Hpre.
    rewrite !objects_bytes_length, Hpin in Hpre.
    assert (E : Z.of_nat (length pre)
                = Z.of_nat (length hdr + period_size sp * q)
                  + (8 + NumSubcatch (OutputShared sp)
                         * NsubcatchResults (OutputShared sp) * 4)
                  + NumNodes (OutputShared sp)
                    * NnodeResults (OutputShared sp) * 4
                  + Z.of_nat k * NlinkResults (OutputShared sp) * 4).
    { rewrite Hpre, Hs, Hn. unfold n.
      rewrite !Nat2Z.inj_add, !Nat2Z.inj_mul, !Z2Nat.id by assumption.
      cbn. lia. }
    assert (0 <= Z.of_nat k * NlinkResults (OutputShared sp))
      by (apply Z.mul_nonneg_nonneg; lia).
    assert (0 <= NumSubcatch (OutputShared sp)
                 * NsubcatchResults (OutputShared sp))
      by (apply Z.mul_nonneg_nonneg; lia).
    assert (0 <= NumNodes (OutputShared sp)
                 * NnodeResults (OutputShared sp))
      by (apply Z.mul_nonneg_nonneg; lia).
    assert (Z.of_nat (length pre) <= MAXFILESIZE) by lia.
    rewrite (wrap32_small (_ + (8 + _))) by lia.
    rewrite (wrap32_small (_ + (8 + _) + _)) by lia.
    rewrite <- E. apply wrap32_small. lia. }
  rewrite Hpos. fold n.
  destruct (fread_REAL4_next (Fout sp) (Z.of_nat (length pre)) pre x n
              (sys ++ later) Hc eq_refl) as [Hp Hcc].
  destruct (fread_REAL4 n (fseek _ _)) as [xs file]. cbn [snd] in Hp, Hcc.
  unfold fread_REAL4. cbn [snd fst].
  rewrite Hp, Hcc, Hc, app_assoc.
  rewrite drop_app_length' by (rewrite length_app, array_bytes_length; lia).
  apply REAL4_items_array_bytes.
Qed.

End MoreReaders.

(** X4. The date of every written period is read back: after any run,
    within MAXFILESIZE, [output_readDateTime] for period [q + 1] stores
    the date that the [q + 1]-th recorded call wrote. *)
Theorem output_readDateTime_read_back sp0 calls sp' q c :
  let sp := save_all (output_open true sp0) calls in
  same_layout sp sp' ->
  contents (Fout sp') = contents (Fout sp) ->
  Z.of_nat (length (contents (Fout sp))) <= MAXFILESIZE ->
  written sp0 calls !! q = Some c ->
  (output_readDateTime sp' (Z.of_nat q + 1)).2
  = Some (REAL8_of (getDateTime c.1 c.2)).
Proof.
  cbn zeta. intros Hsame Hcont Hfits Hq.
  rewrite <- (app_nil_r (contents (Fout (save_all _ _)))) in Hcont.
  destruct (run_stream sp0 calls sp' [] Hsame Hcont Hfits)
    as (Hlay & Hc & Hf & _).
  exact (read_date sp' _ _ _ Hlay Hc Hf q c Hq).
Qed.

Lemma REAL8_item_head a b rest :
  length a = 4%nat -> length b = 4%nat ->
  REAL8_item (a ++ b ++ rest) = REAL8_item (a ++ b).
Proof.
  intros Ha Hb.
  destruct a as [|a0 [|a1 [|a2 [|a3 [|]]]]]; try discriminate.
  destruct b as [|b0 [|b1 [|b2 [|b3 [|]]]]]; try discriminate.
  reflexivity.
Qed.

(** X5. [output_readDateTime] does not check the period it is asked
    for.  A stream is opened and [output_saveResults] is called any
    number of times, the header and the records staying within
    MAXFILESIZE.  Asked for the period after the last written one, the
    routine reads what follows the records: while the run goes on there
    is nothing, [fread] stores no value and [*days] keeps the NO_DATE it
    was given; once [output_end] has run, the 8 bytes read are the two
    positions at the head of the closing record. *)
Theorem output_readDateTime_past_end sp0 calls :
  let sp := save_all (output_open true sp0) calls in
  let period := Z.of_nat (length (written sp0 calls)) + 1 in
  Z.of_nat (length (contents (Fout sp))) <= MAXFILESIZE ->
  (output_readDateTime sp period).2 = None
  /\ (forall magic idPos inputPos getCode,
       (output_readDateTime (output_end magic idPos inputPos getCode sp)
          period).2
       = REAL8_item (INT4_bytes idPos ++ INT4_bytes inputPos))
  /\ (forall sp' tail,
       same_layout sp sp' ->
       contents (Fout sp') = contents (Fout sp) ++ tail ->
       (output_readDateTime sp' period).2 = REAL8_item tail).
Proof.
  cbn zeta. intros Hfits.
  assert (Hgen : forall sp' tail,
            same_layout (save_all (output_open true sp0) calls) sp' ->
            contents (Fout sp')
            = contents (Fout (save_all (output_open true sp0) calls))
              ++ tail ->
            (output_readDateTime sp'
               (Z.of_nat (length (written sp0 calls)) + 1)).2
            = REAL8_item tail).
  { intros sp' tail Hsame Hcont.
    destruct (run_stream sp0 calls sp' tail Hsame Hcont Hfits)
      as (Hlay & Hc & Hf & _).
    exact (read_date_past_end sp' _ _ _ Hlay Hc Hf). }
  split; [|split; [|exact Hgen]].
  - apply (Hgen _ []); [|now rewrite app_nil_r].
    unfold same_layout. repeat split.
  - intros magic idPos inputPos getCode.
    destruct (output_open_layout sp0) as (_ & _ & Hend & _).
    destruct (save_all_stream calls (output_open true sp0) Hend)
      as (_ & Hend' & _).
    rewrite (Hgen _ _ (output_end_same_layout magic idPos inputPos getCode _)
               (output_end_appends magic idPos inputPos getCode _ Hend')).
    now apply REAL8_item_head.
Qed.

(** X6. [output_readLinkResults] reads the system-wide results of the
    period when it is called for the last reported link: the second
    [fread] takes what follows the array of the link, and only after the
    last link that is the system-wide array.  This holds for a stream
    whose records lie within MAXFILESIZE, during the run and after
    [output_end] has written its closing record ([tail]). *)
Theorem output_readLinkResults_system sp0 calls sp' tail q c k j :
  let sp := save_all (output_open true sp0) calls in
  same_layout sp sp' ->
  contents (Fout sp') = contents (Fout sp) ++ tail ->
  Z.of_nat (length (contents (Fout sp))) <= MAXFILESIZE ->
  written sp0 calls !! q = Some c ->
  reported (Link sp0) !! k = Some j ->
  S k = length (reported (Link sp0)) ->
  (output_readLinkResults sp' (Z.of_nat q + 1) (Z.of_nat k)).2
  = map (SysResults_of c.1 c.2) (seq 0 MAX_SYS_RESULTS).
Proof.
  cbn zeta. intros Hsame Hcont Hfits Hq Hk Hlast.
  destruct (run_stream sp0 calls sp' tail Hsame Hcont Hfits)
    as (Hlay & Hc & Hf & _ & _ & HL & _).
  rewrite <- HL in Hk, Hlast.
  exact (read_system sp' _ _ _ Hlay Hc Hf q c k j Hq Hk Hlast).
Qed.

(** X7. The sizes that [output_open] stores are those of the stream:
    [OutputStartPos] is the length of what precedes the first period, and
    every call of [output_saveResults] that writes makes the stream
    [BytesPerPeriod] bytes longer, as long as the stream stays within
    MAXFILESIZE. *)
Theorem output_saveResults_BytesPerPeriod sp0 calls w reportTime :
  let sp := with_sim w (save_all (output_open true sp0) calls) in
  Qltb (getDateTime w reportTime) (ReportStart sp0) = false ->
  Z.of_nat (length (contents (Fout (output_saveResults sp reportTime))))
  <= MAXFILESIZE ->
  Z.of_nat (length (contents (Fout (output_saveResults sp reportTime))))
  = Z.of_nat (length (contents (Fout sp))) + BytesPerPeriod (OutputShared sp)
  /\ OutputStartPos (OutputShared sp)
     = Z.of_nat (length (header (sim sp0))).
Proof.
  cbn zeta. intros Hdate.
  destruct (output_open_layout sp0) as (Hlay & Hhdr & Hend & _).
  destruct (save_all_stream calls (output_open true sp0) Hend)
    as (Hc & Hend' & Hl).
  set (sp1 := save_all (output_open true sp0) calls) in *.
  assert (Hlay1 : layout_ok sp1 (header (sim sp0)))
    by (eapply layout_ok_same_layout; eauto).
  assert (Hrs : ReportStart sp1 = ReportStart sp0).
  { destruct Hl as (_ & _ & _ & _ & Hr). exact Hr. }
  assert (Ha : contents (Fout (output_saveResults (with_sim w sp1) reportTime))
               = contents (Fout sp1)
                 ++ period_bytes (with_sim w sp1) (w, reportTime)).
  { rewrite (output_saveResults_appends (with_sim w sp1) reportTime);
      [reflexivity | exact Hend' |].
    cbn [sim with_sim ReportStart]. rewrite Hrs. exact Hdate. }
  rewrite Ha, length_app, period_bytes_length.
  change (period_size (with_sim w sp1)) with (period_size sp1).
  change (OutputShared (with_sim w sp1)) with (OutputShared sp1).
  change (Fout (with_sim w sp1)) with (Fout sp1).
  intros Hfits.
  pose proof (period_size_Z sp1 _ Hlay1) as HS. cbn zeta in HS.
  destruct Hlay1 as (Hstart & Hbpp & _).
  assert (Hh : (length (header (sim sp0)) <= length (contents (Fout sp1)))%nat).
  { rewrite Hc, Hhdr, length_app. lia. }
  rewrite Hstart, Hbpp, <- HS.
  rewrite !wrap32_small by lia. lia.
Qed.

End MoreStream.

(** the date of the second period of the stream of [project0]: two days *)
Lemma output_readDateTime_read_back_witness :
  (@output_readDateTime plain
     (@save_all plain (@output_open plain true project0) calls0) 2).2
  = Some (@REAL8_of plain 2%Q).
Proof.
  apply (@output_readDateTime_read_back plain project0 calls0
           (@save_all plain (@output_open plain true project0) calls0)
           1%nat (3%nat, 172800000%Q)).
  - repeat split.
  - reflexivity.
  - vm_compute. discriminate.
  - reflexivity.
Defined.

(** the stream of [project0] holds two periods: there is no third date
    while the run goes on, and the third date read from the closed stream
    is made of the two positions that head the closing record *)
Lemma output_readDateTime_past_end_witness :
  (@output_readDateTime plain
     (@save_all plain (@output_open plain true project0) calls0) 3).2 = None
  /\ (@output_readDateTime plain
        (@output_end plain 516114522 4 4 (fun code => code)
           (@save_all plain (@output_open plain true project0) calls0)) 3).2
     = Some (mkREAL8 (mkREAL4 x04 x00 x00 x00) (mkREAL4 x04 x00 x00 x00)).
Proof.
  destruct (@output_readDateTime_past_end plain project0 calls0)
    as (Hrun & Hclosed & _); [vm_compute; discriminate|].
  split; [exact Hrun|].
  exact (Hclosed 516114522%Z 4%Z 4%Z (fun code => code)).
Defined.

(** the system-wide results of the first period, read with the only link
    from the stream that [output_end] has closed *)
Lemma output_readLinkResults_system_witness :
  (@output_readLinkResults plain
     (@output_end plain 516114522 4 4 (fun code => code)
        (@save_all plain (@output_open plain true project0) calls0)) 1 0).2
  = map (@SysResults_of plain 2%nat 86400000%Q) (seq 0 15).
Proof.
  apply (@output_readLinkResults_system plain project0 calls0
           (@output_end plain 516114522 4 4 (fun code => code)
              (@save_all plain (@output_open plain true project0) calls0))
           (INT4_bytes 4 ++ INT4_bytes 4 ++ INT4_bytes 4
            ++ INT4_bytes 2 ++ INT4_bytes 0 ++ INT4_bytes 516114522)
           0%nat (2%nat, 86400000%Q) 0%nat 0%nat).
  - apply output_end_same_layout.
  - vm_compute. reflexivity.
  - vm_compute. discriminate.
  - reflexivity.
  - reflexivity.
  - reflexivity.
Defined.

(** a third record of 184 bytes for [project0] *)
Lemma output_saveResults_BytesPerPeriod_witness :
  let sp := @with_sim plain (4%nat : @Sim plain)
              (@save_all plain (@output_open plain true project0) calls0) in
  Z.of_nat (length (contents
              (Fout (@output_saveResults plain sp 259200000%Q))))
  = (Z.of_nat (length (contents (Fout sp)))
     + BytesPerPeriod (OutputShared sp))%Z
  /\ OutputStartPos (OutputShared sp) = 4%Z.
Proof.
  apply (@output_saveResults_BytesPerPeriod plain project0 calls0
           (4%nat : @Sim plain) 259200000%Q).
  - reflexivity.
  - vm_compute. discriminate.
Defined.

(** ** Beyond MAXFILESIZE *)

Section Beyond.

Context `{Collaborators}.

Local Open Scope Z_scope.





End Beyond.


End OutputFacts.

(** * Properties of subcatch.c *)

Module SubcatchFacts.

Import Subcatch.

Local Open Scope Q_scope.

Section Subarea.

Context `{Collaborators}.

(** ** Runoff of a sub-area without overland flow routing *)

(** C8 (as amended). For a sub-area whose Manning's n is not positive, the
    runoff that follows the update of the ponded depth is an instantaneous
    spill: when the depth exceeds the depression storage by more than
    [ZERO], the runoff rate is the excess depth over the time that
    [updatePondedDepth] returned and the depth is set back to [dStore];
    otherwise the runoff is 0 and the depth is kept. *)
Theorem findSubareaRunoff_no_routing subarea dt :
  N subarea <= 0 ->
  let p := updatePondedDepth subarea dt in
  let r := findSubareaRunoff p.1 p.2 in
  (ZERO < depth p.1 - dStore subarea ->
   r.1 = (depth p.1 - dStore subarea) / p.2
   /\ depth r.2 = dStore subarea)
  /\ (depth p.1 - dStore subarea <= ZERO -> r.1 = 0 /\ r.2 = p.1).
Proof.
  intros HN. cbn zeta.
  assert (Hkeep : N (updatePondedDepth subarea dt).1 = N subarea
                  /\ dStore (updatePondedDepth subarea dt).1 = dStore subarea).
  { unfold updatePondedDepth. cbn zeta.
    repeat case_match; simplify_eq; cbn; auto. }
  destruct Hkeep as [EN ED].
  destruct (updatePondedDepth subarea dt) as [s tx]. cbn [fst snd] in *.
  unfold findSubareaRunoff. cbn zeta. rewrite ED.
  assert (HN' : Qltb 0 (N s) = false) by (apply Qltb_false; rewrite EN; exact HN).
  rewrite HN'. split.
  - intros Hx. apply Qltb_true in Hx. rewrite Hx. cbn [fst snd].
    split; reflexivity.
  - intros Hx. apply Qltb_false in Hx. rewrite Hx. cbn. auto.
Qed.

End Subarea.

(** C8, counterexample: alpha = 0 with Manning's n = 0.02.  After 100 s
    the depth is 1 ft, 0.5 ft above the depression storage, reached over
    50 s; the runoff is alpha * pow(...) = 0, not 0.5/50, and the depth
    stays at 1 ft. *)
Lemma findSubareaRunoff_zero_alpha_no_spill :
  let p := @updatePondedDepth manning (flat_subarea 0.02) 100 in
  let r := @findSubareaRunoff manning p.1 p.2 in
  alpha (flat_subarea 0.02) = 0
  /\ depth p.1 == 1 /\ p.2 == 50
  /\ r.1 == 0 /\ ~ r.1 == (depth p.1 - dStore p.1) / p.2
  /\ depth r.2 == 1 /\ ~ depth r.2 == dStore p.1.
Proof. cbn zeta. repeat split; vm_compute; congruence. Qed.

(** a sub-area with Manning's n = 0 spills the excess at once *)
Lemma findSubareaRunoff_no_routing_witness :
  let p := @updatePondedDepth manning (flat_subarea 0) 100 in
  let r := @findSubareaRunoff manning p.1 p.2 in
  r.1 = (depth p.1 - dStore (flat_subarea 0)) / p.2
  /\ depth r.2 = dStore (flat_subarea 0).
Proof.
  destruct (@findSubareaRunoff_no_routing manning (flat_subarea 0) 100)
    as [Hspill _].
  - vm_compute. discriminate.
  - apply Hspill. vm_compute. reflexivity.
Defined.

(** ** Further properties of the sub-area routines *)

Lemma Qle_bool_false x y : Qle_bool x y = false <-> y < x.
Proof.
  rewrite <- not_true_iff_false, Qle_bool_iff.
  split; [apply Qnot_le_lt | apply Qlt_not_le].
Qed.

Section MoreSubarea.

Context `{Collaborators}.

(** [updatePondedDepth] writes the depth only *)
Lemma updatePondedDepth_frame subarea dt :
  let s := (updatePondedDepth subarea dt).1 in
  N s = N subarea /\ dStore s = dStore subarea /\ alpha s = alpha subarea
  /\ fOutlet s = fOutlet subarea /\ inflow s = inflow subarea.
Proof.
  cbn zeta. unfold updatePondedDepth. cbn zeta.
  repeat case_match; simplify_eq; cbn; auto.
Qed.

Lemma updatePondedDepth_range subarea dt :
  0 <= dt ->
  let p := updatePondedDepth subarea dt in
  0 <= depth p.1 /\ 0 <= p.2 /\ p.2 <= dt.
Proof.
  intros Hdt. cbn zeta. unfold updatePondedDepth. cbn zeta.
  repeat case_match; simplify_eq; cbn [fst snd depth set_depth].
  all: repeat match goal with
         | E : Qltb _ _ = true |- _ => apply Qltb_true in E
         | E : Qltb _ _ = false |- _ => apply Qltb_false in E
         | E : _ && _ = true |- _ => apply andb_true_iff in E as [? ?]
         | E : Qle_bool _ _ = true |- _ => apply Qle_bool_iff in E
         | E : Qle_bool _ _ = false |- _ => apply Qle_bool_false in E
         end.
  all: cbn [depth set_depth dStore inflow alpha] in *.
  all: try (repeat split; lra).
  all: try match goal with
         | Hd : 0 < dStore ?s - depth ?s, Hi : 0 < inflow ?s |- _ =>
             assert (0 < (dStore s - depth s) / inflow s)
               by (apply Qlt_shift_div_l; lra)
         end.
  all: repeat split; lra.
Qed.

(** X8. [updatePondedDepth] never leaves a negative ponded depth, and the
    time it hands back, over which the depth is above the depression
    storage, lies between 0 and the time step it was given. *)
Theorem updatePondedDepth_bounds subarea dt :
  0 <= dt ->
  let p := updatePondedDepth subarea dt in
  0 <= depth p.1 /\ 0 <= p.2 /\ p.2 <= dt.
Proof. apply updatePondedDepth_range. Qed.

(** X10. After [getSubareaRunoff] the ponded depth of a sub-area whose
    depression storage is not negative is not negative either. *)
Theorem getSubareaRunoff_depth_nonneg IgnoreGwater groundwater sbctch subarea
    i area precip evap tStep :
  0 <= dStore subarea ->
  0 <= depth subarea ->
  0 <= tStep ->
  0 <= depth (getSubareaRunoff IgnoreGwater groundwater sbctch subarea i area
                precip evap tStep).1.2.
Proof.
  intros Hs Hd Ht. unfold getSubareaRunoff.
  destruct (Qeq_bool area 0); [exact Hd|]. cbn zeta.
  set (infil := if bool_decide (i = PERV) then _ else 0). clearbody infil.
  set (sb := Build_TSubcatchShared _ _ _ _ _). clearbody sb.
  set (s1 := set_inflow (inflow subarea + precip) subarea).
  assert (D1 : dStore s1 = dStore subarea) by reflexivity.
  clearbody s1.
  set (p := if Qle_bool _ _ then (set_depth 0 s1, tStep) else _).
  assert (Hp : 0 <= depth p.1 /\ dStore p.1 = dStore subarea).
  { unfold p. destruct (Qle_bool _ _).
    - cbn. split; [lra | exact D1].
    - destruct (updatePondedDepth_frame
                  (set_inflow (inflow s1 - (MIN (depth subarea / tStep) evap
                                            + infil)) s1) tStep)
        as (_ & ED & _).
      cbn zeta in ED. split; [|rewrite ED; exact D1].
      now apply updatePondedDepth_range. }
  clearbody p. destruct p as [s2 tx]. cbn [fst snd] in Hp.
  destruct Hp as [Hp Es].
  unfold findSubareaRunoff. cbn zeta.
  destruct (Qltb ZERO _); [destruct (Qltb 0 _)|]; cbn [fst snd depth set_depth].
  all: try exact Hp.
  rewrite Es. exact Hs.
Qed.

End MoreSubarea.

(** the flat sub-area with n = 0 over 100 s: the storage fills after 50 s *)
Lemma updatePondedDepth_bounds_witness :
  let p := @updatePondedDepth manning (flat_subarea 0) 100 in
  0 <= depth p.1 /\ 0 <= p.2 /\ p.2 <= 100.
Proof.
  apply (@updatePondedDepth_bounds manning (flat_subarea 0) 100).
  vm_compute. discriminate.
Defined.

(** the flat sub-area as an impervious sub-area of 1000 ft2 under rain *)
Lemma getSubareaRunoff_depth_nonneg_witness :
  0 <= depth (@getSubareaRunoff manning true None
                {| Vinflow := 0; Vevap := 0; Vpevap := 0; Vinfil := 0;
                   Voutflow := 0 |}
                (flat_subarea 0) IMPERV1 1000 0.001 0.0001 100).1.2.
Proof.
  apply (@getSubareaRunoff_depth_nonneg manning); vm_compute; discriminate.
Defined.

End SubcatchFacts.

(** * Properties of runoff.c *)

Module RunoffFacts.

Import Runoff.

Local Open Scope Q_scope.

(** C9, on the code.  Day 100 lies in the sweep season from day 60 to day
    300, nothing rains, the reporting step is 900 s: the buildup and the
    washoff of subcatchment 0 are computed, its streets are not swept.
    Day 50 lies outside a season from day 100 to day 200; with a reporting
    step of 30 s the streets are swept. *)
Lemma runoff_execute_sweeps_by_report_step :
  (let sp := tick 100 900 60 300 in
   @datetime_dayOfYear dry_weather
     (@getDateTime dry_weather (NewRunoffTime sp)) = 100%Z
   /\ (SweepStart sp <= 100 <= SweepEnd sp)%Z
   /\ existsb (is_buildup 0) (calls (@runoff_execute dry_weather sp)) = true
   /\ existsb (is_washoff 0) (calls (@runoff_execute dry_weather sp)) = true
   /\ existsb (is_sweep 0) (calls (@runoff_execute dry_weather sp)) = false)
  /\ (let sp := tick 50 30 100 200 in
      @datetime_dayOfYear dry_weather
        (@getDateTime dry_weather (NewRunoffTime sp)) = 50%Z
      /\ (50 < SweepStart sp)%Z
      /\ existsb (is_sweep 0) (calls (@runoff_execute dry_weather sp))
         = true).
Proof. cbn zeta. repeat split; vm_compute; congruence. Qed.

(** ** Further properties of a runoff tick *)

Lemma same_setup_refl sp : same_setup sp sp.
Proof. unfold same_setup. repeat split. Qed.

Lemma same_setup_trans a b c :
  same_setup a b -> same_setup b c -> same_setup a c.
Proof. unfold same_setup. intuition congruence. Qed.

Lemma same_setup_call c sp : same_setup sp (call c sp).
Proof. unfold same_setup. repeat split. Qed.

Lemma same_setup_flags a b c d sp : same_setup sp (set_flags a b c d sp).
Proof. unfold same_setup. repeat split. Qed.

Lemma same_setup_foldl {X} (step : Project -> X -> Project) (xs : list X) :
  (forall s x, same_setup s (step s x)) ->
  forall sp, same_setup sp (foldl step sp xs).
Proof.
  intros Hstep. induction xs as [|x xs IH]; intros sp; cbn [foldl].
  - apply same_setup_refl.
  - eapply same_setup_trans; [apply Hstep | apply IH].
Qed.

Lemma same_calls_refl p sp : same_calls p sp sp.
Proof. reflexivity. Qed.

Lemma same_calls_trans p a b c :
  same_calls p a b -> same_calls p b c -> same_calls p a c.
Proof. unfold same_calls. congruence. Qed.

Lemma same_calls_call p c sp : p c = false -> same_calls p sp (call c sp).
Proof.
  intros Hc. unfold same_calls. cbn [calls call].
  rewrite filter_app, filter_cons_False, filter_nil, app_nil_r; congruence.
Qed.

Lemma same_calls_foldl {X} p (step : Project -> X -> Project) (xs : list X)
    (I : Project -> Prop) :
  (forall s x, I s -> same_calls p s (step s x) /\ I (step s x)) ->
  forall sp, I sp -> same_calls p sp (foldl step sp xs) /\ I (foldl step sp xs).
Proof.
  intros Hstep. induction xs as [|x xs IH]; intros sp HI; cbn [foldl].
  - split; [apply same_calls_refl | exact HI].
  - destruct (Hstep sp x HI) as [H1 H2]. destruct (IH _ H2) as [H3 H4].
    split; [eapply same_calls_trans; eauto | exact H4].
Qed.

Lemma same_setup_steps n sp : same_setup sp (set_error (ErrorCode sp) n sp).
Proof. unfold same_setup. repeat split. Qed.

Lemma same_setup_if_call (b : bool) c sp :
  same_setup sp (if b then call c sp else sp).
Proof. destruct b; [apply same_setup_call | apply same_setup_refl]. Qed.

Lemma same_setup_IgnoreQuality a b :
  same_setup a b -> IgnoreQuality b = IgnoreQuality a.
Proof. now intros (_ & _ & _ & _ & _ & _ & _ & _ & E & _). Qed.

Lemma same_setup_if (b : bool) (f : Project -> Project) sp :
  same_setup sp (f sp) -> same_setup sp (if b then f sp else sp).
Proof. intros Hf. destruct b; [exact Hf | apply same_setup_refl]. Qed.

Section MoreTick.

Context `{Collaborators}.

Lemma runoff_saveToFile_setup tStep sp :
  same_setup sp (runoff_saveToFile tStep sp).
Proof.
  unfold runoff_saveToFile. cbn zeta.
  eapply same_setup_trans; [apply same_setup_call|].
  apply same_setup_foldl. intros s x. cbn zeta.
  eapply same_setup_trans; apply same_setup_call.
Qed.

Lemma runoff_getOutfallRunon_setup tStep sp :
  same_setup sp (runoff_getOutfallRunon tStep sp).
Proof.
  unfold runoff_getOutfallRunon. apply same_setup_foldl. intros s i.
  cbn zeta. destruct (_ <? 0)%Z; [apply same_setup_refl|].
  destruct (Qeq_bool _ 0); [apply same_setup_refl|].
  eapply same_setup_trans; [apply same_setup_call|].
  eapply same_setup_trans; [apply same_setup_call|].
  apply same_setup_foldl. intros s' p'. apply same_setup_call.
Qed.

(** a chain of calls, flags and loops of calls, from the last one back *)
Ltac setup :=
  repeat first
    [ apply same_setup_refl
    | eapply same_setup_trans;
      [ | first
            [ apply same_setup_call | apply same_setup_flags
            | apply same_setup_steps | apply same_setup_if_call
            | apply same_setup_if;
              first [ apply runoff_saveToFile_setup
                    | apply runoff_getOutfallRunon_setup ]
            | apply same_setup_foldl; intros; cbn zeta;
              unfold runoff_subcatch; cbn zeta;
              repeat case_match; unfold same_setup; repeat split ] ] ].

(** the bound on the time step after the gages [js] have been looked at *)
Lemma maxStep_bounds cs currentDate (js : list nat) : forall maxStep dry,
  (0 < maxStep <= dry)%Z ->
  (0 < foldl (fun maxStep j =>
                let timeStep := nextRain_timeDiff cs j currentDate in
                if (0 <? timeStep)%Z && (timeStep <? maxStep)%Z then timeStep
                else maxStep) maxStep js <= dry)%Z.
Proof.
  induction js as [|j js IH]; intros maxStep dry Hm; cbn [foldl]; [exact Hm|].
  apply IH. destruct (_ && _) eqn:E; [|exact Hm].
  apply andb_true_iff in E as [E1 E2].
  apply Z.ltb_lt in E1, E2. lia.
Qed.

Lemma runoff_getTimeStep_range sp currentDate :
  (0 < DryStep sp)%Z ->
  (0 < WetStep sp)%Z ->
  0 < runoff_getTimeStep sp currentDate
  /\ runoff_getTimeStep sp currentDate <= inject_Z (DryStep sp)
  /\ (IsRaining sp || HasSnow sp || HasRunoff sp || HasWetLids sp = true ->
      runoff_getTimeStep sp currentDate <= inject_Z (WetStep sp)).
Proof.
  intros Hd Hw. unfold runoff_getTimeStep. cbn zeta.
  set (m0 := if _ && _ then _ else DryStep sp).
  assert (H0 : (0 < m0 <= DryStep sp)%Z).
  { unfold m0. destruct (_ && _) eqn:E; [|lia].
    apply andb_true_iff in E as [E1 E2]. apply Z.ltb_lt in E1, E2. lia. }
  pose proof (maxStep_bounds (calls sp) currentDate (seq 0 (Ngage sp)) m0
                (DryStep sp) H0) as Hm.
  set (m := foldl _ m0 _) in *. clearbody m. clear H0. clearbody m0.
  change 0 with (inject_Z 0). rewrite <- !Zlt_Qlt, <- !Zle_Qle.
  destruct (IsRaining sp || HasSnow sp || HasRunoff sp || HasWetLids sp).
  - destruct (m <? WetStep sp)%Z eqn:E;
      [apply Z.ltb_lt in E | apply Z.ltb_ge in E]; repeat split; lia.
  - destruct (m <? DryStep sp)%Z eqn:E;
      [apply Z.ltb_lt in E | apply Z.ltb_ge in E];
      repeat split; try lia; discriminate.
Qed.

(** X11. With wet and dry time steps that are positive,
    [runoff_getTimeStep] returns a positive step that exceeds neither the
    dry step nor, when it rains or snow, runoff or wet LID units are
    present, the wet step. *)
Theorem runoff_getTimeStep_bounds sp currentDate :
  (0 < DryStep sp)%Z ->
  (0 < WetStep sp)%Z ->
  0 < runoff_getTimeStep sp currentDate
  /\ runoff_getTimeStep sp currentDate <= inject_Z (DryStep sp)
  /\ (IsRaining sp || HasSnow sp || HasRunoff sp || HasWetLids sp = true ->
      runoff_getTimeStep sp currentDate <= inject_Z (WetStep sp)).
Proof. apply runoff_getTimeStep_range. Qed.

(** the gage loop *)
Lemma gage_loop_setup currentDate js sp :
  same_setup sp
    (foldl (fun sp j =>
              let sp := call (gage_setState j currentDate) sp in
              if Qltb 0 (Gage_rainfall (calls sp) j)
              then set_flags true (HasRunoff sp) (HasSnow sp)
                     (HasWetLids sp) sp
              else sp) sp js).
Proof.
  apply same_setup_foldl. intros s x. cbn zeta.
  destruct (Qltb _ _); unfold same_setup; repeat split.
Qed.

(** X12. A runoff tick that computes (no error pending, runoff not read
    from an interface file, positive wet and dry steps; in a project
    without subcatchments a dry step of 2147483 s at most, so that the
    int product [1000 * DryStep] does not wrap around) moves the clock
    on without passing the total duration: the old runoff time becomes
    what the new one was, the new runoff time does not exceed
    [TotalDuration], it is later than the old one unless the duration was
    reached already, and no error is raised. *)
Theorem runoff_execute_clock sp :
  ErrorCode sp = 0%Z ->
  Frunoff_mode sp <> USE_FILE ->
  (0 < DryStep sp)%Z ->
  (0 < WetStep sp)%Z ->
  (Nsubcatch sp = 0%nat -> (DryStep sp <= 2147483)%Z) ->
  let sp' := runoff_execute sp in
  ErrorCode sp' = 0%Z
  /\ OldRunoffTime sp' = NewRunoffTime sp
  /\ NewRunoffTime sp' <= TotalDuration sp
  /\ (NewRunoffTime sp < TotalDuration sp ->
      NewRunoffTime sp < NewRunoffTime sp').
Proof.
  intros Herr Hmode Hd Hw Hint. cbn zeta. unfold runoff_execute.
  rewrite Herr. cbn [Z.eqb negb]. cbn zeta.
  change (Nsubcatch (call ?c sp)) with (Nsubcatch sp).
  destruct (Nsubcatch sp =? 0)%nat eqn:Hn.
  { apply Nat.eqb_eq in Hn. specialize (Hint Hn).
    cbn [ErrorCode OldRunoffTime NewRunoffTime set_clock call TotalDuration
         DryStep].
    split; [exact Herr|]. split; [reflexivity|].
    assert (0 < inject_Z (Output.wrap32 (1000 * DryStep sp))).
    { change 0 with (inject_Z 0). rewrite <- Zlt_Qlt.
      unfold Output.wrap32. rewrite Z.mod_small; lia. }
    unfold MIN. destruct (Qle_bool _ _) eqn:E;
      [apply Qle_bool_iff in E | ]; split; lra. }
  set (sp1 := set_flags false _ _ _ (call _ sp)).
  assert (S1 : same_setup sp sp1) by (unfold same_setup; repeat split).
  pose proof (gage_loop_setup (getDateTime (NewRunoffTime sp))
                (seq 0 (Ngage sp1)) sp1) as S2.
  set (sp2 := foldl _ sp1 _) in *.
  pose proof (same_setup_trans _ _ _ S1 S2) as S.
  clearbody sp2. clear S1 S2 sp1.
  destruct S as (E1 & E2 & E3 & E4 & E5 & E6 & E7 & E8 & E9 & E10 & E11).
  rewrite (bool_decide_eq_false_2 (Frunoff_mode sp2 = USE_FILE))
    by (rewrite E11; exact Hmode).
  destruct (runoff_getTimeStep_range sp2 (getDateTime (NewRunoffTime sp)))
    as (Hpos & _); [lia | lia |].
  set (step := runoff_getTimeStep sp2 _) in *. clearbody step.
  assert (Es : Qle_bool step 0 = false).
  { apply not_true_iff_false. rewrite Qle_bool_iff. lra. }
  rewrite Es.
  set (sp3 := set_clock (NewRunoffTime sp2) (NewRunoffTime sp2 + 1000 * step)
                sp2).
  set (r := if Qltb (TotalDuration sp3) (NewRunoffTime sp3) then _ else _).
  assert (Hr : ErrorCode r.1 = 0%Z /\ OldRunoffTime r.1 = NewRunoffTime sp
               /\ NewRunoffTime r.1 <= TotalDuration sp
               /\ (NewRunoffTime sp < TotalDuration sp ->
                   NewRunoffTime sp < NewRunoffTime r.1)).
  { unfold r. destruct (Qltb _ _) eqn:E;
      [apply Qltb_true in E | apply Qltb_false in E];
      cbn [fst ErrorCode OldRunoffTime NewRunoffTime TotalDuration set_clock
           sp3] in *; rewrite ?E1, ?E3, ?E4 in *.
    - repeat split; auto; lra.
    - repeat split; auto; lra. }
  clearbody r. destruct r as [sp4 runoffStep]. cbn [fst] in Hr.
  match goal with |- context [foldl ?f ?s ?l] =>
    match f with
    | (fun sp j => call (reset_runon j) sp) => set (final := foldl f s l)
    end
  end.
  assert (Hfin : same_setup sp4 final).
  { unfold final. setup. }
  destruct Hfin as (-> & -> & -> & _). exact Hr.
Qed.

Lemma same_calls_flags p a b c d sp : same_calls p sp (set_flags a b c d sp).
Proof. reflexivity. Qed.

Lemma same_calls_clock p a b sp : same_calls p sp (set_clock a b sp).
Proof. reflexivity. Qed.

Lemma same_calls_error p a b sp : same_calls p sp (set_error a b sp).
Proof. reflexivity. Qed.

Lemma same_calls_if_call p (b : bool) c sp :
  p c = false -> same_calls p sp (if b then call c sp else sp).
Proof.
  intros Hc. destruct b; [now apply same_calls_call | apply same_calls_refl].
Qed.

Lemma same_calls_loop {X} p (step : Project -> X -> Project) (xs : list X) :
  (forall s x, same_calls p s (step s x)) ->
  forall sp, same_calls p sp (foldl step sp xs).
Proof.
  intros Hstep sp.
  apply (same_calls_foldl p step xs (fun _ => True)); [|exact I].
  intros s x _. split; [apply Hstep | exact I].
Qed.

Lemma gage_loop_calls p currentDate js sp :
  (forall j, p (gage_setState j currentDate) = false) ->
  same_calls p sp
    (foldl (fun sp j =>
              let sp := call (gage_setState j currentDate) sp in
              if Qltb 0 (Gage_rainfall (calls sp) j)
              then set_flags true (HasRunoff sp) (HasSnow sp)
                     (HasWetLids sp) sp
              else sp) sp js).
Proof.
  intros Hp. apply same_calls_loop. intros s x. cbn zeta.
  destruct (Qltb _ _).
  - eapply same_calls_trans; [apply same_calls_call, Hp|].
    apply same_calls_flags.
  - apply same_calls_call, Hp.
Qed.

(** writing to the interface file makes calls of the three kinds that
    are named only *)
Lemma runoff_saveToFile_calls p tStep sp :
  (forall t, p (fwrite_tStep t) = false) ->
  (forall j, p (subcatch_getResults j) = false) ->
  (forall j n, p (fwrite_results j n) = false) ->
  same_calls p sp (runoff_saveToFile tStep sp).
Proof.
  intros Ht Hg Hw. unfold runoff_saveToFile. cbn zeta.
  eapply same_calls_trans; [now apply same_calls_call|].
  apply same_calls_loop. intros s x. cbn zeta.
  eapply same_calls_trans; now apply same_calls_call.
Qed.

(** the runon from the outfalls: calls for the subcatchments with an
    area that an outfall is routed to *)
Lemma runoff_getOutfallRunon_calls p tStep sp :
  (forall k i t, Qeq_bool (Subcatch_area k) 0 = false ->
                 p (subcatch_addRunonFlow k i t) = false) ->
  (forall i, p (massbal_updateRunoffTotals i) = false) ->
  (forall i q, p (massbal_updateLoadingTotals i q) = false) ->
  same_calls p sp (runoff_getOutfallRunon tStep sp).
Proof.
  intros Ha Hr Hl. unfold runoff_getOutfallRunon.
  apply same_calls_loop. intros s i. cbn zeta.
  destruct (_ <? 0)%Z; [apply same_calls_refl|].
  destruct (Qeq_bool _ 0) eqn:E; [apply same_calls_refl|].
  eapply same_calls_trans; [apply same_calls_call, Ha, E|].
  eapply same_calls_trans; [apply same_calls_call, Hr|].
  apply same_calls_loop. intros s' q. apply same_calls_call, Hl.
Qed.

(** reading from the interface file makes calls of the three kinds that
    are named only *)
Lemma runoff_readFromFile_calls p sp :
  (forall j, p (subcatch_setOldState j) = false) ->
  p fread_tStep = false ->
  (forall j n, p (fread_results j n) = false) ->
  same_calls p sp (runoff_readFromFile sp).
Proof.
  intros Ho Ht Hr. unfold runoff_readFromFile, report_writeErrorMsg.
  destruct (_ <? _)%Z; [apply same_calls_error|]. cbn zeta.
  set (sp1 := call fread_tStep _).
  assert (C1 : same_calls p sp sp1).
  { unfold sp1. eapply same_calls_trans; [|now apply same_calls_call].
    apply same_calls_loop. intros s x. now apply same_calls_call. }
  clearbody sp1.
  set (n := Output.wrap32 (_ + Z.of_nat (Npollut sp1) - 1)).
  set (k0 := Output.wrap32 (0 + _)). clearbody k0 n.
  assert (C2 : forall js s k,
             same_calls p s
               (foldl (fun '(sp, kount) j =>
                         let sp := call (fread_results j n) sp in
                         (sp, Output.wrap32 (kount + fread_count (calls sp))))
                  (s, k) js).1).
  { induction js as [|j js IH]; intros s k; cbn [foldl fst];
      [apply same_calls_refl|].
    eapply same_calls_trans; [|apply IH]. now apply same_calls_call. }
  specialize (C2 (seq 0 (Nsubcatch sp1)) sp1 k0).
  destruct (foldl _ _ _) as [sp2 k]. cbn [fst] in C2.
  eapply same_calls_trans; [exact C1|].
  eapply same_calls_trans; [exact C2|].
  destruct (_ <? _)%Z; [apply same_calls_error|].
  eapply same_calls_trans; [apply same_calls_clock | apply same_calls_error].
Qed.

Lemma same_calls_if p (b : bool) (f : Project -> Project) sp :
  same_calls p sp (f sp) -> same_calls p sp (if b then f sp else sp).
Proof. intros Hf. destruct b; [exact Hf | apply same_calls_refl]. Qed.

(** a chain of calls that are not of kind [p], from the last one back;
    the loops are left to the caller *)
Ltac calls_chain :=
  repeat first
    [ apply same_calls_refl
    | eapply same_calls_trans;
      [ | first
            [ apply same_calls_call; reflexivity
            | apply same_calls_flags | apply same_calls_clock
            | apply same_calls_error
            | apply same_calls_if_call; reflexivity
            | apply same_calls_if;
              first [ apply runoff_saveToFile_calls; reflexivity
                    | apply runoff_getOutfallRunon_calls;
                      [intros; reflexivity | reflexivity..] ]
            | apply same_calls_loop; intros; cbn zeta;
              apply same_calls_call; reflexivity ] ] ].

Lemma IgnoreQuality_foldl {X} (step : Project -> X -> Project) xs :
  (forall s x, IgnoreQuality (step s x) = IgnoreQuality s) ->
  forall sp, IgnoreQuality (foldl step sp xs) = IgnoreQuality sp.
Proof.
  intros Hstep. induction xs as [|x xs IH]; intros sp; cbn [foldl];
    [reflexivity | rewrite IH; apply Hstep].
Qed.

(** the loop over the subcatchments makes no call into surfqual.c when
    the quality is ignored *)
Lemma runoff_subcatch_quality canSweep currentDate runoffStep js : forall sp,
  IgnoreQuality sp = true ->
  same_calls is_surfqual sp
    (foldl (runoff_subcatch canSweep currentDate runoffStep) sp js).
Proof.
  intros sp HI.
  apply (same_calls_foldl is_surfqual _ js
           (fun s => IgnoreQuality s = true)); [|exact HI].
  intros s x Hs. unfold runoff_subcatch. cbn zeta.
  destruct (Qeq_bool _ 0); [split; [apply same_calls_refl | exact Hs]|].
  cbn [IgnoreQuality set_flags call]. rewrite Hs.
  split; [calls_chain | exact Hs].
Qed.



Lemma runon_loop_quality runoffStep js : forall sp,
  same_calls is_surfqual sp
    (foldl (fun sp j =>
              if Qeq_bool (Subcatch_area j) 0 then sp
              else
                let sp := call (subcatch_getRunon j) sp in
                if negb (IgnoreSnowmelt sp)
                then call (snow_plowSnow j runoffStep) sp else sp) sp js).
Proof.
  intros sp. apply same_calls_loop. intros s x. cbn zeta.
  destruct (Qeq_bool _ 0); [apply same_calls_refl|]. calls_chain.
Qed.

(** X13. When the quality is ignored, a runoff tick makes no call into
    surfqual.c: no buildup, no sweeping, no washoff. *)
Theorem runoff_execute_ignores_quality sp :
  IgnoreQuality sp = true ->
  same_calls is_surfqual sp (runoff_execute sp).
Proof.
  intros HI. unfold runoff_execute.
  destruct (negb _); [apply same_calls_refl|]. cbn zeta.
  change (Nsubcatch (call ?c sp)) with (Nsubcatch sp).
  destruct (Nsubcatch sp =? 0)%nat; [calls_chain|].
  set (sp2 := foldl _ (set_flags false _ _ _ (call _ sp)) _).
  assert (C2 : same_calls is_surfqual sp sp2).
  { unfold sp2. eapply same_calls_trans; [|apply gage_loop_calls; reflexivity].
    calls_chain. }
  assert (I2 : IgnoreQuality sp2 = true).
  { unfold sp2. rewrite IgnoreQuality_foldl; [exact HI|].
    intros s x. cbn zeta. now destruct (Qltb _ _). }
  clearbody sp2.
  eapply same_calls_trans; [exact C2|]. clear C2.
  destruct (bool_decide _);
    [apply runoff_readFromFile_calls; reflexivity|].
  destruct (Qle_bool _ 0); [calls_chain|].
  set (r := if Qltb _ _ then _ else _).
  assert (Hr : same_calls is_surfqual sp2 r.1 /\ IgnoreQuality r.1 = true).
  { unfold r. destruct (Qltb _ _); cbn [fst]; split; try exact I2;
      calls_chain. }
  clearbody r. destruct r as [sp4 runoffStep]. cbn [fst] in Hr.
  destruct Hr as [C4 I4].
  eapply same_calls_trans; [exact C4|]. clear C4.
  calls_chain.
  eapply same_calls_trans; [|apply runoff_subcatch_quality].
  - calls_chain.
    eapply same_calls_trans; [|apply runon_loop_quality]. calls_chain.
  - cbn [IgnoreQuality set_flags].
    rewrite IgnoreQuality_foldl by (intros; repeat case_match; reflexivity).
    destruct (Qltb 0 _);
      [rewrite (same_setup_IgnoreQuality _ _
                  (runoff_getOutfallRunon_setup _ _))|];
      rewrite IgnoreQuality_foldl by reflexivity; exact I4.
Qed.


End MoreTick.

(** day 100 of a dry year: the tick takes the dry step of one hour *)
Lemma runoff_getTimeStep_bounds_witness :
  0 < @runoff_getTimeStep dry_weather (tick 100 900 60 300) 99
  /\ @runoff_getTimeStep dry_weather (tick 100 900 60 300) 99
     <= inject_Z 3600.
Proof.
  destruct (@runoff_getTimeStep_bounds dry_weather (tick 100 900 60 300) 99)
    as (Hlo & Hhi & _); [reflexivity | reflexivity |].
  split; [exact Hlo | exact Hhi].
Defined.

Lemma runoff_execute_clock_witness :
  OldRunoffTime (@runoff_execute dry_weather (tick 100 900 60 300))
  = NewRunoffTime (tick 100 900 60 300)
  /\ NewRunoffTime (@runoff_execute dry_weather (tick 100 900 60 300))
     <= TotalDuration (tick 100 900 60 300).
Proof.
  destruct (@runoff_execute_clock dry_weather (tick 100 900 60 300))
    as (_ & Ho & Hn & _);
    [reflexivity | discriminate | reflexivity | reflexivity
    | discriminate |].
  split; [exact Ho | exact Hn].
Defined.

Lemma runoff_execute_ignores_quality_witness :
  same_calls is_surfqual quiet_tick (@runoff_execute dry_weather quiet_tick).
Proof.
  apply (@runoff_execute_ignores_quality dry_weather quiet_tick).
  reflexivity.
Defined.


End RunoffFacts.

(** * Properties of hotstart.c *)

Module HotstartFacts.

Import Hotstart.

Section Reader.

Context `{Collaborators}.

(** a NaN read by [readFloat] is reported *)
Lemma readFloat_NaN x sp :
  float_isnan (fread x (Fhotstart1_file sp)).1 = true ->
  (readFloat x sp).1.1 = false
  /\ ErrorCode (readFloat x sp).2 = ERR_HOTSTART_FILE_READ.
Proof.
  intros Hnan. unfold readFloat.
  destruct (fread x (Fhotstart1_file sp)) as [y f]. cbn [fst] in Hnan.
  rewrite Hnan. split; reflexivity.
Qed.

(** a NaN read by [readDouble] is not: the error code is left as it was *)
Lemma readDouble_NaN x sp :
  eof (Fhotstart1_file sp) = false ->
  double_isnan (fread x (Fhotstart1_file sp)).1 = true ->
  (readDouble x sp).1.1 = false
  /\ ErrorCode (readDouble x sp).2 = ErrorCode sp.
Proof.
  intros Heof Hnan. unfold readDouble. rewrite Heof.
  destruct (fread x (Fhotstart1_file sp)) as [y f]. cbn [fst] in Hnan.
  rewrite Hnan. split; reflexivity.
Qed.

End Reader.

(** C4, on the code.  A NaN among the doubles of the subcatchment section
    stops [readRunoff] without an error being reported: the file is
    accepted, [openHotstartFile1] returns TRUE and the error code stays
    clear.  A NaN among the floats of the node section is reported as
    ERR_HOTSTART_FILE_READ and the open fails. *)
Lemma openHotstartFile1_accepts_NaN_double :
  double_isnan double_nan = true
  /\ (@openHotstartFile1 simple (project 1 0 file_nan_double)).1 = true
  /\ ErrorCode (@openHotstartFile1 simple (project 1 0 file_nan_double)).2
     = ERR_NONE
  /\ fpos (Fhotstart1_file
             (@openHotstartFile1 simple (project 1 0 file_nan_double)).2)
     = (15 + 6 * 4 + 8)%nat
  /\ float_isnan float_nan = true
  /\ (@openHotstartFile1 simple (project 0 1 file_nan_float)).1 = false
  /\ ErrorCode (@openHotstartFile1 simple (project 0 1 file_nan_float)).2
     = ERR_HOTSTART_FILE_READ.
Proof. repeat split; vm_compute; reflexivity. Qed.

(** ** Further properties of the hot start reader *)

Lemma stops_ret {A} (a : A) : stops_on_error (ret a).
Proof. intros sp. reflexivity. Qed.

Lemma stops_get : stops_on_error get.
Proof. intros sp. reflexivity. Qed.

Lemma stops_do f :
  (forall sp, ErrorCode (f sp) = ErrorCode sp) -> stops_on_error (do_ f).
Proof. intros Hf sp. apply Hf. Qed.

Lemma stops_bind {A B} (m : M A) (k : A -> M B) :
  stops_on_error m -> (forall a, stops_on_error (k a)) ->
  stops_on_error (bind m k).
Proof.
  intros Hm Hk sp. unfold bind. specialize (Hm sp).
  destruct (m sp) as [[a|] sp1]; cbn [fst snd] in *; [|exact Hm].
  specialize (Hk a sp1). destruct (k a sp1) as [[b|] sp2]; cbn [fst snd] in *;
    congruence.
Qed.

Lemma stops_for {A} (l : list A) body :
  (forall a, stops_on_error (body a)) -> stops_on_error (for_ l body).
Proof.
  intros Hb. induction l as [|a l IH]; cbn [for_].
  - apply stops_ret.
  - apply stops_bind; [apply Hb | intros _; exact IH].
Qed.

Lemma stops_foldM {A B} (body : B -> A -> M B) (l : list A) :
  (forall b a, stops_on_error (body b a)) ->
  forall b, stops_on_error (foldM body b l).
Proof.
  intros Hb. induction l as [|a l IH]; intros b; cbn [foldM].
  - apply stops_ret.
  - apply stops_bind; [apply Hb | exact IH].
Qed.

Section MoreReader.

Context `{Collaborators}.

Lemma stops_try_readFloat x : stops_on_error (try_readFloat x).
Proof.
  intros sp. unfold try_readFloat, readFloat.
  destruct (fread x (Fhotstart1_file sp)) as [y f].
  destruct (float_isnan y); reflexivity.
Qed.

Ltac stops :=
  repeat match goal with
    | |- stops_on_error (ret _) => apply stops_ret
    | |- stops_on_error get => apply stops_get
    | |- stops_on_error (try_readFloat _) => apply stops_try_readFloat
    | |- stops_on_error (do_ _) => apply stops_do; intros; reflexivity
    | |- stops_on_error (bind _ _) => apply stops_bind; [|intros]
    | |- stops_on_error (for_ _ _) => apply stops_for; intros
    | |- stops_on_error (foldM _ _ _) => apply stops_foldM; intros
    | |- stops_on_error (if ?c then _ else _) => destruct c
    end.

(** X15. [readRouting] returns before its end only after it has reported
    ERR_HOTSTART_FILE_READ, and when it runs to its end it leaves the
    error code as it found it. *)
Theorem readRouting_stops_on_error sp :
  ((readRouting sp).1 = None ->
   ErrorCode (readRouting sp).2 = ERR_HOTSTART_FILE_READ)
  /\ ((readRouting sp).1 = Some tt ->
      ErrorCode (readRouting sp).2 = ErrorCode sp).
Proof.
  assert (Hs : stops_on_error readRouting) by (unfold readRouting; stops).
  specialize (Hs sp). destruct (readRouting sp) as [[[]|] sp']; cbn [fst snd] in *.
  - split; [discriminate | intros _; exact Hs].
  - split; [intros _; exact Hs | discriminate].
Qed.

(** X16. Starting from a clear error code, [openHotstartFile1] returns
    TRUE exactly when it leaves the error code clear. *)
Theorem openHotstartFile1_result sp :
  ErrorCode sp = ERR_NONE ->
  (openHotstartFile1 sp).1
  = bool_decide (ErrorCode (openHotstartFile1 sp).2 = ERR_NONE).
Proof.
  intros He. unfold openHotstartFile1.
  destruct (negb _); [cbn; now rewrite bool_decide_eq_true_2|].
  destruct (Fhotstart1_disk sp) as [data|]; [|reflexivity].
  destruct (fread_chars 15 _ _) as [fStampx f].
  set (v := if strcmp_eq fStampx fileStamp4 then _ else _).
  clearbody v. destruct v as [[version|] f1]; [|reflexivity].
  destruct (if (2 <=? version)%Z then _ else _) as [nSubcatch f2].
  destruct (if (3 <=? version)%Z then _ else _) as [nLandUses f3].
  destruct (fread_int (-1) f3) as [nNodes f4].
  destruct (fread_int (-1) f4) as [nLinks f5].
  destruct (fread_int (-1) f5) as [nPollut f6].
  destruct (fread_int (-1) f6) as [flowUnits f7].
  destruct (negb _); [reflexivity|].
  destruct (bool_decide _) eqn:E; cbn [fst snd]; now rewrite E.
Qed.

End MoreReader.
(** ** Integers in the file *)

Lemma byte_of_Z_value z : Z.of_N (Byte.to_N (byte_of_Z z)) = (z mod 256)%Z.
Proof.
  unfold byte_of_Z.
  assert (Hm : (0 <= z mod 256 < 256)%Z) by (apply Z.mod_pos_bound; lia).
  destruct (Byte.of_N (Z.to_N (z mod 256))) as [b|] eqn:E.
  - apply Byte.to_of_N in E. rewrite E. apply Z2N.id. lia.
  - apply Byte.of_N_None_iff in E. lia.
Qed.

(** an [int] written to the file is read back *)
Lemma int_of_bytes_of_int z :
  (- 2 ^ 31 <= z < 2 ^ 31)%Z -> int_of_bytes (bytes_of_int z) = z.
Proof.
  intros Hz. unfold int_of_bytes, bytes_of_int. cbn [le_value].
  rewrite !byte_of_Z_value.
  change 65536%Z with (256 * 256)%Z.
  change 16777216%Z with (256 * 256 * 256)%Z.
  rewrite <- !Z.div_div by lia.
  set (z1 := (z / 256)%Z). set (z2 := (z1 / 256)%Z). set (z3 := (z2 / 256)%Z).
  pose proof (Z.div_mod z 256 ltac:(lia)) as E0.
  pose proof (Z.div_mod z1 256 ltac:(lia)) as E1.
  pose proof (Z.div_mod z2 256 ltac:(lia)) as E2.
  pose proof (Z.div_mod z3 256 ltac:(lia)) as E3.
  pose proof (Z.mod_pos_bound z 256 ltac:(lia)).
  pose proof (Z.mod_pos_bound z1 256 ltac:(lia)).
  pose proof (Z.mod_pos_bound z2 256 ltac:(lia)).
  pose proof (Z.mod_pos_bound z3 256 ltac:(lia)).
  fold z1 in E0. fold z2 in E1. fold z3 in E2.
  change (2 ^ 31)%Z with 2147483648%Z in *.
  change (2 ^ 32)%Z with 4294967296%Z.
  assert (Hz3 : (z3 / 256 = 0 \/ z3 / 256 = -1)%Z) by lia.
  destruct (_ <? _)%Z eqn:E; [apply Z.ltb_lt in E | apply Z.ltb_ge in E]; lia.
Qed.

(** [fread] of a whole object from the middle of the stream *)
Lemma fread_whole old pre data rest e :
  length data = length old ->
  fread old {| contents := pre ++ data ++ rest; fpos := length pre; eof := e |}
  = (data, {| contents := pre ++ data ++ rest;
              fpos := length pre + length data; eof := e |}).
Proof.
  intros Hl. unfold fread. cbn [contents fpos eof].
  rewrite drop_app_length, take_app_length' by congruence.
  rewrite Hl, drop_all, app_nil_r, Nat.ltb_irrefl, orb_false_r.
  reflexivity.
Qed.

Lemma fread_int_whole k pre z rest e :
  (- 2 ^ 31 <= z < 2 ^ 31)%Z ->
  fread_int k {| contents := pre ++ bytes_of_int z ++ rest;
                 fpos := length pre; eof := e |}
  = (z, {| contents := pre ++ bytes_of_int z ++ rest;
           fpos := length pre + 4; eof := e |}).
Proof.
  intros Hz. unfold fread_int.
  rewrite fread_whole by reflexivity. now rewrite int_of_bytes_of_int.
Qed.
(** ** What the readers leave alone *)

Lemma read_step_refl sp : read_step sp sp.
Proof. split; auto. Qed.

Lemma read_step_trans a b c : read_step a b -> read_step b c -> read_step a c.
Proof.
  intros [V1 E1] [V2 E2]. split; [congruence|].
  destruct E2 as [E2|E2]; [rewrite E2; exact E1 | right; exact E2].
Qed.

Lemma keeps_ret {A} (a : A) : keeps read_step (ret a).
Proof. intros sp. apply read_step_refl. Qed.

Lemma keeps_get : keeps read_step get.
Proof. intros sp. apply read_step_refl. Qed.

Lemma keeps_do f :
  (forall sp, read_step sp (f sp)) -> keeps read_step (do_ f).
Proof. intros Hf sp. apply Hf. Qed.

Lemma keeps_bind {A B} (m : M A) (k : A -> M B) :
  keeps read_step m -> (forall a, keeps read_step (k a)) ->
  keeps read_step (bind m k).
Proof.
  intros Hm Hk sp. unfold bind. specialize (Hm sp).
  destruct (m sp) as [[a|] sp1]; cbn [fst snd] in *; [|exact Hm].
  eapply read_step_trans; [exact Hm | apply Hk].
Qed.

Lemma keeps_for {A} (l : list A) body :
  (forall a, keeps read_step (body a)) -> keeps read_step (for_ l body).
Proof.
  intros Hb. induction l as [|a l IH]; cbn [for_].
  - apply keeps_ret.
  - apply keeps_bind; [apply Hb | intros _; exact IH].
Qed.

Lemma keeps_foldM {A B} (body : B -> A -> M B) (l : list A) :
  (forall b a, keeps read_step (body b a)) ->
  forall b, keeps read_step (foldM body b l).
Proof.
  intros Hb. induction l as [|a l IH]; intros b; cbn [foldM].
  - apply keeps_ret.
  - apply keeps_bind; [apply Hb | exact IH].
Qed.

Section Header.

Context `{Collaborators}.

Lemma keeps_try_readFloat x : keeps read_step (try_readFloat x).
Proof.
  intros sp. unfold try_readFloat, readFloat.
  destruct (fread x (Fhotstart1_file sp)) as [y f].
  destruct (float_isnan y); cbn; split; auto.
Qed.

Lemma keeps_try_readDouble fld : keeps read_step (try_readDouble fld).
Proof.
  intros sp. unfold try_readDouble, readDouble.
  destruct (eof (Fhotstart1_file sp)); [cbn; split; auto|].
  destruct (fread _ (Fhotstart1_file sp)) as [y f].
  destruct (double_isnan y); cbn; split; auto.
Qed.

Lemma keeps_try_readDouble_at x j : keeps read_step (try_readDouble_at x j).
Proof.
  intros sp. unfold try_readDouble_at, readDouble.
  destruct (eof (Fhotstart1_file sp)); [cbn; split; auto|].
  destruct (fread _ (Fhotstart1_file sp)) as [y f].
  destruct (double_isnan y); cbn; split; auto.
Qed.

Ltac keeps_ :=
  repeat match goal with
    | |- keeps _ (ret _) => apply keeps_ret
    | |- keeps _ get => apply keeps_get
    | |- keeps _ (try_readFloat _) => apply keeps_try_readFloat
    | |- keeps _ (try_readDouble _) => apply keeps_try_readDouble
    | |- keeps _ (try_readDouble_at _ _) => apply keeps_try_readDouble_at
    | |- keeps _ (do_ _) =>
        apply keeps_do; intros; split; [reflexivity | left; reflexivity]
    | |- keeps _ (bind _ _) => apply keeps_bind; [|intros]
    | |- keeps _ (for_ _ _) => apply keeps_for; intros
    | |- keeps _ (foldM _ _ _) => apply keeps_foldM; intros
    | |- keeps _ (if ?c then _ else _) => destruct c
    end.

Lemma readRunoff_keeps : keeps read_step readRunoff.
Proof. unfold readRunoff. keeps_. Qed.

Lemma readRouting_keeps : keeps read_step readRouting.
Proof. unfold readRouting. keeps_. Qed.

End Header.
Lemma fread_at old f pre data rest :
  contents f = pre ++ data ++ rest ->
  fpos f = length pre ->
  length data = length old ->
  fread old f
  = (data, {| contents := contents f; fpos := fpos f + length data;
              eof := eof f |}).
Proof.
  intros Hc Hp Hl. destruct f as [c p e]. cbn [contents fpos eof] in *.
  subst c p. now apply fread_whole.
Qed.

Lemma fread_int_at k f pre z rest :
  contents f = pre ++ bytes_of_int z ++ rest ->
  fpos f = length pre ->
  (- 2 ^ 31 <= z < 2 ^ 31)%Z ->
  fread_int k f
  = (z, {| contents := contents f; fpos := fpos f + 4; eof := eof f |}).
Proof.
  intros Hc Hp Hz. unfold fread_int.
  rewrite (fread_at (bytes_of_int k) f pre (bytes_of_int z) rest Hc Hp eq_refl).
  now rewrite int_of_bytes_of_int.
Qed.

Section Header2.

Context `{Collaborators}.

(** X17. The header that [openHotstartFile2] writes is read back by
    [openHotstartFile1]: a file that starts with the header written for
    a project [spA] is taken as a version 4 file by a project [spB] with
    the same numbers of objects and flow units, without a format error;
    for any other project the open fails with ERR_HOTSTART_FILE_FORMAT
    before anything of the project's state is assigned. *)
Theorem openHotstartFile1_reads_header spA spB hdr body :
  (openHotstartFile2 SAVE_FILE true spA).2 = Some hdr ->
  (Z.of_nat (Nsubcatch spA) < 2 ^ 31)%Z ->
  (Z.of_nat (Nlanduse spA) < 2 ^ 31)%Z ->
  (Z.of_nat (Nnode spA) < 2 ^ 31)%Z ->
  (Z.of_nat (Nlink spA) < 2 ^ 31)%Z ->
  (Z.of_nat (Npollut spA) < 2 ^ 31)%Z ->
  (- 2 ^ 31 <= FlowUnits spA < 2 ^ 31)%Z ->
  Fhotstart1_mode spB = USE_FILE ->
  Fhotstart1_disk spB = Some (hdr ++ body) ->
  ErrorCode spB = ERR_NONE ->
  let r := openHotstartFile1 spB in
  let same :=
    Nsubcatch spA = Nsubcatch spB /\ Nlanduse spA = Nlanduse spB
    /\ Nnode spA = Nnode spB /\ Nlink spA = Nlink spB
    /\ Npollut spA = Npollut spB /\ FlowUnits spA = FlowUnits spB in
  (same ->
   FileVersion r.2 = 4%Z /\ ErrorCode r.2 <> ERR_HOTSTART_FILE_FORMAT)
  /\ (~ same ->
      r.1 = false /\ ErrorCode r.2 = ERR_HOTSTART_FILE_FORMAT
      /\ memory r.2 = memory spB /\ calls r.2 = calls spB).
Proof.
  intros Hhdr Hs Hu Hn Hl Hp Hf Hmode Hdisk Herr. cbn zeta.
  unfold openHotstartFile2 in Hhdr.
  rewrite (bool_decide_eq_true_2 _ eq_refl) in Hhdr.
  cbn [negb snd] in Hhdr. apply (inj Some) in Hhdr. subst hdr.
  unfold openHotstartFile1. rewrite Hmode, Hdisk. cbn [bool_decide negb].
  rewrite (bool_decide_eq_true_2 _ eq_refl). cbn [negb].
  set (iS := bytes_of_int (Z.of_nat (Nsubcatch spA))).
  set (iU := bytes_of_int (Z.of_nat (Nlanduse spA))).
  set (iN := bytes_of_int (Z.of_nat (Nnode spA))).
  set (iL := bytes_of_int (Z.of_nat (Nlink spA))).
  set (iP := bytes_of_int (Z.of_nat (Npollut spA))).
  set (iF := bytes_of_int (FlowUnits spA)).
  set (stamp := take 15 fileStamp4).
  set (data := (_ ++ body)).
  unfold fread_chars.
  rewrite (fread_at (take 15 fStampx_init) _ [] stamp
             (iS ++ iU ++ iN ++ iL ++ iP ++ iF ++ body));
    [| unfold data; cbn [contents]; now rewrite <- !app_assoc
     | reflexivity | reflexivity].
  cbn [contents fpos eof].
  change (strcmp_eq (stamp ++ drop 15 fStampx_init) fileStamp4) with true.
  cbn iota. cbn [Z.leb Z.compare Pos.compare Pos.compare_cont].
  rewrite (fread_int_at (-1) _ stamp (Z.of_nat (Nsubcatch spA))
             (iU ++ iN ++ iL ++ iP ++ iF ++ body));
    [| unfold data; cbn [contents]; now rewrite <- !app_assoc
     | reflexivity | lia].
  cbn [contents fpos eof].
  rewrite (fread_int_at (-1) _ (stamp ++ iS) (Z.of_nat (Nlanduse spA))
             (iN ++ iL ++ iP ++ iF ++ body));
    [| unfold data; cbn [contents]; now rewrite <- !app_assoc
     | reflexivity | lia].
  cbn [contents fpos eof].
  rewrite (fread_int_at (-1) _ (stamp ++ iS ++ iU) (Z.of_nat (Nnode spA))
             (iL ++ iP ++ iF ++ body));
    [| unfold data; cbn [contents]; now rewrite <- !app_assoc
     | reflexivity | lia].
  cbn [contents fpos eof].
  rewrite (fread_int_at (-1) _ (stamp ++ iS ++ iU ++ iN)
             (Z.of_nat (Nlink spA)) (iP ++ iF ++ body));
    [| unfold data; cbn [contents]; now rewrite <- !app_assoc
     | reflexivity | lia].
  cbn [contents fpos eof].
  rewrite (fread_int_at (-1) _ (stamp ++ iS ++ iU ++ iN ++ iL)
             (Z.of_nat (Npollut spA)) (iF ++ body));
    [| unfold data; cbn [contents]; now rewrite <- !app_assoc
     | reflexivity | lia].
  cbn [contents fpos eof].
  rewrite (fread_int_at (-1) _ (stamp ++ iS ++ iU ++ iN ++ iL ++ iP)
             (FlowUnits spA) body);
    [| unfold data; cbn [contents]; now rewrite <- !app_assoc
     | reflexivity | lia].
  cbn [contents fpos eof].
  set (f := Build_TFile data _ _). clearbody f.
  cbn [Nsubcatch Nlanduse Nnode Nlink Npollut FlowUnits with_file
       with_FileVersion].
  set (ok := (_ && _)%bool).
  assert (Hok : ok = true
                <-> Nsubcatch spA = Nsubcatch spB
                    /\ Nlanduse spA = Nlanduse spB
                    /\ Nnode spA = Nnode spB /\ Nlink spA = Nlink spB
                    /\ Npollut spA = Npollut spB
                    /\ FlowUnits spA = FlowUnits spB).
  { unfold ok. rewrite !andb_true_iff, !Z.eqb_eq, !Nat2Z.inj_iff. tauto. }
  clearbody ok. split.
  - intros Hsame. apply Hok in Hsame. subst ok. cbn [negb].
    set (sp1 := with_file f (with_FileVersion 4 spB)).
    pose proof (readRunoff_keeps sp1) as [V1 E1].
    pose proof (readRouting_keeps (readRunoff sp1).2) as [V2 E2].
    assert (HV : FileVersion (readRouting (readRunoff sp1).2).2 = 4%Z)
      by (rewrite V2, V1; reflexivity).
    assert (HE : ErrorCode (readRouting (readRunoff sp1).2).2
                 <> ERR_HOTSTART_FILE_FORMAT).
    { change (ErrorCode sp1) with (ErrorCode spB) in E1.
      rewrite Herr in E1.
      destruct E2 as [E2|E2]; rewrite E2; [|discriminate].
      destruct E1 as [E1|E1]; rewrite E1; discriminate. }
    destruct (bool_decide _); cbn [snd]; split; assumption.
  - intros Hdiff. destruct ok; [exfalso; apply Hdiff, Hok; reflexivity|].
    cbn [negb fst snd]. repeat split.
Qed.

End Header2.

(** the file whose node depth is a NaN: the open fails, with an error *)
Lemma openHotstartFile1_result_witness :
  (@openHotstartFile1 simple (project 0 1 file_nan_float)).1
  = bool_decide
      (ErrorCode (@openHotstartFile1 simple (project 0 1 file_nan_float)).2
       = ERR_NONE).
Proof.
  apply (@openHotstartFile1_result simple (project 0 1 file_nan_float)).
  reflexivity.
Defined.

(** the header of a project with one node, followed by two floats, is
    read by that project as version 4 *)
Lemma openHotstartFile1_reads_header_witness :
  FileVersion (@openHotstartFile1 simple (project 0 1 file_nan_float)).2
  = 4%Z.
Proof.
  refine (proj1 (proj1 (@openHotstartFile1_reads_header simple (project 0 1 [])
              (project 0 1 file_nan_float)
              (take 15 fileStamp4
               ++ bytes_of_int 0 ++ bytes_of_int 0 ++ bytes_of_int 1
               ++ bytes_of_int 0 ++ bytes_of_int 0 ++ bytes_of_int 0)
              (float_nan ++ float_zero)
              eq_refl _ _ _ _ _ _ eq_refl eq_refl eq_refl) _));
    [cbn; lia .. | repeat split].
Defined.

(** ** Rules for [reads] *)

Section Reads.

Variable W : Field -> bytes.
Variable ok : bytes -> Prop.
Variable e : bool.
Hypothesis W_ok : forall fld, ok (W fld).

Lemma file_eta f p :
  p = fpos f ->
  f = {| contents := contents f; fpos := p; eof := eof f |}.
Proof. intros ->. now destruct f. Qed.

Lemma reads_ret {A} (a : A) (Q : A -> Prop) :
  Q a -> reads W ok e (ret a) [] (fun _ => False) [] Q.
Proof.
  intros Ha sp pre rest Hc Hp He Hok. exists a, sp.
  cbn [length]. rewrite Nat.add_0_r, app_nil_r, <- Hp, <- He.
  repeat split; auto; try tauto. now apply file_eta.
Qed.

Lemma reads_assign fld :
  reads W ok e (do_ (assign fld (W fld))) [] (eq fld) [] (fun _ => True).
Proof.
  intros sp pre rest Hc Hp He Hok. exists tt, (assign fld (W fld) sp).
  cbn [length]. rewrite Nat.add_0_r, app_nil_r, <- Hp, <- He.
  repeat split; auto.
  - cbn. now apply file_eta.
  - intros g <-. cbn. now rewrite decide_True.
  - intros g Hg. cbn. rewrite decide_False; congruence.
  - intros g. cbn. destruct (decide (g = fld)) as [->|]; auto.
Qed.

Lemma reads_call c :
  reads W ok e (do_ (call c)) [] (fun _ => False) [c] (fun _ => True).
Proof.
  intros sp pre rest Hc Hp He Hok. exists tt, (call c sp).
  cbn [length]. rewrite Nat.add_0_r, <- Hp, <- He.
  repeat split; auto; try tauto. cbn. now apply file_eta.
Qed.

Lemma reads_bind {A B} (m : M A) (k : A -> M B) bs1 bs2 D1 D2 cs1 cs2 Q1 Q2 :
  reads W ok e m bs1 D1 cs1 Q1 ->
  (forall a, Q1 a -> reads W ok e (k a) bs2 D2 cs2 Q2) ->
  reads W ok e (bind m k) (bs1 ++ bs2) (fun fld => D1 fld \/ D2 fld)
    (cs1 ++ cs2) Q2.
Proof.
  intros Hm Hk sp pre rest Hc Hp He Hok.
  rewrite <- app_assoc in Hc.
  destruct (Hm sp pre (bs2 ++ rest) Hc Hp He Hok)
    as (a & sp1 & E1 & Ha & F1 & R1 & G1 & C1 & M1 & N1 & K1).
  assert (Hok1 : forall fld, ok (memory sp1 fld)).
  { intros fld. destruct (K1 fld) as [-> | ->]; auto. }
  destruct (Hk a Ha sp1 (pre ++ bs1) rest) as
    (b & sp2 & E2 & Hb & F2 & R2 & G2 & C2 & M2 & N2 & K2); auto.
  { rewrite F1. cbn. now rewrite <- app_assoc. }
  { rewrite F1. cbn. now rewrite length_app. }
  { now rewrite F1. }
  exists b, sp2. unfold bind. rewrite E1.
  repeat split; auto.
  - rewrite F2, F1. cbn. now rewrite !length_app, Nat.add_assoc.
  - congruence.
  - congruence.
  - rewrite C2, C1. now rewrite app_assoc.
  - intros fld [Hd | Hd]; [|now apply M2].
    destruct (K2 fld) as [->| ->]; auto.
  - intros fld Hd. rewrite N2, N1; tauto.
  - intros fld. destruct (K2 fld) as [->| ->]; auto.
Qed.

Lemma reads_weaken {A} (m : M A) bs bs' (D D' : Field -> Prop) cs cs'
    (Q Q' : A -> Prop) :
  reads W ok e m bs D cs Q ->
  bs' = bs -> cs' = cs -> (forall fld, D' fld <-> D fld) ->
  (forall a, Q a -> Q' a) ->
  reads W ok e m bs' D' cs' Q'.
Proof.
  intros Hm -> -> HD HQ sp pre rest Hc Hp He Hok.
  destruct (Hm sp pre rest Hc Hp He Hok)
    as (a & sp1 & E1 & Ha & F1 & R1 & G1 & C1 & M1 & N1 & K1).
  exists a, sp1. repeat split; auto.
  - intros fld Hd. apply M1, HD, Hd.
  - intros fld Hd. apply N1. intros Hd'. apply Hd, HD, Hd'.
Qed.

Lemma reads_foldM {A B} (body : B -> A -> M B) (bsf : A -> bytes)
    (Df : A -> Field -> Prop) (csf : A -> list Call) (Q : B -> Prop)
    (l : list A) :
  (forall a b, a ∈ l -> Q b ->
     reads W ok e (body b a) (bsf a) (Df a) (csf a) Q) ->
  forall b, Q b ->
  reads W ok e (foldM body b l) (flat_map bsf l)
    (fun fld => exists a, a ∈ l /\ Df a fld) (flat_map csf l) Q.
Proof.
  induction l as [|a l IH]; intros Hb b Hq; cbn [foldM flat_map].
  - eapply reads_weaken; [apply (reads_ret b Q Hq) | auto ..].
    intros fld. split; [|tauto]. intros (a & Ha & _).
    now apply elem_of_nil in Ha.
  - eapply reads_weaken;
      [eapply reads_bind;
         [apply Hb; [left | exact Hq]
         | intros b' Hq'; apply IH; [|exact Hq'];
           intros a' b'' Ha'; apply Hb; now right]
      | auto ..].
    intros fld. split.
    + intros (a' & Ha' & Hd). apply elem_of_cons in Ha' as [->|Ha'];
        [left; exact Hd | right; eauto].
    + intros [Hd | (a' & Ha' & Hd)]; [exists a | exists a'];
        (split; [|exact Hd]); [left | now right].
Qed.

Lemma reads_for {A} (body : A -> M unit) (bsf : A -> bytes)
    (Df : A -> Field -> Prop) (csf : A -> list Call) (l : list A) :
  (forall a, a ∈ l ->
     reads W ok e (body a) (bsf a) (Df a) (csf a) (fun _ => True)) ->
  reads W ok e (for_ l body) (flat_map bsf l)
    (fun fld => exists a, a ∈ l /\ Df a fld) (flat_map csf l) (fun _ => True).
Proof.
  induction l as [|a l IH]; intros Hb; cbn [for_ flat_map].
  - eapply reads_weaken; [apply (reads_ret tt (fun _ => True) I) | auto ..].
    intros fld. split; [|tauto]. intros (a & Ha & _).
    now apply elem_of_nil in Ha.
  - eapply reads_weaken;
      [eapply reads_bind;
         [apply Hb; left
         | intros _ _; apply IH; intros a' Ha'; apply Hb; now right]
      | auto ..].
    intros fld. split.
    + intros (a' & Ha' & Hd). apply elem_of_cons in Ha' as [->|Ha'];
        [left; exact Hd | right; eauto].
    + intros [Hd | (a' & Ha' & Hd)]; [exists a | exists a'];
        (split; [|exact Hd]); [left | now right].
Qed.

Section Primitive.

Context `{Collaborators}.

Lemma reads_try_readFloat x b :
  length b = length x -> float_isnan b = false ->
  reads W ok e (try_readFloat x) b (fun _ => False) [] (eq b).
Proof.
  intros Hl Hn sp pre rest Hc Hp He Hok.
  exists b, (with_file {| contents := contents (Fhotstart1_file sp);
                          fpos := length pre + length b; eof := e |} sp).
  unfold try_readFloat, readFloat.
  rewrite (fread_at x _ pre b rest Hc Hp Hl), Hn, Hp, He.
  rewrite app_nil_r. repeat split; auto; tauto.
Qed.

End Primitive.

End Reads.
(** ** Rules for the doubles *)

Section ReadsDouble.

Context `{Collaborators}.
Variable W : Field -> bytes.
Hypothesis W_double : forall fld, is_double (W fld).

Local Abbreviation ok := (fun b : bytes => length b = 8%nat).

Lemma reads_try_readDouble fld :
  reads W ok false (try_readDouble fld) (W fld) (eq fld) [] (fun _ => True).
Proof.
  intros sp pre rest Hc Hp He Hok.
  destruct (W_double fld) as [Hl Hn].
  exists tt,
    (assign fld (W fld)
       (with_file {| contents := contents (Fhotstart1_file sp);
                     fpos := length pre + length (W fld); eof := false |} sp)).
  unfold try_readDouble, readDouble. rewrite He.
  rewrite (fread_at _ _ pre (W fld) rest Hc Hp) by now rewrite Hl, Hok.
  rewrite Hn, Hp, He, app_nil_r.
  repeat split; auto.
  - intros g <-. cbn. now rewrite decide_True.
  - intros g Hg. cbn. rewrite decide_False; congruence.
  - intros g. cbn. destruct (decide (g = fld)) as [->|]; auto.
Qed.

Lemma reads_try_readDouble_at (x : list bytes) j v :
  length (x !!! j) = 8%nat -> is_double v ->
  reads W ok false (try_readDouble_at x j) v (fun _ => False) []
    (eq (<[j := v]> x)).
Proof.
  intros Hx [Hl Hn] sp pre rest Hc Hp He Hok.
  exists (<[j := v]> x),
    (with_file {| contents := contents (Fhotstart1_file sp);
                  fpos := length pre + length v; eof := false |} sp).
  unfold try_readDouble_at, readDouble. rewrite He.
  rewrite (fread_at _ _ pre v rest Hc Hp)
    by (rewrite Hl; symmetry; exact Hx).
  rewrite Hn, Hp, He, app_nil_r.
  repeat split; auto; tauto.
Qed.

Lemma reads_doubles_from vs : forall s (x : list bytes),
  (s + length vs <= length x)%nat ->
  Forall is_double vs -> Forall ok x ->
  reads W ok false (foldM try_readDouble_at x (seq s (length vs)))
    (concat vs) (fun _ => False) []
    (eq (take s x ++ vs ++ drop (s + length vs) x)).
Proof.
  induction vs as [|v vs IH]; intros s x Hs Hvs Hx; cbn [length seq foldM concat].
  - eapply reads_weaken;
      [apply (reads_ret W ok false x (eq x) eq_refl)
      | reflexivity | reflexivity | tauto |].
    intros a <-. rewrite Nat.add_0_r. cbn [app]. now rewrite take_drop.
  - apply Forall_cons in Hvs as [Hv Hvs]. cbn [length] in Hs.
    assert (Hlt : (s < length x)%nat) by lia.
    eapply reads_weaken;
      [eapply (reads_bind W ok false (fun fld => proj1 (W_double fld)));
         [apply (reads_try_readDouble_at x s v);
            [|exact Hv]
         | intros ? <-; apply (IH (S s));
             [rewrite length_insert; lia | exact Hvs |]]
      | reflexivity | reflexivity | tauto |].
    + destruct (lookup_lt_is_Some_2 x s Hlt) as [y Hy].
      rewrite (list_lookup_total_correct _ _ _ Hy).
      exact (proj1 (Forall_lookup _ _) Hx _ _ Hy).
    + apply Forall_insert; [exact Hx | exact (proj1 Hv)].
    + intros a <-.
      rewrite take_insert_lt, drop_insert_lt by lia.
      destruct (lookup_lt_is_Some_2 x s Hlt) as [y Hy].
      rewrite (take_S_r _ _ _ Hy).
      rewrite insert_app_r_alt by (rewrite length_take; lia).
      rewrite length_take, Nat.min_l, Nat.sub_diag by lia. cbn [insert].
      rewrite <- app_assoc. cbn.
      now rewrite Nat.add_succ_r.
Qed.

(** [for (j = 0; j < n; j++) if ( !readDouble(sp, &x[j], f) ) return;] *)
Lemma reads_doubles n vs (x y : list bytes) :
  length vs = n -> (n <= length x)%nat ->
  Forall is_double vs -> Forall ok x ->
  vs ++ drop n x = y ->
  reads W ok false (foldM try_readDouble_at x (seq 0 n))
    (concat vs) (fun _ => False) [] (eq y).
Proof.
  intros <- Hn Hvs Hx <-.
  eapply reads_weaken;
    [apply (reads_doubles_from vs 0 x); auto
    | reflexivity | reflexivity | tauto | auto].
Qed.

End ReadsDouble.
(** ** The routing section, saved and read again *)

Lemma foldl_fwrite {A} (g : A -> bytes) (l : list A) file :
  foldl (fun file a => fwrite (g a) file) file l = file ++ flat_map g l.
Proof.
  revert file. induction l as [|a l IH]; intros file; cbn [foldl flat_map].
  - now rewrite app_nil_r.
  - rewrite IH. unfold fwrite. now rewrite app_assoc.
Qed.

Lemma foldl_appends {A} (step : bytes -> A -> bytes) (g : A -> bytes)
    (l : list A) file :
  (forall file a, step file a = file ++ g a) ->
  foldl step file l = file ++ flat_map g l.
Proof.
  intros Hs. revert file.
  induction l as [|a l IH]; intros file; cbn [foldl flat_map].
  - now rewrite app_nil_r.
  - rewrite IH, Hs. now rewrite app_assoc.
Qed.

Lemma flat_map_nil {A B} (l : list A) :
  flat_map (fun _ => @nil B) l = [].
Proof. now induction l. Qed.

(** [sp0 = *sp] at the head of a reader *)
Lemma bind_get {A} (k : Project -> M A) sp : bind get k sp = k sp sp.
Proof. reflexivity. Qed.

Section RoundTrip.

Context `{Collaborators}.
Variable float_of_double : bytes -> bytes.
Variables spA spB : Project.

Hypothesis float_size : forall v, length (float_of_double v) = 4%nat.
Hypothesis local_size : length (indeterminate 4) = 4%nat.
Hypothesis no_nan :
  forall fld, float_isnan (float_of_double (memory spA fld)) = false.
Hypothesis version : FileVersion spB = 4%Z.

Local Abbreviation W := (restored float_of_double spA).
Local Abbreviation ok := (fun _ : bytes => True).
Local Abbreviation e := (eof (Fhotstart1_file spB)).
Local Abbreviation fod fld := (float_of_double (memory spA fld)).

Local Abbreviation node_bytes := (fun i =>
  fod (Node_newDepth i) ++ fod (Node_newLatFlow i)
  ++ (if bool_decide (Node_type spB i = STORAGE)
      then fod (Storage_hrt (Node_subIndex spB i)) else [])
  ++ flat_map (fun j => fod (Node_newQual i j)) (seq 0 (Npollut spB))).

Local Abbreviation link_bytes := (fun i =>
  fod (Link_newFlow i) ++ fod (Link_newDepth i) ++ fod (Link_setting i)
  ++ flat_map (fun j => fod (Link_newQual i j)) (seq 0 (Npollut spB))).

Ltac bind_by t :=
  eapply (reads_bind W ok e (fun _ => I)); [solve [t] | intros ? ?; subst].

Ltac fields_ :=
  intros g; split; intros Hg;
  repeat match type of Hg with
    | _ \/ _ => destruct Hg as [Hg | Hg]
    | _ /\ _ => destruct Hg as [? Hg]
    | ex _ => destruct Hg as [? Hg]
    | False => destruct Hg
    end;
  subst; repeat first [solve [eauto] | right].

Ltac float_ b :=
  apply (reads_try_readFloat W ok e _ b);
  [rewrite ?float_size; try reflexivity; symmetry; assumption | apply no_nan].

Lemma reads_quality (fld : nat -> Field) x :
  (forall j, W (fld j) = double_of_float (fod (fld j))) ->
  length x = 4%nat ->
  reads W ok e
    (foldM (fun x j =>
              x <<- try_readFloat x ;;
              do_ (assign (fld j) (double_of_float x)) ;;;
              ret x)
       x (seq 0 (Npollut spB)))
    (flat_map (fun j => fod (fld j)) (seq 0 (Npollut spB)))
    (fun g => exists j, j ∈ seq 0 (Npollut spB) /\ g = fld j)
    [] (fun x => length x = 4%nat).
Proof.
  intros HW Hx.
  eapply reads_weaken;
    [apply (reads_foldM W ok e (fun _ => I) _ (fun j => fod (fld j))
              (fun j g => g = fld j) (fun _ => [])
              (fun x => length x = 4%nat))
    | reflexivity | | reflexivity | auto].
  - intros j y _ Hy.
    eapply reads_weaken with (Q := fun x => length x = 4%nat);
      [eapply (reads_bind W ok e (fun _ => I));
         [apply (reads_try_readFloat W ok e y (fod (fld j)));
            [now rewrite float_size | apply no_nan]
         | intros ? <-; eapply (reads_bind W ok e (fun _ => I));
             [rewrite <- HW; apply reads_assign
             | intros _ _; apply reads_ret; apply float_size]]
      | now rewrite !app_nil_r | reflexivity | | auto].
    intros g. split; [intros ->; auto | intros [[]|[<-|[]]]; reflexivity].
  - exact Hx.
  - now rewrite flat_map_nil.
Qed.

Lemma saveRouting_bytes file :
  Nnode spA = Nnode spB -> Nlink spA = Nlink spB ->
  Npollut spA = Npollut spB ->
  (forall i, Node_type spA i = Node_type spB i) ->
  (forall i, Node_subIndex spA i = Node_subIndex spB i) ->
  saveRouting float_of_double spA file
  = file ++ flat_map node_bytes (seq 0 (Nnode spB))
    ++ flat_map link_bytes (seq 0 (Nlink spB)).
Proof.
  intros Hn Hl Hp Ht Hs. unfold saveRouting. rewrite Hn, Hl, Hp.
  rewrite (foldl_appends _ link_bytes).
  - rewrite (foldl_appends _ node_bytes); [now rewrite <- app_assoc|].
    intros f i. rewrite foldl_fwrite, Ht, Hs. unfold fwrite.
    destruct (bool_decide _); now rewrite <- ?app_assoc, ?app_nil_r.
  - intros f i. rewrite foldl_fwrite. unfold fwrite.
    now rewrite <- !app_assoc.
Qed.

Lemma readRouting_restores file rest :
  Nnode spA = Nnode spB -> Nlink spA = Nlink spB ->
  Npollut spA = Npollut spB ->
  (forall i, Node_type spA i = Node_type spB i) ->
  (forall i, Node_subIndex spA i = Node_subIndex spB i) ->
  contents (Fhotstart1_file spB)
  = saveRouting float_of_double spA file ++ rest ->
  fpos (Fhotstart1_file spB) = length file ->
  exists sp',
    readRouting spB = (Some tt, sp')
    /\ Fhotstart1_file sp'
       = {| contents := contents (Fhotstart1_file spB);
            fpos := length (saveRouting float_of_double spA file);
            eof := eof (Fhotstart1_file spB) |}
    /\ ErrorCode sp' = ErrorCode spB
    /\ frame sp' = frame spB
    /\ calls sp'
       = calls spB
         ++ flat_map (fun i => [link_setTargetSetting i; link_setSetting i])
              (seq 0 (Nlink spB))
    /\ (forall fld, routing_field spB fld ->
          memory sp' fld = restored float_of_double spA fld)
    /\ (forall fld, ~ routing_field spB fld ->
          memory sp' fld = memory spB fld).
Proof.
  intros Hn Hl Hp Ht Hs Hc Hf.
  rewrite saveRouting_bytes in * by assumption.
  unfold readRouting. rewrite bind_get, version.
  change (4 =? 2)%Z with false. change (4 <=? 4)%Z with true.
  change (4 <=? 2)%Z with false. cbn [andb].
  match goal with |- exists sp', ?m spB = _ /\ _ =>
    assert (R : reads W ok e m
                  (flat_map node_bytes (seq 0 (Nnode spB))
                   ++ flat_map link_bytes (seq 0 (Nlink spB)))
                  (routing_field spB)
                  (flat_map
                     (fun i => [link_setTargetSetting i; link_setSetting i])
                     (seq 0 (Nlink spB)))
                  (fun _ => True))
  end.
  2:{ rewrite <- app_assoc in Hc.
      destruct (R spB file rest Hc Hf eq_refl (fun _ => I))
        as (a & sp' & E & _ & F & Herr & Hfr & Hcalls & HD & HN & _).
      exists sp'. destruct a. rewrite F, !length_app. auto 10. }
  eapply reads_weaken;
    [eapply (reads_bind W ok e (fun _ => I));
       [apply (reads_ret W ok e _ (fun x => length x = 4%nat)); exact local_size
       | intros x0 Hx0; eapply (reads_bind W ok e (fun _ => I));
           [apply (reads_foldM W ok e (fun _ => I) _ node_bytes
                     (fun i g =>
                        g = Node_newDepth i \/ g = Node_newLatFlow i
                        \/ (Node_type spB i = STORAGE
                            /\ g = Storage_hrt (Node_subIndex spB i))
                        \/ exists j, j ∈ seq 0 (Npollut spB)
                                     /\ g = Node_newQual i j)
                     (fun _ => []) (fun x => length x = 4%nat));
              [|exact Hx0]
           | intros x1 Hx1; eapply (reads_bind W ok e (fun _ => I));
               [apply (reads_foldM W ok e (fun _ => I) _ link_bytes
                     (fun i g =>
                        g = Link_newFlow i \/ g = Link_newDepth i
                        \/ g = Link_setting i \/ g = Link_targetSetting i
                        \/ exists j, j ∈ seq 0 (Npollut spB)
                                     /\ g = Link_newQual i j)
                     (fun i => [link_setTargetSetting i; link_setSetting i])
                     (fun x => length x = 4%nat));
                  [|exact Hx1]
               | intros _ _; apply (reads_ret W ok e tt (fun _ => True) I)]]]
    | | | | auto].
  - (* a node *)
    intros i x _ Hx.
    destruct (bool_decide (Node_type spB i = STORAGE)) eqn:Est;
      [apply bool_decide_eq_true in Est | apply bool_decide_eq_false in Est];
      (eapply reads_weaken with (Q := fun x => length x = 4%nat);
       [| | | | auto]).
    + bind_by ltac:(float_ (fod (Node_newDepth i))).
      bind_by ltac:(apply (reads_assign W ok e (Node_newDepth i))).
      bind_by ltac:(float_ (fod (Node_newLatFlow i))).
      bind_by ltac:(apply (reads_assign W ok e (Node_newLatFlow i))).
      eapply (reads_bind W ok e (fun _ => I)).
      { bind_by ltac:(float_ (fod (Storage_hrt (Node_subIndex spB i)))).
        bind_by ltac:(apply (reads_assign W ok e
                               (Storage_hrt (Node_subIndex spB i)))).
        apply (reads_ret W ok e _ (fun x => length x = 4%nat)).
        apply float_size. }
      intros x3 Hx3.
      bind_by ltac:(apply (reads_quality (Node_newQual i));
                    [reflexivity | assumption]).
      apply reads_ret. assumption.
    + cbn [app]. now rewrite ?app_nil_r.
    + reflexivity.
    + fields_.
    + bind_by ltac:(float_ (fod (Node_newDepth i))).
      bind_by ltac:(apply (reads_assign W ok e (Node_newDepth i))).
      bind_by ltac:(float_ (fod (Node_newLatFlow i))).
      bind_by ltac:(apply (reads_assign W ok e (Node_newLatFlow i))).
      bind_by ltac:(apply (reads_ret W ok e _ (fun x => length x = 4%nat));
                    apply float_size).
      bind_by ltac:(apply (reads_quality (Node_newQual i));
                    [reflexivity | assumption]).
      apply reads_ret. assumption.
    + cbn [app]. now rewrite ?app_nil_r.
    + reflexivity.
    + fields_.
  - (* a link *)
    intros i x _ Hx.
    eapply reads_weaken with (Q := fun x => length x = 4%nat);
      [| | | | auto].
    + bind_by ltac:(float_ (fod (Link_newFlow i))).
      bind_by ltac:(apply (reads_assign W ok e (Link_newFlow i))).
      bind_by ltac:(float_ (fod (Link_newDepth i))).
      bind_by ltac:(apply (reads_assign W ok e (Link_newDepth i))).
      bind_by ltac:(float_ (fod (Link_setting i))).
      bind_by ltac:(apply (reads_assign W ok e (Link_setting i))).
      bind_by ltac:(apply (reads_assign W ok e (Link_targetSetting i))).
      bind_by ltac:(apply reads_call).
      bind_by ltac:(apply reads_call).
      apply (reads_quality (Link_newQual i)); [reflexivity | apply float_size].
    + cbn [app]. now rewrite ?app_nil_r, <- ?app_assoc.
    + reflexivity.
    + fields_.
  - cbn [app]. now rewrite !app_nil_r.
  - cbn [app]. now rewrite flat_map_nil, app_nil_r.
  - intros g. split.
    + destruct g as [| | | | | |i|i|k|i j|i|i|i|i|i j]; cbn [routing_field];
        intros Hg; try (now destruct Hg).
      * right; left; exists i. split; [apply elem_of_seq; lia | auto].
      * right; left; exists i. split; [apply elem_of_seq; lia | auto].
      * destruct Hg as (i & Hi & Hty & <-).
        right; left; exists i. split; [apply elem_of_seq; lia | auto].
      * right; left; exists i. split; [apply elem_of_seq; lia |].
        do 3 right. exists j. split; [apply elem_of_seq; lia | auto].
      * right; right; left; exists i. split; [apply elem_of_seq; lia | auto].
      * right; right; left; exists i. split; [apply elem_of_seq; lia | auto].
      * right; right; left; exists i. split; [apply elem_of_seq; lia | auto].
      * right; right; left; exists i.
        split; [apply elem_of_seq; lia | auto 6].
      * right; right; left; exists i. split; [apply elem_of_seq; lia |].
        do 4 right. exists j. split; [apply elem_of_seq; lia | auto].
    + intros [[] | [(i & Hi & Hd) | [(i & Hi & Hd) | []]]];
        apply elem_of_seq in Hi.
      * destruct Hd as [-> | [-> | [[Hty ->] | (j & Hj & ->)]]];
          cbn [routing_field]; try lia.
        -- exists i. split; [lia | auto].
        -- apply elem_of_seq in Hj. lia.
      * destruct Hd as [-> | [-> | [-> | [-> | (j & Hj & ->)]]]];
          cbn [routing_field]; try lia.
        apply elem_of_seq in Hj. lia.
Qed.

(** X18. The routing section of a hot start file is read back (a float
    takes 4 bytes, and no state variable of the saving project is a NaN
    as a float): after
    [saveRouting] has written the nodes and links of a project, a project
    of the same shape that reads a version 4 file from where the writing
    began runs [readRouting] to its end without an error, consumes what
    was written, and holds in every state variable of its nodes and links
    the saved value, cast to a float and back (the target setting of a
    link is the saved setting); nothing else is assigned, and the
    settings of the links are applied in order. *)
Theorem saveRouting_readRouting file rest :
  Nnode spA = Nnode spB -> Nlink spA = Nlink spB ->
  Npollut spA = Npollut spB ->
  (forall i, Node_type spA i = Node_type spB i) ->
  (forall i, Node_subIndex spA i = Node_subIndex spB i) ->
  contents (Fhotstart1_file spB)
  = saveRouting float_of_double spA file ++ rest ->
  fpos (Fhotstart1_file spB) = length file ->
  let r := readRouting spB in
  r.1 = Some tt
  /\ ErrorCode r.2 = ErrorCode spB
  /\ fpos (Fhotstart1_file r.2)
     = length (saveRouting float_of_double spA file)
  /\ (forall fld, routing_field spB fld ->
        memory r.2 fld = restored float_of_double spA fld)
  /\ (forall fld, ~ routing_field spB fld -> memory r.2 fld = memory spB fld)
  /\ calls r.2
     = calls spB
       ++ flat_map (fun i => [link_setTargetSetting i; link_setSetting i])
            (seq 0 (Nlink spB)).
Proof.
  intros Hn Hl Hp Ht Hs Hc Hf.
  destruct (readRouting_restores file rest Hn Hl Hp Ht Hs Hc Hf)
    as (sp' & E & F & Herr & _ & Hcalls & HD & HN).
  cbn zeta. rewrite E. cbn [fst snd]. rewrite F. auto 10.
Qed.

End RoundTrip.

(** the routing section of [catchment], saved to an empty file and read
    again *)
Lemma saveRouting_readRouting_witness :
  (@readRouting simple
     (catchment_at (saveRouting narrow (catchment []) []))).1 = Some tt.
Proof.
  refine (proj1 (@saveRouting_readRouting simple narrow (catchment [])
                   (catchment_at (saveRouting narrow (catchment []) []))
                   _ eq_refl _ eq_refl [] []
                   eq_refl eq_refl eq_refl (fun _ => eq_refl)
                   (fun _ => eq_refl) _ eq_refl)).
  - intros v. unfold narrow, float_zero.
    rewrite length_take, length_app. cbn [length]. lia.
  - intros fld. reflexivity.
  - cbn [catchment_at with_file Fhotstart1_file contents].
    now rewrite app_nil_r.
Defined.
(** ** The subcatchment section, saved *)

Lemma fill_spec (g : nat -> bytes) n (x : list bytes) :
  (n <= length x)%nat ->
  foldl (fun x j => <[j := g j]> x) x (seq 0 n) = map g (seq 0 n) ++ drop n x.
Proof.
  induction n as [|n IH]; intros Hn; [reflexivity|].
  rewrite seq_S, foldl_app, map_app, IH by lia. cbn [foldl map Nat.add].
  destruct (drop n x) as [|y t] eqn:E.
  { apply (f_equal length) in E. rewrite length_drop in E. cbn in E. lia. }
  assert (Ht : drop (S n) x = t).
  { change (S n) with (1 + n)%nat. rewrite Nat.add_comm, <- drop_drop, E.
    reflexivity. }
  rewrite Ht, insert_app_r_alt by (rewrite length_map, length_seq; lia).
  rewrite length_map, length_seq, Nat.sub_diag. cbn.
  now rewrite <- app_assoc.
Qed.

Lemma fill_length (g : nat -> bytes) l (x : list bytes) :
  length (foldl (fun x j => <[j := g j]> x) x l) = length x.
Proof.
  revert x. induction l as [|a l IH]; intros x; cbn [foldl]; [reflexivity|].
  now rewrite IH, length_insert.
Qed.

Lemma take_fill (g : nat -> bytes) n (x : list bytes) :
  (n <= length x)%nat ->
  concat (take n (foldl (fun x j => <[j := g j]> x) x (seq 0 n)))
  = flat_map g (seq 0 n).
Proof.
  intros Hn. rewrite fill_spec by exact Hn.
  rewrite take_app_length' by now rewrite length_map, length_seq.
  now rewrite flat_map_concat_map.
Qed.

Lemma fill_zero n (x : list bytes) z :
  length x = n ->
  foldl (fun x j => <[j := z]> x) x (seq 0 n) = replicate n z.
Proof.
  intros Hn. rewrite (fill_spec (fun _ => z)) by lia.
  rewrite drop_ge, app_nil_r by lia.
  clear. generalize 0%nat.
  induction n as [|n IH]; intros s; cbn; [reflexivity | now rewrite IH].
Qed.

Lemma foldl_pair_appends {A} (P : list bytes -> Prop)
    (step : list bytes * bytes -> A -> list bytes * bytes) (g : A -> bytes)
    (l : list A) x file :
  (forall x file a, P x ->
     exists x', step (x, file) a = (x', file ++ g a) /\ P x') ->
  P x ->
  exists x', foldl step (x, file) l = (x', file ++ flat_map g l) /\ P x'.
Proof.
  intros Hs. revert x file.
  induction l as [|a l IH]; intros x file Hx; cbn [flat_map].
  - exists x. cbn. now rewrite app_nil_r.
  - change (foldl step (x, file) (a :: l))
      with (foldl step (step (x, file) a) l).
    destruct (Hs x file a Hx) as (x1 & E1 & Hx1). rewrite E1.
    destruct (IH x1 (file ++ g a) Hx1) as (x2 & E2 & Hx2).
    exists x2. split; [|exact Hx2]. etransitivity; [exact E2|].
    now rewrite <- app_assoc.
Qed.
Lemma first_doubles (g : nat -> bytes) r (x : list bytes) :
  (4 <= length x)%nat ->
  concat (take 4 (<[3%nat := r]> (foldl (fun x j => <[j := g j]> x) x (seq 0 3))))
  = flat_map g (seq 0 3) ++ r.
Proof.
  intros Hx. destruct x as [|a [|b [|c [|d x]]]]; cbn in Hx; try lia.
  cbn. now rewrite !app_nil_r, <- !app_assoc.
Qed.

Lemma one_double v (x : list bytes) :
  (1 <= length x)%nat -> concat (take 1 (<[0%nat := v]> x)) = v.
Proof.
  intros Hx. destruct x as [|a x]; cbn in Hx; [lia|].
  cbn. now rewrite app_nil_r.
Qed.

Lemma pair_result (X : list bytes) (F F' : bytes) n :
  F = F' -> length X = n ->
  exists x', (X, F) = (x', F') /\ length x' = n.
Proof. intros -> <-. now exists X. Qed.

Section RunoffRoundTrip.

Context `{Collaborators}.
Variable infil_getState : nat -> list bytes -> list bytes.
Variable gwater_getState : nat -> list bytes -> list bytes.
Variable snow_getState : nat -> nat -> list bytes -> list bytes.
Variables spA spB : Project.

Hypothesis infil_length : forall i x, length (infil_getState i x) = length x.
Hypothesis gwater_length : forall i x, length (gwater_getState i x) = length x.
Hypothesis snow_length : forall i j x, length (snow_getState i j x) = length x.
Hypothesis infil_double :
  forall i x, Forall is_double x -> Forall is_double (infil_getState i x).
Hypothesis gwater_double :
  forall i x, Forall is_double x -> Forall is_double (gwater_getState i x).
Hypothesis snow_double :
  forall i j x, Forall is_double x -> Forall is_double (snow_getState i j x).
Hypothesis saved_double : forall fld, is_double (memory spA fld).
Hypothesis local_size : length (indeterminate 8) = 8%nat.
Hypothesis same_Nsubcatch : Nsubcatch spA = Nsubcatch spB.
Hypothesis same_Nlanduse : Nlanduse spA = Nlanduse spB.
Hypothesis same_Npollut : Npollut spA = Npollut spB.
Hypothesis same_groundwater :
  forall i, Subcatch_groundwater spA i = Subcatch_groundwater spB i.
Hypothesis same_snowpack :
  forall i, Subcatch_snowpack spA i = Subcatch_snowpack spB i.

Local Abbreviation sizeX := (Nat.max 6 (Npollut spA + 1)).
Local Abbreviation mem fld := (memory spA fld).
Local Abbreviation infil_st := (infil_state infil_getState spA).
Local Abbreviation gwater_st :=
  (gwater_state infil_getState gwater_getState spA).
Local Abbreviation snow_st :=
  (snow_state infil_getState gwater_getState snow_getState spA).

Local Abbreviation quality_bytes := (fun i =>
  flat_map (fun j => mem (Subcatch_newQual i j)) (seq 0 (Npollut spA))
  ++ flat_map (fun j => mem (Subcatch_pondedQual i j)) (seq 0 (Npollut spA))
  ++ flat_map (fun k =>
       flat_map (fun j => mem (Subcatch_landFactor_buildup i k j))
         (seq 0 (Npollut spA))
       ++ mem (Subcatch_landFactor_lastSwept i k))
       (seq 0 (Nlanduse spA))).

Local Abbreviation subcatch_bytes := (fun i =>
  flat_map (fun j => mem (Subcatch_subArea_depth i j)) (seq 0 3)
  ++ mem (Subcatch_newRunoff i)
  ++ concat (take 6 (infil_st i))
  ++ (if Subcatch_groundwater spA i then concat (take 4 (gwater_st i)) else [])
  ++ (if Subcatch_snowpack spA i
      then flat_map (fun j => concat (take 5 (snow_st i j))) (seq 0 3)
      else [])
  ++ (if (0 <? Npollut spA)%nat then quality_bytes i else [])).

Ltac len_ :=
  repeat first [rewrite fill_length | rewrite length_insert
               | rewrite snow_length | rewrite gwater_length
               | rewrite infil_length | rewrite length_replicate];
  lia.

Lemma saveRunoff_bytes file :
  saveRunoff infil_getState gwater_getState snow_getState spA file
  = file ++ flat_map subcatch_bytes (seq 0 (Nsubcatch spA)).
Proof using infil_length gwater_length snow_length.
  clear infil_double gwater_double snow_double saved_double local_size
    same_Nsubcatch same_Nlanduse same_Npollut same_groundwater same_snowpack.
  unfold saveRunoff.
  match goal with |- (foldl ?step _ _).2 = _ =>
    destruct (foldl_pair_appends (fun x => length x = sizeX) step
                subcatch_bytes (seq 0 (Nsubcatch spA))
                (replicate sizeX double_zero) file) as (x' & E & _)
  end.
  - intros x f i Hx. cbn beta iota zeta.
    unfold fwrite_doubles, fwrite.
    rewrite first_doubles by lia.
    rewrite (fill_zero sizeX) by (now rewrite length_insert, fill_length).
    fold (infil_st i).
    assert (Hi : length (infil_st i) = sizeX).
    { unfold infil_state. now rewrite infil_length, length_replicate. }
    unfold snow_state, gwater_state.
    destruct (Subcatch_groundwater spA i) eqn:Eg;
      destruct (Subcatch_snowpack spA i) eqn:Es;
      cbn [seq foldl flat_map];
      (destruct (0 <? Npollut spA)%nat eqn:Ep;
       [ rewrite !take_fill by len_;
         match goal with |- exists x', foldl ?step (?x2, ?f2) _ = _ /\ _ =>
           destruct (foldl_pair_appends (fun x => length x = sizeX) step
                       (fun k =>
                          flat_map
                            (fun j => mem (Subcatch_landFactor_buildup i k j))
                            (seq 0 (Npollut spA))
                          ++ mem (Subcatch_landFactor_lastSwept i k))
                       (seq 0 (Nlanduse spA)) x2 f2) as (x'' & E2 & Hx'');
           [ intros y g k Hy; cbn beta in Hy;
             rewrite take_fill, one_double by len_;
             apply pair_result; [now rewrite <- !app_assoc | len_]
           | len_
           | exists x''; split; [|exact Hx''];
             etransitivity; [exact E2|];
             now rewrite <- ?app_assoc, ?app_nil_r ]
         end
       | apply pair_result; [now rewrite <- ?app_assoc, ?app_nil_r | len_] ]).
  - apply length_replicate.
  - etransitivity; [apply (f_equal snd E)|]. reflexivity.
Qed.

(** *** The reader *)

Local Abbreviation W := (memory spA).
Local Abbreviation ok := (fun b : bytes => length b = 8%nat).
Local Abbreviation Wok := (fun fld => proj1 (saved_double fld)).

Lemma infil_state_double i : Forall is_double (infil_st i).
Proof.
  apply infil_double, Forall_replicate. split; reflexivity.
Qed.

Lemma gwater_state_double i : Forall is_double (gwater_st i).
Proof. apply gwater_double, infil_state_double. Qed.

Lemma snow_state_double i j : Forall is_double (snow_st i j).
Proof.
  unfold snow_state.
  assert (H0 : Forall is_double
                 (if Subcatch_groundwater spA i then gwater_st i
                  else infil_st i)).
  { destruct (Subcatch_groundwater spA i);
      [apply gwater_state_double | apply infil_state_double]. }
  revert H0. generalize (if Subcatch_groundwater spA i then gwater_st i
                         else infil_st i).
  induction (seq 0 (S j)) as [|a l IH]; intros x Hx; cbn [foldl];
    [exact Hx | apply IH, snow_double, Hx].
Qed.

Lemma infil_state_length i : length (infil_st i) = sizeX.
Proof. unfold infil_state. now rewrite infil_length, length_replicate. Qed.

Lemma gwater_state_length i : length (gwater_st i) = sizeX.
Proof. unfold gwater_state. now rewrite gwater_length, infil_state_length. Qed.

Lemma snow_state_length i j : length (snow_st i j) = sizeX.
Proof.
  unfold snow_state.
  assert (H0 : length (if Subcatch_groundwater spA i then gwater_st i
                       else infil_st i) = sizeX).
  { destruct (Subcatch_groundwater spA i);
      [apply gwater_state_length | apply infil_state_length]. }
  revert H0. generalize (if Subcatch_groundwater spA i then gwater_st i
                         else infil_st i).
  induction (seq 0 (S j)) as [|a l IH]; intros x Hx; cbn [foldl];
    [exact Hx | apply IH; now rewrite snow_length].
Qed.

Lemma double_ok (x : list bytes) : Forall is_double x -> Forall ok x.
Proof.
  intros Hx. eapply Forall_impl; [exact Hx|]. now intros b [Hb _].
Qed.

Local Abbreviation X1 i := (take 6 (infil_st i)).
Local Abbreviation Qx :=
  (fun x : list bytes => length x = 6%nat /\ Forall ok x).
Local Abbreviation Qk i :=
  (fun x : list bytes =>
     length x = 6%nat /\ Forall ok x /\ drop 5 x = drop 5 (X1 i)).

Lemma saved_prefix n (s : list bytes) :
  (n <= 6)%nat -> length s = sizeX -> Forall is_double s ->
  length (take n s) = n /\ Forall is_double (take n s).
Proof.
  intros Hn Hs Hd. split; [rewrite length_take; lia | now apply Forall_take].
Qed.

(** the array of the reader after the first [n] doubles of a saved state
    have been read into it: 6 doubles, the last one of the infiltration
    state *)
Lemma reader_array n (s : list bytes) i :
  (n <= 5)%nat -> length s = sizeX -> Forall is_double s ->
  Qk i (take n s ++ drop n (X1 i)).
Proof.
  intros Hn Hs Hd.
  assert (Hl : length (take n s) = n) by (rewrite length_take; lia).
  assert (H6 : length (X1 i) = 6%nat).
  { rewrite length_take, infil_state_length. lia. }
  repeat split.
  - rewrite length_app, length_drop. lia.
  - apply Forall_app. split; [apply double_ok; now apply Forall_take|].
    apply Forall_drop, double_ok, Forall_take, infil_state_double.
  - rewrite drop_app_ge by lia. rewrite Hl, drop_drop.
    now replace (n + (5 - n))%nat with 5%nat by lia.
Qed.

Lemma reader_array_infil i : Qk i (X1 i).
Proof.
  repeat split.
  - rewrite length_take, infil_state_length. lia.
  - apply double_ok, Forall_take, infil_state_double.
Qed.

Ltac bind_by t :=
  eapply (reads_bind W ok false Wok); [solve [t] | intros ? ?; subst].

Ltac doubles_ n s x y :=
  apply (reads_doubles W saved_double n (take n s) x y);
  [ apply saved_prefix; [lia | first [apply infil_state_length
                                     | apply gwater_state_length
                                     | apply snow_state_length]
                        | first [apply infil_state_double
                                | apply gwater_state_double
                                | apply snow_state_double]]
  | lia
  | apply saved_prefix; [lia | first [apply infil_state_length
                                     | apply gwater_state_length
                                     | apply snow_state_length]
                        | first [apply infil_state_double
                                | apply gwater_state_double
                                | apply snow_state_double]]
  | assumption
  | ].

(** one snow surface: its 5 doubles and the call *)
Ltac snow_ i j x y :=
  eapply (reads_bind W ok false Wok);
  [ solve [bind_by ltac:(doubles_ 5%nat (snow_st i j) x
                           (take 5 (snow_st i j) ++ drop 5 (X1 i));
                         congruence);
           bind_by ltac:(apply reads_call);
           apply (reads_ret W ok false _ (Qk i));
           apply reader_array;
           [lia | apply snow_state_length | apply snow_state_double]]
  | intros y (? & ? & ?) ].

Local Abbreviation Dq i := (fun g =>
  (exists j, j ∈ seq 0 (Npollut spA) /\ Subcatch_newQual i j = g)
  \/ (exists j, j ∈ seq 0 (Npollut spA) /\ Subcatch_pondedQual i j = g)
  \/ (exists k, k ∈ seq 0 (Nlanduse spA)
        /\ ((exists j, j ∈ seq 0 (Npollut spA)
               /\ Subcatch_landFactor_buildup i k j = g)
            \/ Subcatch_landFactor_lastSwept i k = g))).

Local Abbreviation Dsub i := (fun g =>
  (exists j, j ∈ seq 0 3 /\ Subcatch_subArea_depth i j = g)
  \/ Subcatch_newRunoff i = g
  \/ ((0 <? Npollut spA)%nat = true /\ Dq i g)).

Lemma readRunoff_restores file rest :
  (forall fld, length (memory spB fld) = 8%nat) ->
  contents (Fhotstart1_file spB)
  = saveRunoff infil_getState gwater_getState snow_getState spA file ++ rest ->
  fpos (Fhotstart1_file spB) = length file ->
  eof (Fhotstart1_file spB) = false ->
  exists sp',
    readRunoff spB = (Some tt, sp')
    /\ Fhotstart1_file sp'
       = {| contents := contents (Fhotstart1_file spB);
            fpos := length (saveRunoff infil_getState gwater_getState
                              snow_getState spA file);
            eof := false |}
    /\ ErrorCode sp' = ErrorCode spB
    /\ frame sp' = frame spB
    /\ calls sp'
       = calls spB
         ++ flat_map (restored_calls infil_getState gwater_getState
                        snow_getState spA)
              (seq 0 (Nsubcatch spB))
    /\ (forall fld, runoff_field spB fld -> memory sp' fld = memory spA fld)
    /\ (forall fld, ~ runoff_field spB fld ->
          memory sp' fld = memory spB fld).
Proof.
  intros HB Hc Hf He.
  rewrite saveRunoff_bytes in *.
  unfold readRunoff. rewrite bind_get.
  rewrite <- same_Nsubcatch, <- same_Nlanduse, <- same_Npollut.
  match goal with |- exists sp', ?m spB = _ /\ _ =>
    assert (R : reads W ok false m
                  (flat_map subcatch_bytes (seq 0 (Nsubcatch spA)))
                  (runoff_field spB)
                  (flat_map (restored_calls infil_getState gwater_getState
                               snow_getState spA)
                     (seq 0 (Nsubcatch spA)))
                  (fun _ => True))
  end.
  2:{ rewrite <- app_assoc in Hc.
      destruct (R spB file rest Hc Hf He HB)
        as (a & sp' & E & _ & F & Herr & Hfr & Hcalls & HD & HN & _).
      exists sp'. destruct a. rewrite F, !length_app. auto 10. }
  eapply reads_weaken;
    [eapply (reads_bind W ok false Wok);
       [apply (reads_foldM W ok false Wok _ subcatch_bytes (fun i => Dsub i)
                 (restored_calls infil_getState gwater_getState
                    snow_getState spA) Qx)
       | intros _ _; apply (reads_ret W ok false tt (fun _ => True) I)]
    | now rewrite app_nil_r | now rewrite app_nil_r | | auto].
  - (* a subcatchment *)
    intros i x _ [Hx Hxok].
    rewrite <- (same_groundwater i), <- (same_snowpack i).
    eapply reads_weaken with (Q := Qx); [| | | | auto].
    + bind_by ltac:(apply (reads_for W ok false Wok _
                      (fun j => mem (Subcatch_subArea_depth i j))
                      (fun j g => Subcatch_subArea_depth i j = g)
                      (fun _ => []));
                    intros j _; apply (reads_try_readDouble W saved_double)).
      bind_by ltac:(apply (reads_try_readDouble W saved_double)).
      bind_by ltac:(doubles_ 6%nat (infil_st i) x (X1 i);
                    rewrite drop_ge, app_nil_r by lia; reflexivity).
      bind_by ltac:(apply reads_call).
      (* groundwater *)
      eapply (reads_bind W ok false Wok) with
        (bs1 := if Subcatch_groundwater spA i
                then concat (take 4 (gwater_st i)) else [])
        (D1 := fun _ => False)
        (cs1 := if Subcatch_groundwater spA i
                then [gwater_setState i
                        (take 4 (gwater_st i) ++ drop 4 (X1 i))]
                else [])
        (Q1 := Qk i).
      { pose proof (reader_array_infil i) as (? & ? & ?).
        destruct (Subcatch_groundwater spA i).
        - eapply reads_weaken with (Q := Qk i); [| | | | auto].
          + bind_by ltac:(doubles_ 4%nat (gwater_st i) (X1 i)
                            (take 4 (gwater_st i) ++ drop 4 (X1 i));
                          reflexivity).
            bind_by ltac:(apply reads_call).
            apply reads_ret.
            apply reader_array;
              [lia | apply gwater_state_length | apply gwater_state_double].
          + now rewrite !app_nil_r.
          + reflexivity.
          + intros g; cbn beta; tauto.
        - apply reads_ret. apply reader_array_infil. }
      intros x2 (Hx2 & Hok2 & H52).
      (* snow pack *)
      eapply (reads_bind W ok false Wok) with
        (bs1 := if Subcatch_snowpack spA i
                then flat_map (fun j => concat (take 5 (snow_st i j)))
                       (seq 0 3)
                else [])
        (D1 := fun _ => False)
        (cs1 := if Subcatch_snowpack spA i
                then map (fun j => snow_setState i j
                                     (take 5 (snow_st i j) ++ drop 5 (X1 i)))
                       (seq 0 3)
                else [])
        (Q1 := Qk i).
      { destruct (Subcatch_snowpack spA i); [|now apply reads_ret].
        change (seq 0 3) with [0; 1; 2]%nat. cbn [foldM flat_map map].
        eapply reads_weaken with (Q := Qk i); [| | | | auto].
        + snow_ i 0%nat x2 y0. snow_ i 1%nat y0 y1. snow_ i 2%nat y1 y2.
          now apply reads_ret.
        + now rewrite !app_nil_r.
        + reflexivity.
        + intros g; cbn beta; tauto. }
      intros x3 (Hx3 & Hok3 & H53).
      (* quality *)
      eapply (reads_bind W ok false Wok) with
        (bs1 := if (0 <? Npollut spA)%nat then quality_bytes i else [])
        (D1 := fun g => (0 <? Npollut spA)%nat = true /\ Dq i g)
        (cs1 := [])
        (Q1 := fun _ => True).
      { destruct (0 <? Npollut spA)%nat.
        - eapply reads_weaken with (Q := fun _ => True); [| | | | auto].
          + bind_by ltac:(apply (reads_for W ok false Wok _
                            (fun j => mem (Subcatch_newQual i j))
                            (fun j g => Subcatch_newQual i j = g)
                            (fun _ => []));
                          intros j _;
                          apply (reads_try_readDouble W saved_double)).
            bind_by ltac:(apply (reads_for W ok false Wok _
                            (fun j => mem (Subcatch_pondedQual i j))
                            (fun j g => Subcatch_pondedQual i j = g)
                            (fun _ => []));
                          intros j _;
                          apply (reads_try_readDouble W saved_double)).
            apply (reads_for W ok false Wok _
                     (fun k =>
                        flat_map
                          (fun j => mem (Subcatch_landFactor_buildup i k j))
                          (seq 0 (Npollut spA))
                        ++ mem (Subcatch_landFactor_lastSwept i k))
                     (fun k g =>
                        (exists j, j ∈ seq 0 (Npollut spA)
                           /\ Subcatch_landFactor_buildup i k j = g)
                        \/ Subcatch_landFactor_lastSwept i k = g)
                     (fun _ => [])).
            intros k _.
            eapply reads_weaken with (Q := fun _ => True); [| | | | auto].
            * bind_by ltac:(apply (reads_for W ok false Wok _
                              (fun j => mem (Subcatch_landFactor_buildup i k j))
                              (fun j g => Subcatch_landFactor_buildup i k j = g)
                              (fun _ => []));
                            intros j _;
                            apply (reads_try_readDouble W saved_double)).
              apply (reads_try_readDouble W saved_double).
            * reflexivity.
            * now rewrite flat_map_nil.
            * intros g; cbn beta; tauto.
          + reflexivity.
          + now rewrite !flat_map_nil.
          + intros g; cbn beta; tauto.
        - eapply reads_weaken with (Q := fun _ => True);
            [apply (reads_ret W ok false tt (fun _ => True) I)
            | reflexivity | reflexivity | | auto].
          intros g. split; [intros [? _]; discriminate | tauto]. }
      intros _ _. apply reads_ret. auto.
    + now rewrite <- ?app_assoc, ?app_nil_r.
    + unfold restored_calls. rewrite flat_map_nil. cbn [app].
      now rewrite !app_nil_r.
    + intros g; cbn beta; tauto.
  - split; [apply length_replicate | apply Forall_replicate; exact local_size].
  - intros g. unfold runoff_field.
    rewrite <- same_Nsubcatch, <- same_Nlanduse, <- same_Npollut.
    cbn beta. split.
    + destruct g as [i j|i|i j|i j|i k j|i k| | | | | | | | |];
        intros Hg; try (now destruct Hg); left; exists i;
        (split; [apply elem_of_seq; lia|]).
      * left. exists j. split; [apply elem_of_seq; lia | reflexivity].
      * auto.
      * do 2 right. split; [apply Nat.ltb_lt; lia|].
        left. exists j. split; [apply elem_of_seq; lia | reflexivity].
      * do 2 right. split; [apply Nat.ltb_lt; lia|].
        right; left. exists j. split; [apply elem_of_seq; lia | reflexivity].
      * do 2 right. split; [apply Nat.ltb_lt; lia|].
        do 2 right. exists k. split; [apply elem_of_seq; lia|].
        left. exists j. split; [apply elem_of_seq; lia | reflexivity].
      * do 2 right. split; [apply Nat.ltb_lt; lia|].
        do 2 right. exists k. split; [apply elem_of_seq; lia | auto].
    + intros [(i & Hi & Hd) | []]. apply elem_of_seq in Hi.
      destruct Hd as
        [(j & Hj & <-)
        | [<-
          | (Hp & [(j & Hj & <-)
                  | [(j & Hj & <-)
                    | (k & Hk & [(j & Hj & <-) | <-])]])]];
        try apply Nat.ltb_lt in Hp;
        try apply elem_of_seq in Hj; try apply elem_of_seq in Hk; lia.
Qed.

(** X19. The subcatchment section of a hot start file is read back: after
    [saveRunoff] has written the subcatchments of a project whose state
    variables and saved infiltration, groundwater and snow states are
    numbers, a project of the same shape that reads from where the
    writing began runs [readRunoff] to its end without an error, consumes
    what was written and holds the saved value in every state variable of
    its subcatchments (the time of the last sweeping only if there are
    pollutants); nothing else is assigned, and [infil_setState],
    [gwater_setState] and [snow_setState] are called with the doubles
    that were saved for them. *)
Theorem saveRunoff_readRunoff file rest :
  (forall fld, length (memory spB fld) = 8%nat) ->
  contents (Fhotstart1_file spB)
  = saveRunoff infil_getState gwater_getState snow_getState spA file ++ rest ->
  fpos (Fhotstart1_file spB) = length file ->
  eof (Fhotstart1_file spB) = false ->
  let r := readRunoff spB in
  r.1 = Some tt
  /\ ErrorCode r.2 = ErrorCode spB
  /\ fpos (Fhotstart1_file r.2)
     = length (saveRunoff infil_getState gwater_getState snow_getState
                 spA file)
  /\ (forall fld, runoff_field spB fld -> memory r.2 fld = memory spA fld)
  /\ (forall fld, ~ runoff_field spB fld -> memory r.2 fld = memory spB fld)
  /\ calls r.2
     = calls spB
       ++ flat_map (restored_calls infil_getState gwater_getState
                      snow_getState spA)
            (seq 0 (Nsubcatch spB)).
Proof.
  intros HB Hc Hf He.
  destruct (readRunoff_restores file rest HB Hc Hf He)
    as (sp' & E & F & Herr & _ & Hcalls & HD & HN).
  cbn zeta. rewrite E. cbn [fst snd]. rewrite F. auto 10.
Qed.

End RunoffRoundTrip.

(** the subcatchment section of [catchment], saved to an empty file and
    read again *)
Lemma saveRunoff_readRunoff_witness :
  (@readRunoff simple
     (catchment_at (saveRunoff no_state no_state no_snow (catchment []) []))).1
  = Some tt.
Proof.
  refine (proj1 (@saveRunoff_readRunoff simple no_state no_state no_snow
                   (catchment [])
                   (catchment_at (saveRunoff no_state no_state no_snow
                                    (catchment []) []))
                   (fun _ _ => eq_refl) (fun _ _ => eq_refl)
                   (fun _ _ _ => eq_refl)
                   (fun _ _ Hx => Hx) (fun _ _ Hx => Hx) (fun _ _ _ Hx => Hx)
                   _ eq_refl eq_refl eq_refl eq_refl
                   (fun _ => eq_refl) (fun _ => eq_refl)
                   [] [] (fun _ => eq_refl) _ eq_refl eq_refl)).
  - intros fld. split; reflexivity.
  - cbn [catchment_at with_file Fhotstart1_file contents].
    now rewrite app_nil_r.
Defined.
(** ** A whole file, saved and read again *)

Lemma saveRouting_from float_of_double sp file :
  saveRouting float_of_double sp file
  = file ++ saveRouting float_of_double sp [].
Proof.
  rewrite (saveRouting_bytes float_of_double sp sp file),
    (saveRouting_bytes float_of_double sp sp []); auto.
Qed.

Lemma saveRunoff_from infil_getState gwater_getState snow_getState sp file :
  (forall i x, length (infil_getState i x) = length x) ->
  (forall i x, length (gwater_getState i x) = length x) ->
  (forall i j x, length (snow_getState i j x) = length x) ->
  saveRunoff infil_getState gwater_getState snow_getState sp file
  = file ++ saveRunoff infil_getState gwater_getState snow_getState sp [].
Proof.
  intros Hi Hg Hs.
  now rewrite (saveRunoff_bytes _ _ _ sp Hi Hg Hs file),
    (saveRunoff_bytes _ _ _ sp Hi Hg Hs []).
Qed.

(** a field of the subcatchments is no field of the nodes and links *)
Lemma runoff_field_not_routing sp fld :
  runoff_field sp fld -> ~ routing_field sp fld.
Proof. destruct fld; cbn; tauto. Qed.

Section WholeFile.

Context `{Collaborators}.

(** [openHotstartFile1] on a file that begins with the header of a
    project with the same numbers of objects: the version is 4, and the
    two sections are read from where the header ends *)
Lemma openHotstartFile1_body spA spB hdr body :
  (openHotstartFile2 SAVE_FILE true spA).2 = Some hdr ->
  (Z.of_nat (Nsubcatch spA) < 2 ^ 31)%Z ->
  (Z.of_nat (Nlanduse spA) < 2 ^ 31)%Z ->
  (Z.of_nat (Nnode spA) < 2 ^ 31)%Z ->
  (Z.of_nat (Nlink spA) < 2 ^ 31)%Z ->
  (Z.of_nat (Npollut spA) < 2 ^ 31)%Z ->
  (- 2 ^ 31 <= FlowUnits spA < 2 ^ 31)%Z ->
  Fhotstart1_mode spB = USE_FILE ->
  Fhotstart1_disk spB = Some (hdr ++ body) ->
  Nsubcatch spA = Nsubcatch spB -> Nlanduse spA = Nlanduse spB ->
  Nnode spA = Nnode spB -> Nlink spA = Nlink spB ->
  Npollut spA = Npollut spB -> FlowUnits spA = FlowUnits spB ->
  let sp1 :=
    with_file {| contents := hdr ++ body; fpos := length hdr; eof := false |}
      (with_FileVersion 4 spB) in
  let sp3 := (readRouting (readRunoff sp1).2).2 in
  openHotstartFile1 spB = (bool_decide (ErrorCode sp3 = ERR_NONE), sp3).
Proof.
  intros Hhdr Hs Hu Hn Hl Hp Hf Hmode Hdisk Es Eu En El Ep Ef. cbn zeta.
  unfold openHotstartFile2 in Hhdr.
  rewrite (bool_decide_eq_true_2 _ eq_refl) in Hhdr.
  cbn [negb snd] in Hhdr. apply (inj Some) in Hhdr. subst hdr.
  unfold openHotstartFile1. rewrite Hmode, Hdisk. cbn [bool_decide negb].
  rewrite (bool_decide_eq_true_2 _ eq_refl). cbn [negb].
  set (iS := bytes_of_int (Z.of_nat (Nsubcatch spA))).
  set (iU := bytes_of_int (Z.of_nat (Nlanduse spA))).
  set (iN := bytes_of_int (Z.of_nat (Nnode spA))).
  set (iL := bytes_of_int (Z.of_nat (Nlink spA))).
  set (iP := bytes_of_int (Z.of_nat (Npollut spA))).
  set (iF := bytes_of_int (FlowUnits spA)).
  set (stamp := take 15 fileStamp4).
  set (data := (_ ++ body)).
  unfold fread_chars.
  rewrite (fread_at (take 15 fStampx_init) _ [] stamp
             (iS ++ iU ++ iN ++ iL ++ iP ++ iF ++ body));
    [| unfold data; cbn [contents]; now rewrite <- !app_assoc
     | reflexivity | reflexivity].
  cbn [contents fpos eof].
  change (strcmp_eq (stamp ++ drop 15 fStampx_init) fileStamp4) with true.
  cbn iota. cbn [Z.leb Z.compare Pos.compare Pos.compare_cont].
  rewrite (fread_int_at (-1) _ stamp (Z.of_nat (Nsubcatch spA))
             (iU ++ iN ++ iL ++ iP ++ iF ++ body));
    [| unfold data; cbn [contents]; now rewrite <- !app_assoc
     | reflexivity | lia].
  cbn [contents fpos eof].
  rewrite (fread_int_at (-1) _ (stamp ++ iS) (Z.of_nat (Nlanduse spA))
             (iN ++ iL ++ iP ++ iF ++ body));
    [| unfold data; cbn [contents]; now rewrite <- !app_assoc
     | reflexivity | lia].
  cbn [contents fpos eof].
  rewrite (fread_int_at (-1) _ (stamp ++ iS ++ iU) (Z.of_nat (Nnode spA))
             (iL ++ iP ++ iF ++ body));
    [| unfold data; cbn [contents]; now rewrite <- !app_assoc
     | reflexivity | lia].
  cbn [contents fpos eof].
  rewrite (fread_int_at (-1) _ (stamp ++ iS ++ iU ++ iN)
             (Z.of_nat (Nlink spA)) (iP ++ iF ++ body));
    [| unfold data; cbn [contents]; now rewrite <- !app_assoc
     | reflexivity | lia].
  cbn [contents fpos eof].
  rewrite (fread_int_at (-1) _ (stamp ++ iS ++ iU ++ iN ++ iL)
             (Z.of_nat (Npollut spA)) (iF ++ body));
    [| unfold data; cbn [contents]; now rewrite <- !app_assoc
     | reflexivity | lia].
  cbn [contents fpos eof].
  rewrite (fread_int_at (-1) _ (stamp ++ iS ++ iU ++ iN ++ iL ++ iP)
             (FlowUnits spA) body);
    [| unfold data; cbn [contents]; now rewrite <- !app_assoc
     | reflexivity | lia].
  cbn [contents fpos eof].
  cbn [Nsubcatch Nlanduse Nnode Nlink Npollut FlowUnits with_file
       with_FileVersion].
  rewrite Es, Eu, En, El, Ep, Ef, !Z.eqb_refl. cbn [andb negb].
  change (0 + 15 + 4 + 4 + 4 + 4 + 4 + 4)%nat
    with (length (stamp ++ iS ++ iU ++ iN ++ iL ++ iP ++ iF)).
  now destruct (bool_decide _).
Qed.

Variable float_of_double : bytes -> bytes.
Variable infil_getState : nat -> list bytes -> list bytes.
Variable gwater_getState : nat -> list bytes -> list bytes.
Variable snow_getState : nat -> nat -> list bytes -> list bytes.
Variables spA spB : Project.

(** the numbers: a float takes 4 bytes and a double 8; the state of the
    saving project holds numbers, also as floats *)
Hypothesis float_size : forall v, length (float_of_double v) = 4%nat.
Hypothesis local_float : length (indeterminate 4) = 4%nat.
Hypothesis local_double : length (indeterminate 8) = 8%nat.
Hypothesis saved_float :
  forall fld, float_isnan (float_of_double (memory spA fld)) = false.
Hypothesis saved_double : forall fld, is_double (memory spA fld).
Hypothesis infil_length : forall i x, length (infil_getState i x) = length x.
Hypothesis gwater_length : forall i x, length (gwater_getState i x) = length x.
Hypothesis snow_length : forall i j x, length (snow_getState i j x) = length x.
Hypothesis infil_double :
  forall i x, Forall is_double x -> Forall is_double (infil_getState i x).
Hypothesis gwater_double :
  forall i x, Forall is_double x -> Forall is_double (gwater_getState i x).
Hypothesis snow_double :
  forall i j x, Forall is_double x -> Forall is_double (snow_getState i j x).
Hypothesis Nsubcatch_int : (Z.of_nat (Nsubcatch spA) < 2 ^ 31)%Z.
Hypothesis Nlanduse_int : (Z.of_nat (Nlanduse spA) < 2 ^ 31)%Z.
Hypothesis Nnode_int : (Z.of_nat (Nnode spA) < 2 ^ 31)%Z.
Hypothesis Nlink_int : (Z.of_nat (Nlink spA) < 2 ^ 31)%Z.
Hypothesis Npollut_int : (Z.of_nat (Npollut spA) < 2 ^ 31)%Z.
Hypothesis FlowUnits_int : (- 2 ^ 31 <= FlowUnits spA < 2 ^ 31)%Z.

(** the reading project has the shape of the saving one *)
Hypothesis same_Nsubcatch : Nsubcatch spA = Nsubcatch spB.
Hypothesis same_Nlanduse : Nlanduse spA = Nlanduse spB.
Hypothesis same_Nnode : Nnode spA = Nnode spB.
Hypothesis same_Nlink : Nlink spA = Nlink spB.
Hypothesis same_Npollut : Npollut spA = Npollut spB.
Hypothesis same_FlowUnits : FlowUnits spA = FlowUnits spB.
Hypothesis same_groundwater :
  forall i, Subcatch_groundwater spA i = Subcatch_groundwater spB i.
Hypothesis same_snowpack :
  forall i, Subcatch_snowpack spA i = Subcatch_snowpack spB i.
Hypothesis same_Node_type : forall i, Node_type spA i = Node_type spB i.
Hypothesis same_Node_subIndex :
  forall i, Node_subIndex spA i = Node_subIndex spB i.

(** X20. A hot start file without a NaN is read back.  A project saves
    a file: [openHotstartFile2] writes the header and [hotstart_close]
    the two sections.  Floats take 4 bytes and doubles 8; no state
    variable of the saving project is a NaN, as a double or once it is
    cast to a float, and the arrays that [infil_getState],
    [gwater_getState] and [snow_getState] fill hold doubles that are no
    NaN.  Then a project of the same shape with no error pending that
    uses this file gets TRUE from [openHotstartFile1], with no error and
    the file taken as version 4; the state variables of its
    subcatchments hold the saved values, those of its nodes and links the
    saved values cast to a float and back, everything else is as it was,
    and the saved infiltration, groundwater and snow states and the link
    settings have been applied, subcatchments first.  (A NaN among the
    saved values stops the reading instead.) *)
Theorem hotstart_close_openHotstartFile1 data :
  hotstart_close float_of_double infil_getState gwater_getState snow_getState
    (openHotstartFile2 SAVE_FILE true spA).2 spA = Some data ->
  Fhotstart1_mode spB = USE_FILE ->
  Fhotstart1_disk spB = Some data ->
  ErrorCode spB = ERR_NONE ->
  (forall fld, length (memory spB fld) = 8%nat) ->
  let r := openHotstartFile1 spB in
  r.1 = true
  /\ ErrorCode r.2 = ERR_NONE
  /\ FileVersion r.2 = 4%Z
  /\ (forall fld, runoff_field spB fld -> memory r.2 fld = memory spA fld)
  /\ (forall fld, routing_field spB fld ->
        memory r.2 fld = restored float_of_double spA fld)
  /\ (forall fld, ~ runoff_field spB fld -> ~ routing_field spB fld ->
        memory r.2 fld = memory spB fld)
  /\ calls r.2
     = calls spB
       ++ flat_map (restored_calls infil_getState gwater_getState
                      snow_getState spA)
            (seq 0 (Nsubcatch spB))
       ++ flat_map (fun i => [link_setTargetSetting i; link_setSetting i])
            (seq 0 (Nlink spB)).
Proof.
  intros Hclose Hmode Hdisk Herr HB.
  destruct (openHotstartFile2 SAVE_FILE true spA).2 as [hdr|] eqn:Hhdr;
    [|discriminate].
  cbn [hotstart_close] in Hclose. apply (inj Some) in Hclose.
  set (runoff := saveRunoff infil_getState gwater_getState snow_getState
                   spA hdr) in *.
  assert (Hrun : runoff
                 = hdr ++ saveRunoff infil_getState gwater_getState
                            snow_getState spA [])
    by now apply saveRunoff_from.
  assert (Hdata : data = hdr ++ (saveRunoff infil_getState gwater_getState
                                   snow_getState spA []
                                 ++ saveRouting float_of_double spA [])).
  { rewrite <- Hclose, saveRouting_from, Hrun. now rewrite <- app_assoc. }
  rewrite Hdata in Hdisk.
  pose proof (openHotstartFile1_body spA spB hdr _ Hhdr Nsubcatch_int
                Nlanduse_int Nnode_int Nlink_int Npollut_int FlowUnits_int
                Hmode Hdisk same_Nsubcatch same_Nlanduse same_Nnode
                same_Nlink same_Npollut same_FlowUnits) as Hopen.
  cbn zeta in Hopen. rewrite <- Hdata in Hopen.
  set (sp1 := with_file _ (with_FileVersion 4 spB)) in Hopen.
  destruct (readRunoff_restores infil_getState gwater_getState snow_getState
              spA sp1 infil_length gwater_length snow_length infil_double
              gwater_double snow_double saved_double local_double
              same_Nsubcatch same_Nlanduse same_Npollut same_groundwater
              same_snowpack hdr (saveRouting float_of_double spA []) HB)
    as (sp2 & E2 & F2 & R2 & G2 & C2 & M2 & N2);
    [cbn; rewrite <- Hclose, saveRouting_from; reflexivity
    | reflexivity | reflexivity |].
  fold runoff in F2.
  assert (G2' := G2). unfold frame in G2'. cbn in G2'.
  injection G2' as V2 _ _ _ En El Ep _ _ Et Ei _ _.
  destruct (readRouting_restores float_of_double spA sp2 float_size
              local_float saved_float V2 runoff [])
    as (sp3 & E3 & F3 & R3 & G3 & C3 & M3 & N3);
    [ congruence | congruence | congruence
    | intros i; rewrite Et; apply same_Node_type
    | intros i; rewrite Ei; apply same_Node_subIndex
    | rewrite F2; cbn; now rewrite app_nil_r
    | rewrite F2; reflexivity
    | ].
  cbn zeta. rewrite Hopen, E2. cbn [snd]. rewrite E3. cbn [fst snd].
  assert (Hrf : forall fld, routing_field sp2 fld <-> routing_field spB fld).
  { intros fld. destruct fld; cbn [routing_field];
      rewrite ?En, ?El, ?Ep; try tauto.
    split; intros (i & Hi & Hty & Hsi); exists i;
      rewrite Et, Ei in *; auto. }
  rewrite R3, R2. cbn [ErrorCode sp1 with_file with_FileVersion].
  rewrite Herr. cbn [bool_decide decide_rel].
  repeat split.
  - injection G3 as -> _. exact V2.
  - intros fld Hf. rewrite N3, M2; [reflexivity | exact Hf |].
    rewrite Hrf. now apply runoff_field_not_routing.
  - intros fld Hf. apply M3, Hrf, Hf.
  - intros fld Hf1 Hf2. rewrite N3, N2; [reflexivity | exact Hf1 |].
    now rewrite Hrf.
  - rewrite C3, C2, El. cbn [calls sp1 with_file with_FileVersion Nlink].
    now rewrite <- app_assoc.
Qed.

End WholeFile.

(** the file that [catchment] saves, read by [catchment] *)
Lemma hotstart_close_openHotstartFile1_witness :
  (@openHotstartFile1 simple (catchment catchment_file)).1 = true.
Proof.
  refine (proj1 (@hotstart_close_openHotstartFile1 simple narrow
                   no_state no_state no_snow
                   (catchment []) (catchment catchment_file)
                   _ eq_refl eq_refl (fun _ => eq_refl) _
                   (fun _ _ => eq_refl) (fun _ _ => eq_refl)
                   (fun _ _ _ => eq_refl)
                   (fun _ _ Hx => Hx) (fun _ _ Hx => Hx) (fun _ _ _ Hx => Hx)
                   _ _ _ _ _ _
                   eq_refl eq_refl eq_refl eq_refl eq_refl eq_refl
                   (fun _ => eq_refl) (fun _ => eq_refl)
                   (fun _ => eq_refl) (fun _ => eq_refl)
                   catchment_file eq_refl eq_refl eq_refl eq_refl
                   (fun _ => eq_refl))).
  - intros v. unfold narrow, float_zero.
    rewrite length_take, length_app. cbn [length]. lia.
  - intros fld. split; reflexivity.
  - cbn; lia.
  - cbn; lia.
  - cbn; lia.
  - cbn; lia.
  - cbn; lia.
  - cbn; lia.
Defined.

End HotstartFacts.

(** * Properties of runoff.c: the runoff interface file *)

Module RunoffFileFacts.

Import Hotstart (bytes, TFile, Build_TFile, contents, fpos, eof, fread_chars,
                 fread_int, bytes_of_int, strcmp_eq).
Import RunoffFile.

(** writing at the end of the file appends *)
Lemma fwrite_end data f :
  fpos f = length (contents f) ->
  fwrite data f
  = {| contents := contents f ++ data;
       fpos := length (contents f ++ data); eof := eof f |}.
Proof.
  intros Hp. unfold fwrite. rewrite Hp, Nat.sub_diag, take_ge by lia.
  rewrite drop_ge by lia. cbn [replicate app].
  now rewrite app_nil_r, length_app.
Qed.

(** writing inside the file replaces as many bytes as are written *)
Lemma fwrite_over data f pre old rest :
  contents f = pre ++ old ++ rest ->
  fpos f = length pre ->
  length old = length data ->
  contents (fwrite data f) = pre ++ data ++ rest.
Proof.
  intros Hc Hp Hl. unfold fwrite. cbn [contents]. rewrite Hc, Hp.
  rewrite take_app_length.
  replace (length pre - _) with 0 by (rewrite !length_app; lia).
  rewrite drop_app_add', <- Hl, drop_app_length by reflexivity.
  reflexivity.
Qed.

Lemma runoff_initFile_save sp :
  Frunoff_mode sp = SAVE_FILE ->
  Frunoff_file sp = Some {| contents := []; fpos := 0; eof := false |} ->
  let sp' := runoff_initFile sp in
  Frunoff_file sp'
  = Some {| contents :=
              take 12 fileStamp ++ bytes_of_int (Z.of_nat (Nsubcatch sp))
              ++ bytes_of_int (Z.of_nat (Npollut sp))
              ++ bytes_of_int (FlowUnits sp) ++ bytes_of_int 0;
            fpos := 28; eof := false |}
  /\ MaxStepsPos sp' = 24%Z /\ Frunoff_mode sp' = SAVE_FILE.
Proof.
  destruct sp as [e ns np fu m f ms mp st]. cbn [Frunoff_mode Frunoff_file].
  intros -> ->. unfold runoff_initFile.
  cbn [with_MaxSteps Frunoff_file Frunoff_mode].
  rewrite bool_decide_eq_true_2 by reflexivity.
  cbn [with_file with_MaxStepsPos Frunoff_file Frunoff_mode MaxStepsPos
       MaxSteps Nsubcatch Npollut FlowUnits].
  rewrite bool_decide_eq_false_2 by (intros ?; discriminate).
  cbn [with_file with_MaxStepsPos Frunoff_file Frunoff_mode MaxStepsPos
       MaxSteps Nsubcatch Npollut FlowUnits].
  repeat split.
Qed.

Lemma fread_stamp f rest :
  contents f = take 12 fileStamp ++ rest ->
  fpos f = 0 ->
  fread_chars 12 fileStamp f
  = (fileStamp, {| contents := contents f; fpos := 12; eof := eof f |}).
Proof.
  intros Hc Hp. unfold fread_chars.
  rewrite (HotstartFacts.fread_at _ f [] (take 12 fileStamp) rest Hc Hp eq_refl).
  now rewrite Hp.
Qed.

(** X24. An interface file that a run has saved and closed is read back
    by [runoff_initFile]: whatever the run has appended to the header,
    [runoff_close] puts its count of steps [n] into the header, and a
    project that uses the file gets [MaxSteps = n] with the stream at
    byte 28. The file is accepted, the error code left as it was, when
    both projects have the same numbers of subcatchments and pollutants
    and the same flow units and [n] is positive; otherwise (so for a run
    of no step) [ERR_RUNOFF_FILE_FORMAT] is reported. *)
Theorem runoff_close_runoff_initFile spA body n :
  Frunoff_mode spA = SAVE_FILE ->
  Frunoff_file spA = Some {| contents := []; fpos := 0; eof := false |} ->
  (Z.of_nat (Nsubcatch spA) < 2 ^ 31)%Z ->
  (Z.of_nat (Npollut spA) < 2 ^ 31)%Z ->
  (- 2 ^ 31 <= FlowUnits spA < 2 ^ 31)%Z ->
  (- 2 ^ 31 <= n < 2 ^ 31)%Z ->
  exists data,
    runoff_close (after_steps body n (runoff_initFile spA)) = Some data
    /\ length data = 28 + length body
    /\ forall spB,
        Frunoff_mode spB = USE_FILE ->
        Frunoff_file spB
        = Some {| contents := data; fpos := 0; eof := false |} ->
        let r := runoff_initFile spB in
        MaxSteps r = n
        /\ Frunoff_file r
           = Some {| contents := data; fpos := 28; eof := false |}
        /\ (Nsubcatch spB = Nsubcatch spA -> Npollut spB = Npollut spA ->
            FlowUnits spB = FlowUnits spA -> (0 < n)%Z ->
            ErrorCode r = ErrorCode spB)
        /\ (Nsubcatch spB <> Nsubcatch spA \/ Npollut spB <> Npollut spA
            \/ FlowUnits spB <> FlowUnits spA \/ (n <= 0)%Z ->
            ErrorCode r = ERR_RUNOFF_FILE_FORMAT).
Proof.
  intros Hm Hf Hs Hp Hu Hn.
  destruct (runoff_initFile_save spA Hm Hf) as (Hf1 & Hpos & Hm1).
  set (head := take 12 fileStamp ++ bytes_of_int (Z.of_nat (Nsubcatch spA))
               ++ bytes_of_int (Z.of_nat (Npollut spA))
               ++ bytes_of_int (FlowUnits spA)).
  exists (head ++ bytes_of_int n ++ body).
  split; [|split].
  - unfold runoff_close, after_steps.
    cbn [Frunoff_file Frunoff_mode MaxStepsPos Nsteps].
    rewrite Hf1, Hm1, Hpos, bool_decide_eq_true_2 by reflexivity.
    reflexivity.
  - unfold head. now rewrite !length_app.
  - intros spB HmB HfB. cbv zeta.
    destruct spB as [e ns np fu m f ms mp st].
    cbn [Frunoff_mode Frunoff_file Nsubcatch Npollut FlowUnits ErrorCode]
      in *.
    subst m f. unfold runoff_initFile.
    cbn [with_MaxSteps Frunoff_file Frunoff_mode].
    rewrite bool_decide_eq_false_2 by (intros ?; discriminate).
    cbn [with_MaxSteps Frunoff_file Frunoff_mode].
    rewrite bool_decide_eq_true_2 by reflexivity.
    erewrite fread_stamp;
      [|unfold head; cbn [contents]; rewrite <- !app_assoc; reflexivity
       |reflexivity].
    change (negb (strcmp_eq fileStamp fileStamp)) with false. cbv iota.
    cbn [contents eof with_file MaxSteps].
    set (c := head ++ bytes_of_int n ++ body).
    rewrite (HotstartFacts.fread_int_at (-1) _ (take 12 fileStamp)
               (Z.of_nat (Nsubcatch spA))
               (bytes_of_int (Z.of_nat (Npollut spA))
                ++ bytes_of_int (FlowUnits spA) ++ bytes_of_int n ++ body))
      by (try reflexivity; try lia; unfold c, head; cbn [contents];
          now rewrite <- !app_assoc).
    cbn [contents fpos eof Nat.add].
    rewrite (HotstartFacts.fread_int_at (-1) _
               (take 12 fileStamp ++ bytes_of_int (Z.of_nat (Nsubcatch spA)))
               (Z.of_nat (Npollut spA))
               (bytes_of_int (FlowUnits spA) ++ bytes_of_int n ++ body))
      by (try reflexivity; try lia; unfold c, head; cbn [contents];
          now rewrite <- !app_assoc).
    cbn [contents fpos eof Nat.add].
    rewrite (HotstartFacts.fread_int_at (-1) _
               (take 12 fileStamp ++ bytes_of_int (Z.of_nat (Nsubcatch spA))
                ++ bytes_of_int (Z.of_nat (Npollut spA)))
               (FlowUnits spA) (bytes_of_int n ++ body))
      by (try reflexivity; try lia; unfold c, head; cbn [contents];
          now rewrite <- !app_assoc).
    cbn [contents fpos eof Nat.add].
    rewrite (HotstartFacts.fread_int_at 0 _ head n body)
      by (try reflexivity; try lia).
    cbn [contents fpos eof Nat.add with_file with_MaxSteps MaxSteps
         Nsubcatch Npollut FlowUnits].
    destruct (_ || _) eqn:E;
      cbn [report_writeErrorMsg MaxSteps Frunoff_file ErrorCode];
      (split; [reflexivity|]); (split; [reflexivity|]).
    + split; [|reflexivity]. intros -> -> -> Hpos'.
      rewrite !Z.eqb_refl in E. cbn [negb orb] in E.
      apply Z.leb_le in E. lia.
    + split; [reflexivity|].
      apply orb_false_iff in E as (E & E4).
      apply orb_false_iff in E as (E & E3).
      apply orb_false_iff in E as (E1 & E2).
      apply negb_false_iff, Z.eqb_eq in E1, E2, E3. apply Z.leb_gt in E4.
      intros [H | [H | [H | H]]]; [lia..].
Qed.

(** the file of a run of 3 steps, used by a project of the same layout *)
Lemma runoff_close_runoff_initFile_witness :
  exists data,
    runoff_close
      (after_steps (bytes_of_int 7) 3
         (runoff_initFile (interface SAVE_FILE [])))
    = Some data
    /\ MaxSteps (runoff_initFile (interface USE_FILE data)) = 3%Z
    /\ ErrorCode (runoff_initFile (interface USE_FILE data)) = ERR_NONE.
Proof.
  destruct (runoff_close_runoff_initFile (interface SAVE_FILE [])
              (bytes_of_int 7) 3)
    as (data & H1 & _ & K); [reflexivity | reflexivity | cbn; lia..|].
  exists data. split; [exact H1|].
  destruct (K (interface USE_FILE data) eq_refl eq_refl)
    as (K1 & _ & K2 & _).
  split; [exact K1|]. apply K2; [reflexivity..|lia].
Defined.

End RunoffFileFacts.
